(** * The DETR / UniT multi-task transformer of [mmf.modules.detr.models.transformer]

    A shallow embedding of [transformer.py]: the tensor operations the module
    calls, the encoder and decoder stacks, the single-task [Transformer] and
    the multi-task [MTTransformer] with its decoder registry and task-embedding
    prefixes, followed by the properties of the forward pass.

    Numeric kernels of the tensor library (attention, linear maps, layer
    normalisation, dropout, activations) are an interface ([TorchKernels]);
    the orchestration code of the module is translated line by line. *)

From Stdlib Require Import List String ZArith QArith Lia Bool Arith.
From stdpp Require Import base list gmap strings.

Local Open Scope string_scope.
Local Open Scope list_scope.
Local Open Scope nat_scope.

(* ===================================================================== *)
(** ** Python exceptions and the result monad *)
(* ===================================================================== *)

Module Py.

(** The exceptions the module can raise.  [TorchError op] stands for an
    exception raised inside the tensor library by operation [op] (its class
    depends on the library version). *)
Inductive exn : Type :=
  | KeyError (key : string)
  | NotImplementedError
  | RuntimeError (msg : string)
  | TypeError
  | AttributeError
  | ValueError
  | IndexError
  | UnboundLocalError
  | AssertionError
  | TorchError (op : string).

Inductive result (A : Type) : Type :=
  | Ok (a : A)
  | Err (e : exn).
Arguments Ok {A} a.
Arguments Err {A} e.

Definition is_Ok {A} (r : result A) : bool :=
  match r with Ok _ => true | Err _ => false end.

(** Dereferencing a value that may be [None]: [x.attr] on [None] raises
    [AttributeError], [x[...]] on [None] raises [TypeError]. *)
Definition attr_of {A} (x : option A) : result A :=
  match x with Some a => Ok a | None => Err AttributeError end.

Definition subscriptable {A} (x : option A) : result A :=
  match x with Some a => Ok a | None => Err TypeError end.

End Py.
Export Py.

Global Instance result_ret : MRet result := fun A a => Ok a.
Global Instance result_bind : MBind result := fun A B f r =>
  match r with
  | Ok a => f a
  | Err e => Err e
  end.

(* ===================================================================== *)
(** ** Tensors and the tensor operations used by the module *)
(* ===================================================================== *)

Module Torch.

(** A tensor is its shape and its entries, read at a multi-index. *)
Record Tensor (A : Type) : Type := mkTensor {
  shape : list nat;
  data : list nat -> A
}.
Arguments mkTensor {A} shape data.
Arguments shape {A} t.
Arguments data {A} t idx.

Definition dim {A} (t : Tensor A) : nat := length (shape t).

(** The number of entries of a tensor of shape [s]. *)
Fixpoint numel_of (s : list nat) : nat :=
  match s with
  | [] => 1
  | n :: s' =>
      match s' with
      | [] => n
      | _ => n * numel_of s'
      end
  end.

(** Row-major decoding of a linear offset into a multi-index, and back. *)
Fixpoint unravel (dims : list nat) (k : nat) : list nat :=
  match dims with
  | [] => []
  | _ :: ds =>
      match ds with
      | [] => [k]
      | _ => k / numel_of ds :: unravel ds (k mod numel_of ds)
      end
  end.

Fixpoint ravel (dims idx : list nat) : nat :=
  match dims, idx with
  | _ :: ds, i :: idx' =>
      match ds with
      | [] => i
      | _ => i * numel_of ds + ravel ds idx'
      end
  | _, _ => 0
  end.

(** [t.size(d)] *)
Definition size {A} (t : Tensor A) (d : nat) : result nat :=
  match shape t !! d with
  | Some n => Ok n
  | None => Err (TorchError "size")
  end.

(** [t.flatten(start_dim)] : the dimensions from [start_dim] on are merged. *)
Definition flatten {A} (start_dim : nat) (t : Tensor A) : result (Tensor A) :=
  if start_dim <? dim t then
    Ok {| shape := take start_dim (shape t) ++ [numel_of (drop start_dim (shape t))];
          data := fun idx =>
            data t (take start_dim idx ++
                    unravel (drop start_dim (shape t)) (nth start_dim idx 0)) |}
  else Err (TorchError "flatten").

Fixpoint index_of (j : nat) (l : list nat) : nat :=
  match l with
  | [] => 0
  | x :: l' => if x =? j then 0 else S (index_of j l')
  end.

Definition is_permutation (dims : list nat) (r : nat) : bool :=
  (length dims =? r) && forallb (fun i => existsb (Nat.eqb i) dims) (seq 0 r).

(** [t.permute(dims...)] : dimension [i] of the result is dimension
    [dims[i]] of [t]. *)
Definition permute {A} (dims : list nat) (t : Tensor A) : result (Tensor A) :=
  if is_permutation dims (dim t) then
    Ok {| shape := map (fun d => nth d (shape t) 0) dims;
          data := fun idx =>
            data t (map (fun j => nth (index_of j dims) idx 0) (seq 0 (dim t))) |}
  else Err (TorchError "permute").

Definition swap {B} (d0 d1 : nat) (dflt : B) (l : list B) : list B :=
  <[d0 := nth d1 l dflt]> (<[d1 := nth d0 l dflt]> l).

(** [t.transpose(d0, d1)] *)
Definition transpose {A} (d0 d1 : nat) (t : Tensor A) : result (Tensor A) :=
  if (d0 <? dim t) && (d1 <? dim t) then
    Ok {| shape := swap d0 d1 0 (shape t);
          data := fun idx => data t (swap d0 d1 0 idx) |}
  else Err (TorchError "transpose").

(** [t.unsqueeze(d)] *)
Definition unsqueeze {A} (d : nat) (t : Tensor A) : result (Tensor A) :=
  if d <=? dim t then
    Ok {| shape := take d (shape t) ++ 1 :: drop d (shape t);
          data := fun idx => data t (take d idx ++ drop (S d) idx) |}
  else Err (TorchError "unsqueeze").

(** [t.repeat(sizes...)] : the shape of [t] is padded with leading ones up to
    the number of sizes, and every dimension is tiled. *)
Definition repeat_ {A} (sizes : list nat) (t : Tensor A) : result (Tensor A) :=
  if dim t <=? length sizes then
    let lead := length sizes - dim t in
    let padded := replicate lead 1 ++ shape t in
    Ok {| shape := zip_with Nat.mul padded sizes;
          data := fun idx => data t (drop lead (zip_with Nat.modulo idx padded)) |}
  else Err (TorchError "repeat").

(** Python's wrap-around of a negative dimension or index. *)
Definition wrap (n : nat) (i : Z) : option nat :=
  if ((0 <=? i) && (i <? Z.of_nat n))%Z then Some (Z.to_nat i)
  else if ((- Z.of_nat n <=? i) && (i <? 0))%Z then Some (Z.to_nat (Z.of_nat n + i))
  else None.

Definition same_except (d : nat) (s1 s2 : list nat) : bool :=
  (length s1 =? length s2) &&
  forallb (fun i => (i =? d) || (nth i s1 0 =? nth i s2 0)) (seq 0 (length s1)).

(** Concatenation of two tensors along dimension [d]. *)
Definition cat2 {A} (d : nat) (t1 t2 : Tensor A) : result (Tensor A) :=
  if (d <? dim t1) && same_except d (shape t1) (shape t2) then
    let n1 := nth d (shape t1) 0 in
    Ok {| shape := <[d := n1 + nth d (shape t2) 0]> (shape t1);
          data := fun idx =>
            let i := nth d idx 0 in
            if i <? n1 then data t1 idx else data t2 (<[d := i - n1]> idx) |}
  else Err (TorchError "cat").

Fixpoint cat_from {A} (d : nat) (t : Tensor A) (ts : list (Tensor A)) : result (Tensor A) :=
  match ts with
  | [] => Ok t
  | t' :: ts' => t2 ← cat2 d t t'; cat_from d t2 ts'
  end.

(** [torch.cat(tensors, dim)] : an empty list is refused. *)
Definition cat {A} (tensors : list (Tensor A)) (d : Z) : result (Tensor A) :=
  match tensors with
  | [] => Err (TorchError "cat")
  | t :: ts =>
      match wrap (dim t) d with
      | Some d' => if d' <? dim t then cat_from d' t ts else Err (TorchError "cat")
      | None => Err (TorchError "cat")
      end
  end.

(** A Python list handed to [torch.cat] may hold values that are no tensors
    ([None], a [bool]); they are [None] here and make the call raise
    [TypeError] before anything is concatenated. *)
Fixpoint tensors_of {A} (l : list (option (Tensor A))) : result (list (Tensor A)) :=
  match l with
  | [] => Ok []
  | None :: _ => Err TypeError
  | Some t :: l' => ts ← tensors_of l'; Ok (t :: ts)
  end.

Definition cat_py {A} (l : list (option (Tensor A))) (d : Z) : result (Tensor A) :=
  ts ← tensors_of l; cat ts d.

(** [t[..., k:, ...]] with the slice at position [d] and [:] before and after:
    indexing with more positions than [t] has dimensions raises. *)
Definition slice_from {A} (d k npos : nat) (t : Tensor A) : result (Tensor A) :=
  if npos <=? dim t then
    Ok {| shape := <[d := nth d (shape t) 0 - k]> (shape t);
          data := fun idx => data t (<[d := nth d idx 0 + k]> idx) |}
  else Err IndexError.

(** [t[..., :k, ...]] *)
Definition slice_to {A} (d k npos : nat) (t : Tensor A) : result (Tensor A) :=
  if npos <=? dim t then
    Ok {| shape := <[d := Nat.min k (nth d (shape t) 0)]> (shape t);
          data := data t |}
  else Err IndexError.

(** Does a Python integer fit the signed 64-bit index of the library? *)
Definition fits_int64 (i : Z) : bool :=
  ((- 2 ^ 63 <=? i) && (i <? 2 ^ 63))%Z.

(** [t[i]] for an integer [i], and [t[None]], which adds a leading axis.  An
    index outside the axis raises [IndexError], and [ValueError] when it
    does not fit 64 bits. *)
Definition select {A} (t : Tensor A) (i : option Z) : result (Tensor A) :=
  match i with
  | None => unsqueeze 0 t
  | Some i =>
      match shape t with
      | [] => Err IndexError
      | n :: s =>
          match wrap n i with
          | Some i' => Ok {| shape := s; data := fun idx => data t (i' :: idx) |}
          | None => Err (if fits_int64 i then IndexError else ValueError)
          end
      end
  end.

Definition all_shape {A} (s : list nat) (ts : list (Tensor A)) : bool :=
  forallb (fun t => bool_decide (shape t = s)) ts.

(** [torch.stack(tensors)] : a new leading axis indexes the list. *)
Definition stack {A} (tensors : list (Tensor A)) : result (Tensor A) :=
  match tensors with
  | [] => Err (TorchError "stack")
  | t :: ts =>
      if all_shape (shape t) ts then
        Ok {| shape := length tensors :: shape t;
              data := fun idx =>
                match idx with
                | [] => data t []
                | i :: idx' => data (nth i tensors t) idx'
                end |}
      else Err (TorchError "stack")
  end.

(** [t.view(new_shape...)] : the entries are re-read in row-major order; the
    number of elements must agree. *)
Definition view {A} (new_shape : list nat) (t : Tensor A) : result (Tensor A) :=
  if numel_of new_shape =? numel_of (shape t) then
    Ok {| shape := new_shape;
          data := fun idx => data t (unravel (shape t) (ravel new_shape idx)) |}
  else Err (TorchError "view").

(** Broadcasting of two shapes, aligned at their last dimension. *)
Fixpoint broadcast_rev (s1 s2 : list nat) : option (list nat) :=
  match s1, s2 with
  | [], s | s, [] => Some s
  | a :: s1', b :: s2' =>
      s ← broadcast_rev s1' s2';
      if a =? b then Some (a :: s)
      else if a =? 1 then Some (b :: s)
      else if b =? 1 then Some (a :: s)
      else None
  end.

Definition broadcast (s1 s2 : list nat) : option (list nat) :=
  s ← broadcast_rev (reverse s1) (reverse s2); Some (reverse s).

(** The index of an operand of shape [s] under a broadcast result index. *)
Definition bidx (s idx : list nat) : list nat :=
  zip_with (fun n i => if n =? 1 then 0 else i) s (drop (length idx - length s) idx).

Definition map2 {A B C} (f : A -> B -> C) (t1 : Tensor A) (t2 : Tensor B) : result (Tensor C) :=
  match broadcast (shape t1) (shape t2) with
  | Some s =>
      Ok {| shape := s;
            data := fun idx => f (data t1 (bidx (shape t1) idx)) (data t2 (bidx (shape t2) idx)) |}
  | None => Err (TorchError "broadcast")
  end.

Definition tmap {A B} (f : A -> B) (t : Tensor A) : Tensor B :=
  {| shape := shape t; data := fun idx => f (data t idx) |}.

(** [t != v] for a number [v] *)
Definition ne {A} `{EqDecision A} (t : Tensor A) (v : A) : Tensor bool :=
  tmap (fun x => negb (bool_decide (x = v))) t.

End Torch.
Export Torch.

(* ===================================================================== *)
(** ** The neural-network modules of the tensor library *)
(* ===================================================================== *)

Module NN.

(** The parameters of a module are known by the random draw that produced
    them: [Drawn rng] at construction, [Xavier rng old] once
    [xavier_uniform_] has redrawn the matrices of [old] at generator state
    [rng] (vectors are kept). *)
Inductive params : Type :=
  | Drawn (rng : nat)
  | Xavier (rng : nat) (old : params).

Record Linear : Type := {
  in_features : nat;
  out_features : nat;
  lin_params : params
}.

Record MultiheadAttention : Type := {
  embed_dim : nat;
  num_heads : nat;
  attn_dropout : Q;
  mha_params : params
}.

Record LayerNorm : Type := { normalized_shape : nat }.

Record Dropout : Type := { p : Q }.

Record Embedding : Type := {
  num_embeddings : nat;
  embedding_dim : nat;
  emb_params : params
}.

(** [nn.Identity()] or [nn.Linear(...)], the two projections of the model. *)
Inductive Projection : Type :=
  | Identity
  | Lin (l : Linear).

(** The functions [_get_activation_fn] can return. *)
Inductive activation_fn : Type := F_relu | F_gelu | F_glu.

(** Construction draws parameters from the global random generator: a
    constructor is a function of the generator state that can fail. *)
Definition ctor (A : Type) : Type := nat -> result (A * nat).

End NN.
Export NN.

Global Instance ctor_ret : MRet ctor := fun A a rng => Ok (a, rng).
Global Instance ctor_bind : MBind ctor := fun A B f c rng =>
  match c rng with
  | Ok (a, rng') => f a rng'
  | Err e => Err e
  end.

Definition draw : ctor params := fun rng => Ok (Drawn rng, S rng).
Definition redraw (old : params) : ctor params := fun rng => Ok (Xavier rng old, S rng).
Definition lift {A} (r : result A) : ctor A := fun rng =>
  match r with Ok a => Ok (a, rng) | Err e => Err e end.

Definition nn_Linear (i o : nat) : ctor Linear :=
  w ← draw; mret {| in_features := i; out_features := o; lin_params := w |}.

(** [nn.MultiheadAttention(d, nhead, dropout=dropout)] computes
    [head_dim = d // nhead], which fails for no head at all (with
    [ZeroDivisionError] or [ValueError], by the library version), and asserts
    [head_dim * nhead == d]. *)
Definition nn_MultiheadAttention (d nhead : nat) (dropout : Q) : ctor MultiheadAttention :=
  if nhead =? 0 then lift (Err (TorchError "MultiheadAttention"))
  else if negb (d / nhead * nhead =? d) then lift (Err AssertionError)
  else
    w ← draw;
    mret {| embed_dim := d; num_heads := nhead; attn_dropout := dropout; mha_params := w |}.

Definition nn_LayerNorm (d : nat) : LayerNorm := {| normalized_shape := d |}.

(** [nn.Dropout(p)] refuses a probability outside [0, 1]. *)
Definition nn_Dropout (dropout : Q) : result Dropout :=
  if Qle_bool 0 dropout && Qle_bool dropout 1 then Ok {| p := dropout |}
  else Err ValueError.

Definition nn_Embedding (n d : nat) : ctor Embedding :=
  w ← draw; mret {| num_embeddings := n; embedding_dim := d; emb_params := w |}.

(** [nn.init.xavier_uniform_] on the matrices of a module. *)
Definition xavier_Linear (l : Linear) : ctor Linear :=
  w ← redraw (lin_params l);
  mret {| in_features := in_features l; out_features := out_features l; lin_params := w |}.

Definition xavier_MultiheadAttention (m : MultiheadAttention) : ctor MultiheadAttention :=
  w ← redraw (mha_params m);
  mret {| embed_dim := embed_dim m; num_heads := num_heads m;
          attn_dropout := attn_dropout m; mha_params := w |}.

Definition xavier_Projection (pr : Projection) : ctor Projection :=
  match pr with
  | Identity => mret Identity
  | Lin l => l' ← xavier_Linear l; mret (Lin l')
  end.

(** The numeric kernels, taken as an interface: floating-point scalars, the
    entries of a drawn parameter, and the forward functions of the library's
    modules.  Dropout reads a training flag and a random source that are
    outside this module; they are held fixed, so it is a function here. *)
Class TorchKernels : Type := {
  scalar : Type;
  zero : scalar;
  fadd : scalar -> scalar -> scalar;
  fmul : scalar -> scalar -> scalar;
  float_of_Q : Q -> scalar;
  param_entry : params -> list nat -> scalar;
  multi_head_attention_forward :
    MultiheadAttention -> Tensor scalar -> Tensor scalar -> Tensor scalar ->
    option (Tensor scalar) -> option (Tensor bool) -> result (Tensor scalar);
  linear : Linear -> Tensor scalar -> result (Tensor scalar);
  layer_norm : LayerNorm -> Tensor scalar -> result (Tensor scalar);
  dropout_ : Dropout -> Tensor scalar -> result (Tensor scalar);
  relu : Tensor scalar -> result (Tensor scalar);
  gelu : Tensor scalar -> result (Tensor scalar);
  glu : Tensor scalar -> result (Tensor scalar)
}.

Section Modules.
Context `{K : TorchKernels}.

Local Abbreviation T := (Tensor scalar).

Definition zeros_like (t : T) : T :=
  {| shape := shape t; data := fun _ => zero |}.

Definition zeros_like_bool (t : Tensor bool) : Tensor bool :=
  {| shape := shape t; data := fun _ => false |}.

(** [a + b] and [c * t] for a Python float [c]. *)
Definition add (a b : T) : result T := map2 fadd a b.
Definition scale (c : Q) (t : T) : T := tmap (fmul (float_of_Q c)) t.

Definition weight (e : Embedding) : T :=
  {| shape := [num_embeddings e; embedding_dim e];
     data := param_entry (emb_params e) |}.

Definition call_activation (f : activation_fn) (x : T) : result T :=
  match f with
  | F_relu => relu x
  | F_gelu => gelu x
  | F_glu => glu x
  end.

(** Calling an attribute that holds a module or [None]. *)
Definition call_norm (norm : option LayerNorm) (x : T) : result T :=
  match norm with
  | Some n => layer_norm n x
  | None => Err TypeError
  end.

Definition call_Projection (pr : Projection) (x : T) : result T :=
  match pr with
  | Identity => Ok x
  | Lin l => linear l x
  end.

(** The same call on a local that may hold [None]: the identity returns it,
    a linear map refuses it. *)
Definition call_Projection_py (pr : Projection) (x : option T) : result (option T) :=
  match x with
  | Some x' => y ← call_Projection pr x'; Ok (Some y)
  | None =>
      match pr with
      | Identity => Ok None
      | Lin _ => Err TypeError
      end
  end.

(** [with_pos_embed], the same method in both layer classes. *)
Definition with_pos_embed (tensor : T) (pos : option T) : result T :=
  match pos with
  | None => Ok tensor
  | Some pos => add tensor pos
  end.

End Modules.

Definition _get_activation_fn (activation : string) : result activation_fn :=
  if String.eqb activation "relu" then Ok F_relu
  else if String.eqb activation "gelu" then Ok F_gelu
  else if String.eqb activation "glu" then Ok F_glu
  else Err (RuntimeError
              (String.append "activation should be relu/gelu, not "
                             (String.append activation "."))).

(** [copy.deepcopy] yields an object of equal value. *)
Definition deepcopy {A} (module : A) : A := module.

Definition _get_clones {A} (module : A) (N : nat) : list A :=
  map (fun _ => deepcopy module) (seq 0 N).

(* ===================================================================== *)
(** ** Encoder and decoder layers *)
(* ===================================================================== *)

Module TransformerEncoderLayer.

Record t : Type := {
  self_attn : MultiheadAttention;
  linear1 : Linear;
  dropout : Dropout;
  linear2 : Linear;
  norm1 : LayerNorm;
  norm2 : LayerNorm;
  dropout1 : Dropout;
  dropout2 : Dropout;
  activation : activation_fn;
  normalize_before : bool
}.

Definition __init__ (d_model nhead dim_feedforward : nat) (dropout_p : Q)
    (activation_name : string) (normalize_before_ : bool) : ctor t :=
  self_attn_ ← nn_MultiheadAttention d_model nhead dropout_p;
  linear1_ ← nn_Linear d_model dim_feedforward;
  dropout_ ← lift (nn_Dropout dropout_p);
  linear2_ ← nn_Linear dim_feedforward d_model;
  dropout1_ ← lift (nn_Dropout dropout_p);
  dropout2_ ← lift (nn_Dropout dropout_p);
  activation_ ← lift (_get_activation_fn activation_name);
  mret {| self_attn := self_attn_;
          linear1 := linear1_;
          dropout := dropout_;
          linear2 := linear2_;
          norm1 := nn_LayerNorm d_model;
          norm2 := nn_LayerNorm d_model;
          dropout1 := dropout1_;
          dropout2 := dropout2_;
          activation := activation_;
          normalize_before := normalize_before_ |}.

Definition xavier (self : t) : ctor t :=
  a ← xavier_MultiheadAttention (self_attn self);
  l1 ← xavier_Linear (linear1 self);
  l2 ← xavier_Linear (linear2 self);
  mret {| self_attn := a; linear1 := l1; dropout := dropout self; linear2 := l2;
          norm1 := norm1 self; norm2 := norm2 self;
          dropout1 := dropout1 self; dropout2 := dropout2 self;
          activation := activation self; normalize_before := normalize_before self |}.

Section Forward.
Context `{K : TorchKernels}.
Local Abbreviation T := (Tensor scalar).

Definition forward_post (self : t) (src : T) (src_mask : option T)
    (src_key_padding_mask : option (Tensor bool)) (pos : option T) : result T :=
  q ← with_pos_embed src pos;
  let k := q in
  src2 ← multi_head_attention_forward (self_attn self) q k src src_mask src_key_padding_mask;
  d1 ← dropout_ (dropout1 self) src2;
  src ← add src d1;
  src ← layer_norm (norm1 self) src;
  x ← linear (linear1 self) src;
  x ← call_activation (activation self) x;
  x ← dropout_ (dropout self) x;
  src2 ← linear (linear2 self) x;
  d2 ← dropout_ (dropout2 self) src2;
  src ← add src d2;
  layer_norm (norm2 self) src.

Definition forward_pre (self : t) (src : T) (src_mask : option T)
    (src_key_padding_mask : option (Tensor bool)) (pos : option T) : result T :=
  src2 ← layer_norm (norm1 self) src;
  q ← with_pos_embed src2 pos;
  let k := q in
  src2 ← multi_head_attention_forward (self_attn self) q k src2 src_mask src_key_padding_mask;
  d1 ← dropout_ (dropout1 self) src2;
  src ← add src d1;
  src2 ← layer_norm (norm2 self) src;
  x ← linear (linear1 self) src2;
  x ← call_activation (activation self) x;
  x ← dropout_ (dropout self) x;
  src2 ← linear (linear2 self) x;
  d2 ← dropout_ (dropout2 self) src2;
  add src d2.

Definition forward (self : t) (src : T) (src_mask : option T)
    (src_key_padding_mask : option (Tensor bool)) (pos : option T) : result T :=
  if normalize_before self then forward_pre self src src_mask src_key_padding_mask pos
  else forward_post self src src_mask src_key_padding_mask pos.

End Forward.
End TransformerEncoderLayer.

Module TransformerDecoderLayer.

Record t : Type := {
  self_attn : MultiheadAttention;
  multihead_attn : MultiheadAttention;
  linear1 : Linear;
  dropout : Dropout;
  linear2 : Linear;
  norm1 : LayerNorm;
  norm2 : LayerNorm;
  norm3 : LayerNorm;
  dropout1 : Dropout;
  dropout2 : Dropout;
  dropout3 : Dropout;
  activation : activation_fn;
  normalize_before : bool
}.

Definition __init__ (d_model nhead dim_feedforward : nat) (dropout_p : Q)
    (activation_name : string) (normalize_before_ : bool) : ctor t :=
  self_attn_ ← nn_MultiheadAttention d_model nhead dropout_p;
  multihead_attn_ ← nn_MultiheadAttention d_model nhead dropout_p;
  linear1_ ← nn_Linear d_model dim_feedforward;
  dropout_ ← lift (nn_Dropout dropout_p);
  linear2_ ← nn_Linear dim_feedforward d_model;
  dropout1_ ← lift (nn_Dropout dropout_p);
  dropout2_ ← lift (nn_Dropout dropout_p);
  dropout3_ ← lift (nn_Dropout dropout_p);
  activation_ ← lift (_get_activation_fn activation_name);
  mret {| self_attn := self_attn_;
          multihead_attn := multihead_attn_;
          linear1 := linear1_;
          dropout := dropout_;
          linear2 := linear2_;
          norm1 := nn_LayerNorm d_model;
          norm2 := nn_LayerNorm d_model;
          norm3 := nn_LayerNorm d_model;
          dropout1 := dropout1_;
          dropout2 := dropout2_;
          dropout3 := dropout3_;
          activation := activation_;
          normalize_before := normalize_before_ |}.

Definition xavier (self : t) : ctor t :=
  a ← xavier_MultiheadAttention (self_attn self);
  m ← xavier_MultiheadAttention (multihead_attn self);
  l1 ← xavier_Linear (linear1 self);
  l2 ← xavier_Linear (linear2 self);
  mret {| self_attn := a; multihead_attn := m; linear1 := l1; dropout := dropout self;
          linear2 := l2; norm1 := norm1 self; norm2 := norm2 self; norm3 := norm3 self;
          dropout1 := dropout1 self; dropout2 := dropout2 self; dropout3 := dropout3 self;
          activation := activation self; normalize_before := normalize_before self |}.

Section Forward.
Context `{K : TorchKernels}.
Local Abbreviation T := (Tensor scalar).

Definition forward_post (self : t) (tgt memory : T) (tgt_mask memory_mask : option T)
    (tgt_key_padding_mask memory_key_padding_mask : option (Tensor bool))
    (pos query_pos : option T) : result T :=
  q ← with_pos_embed tgt query_pos;
  let k := q in
  tgt2 ← multi_head_attention_forward (self_attn self) q k tgt tgt_mask tgt_key_padding_mask;
  d1 ← dropout_ (dropout1 self) tgt2;
  tgt ← add tgt d1;
  tgt ← layer_norm (norm1 self) tgt;
  query ← with_pos_embed tgt query_pos;
  key ← with_pos_embed memory pos;
  tgt2 ← multi_head_attention_forward (multihead_attn self) query key memory
           memory_mask memory_key_padding_mask;
  d2 ← dropout_ (dropout2 self) tgt2;
  tgt ← add tgt d2;
  tgt ← layer_norm (norm2 self) tgt;
  x ← linear (linear1 self) tgt;
  x ← call_activation (activation self) x;
  x ← dropout_ (dropout self) x;
  tgt2 ← linear (linear2 self) x;
  d3 ← dropout_ (dropout3 self) tgt2;
  tgt ← add tgt d3;
  layer_norm (norm3 self) tgt.

Definition forward_pre (self : t) (tgt memory : T) (tgt_mask memory_mask : option T)
    (tgt_key_padding_mask memory_key_padding_mask : option (Tensor bool))
    (pos query_pos : option T) : result T :=
  tgt2 ← layer_norm (norm1 self) tgt;
  q ← with_pos_embed tgt2 query_pos;
  let k := q in
  tgt2 ← multi_head_attention_forward (self_attn self) q k tgt2 tgt_mask tgt_key_padding_mask;
  d1 ← dropout_ (dropout1 self) tgt2;
  tgt ← add tgt d1;
  tgt2 ← layer_norm (norm2 self) tgt;
  query ← with_pos_embed tgt2 query_pos;
  key ← with_pos_embed memory pos;
  tgt2 ← multi_head_attention_forward (multihead_attn self) query key memory
           memory_mask memory_key_padding_mask;
  d2 ← dropout_ (dropout2 self) tgt2;
  tgt ← add tgt d2;
  tgt2 ← layer_norm (norm3 self) tgt;
  x ← linear (linear1 self) tgt2;
  x ← call_activation (activation self) x;
  x ← dropout_ (dropout self) x;
  tgt2 ← linear (linear2 self) x;
  d3 ← dropout_ (dropout3 self) tgt2;
  add tgt d3.

Definition forward (self : t) (tgt memory : T) (tgt_mask memory_mask : option T)
    (tgt_key_padding_mask memory_key_padding_mask : option (Tensor bool))
    (pos query_pos : option T) : result T :=
  if normalize_before self then
    forward_pre self tgt memory tgt_mask memory_mask
      tgt_key_padding_mask memory_key_padding_mask pos query_pos
  else
    forward_post self tgt memory tgt_mask memory_mask
      tgt_key_padding_mask memory_key_padding_mask pos query_pos.

End Forward.
End TransformerDecoderLayer.

(* ===================================================================== *)
(** ** Encoder and decoder stacks *)
(* ===================================================================== *)

Module TransformerEncoder.

Record t : Type := {
  layers : list TransformerEncoderLayer.t;
  num_layers : nat;
  norm : option LayerNorm
}.

Definition __init__ (encoder_layer : TransformerEncoderLayer.t) (num_layers_ : nat)
    (norm_ : option LayerNorm) : t :=
  {| layers := _get_clones encoder_layer num_layers_;
     num_layers := num_layers_;
     norm := norm_ |}.

Definition xavier (self : t) : ctor t :=
  ls ← mapM TransformerEncoderLayer.xavier (layers self);
  mret {| layers := ls; num_layers := num_layers self; norm := norm self |}.

Section Forward.
Context `{K : TorchKernels}.
Local Abbreviation T := (Tensor scalar).

(** The loop [for layer in self.layers]. *)
Fixpoint run (ls : list TransformerEncoderLayer.t) (output : T) (mask : option T)
    (src_key_padding_mask : option (Tensor bool)) (pos : option T) : result T :=
  match ls with
  | [] => Ok output
  | layer :: ls' =>
      output ← TransformerEncoderLayer.forward layer output mask src_key_padding_mask pos;
      run ls' output mask src_key_padding_mask pos
  end.

Definition forward (self : t) (src : T) (mask : option T)
    (src_key_padding_mask : option (Tensor bool)) (pos : option T) : result T :=
  output ← run (layers self) src mask src_key_padding_mask pos;
  match norm self with
  | Some n => layer_norm n output
  | None => Ok output
  end.

End Forward.
End TransformerEncoder.

Module TransformerDecoder.

Record t : Type := {
  layers : list TransformerDecoderLayer.t;
  num_layers : nat;
  norm : option LayerNorm;
  return_intermediate : bool
}.

Definition __init__ (decoder_layer : TransformerDecoderLayer.t) (num_layers_ : nat)
    (norm_ : option LayerNorm) (return_intermediate_ : bool) : t :=
  {| layers := _get_clones decoder_layer num_layers_;
     num_layers := num_layers_;
     norm := norm_;
     return_intermediate := return_intermediate_ |}.

Definition xavier (self : t) : ctor t :=
  ls ← mapM TransformerDecoderLayer.xavier (layers self);
  mret {| layers := ls; num_layers := num_layers self; norm := norm self;
          return_intermediate := return_intermediate self |}.

(** [intermediate.pop()] : the list without its last element. *)
Definition pop {A} (l : list A) : result (list A) :=
  match l with
  | [] => Err IndexError
  | _ => Ok (take (length l - 1) l)
  end.

Section Forward.
Context `{K : TorchKernels}.
Local Abbreviation T := (Tensor scalar).

(** The loop [for layer in self.layers], on the pair of locals
    [(output, intermediate)]. *)
Fixpoint run (self : t) (ls : list TransformerDecoderLayer.t) (output : T)
    (intermediate : list T) (memory : T) (tgt_mask memory_mask : option T)
    (tgt_key_padding_mask memory_key_padding_mask : option (Tensor bool))
    (pos query_pos : option T) : result (T * list T) :=
  match ls with
  | [] => Ok (output, intermediate)
  | layer :: ls' =>
      output ← TransformerDecoderLayer.forward layer output memory tgt_mask memory_mask
                 tgt_key_padding_mask memory_key_padding_mask pos query_pos;
      intermediate ←
        (if return_intermediate self then
           n ← call_norm (norm self) output; Ok (intermediate ++ [n])
         else Ok intermediate);
      run self ls' output intermediate memory tgt_mask memory_mask
        tgt_key_padding_mask memory_key_padding_mask pos query_pos
  end.

Definition forward (self : t) (tgt memory : T) (tgt_mask memory_mask : option T)
    (tgt_key_padding_mask memory_key_padding_mask : option (Tensor bool))
    (pos query_pos : option T) : result T :=
  '(output, intermediate) ← run self (layers self) tgt [] memory tgt_mask memory_mask
                              tgt_key_padding_mask memory_key_padding_mask pos query_pos;
  '(output, intermediate) ←
    match norm self with
    | Some n =>
        output ← layer_norm n output;
        if return_intermediate self then
          intermediate ← pop intermediate;
          Ok (output, intermediate ++ [output])
        else Ok (output, intermediate)
    | None => Ok (output, intermediate)
    end;
  if return_intermediate self then stack intermediate
  else Ok output.

(** The output of the last layer, before the final normalisation: the first
    local of the loop. *)
Definition last_layer_output (self : t) (tgt memory : T) (tgt_mask memory_mask : option T)
    (tgt_key_padding_mask memory_key_padding_mask : option (Tensor bool))
    (pos query_pos : option T) : result T :=
  '(output, _) ← run self (layers self) tgt [] memory tgt_mask memory_mask
                   tgt_key_padding_mask memory_key_padding_mask pos query_pos;
  Ok output.

End Forward.
End TransformerDecoder.

(** Calling a local that holds a decoder or [None]. *)
Definition call_decoder `{K : TorchKernels} (decoder : option TransformerDecoder.t)
    (tgt memory : Tensor scalar) (memory_key_padding_mask : option (Tensor bool))
    (pos query_pos : option (Tensor scalar)) : result (Tensor scalar) :=
  match decoder with
  | Some d => TransformerDecoder.forward d tgt memory None None None
                memory_key_padding_mask pos query_pos
  | None => Err TypeError
  end.

(** [bs, c, h, w = src.shape] *)
Definition unpack4 (s : list nat) : result (nat * nat * nat * nat) :=
  match s with
  | [a; b; c; d] => Ok (a, b, c, d)
  | _ => Err ValueError
  end.

(* ===================================================================== *)
(** ** The single-task transformer *)
(* ===================================================================== *)

(** The fields of the configuration object [args] that the module reads.
    [num_queries] is the dictionary task -> dataset -> number of queries, in
    its iteration order. *)
Record Args : Type := {
  num_queries : list (string * list (string * nat));
  residual_in_encoder : bool;
  use_task_embedding_in_encoder : bool;
  use_task_embedding_in_decoder : bool
}.

Module Transformer.

Record t : Type := {
  args : Args;
  pass_pos_and_query : bool;
  encoder : TransformerEncoder.t;
  enc2dec_proj : Projection;
  pos_embed_proj : Projection;
  decoder : option TransformerDecoder.t;
  d_model_enc : nat;
  d_model_dec : nat;
  nhead : nat
}.

(** [for p in self.parameters(): if p.dim() > 1: xavier_uniform_(p)] over the
    registered submodules, in their order of registration. *)
Definition _reset_parameters (self : t) : ctor t :=
  enc ← TransformerEncoder.xavier (encoder self);
  p1 ← xavier_Projection (enc2dec_proj self);
  p2 ← xavier_Projection (pos_embed_proj self);
  dec ← match decoder self with
        | Some d => d' ← TransformerDecoder.xavier d; mret (Some d')
        | None => mret None
        end;
  mret {| args := args self; pass_pos_and_query := pass_pos_and_query self;
          encoder := enc; enc2dec_proj := p1; pos_embed_proj := p2; decoder := dec;
          d_model_enc := d_model_enc self; d_model_dec := d_model_dec self;
          nhead := nhead self |}.

Definition __init__ (args_ : Args) (d_model_enc_ d_model_dec_ nhead_ num_encoder_layers
    num_decoder_layers dim_feedforward : nat) (dropout : Q) (activation : string)
    (normalize_before return_intermediate_dec pass_pos_and_query_ share_decoders : bool)
    : ctor t :=
  encoder_layer ← TransformerEncoderLayer.__init__ d_model_enc_ nhead_ dim_feedforward
                    dropout activation normalize_before;
  let encoder_norm := if normalize_before then Some (nn_LayerNorm d_model_enc_) else None in
  let encoder_ := TransformerEncoder.__init__ encoder_layer num_encoder_layers encoder_norm in
  '(enc2dec, pos_proj) ←
    (if bool_decide (d_model_dec_ ≠ d_model_enc_) then
       a ← nn_Linear d_model_enc_ d_model_dec_;
       b ← nn_Linear d_model_enc_ d_model_dec_;
       mret (Lin a, Lin b)
     else mret (Identity, Identity));
  decoder_layer ← TransformerDecoderLayer.__init__ d_model_dec_ nhead_ dim_feedforward
                    dropout activation normalize_before;
  let decoder_norm := nn_LayerNorm d_model_dec_ in
  let decoder_ := TransformerDecoder.__init__ decoder_layer num_decoder_layers
                    (Some decoder_norm) return_intermediate_dec in
  _reset_parameters
    {| args := args_; pass_pos_and_query := pass_pos_and_query_;
       encoder := encoder_; enc2dec_proj := enc2dec; pos_embed_proj := pos_proj;
       decoder := Some decoder_;
       d_model_enc := d_model_enc_; d_model_dec := d_model_dec_; nhead := nhead_ |}.

Section Forward.
Context `{K : TorchKernels}.
Local Abbreviation T := (Tensor scalar).

Definition forward (self : t) (src : T) (mask : Tensor bool) (query_embed pos_embed : T)
    : result (T * T * option T) :=
  '(bs, c, h, w) ← unpack4 (shape src);
  src ← flatten 2 src;
  src ← permute [2; 0; 1] src;
  pos_embed ← flatten 2 pos_embed;
  pos_embed ← permute [2; 0; 1] pos_embed;
  query_embed ← unsqueeze 1 query_embed;
  query_embed ← repeat_ [1; bs; 1] query_embed;
  mask ← flatten 1 mask;
  '(src, tgt, query_embed, pos_embed) ←
    (if pass_pos_and_query self then
       Ok (src, zeros_like query_embed, Some query_embed, Some pos_embed)
     else
       s ← add src (scale (1 # 10) pos_embed);
       Ok (s, query_embed, None, None));
  memory ← TransformerEncoder.forward (encoder self) src None (Some mask) pos_embed;
  memory ← (if residual_in_encoder (args self) then add src memory else Ok memory);
  memory ← call_Projection (enc2dec_proj self) memory;
  pos_embed ← call_Projection_py (pos_embed_proj self) pos_embed;
  hs ← call_decoder (decoder self) tgt memory (Some mask) pos_embed query_embed;
  hs ← transpose 1 2 hs;
  mem ← permute [1; 2; 0] memory;
  mem ← view [bs; c; h; w] mem;
  Ok (hs, mem, None).

End Forward.
End Transformer.

(* ===================================================================== *)
(** ** The multi-task transformer *)
(* ===================================================================== *)

Module MTTransformer.

(** [nn.ModuleDict] of [nn.ModuleDict]: task -> dataset -> decoder.  An entry
    holds what [self.decoder] held when it was stored.  The keys are taken as
    they come: what [nn.ModuleDict] refuses as a module name is not modelled. *)
Record t : Type := {
  super : Transformer.t;
  share_decoders : bool;
  decoders : gmap string (gmap string (option TransformerDecoder.t));
  task_embeddings_enc : option Embedding;
  task_embeddings_dec : option Embedding;
  mem_out_begin_idx : nat;
  hs_out_begin_idx : nat
}.

Definition args (self : t) : Args := Transformer.args (super self).
Definition pass_pos_and_query (self : t) : bool := Transformer.pass_pos_and_query (super self).
Definition encoder (self : t) : TransformerEncoder.t := Transformer.encoder (super self).
Definition enc2dec_proj (self : t) : Projection := Transformer.enc2dec_proj (super self).
Definition pos_embed_proj (self : t) : Projection := Transformer.pos_embed_proj (super self).
Definition decoder (self : t) : option TransformerDecoder.t := Transformer.decoder (super self).

Definition MAX_TASK_NUM : nat := 256.

Definition build_decoder_layer (d_model_dec nhead num_decoder_layers dim_feedforward : nat)
    (dropout : Q) (activation : string) (normalize_before return_intermediate_dec : bool)
    : ctor TransformerDecoder.t :=
  decoder_layer ← TransformerDecoderLayer.__init__ d_model_dec nhead dim_feedforward
                    dropout activation normalize_before;
  let decoder_norm := nn_LayerNorm d_model_dec in
  mret (TransformerDecoder.__init__ decoder_layer num_decoder_layers
          (Some decoder_norm) return_intermediate_dec).

Section Init.
Variables (d_model_dec nhead num_decoder_layers dim_feedforward : nat) (dropout : Q)
  (activation : string) (normalize_before return_intermediate_dec share_decoders_ : bool).

(** The inner loop [for dataset in num_queries[task]], on [self.decoder] and
    the dictionary being filled. *)
Fixpoint fill_task_dict (datasets : list (string * nat))
    (self_decoder : option TransformerDecoder.t)
    (task_dict : gmap string (option TransformerDecoder.t))
    : ctor (option TransformerDecoder.t * gmap string (option TransformerDecoder.t)) :=
  match datasets with
  | [] => mret (self_decoder, task_dict)
  | (dataset, _) :: rest =>
      if share_decoders_ then
        fill_task_dict rest self_decoder (<[dataset := self_decoder]> task_dict)
      else
        d ← build_decoder_layer d_model_dec nhead num_decoder_layers dim_feedforward
              dropout activation normalize_before return_intermediate_dec;
        fill_task_dict rest None (<[dataset := Some d]> task_dict)
  end.

(** The outer loop [for task in num_queries]. *)
Fixpoint fill_decoders (tasks : list (string * list (string * nat)))
    (self_decoder : option TransformerDecoder.t)
    (decoders_ : gmap string (gmap string (option TransformerDecoder.t)))
    : ctor (option TransformerDecoder.t *
            gmap string (gmap string (option TransformerDecoder.t))) :=
  match tasks with
  | [] => mret (self_decoder, decoders_)
  | (task, datasets) :: rest =>
      '(self_decoder, task_dict) ← fill_task_dict datasets self_decoder ∅;
      fill_decoders rest self_decoder (<[task := task_dict]> decoders_)
  end.

End Init.

Definition __init__ (args_ : Args) (d_model_enc d_model_dec nhead num_encoder_layers
    num_decoder_layers dim_feedforward : nat) (dropout : Q) (activation : string)
    (normalize_before return_intermediate_dec pass_pos_and_query_ share_decoders_ : bool)
    : ctor t :=
  super_ ← Transformer.__init__ args_ d_model_enc d_model_dec nhead num_encoder_layers
             num_decoder_layers dim_feedforward dropout activation normalize_before
             return_intermediate_dec pass_pos_and_query_ false;
  '(self_decoder, decoders_) ←
    fill_decoders d_model_dec nhead num_decoder_layers dim_feedforward dropout activation
      normalize_before return_intermediate_dec share_decoders_
      (num_queries args_) (Transformer.decoder super_) ∅;
  enc ← (if use_task_embedding_in_encoder args_ then
           e ← nn_Embedding MAX_TASK_NUM d_model_enc; mret (Some e)
         else mret None);
  dec ← (if use_task_embedding_in_decoder args_ then
           e ← nn_Embedding MAX_TASK_NUM d_model_dec; mret (Some e)
         else mret None);
  mret {| super :=
            {| Transformer.args := Transformer.args super_;
               Transformer.pass_pos_and_query := Transformer.pass_pos_and_query super_;
               Transformer.encoder := Transformer.encoder super_;
               Transformer.enc2dec_proj := Transformer.enc2dec_proj super_;
               Transformer.pos_embed_proj := Transformer.pos_embed_proj super_;
               Transformer.decoder := self_decoder;
               Transformer.d_model_enc := Transformer.d_model_enc super_;
               Transformer.d_model_dec := Transformer.d_model_dec super_;
               Transformer.nhead := Transformer.nhead super_ |};
          share_decoders := share_decoders_;
          decoders := decoders_;
          task_embeddings_enc := enc;
          task_embeddings_dec := dec;
          mem_out_begin_idx := if use_task_embedding_in_encoder args_ then 1 else 0;
          hs_out_begin_idx := if use_task_embedding_in_decoder args_ then 1 else 0 |}.

Section Forward.
Context `{K : TorchKernels}.
Local Abbreviation T := (Tensor scalar).

(** [self.task_embeddings.weight[task_idx].unsqueeze(0).unsqueeze(0).repeat(1, bs, 1)] *)
Definition task_embed_row (emb : option Embedding) (task_idx : option Z) (bs : nat)
    : result T :=
  emb ← attr_of emb;
  task_embed ← select (weight emb) task_idx;
  task_embed ← unsqueeze 0 task_embed;
  task_embed ← unsqueeze 0 task_embed;
  repeat_ [1; bs; 1] task_embed.

Definition _prefix_task_embedding_to_query_embed (self : t) (query_embed : T)
    (task_idx : option Z) : result T :=
  if negb (use_task_embedding_in_decoder (args self)) then Ok query_embed
  else
    bs ← size query_embed 1;
    task_embed ← task_embed_row (task_embeddings_dec self) task_idx bs;
    cat [task_embed; query_embed] 0.

Definition _prefix_task_embedding_to_encoder_inputs (self : t) (img_src : T)
    (img_mask : Tensor bool) (img_pos : option T) (task_idx : option Z)
    : result (T * Tensor bool * option T) :=
  if negb (use_task_embedding_in_encoder (args self)) then Ok (img_src, img_mask, img_pos)
  else
    bs ← size img_src 1;
    task_embed ← task_embed_row (task_embeddings_enc self) task_idx bs;
    img_src ← cat [task_embed; img_src] 0;
    img_mask_pad ← slice_to 1 1 2 img_mask;
    let img_mask_pad := zeros_like_bool img_mask_pad in
    img_mask ← cat [img_mask_pad; img_mask] 1;
    img_pos ← subscriptable img_pos;
    img_pos_pad ← slice_to 0 1 1 img_pos;
    let img_pos_pad := zeros_like img_pos_pad in
    img_pos ← cat [img_pos_pad; img_pos] 0;
    Ok (img_src, img_mask, Some img_pos).

(** The locals of [forward] that both input branches update. *)
Record locals : Type := {
  memories : list T;
  pos_embeds : list (option T);
  masks : list (option (Tensor bool));
  tgt : option T;
  query_embed : option T
}.

Definition locals0 (query_embed_ : option T) : locals :=
  {| memories := []; pos_embeds := []; masks := []; tgt := None;
     query_embed := query_embed_ |}.

(** What the encoder is called with, and the locals set on the way. *)
Record encoder_call : Type := {
  enc_src : T;
  enc_mask : Tensor bool;
  enc_pos : option T;
  enc_tgt : option T;
  enc_query_embed : option T
}.

(** The start of the branch [if img_src is not None], up to the call of the
    encoder. *)
Definition encoder_inputs (self : t) (img_src : T) (img_mask : option (Tensor bool))
    (img_pos : option T) (text_src_is_None : bool) (l : locals) (task_idx : option Z)
    : result encoder_call :=
  '(bs, c, h, w) ← unpack4 (shape img_src);
  img_src ← flatten 2 img_src;
  img_src ← permute [2; 0; 1] img_src;
  img_pos ← attr_of img_pos;
  img_pos ← flatten 2 img_pos;
  img_pos ← permute [2; 0; 1] img_pos;
  img_mask ← attr_of img_mask;
  img_mask ← flatten 1 img_mask;
  '(img_src, tgt_, query_embed_, img_pos) ←
    (if text_src_is_None then
       query_embed_ ← attr_of (query_embed l);
       query_embed_ ← unsqueeze 1 query_embed_;
       query_embed_ ← repeat_ [1; bs; 1] query_embed_;
       query_embed_ ← _prefix_task_embedding_to_query_embed self query_embed_ task_idx;
       if pass_pos_and_query self then
         Ok (img_src, Some (zeros_like query_embed_), Some query_embed_, Some img_pos)
       else
         s ← add img_src (scale (1 # 10) img_pos);
         Ok (s, Some query_embed_, None, None)
     else Ok (img_src, tgt l, query_embed l, Some img_pos));
  '(img_src, img_mask, img_pos) ←
    _prefix_task_embedding_to_encoder_inputs self img_src img_mask img_pos task_idx;
  Ok {| enc_src := img_src; enc_mask := img_mask; enc_pos := img_pos;
        enc_tgt := tgt_; enc_query_embed := query_embed_ |}.

(** The branch [if img_src is not None]. *)
Definition image_branch (self : t) (img_src : T) (img_mask : option (Tensor bool))
    (img_pos : option T) (text_src_is_None : bool) (l : locals) (task_idx : option Z)
    : result locals :=
  e ← encoder_inputs self img_src img_mask img_pos text_src_is_None l task_idx;
  let img_src := enc_src e in
  let img_mask := enc_mask e in
  let img_pos := enc_pos e in
  memory ← TransformerEncoder.forward (encoder self) img_src None (Some img_mask) img_pos;
  '(img_src, img_pos, img_mask, memory) ←
    (if negb (mem_out_begin_idx self =? 0) then
       img_src ← slice_from 0 (mem_out_begin_idx self) 1 img_src;
       img_pos ← subscriptable img_pos;
       img_pos ← slice_from 0 (mem_out_begin_idx self) 1 img_pos;
       img_mask ← slice_from 1 (mem_out_begin_idx self) 2 img_mask;
       memory ← slice_from 0 (mem_out_begin_idx self) 1 memory;
       Ok (img_src, Some img_pos, img_mask, memory)
     else Ok (img_src, img_pos, img_mask, memory));
  memory ← (if residual_in_encoder (args self) then add img_src memory else Ok memory);
  memory ← call_Projection (enc2dec_proj self) memory;
  img_pos ← call_Projection_py (pos_embed_proj self) img_pos;
  Ok {| memories := memories l ++ [memory];
        pos_embeds := pos_embeds l ++ [img_pos];
        masks := masks l ++ [Some img_mask];
        tgt := enc_tgt e;
        query_embed := enc_query_embed e |}.

(** [text_mask != 1] : a tensor, or the Python value [True] when the mask is
    [None]. *)
Definition text_mask_ne_1 (text_mask : option (Tensor Z)) : option (Tensor bool) :=
  match text_mask with
  | Some m => Some (ne m 1%Z)
  | None => None
  end.

(** The branch [if text_src is not None]. *)
Definition text_branch (self : t) (text_src : T) (text_mask : option (Tensor Z))
    (text_pos : option T) (l : locals) (task_idx : option Z) : result locals :=
  text_src ← permute [1; 0; 2] text_src;
  text_pos ← attr_of text_pos;
  text_pos ← unsqueeze 1 text_pos;
  n ← size text_src 1;
  text_pos ← repeat_ [1; n; 1] text_pos;
  query_embed_ ← attr_of (query_embed l);
  query_embed_ ← unsqueeze 1 query_embed_;
  n ← size text_src 1;
  query_embed_ ← repeat_ [1; n; 1] query_embed_;
  query_embed_ ← _prefix_task_embedding_to_query_embed self query_embed_ task_idx;
  if pass_pos_and_query self then
    Ok {| memories := memories l ++ [text_src];
          pos_embeds := pos_embeds l ++ [Some text_pos];
          masks := masks l ++ [text_mask_ne_1 text_mask];
          tgt := Some (zeros_like query_embed_);
          query_embed := Some query_embed_ |}
  else Err NotImplementedError.

(** [self.decoders[task_type][dataset_name]] *)
Definition lookup_decoder (self : t) (task_type dataset_name : string)
    : result (option TransformerDecoder.t) :=
  match decoders self !! task_type with
  | None => Err (KeyError task_type)
  | Some task_dict =>
      match task_dict !! dataset_name with
      | None => Err (KeyError dataset_name)
      | Some d => Ok d
      end
  end.

(** What the decoder is called with. *)
Record decoder_call : Type := {
  dec_decoder : option TransformerDecoder.t;
  dec_tgt : option T;
  dec_memories : T;
  dec_masks : Tensor bool;
  dec_pos_embeds : T;
  dec_query_embed : option T
}.

(** [forward] up to the call of the decoder: both branches, the lookup of
    the decoder and the three concatenations. *)
Definition decoder_inputs (self : t) (img_src : option T) (img_mask : option (Tensor bool))
    (img_pos : option T) (text_src : option T) (text_mask : option (Tensor Z))
    (text_pos : option T) (query_embed_ : option T) (task_type dataset_name : string)
    (task_idx : option Z) : result decoder_call :=
  let l := locals0 query_embed_ in
  l ← match img_src with
      | Some img_src =>
          image_branch self img_src img_mask img_pos
            (match text_src with None => true | Some _ => false end) l task_idx
      | None => Ok l
      end;
  l ← match text_src with
      | Some text_src => text_branch self text_src text_mask text_pos l task_idx
      | None => Ok l
      end;
  decoder_ ← lookup_decoder self task_type dataset_name;
  memories_ ← cat (memories l) 0;
  masks_ ← cat_py (masks l) (-1);
  pos_embeds_ ← cat_py (pos_embeds l) 0;
  Ok {| dec_decoder := decoder_; dec_tgt := tgt l; dec_memories := memories_;
        dec_masks := masks_; dec_pos_embeds := pos_embeds_;
        dec_query_embed := query_embed l |}.

Definition forward (self : t) (img_src : option T) (img_mask : option (Tensor bool))
    (img_pos : option T) (text_src : option T) (text_mask : option (Tensor Z))
    (text_pos : option T) (query_embed_ : option T) (task_type dataset_name : string)
    (task_idx : option Z) : result (T * T) :=
  c ← decoder_inputs self img_src img_mask img_pos text_src text_mask text_pos
        query_embed_ task_type dataset_name task_idx;
  tgt_ ← match dec_tgt c with Some x => Ok x | None => Err UnboundLocalError end;
  hs ← call_decoder (dec_decoder c) tgt_ (dec_memories c) (Some (dec_masks c))
         (Some (dec_pos_embeds c)) (dec_query_embed c);
  hs ← transpose 1 2 hs;
  hs ← slice_from 2 (hs_out_begin_idx self) 4 hs;
  mem ← permute [1; 2; 0] (dec_memories c);
  Ok (hs, mem).

End Forward.
End MTTransformer.

(** [build_transformer(args)], with the fields of [args] it reads. *)
Definition build_transformer (args : Args) (encoder_hidden_dim decoder_hidden_dim : nat)
    (dropout : Q) (nheads dim_feedforward enc_layers dec_layers : nat)
    (pre_norm pass_pos_and_query share_decoders : bool) : ctor MTTransformer.t :=
  MTTransformer.__init__ args encoder_hidden_dim decoder_hidden_dim nheads enc_layers
    dec_layers dim_feedforward dropout "relu" pre_norm true pass_pos_and_query
    share_decoders.

(* ===================================================================== *)
(** ** What is assumed of the numeric kernels, and well-formed modules *)
(* ===================================================================== *)

(** The shape contracts of the library's kernels, for inputs of the shapes
    the library documents: attention over [L x B x E] queries and [S x B x E]
    keys and values with a [B x S] key-padding mask and no attention mask, a
    linear map and a layer normalisation on the last axis, shape-preserving
    dropout, relu and gelu. *)
Class KernelSpec (K : TorchKernels) : Prop := {
  mha_shape : forall (m : MultiheadAttention) (q k v : Tensor scalar)
      (kpm : option (Tensor bool)) (L S B : nat),
    0 < num_heads m -> embed_dim m mod num_heads m = 0 ->
    shape q = [L; B; embed_dim m] ->
    shape k = [S; B; embed_dim m] ->
    shape v = [S; B; embed_dim m] ->
    (forall msk, kpm = Some msk -> shape msk = [B; S]) ->
    exists out, multi_head_attention_forward m q k v None kpm = Ok out /\
                shape out = [L; B; embed_dim m];
  linear_shape : forall (l : Linear) (x : Tensor scalar) (s : list nat),
    shape x = s ++ [in_features l] ->
    exists out, linear l x = Ok out /\ shape out = s ++ [out_features l];
  layer_norm_shape : forall (n : LayerNorm) (x : Tensor scalar) (s : list nat),
    shape x = s ++ [normalized_shape n] ->
    exists out, layer_norm n x = Ok out /\ shape out = shape x;
  dropout_shape : forall (d : Dropout) (x : Tensor scalar),
    exists out, dropout_ d x = Ok out /\ shape out = shape x;
  relu_shape : forall x : Tensor scalar, exists out, relu x = Ok out /\ shape out = shape x;
  gelu_shape : forall x : Tensor scalar, exists out, gelu x = Ok out /\ shape out = shape x
}.

(** An optional tensor is absent or has the given shape. *)
Definition opt_shape {A} (x : option (Tensor A)) (s : list nat) : Prop :=
  forall t, x = Some t -> shape t = s.

Definition attn_wf (d : nat) (m : MultiheadAttention) : Prop :=
  embed_dim m = d /\ 0 < num_heads m /\ d mod num_heads m = 0.

(** The feed-forward part maps width [d] to width [d]: [glu] halves the
    width between the two linear maps, so it is excluded. *)
Definition mlp_wf (d : nat) (l1 l2 : Linear) (f : activation_fn) : Prop :=
  in_features l1 = d /\ out_features l1 = in_features l2 /\ out_features l2 = d /\
  f <> F_glu.

Definition enc_layer_wf (d : nat) (l : TransformerEncoderLayer.t) : Prop :=
  attn_wf d (TransformerEncoderLayer.self_attn l) /\
  mlp_wf d (TransformerEncoderLayer.linear1 l) (TransformerEncoderLayer.linear2 l)
    (TransformerEncoderLayer.activation l) /\
  normalized_shape (TransformerEncoderLayer.norm1 l) = d /\
  normalized_shape (TransformerEncoderLayer.norm2 l) = d.

Definition dec_layer_wf (d : nat) (l : TransformerDecoderLayer.t) : Prop :=
  attn_wf d (TransformerDecoderLayer.self_attn l) /\
  attn_wf d (TransformerDecoderLayer.multihead_attn l) /\
  mlp_wf d (TransformerDecoderLayer.linear1 l) (TransformerDecoderLayer.linear2 l)
    (TransformerDecoderLayer.activation l) /\
  normalized_shape (TransformerDecoderLayer.norm1 l) = d /\
  normalized_shape (TransformerDecoderLayer.norm2 l) = d /\
  normalized_shape (TransformerDecoderLayer.norm3 l) = d.

Definition encoder_wf (d : nat) (e : TransformerEncoder.t) : Prop :=
  Forall (enc_layer_wf d) (TransformerEncoder.layers e) /\
  (forall n, TransformerEncoder.norm e = Some n -> normalized_shape n = d).

(** A decoder of [M] layers of width [d] with a final normalisation, as
    both construction sites of the module build it. *)
Definition decoder_wf (d M : nat) (ri : bool) (dec : TransformerDecoder.t) : Prop :=
  Forall (dec_layer_wf d) (TransformerDecoder.layers dec) /\
  length (TransformerDecoder.layers dec) = M /\
  TransformerDecoder.num_layers dec = M /\
  (exists n, TransformerDecoder.norm dec = Some n /\ normalized_shape n = d) /\
  TransformerDecoder.return_intermediate dec = ri.

Definition proj_wf (de dd : nat) (pr : Projection) : Prop :=
  match pr with
  | Identity => de = dd
  | Lin l => in_features l = de /\ out_features l = dd
  end.

(** What construction establishes for the single-task transformer. *)
Definition transformer_wf (de dd M : nat) (ri : bool) (tr : Transformer.t) : Prop :=
  encoder_wf de (Transformer.encoder tr) /\
  proj_wf de dd (Transformer.enc2dec_proj tr) /\
  proj_wf de dd (Transformer.pos_embed_proj tr) /\
  exists dec, Transformer.decoder tr = Some dec /\ decoder_wf dd M ri dec.

Definition emb_wf (flag : bool) (d : nat) (emb : option Embedding) : Prop :=
  flag = true ->
  exists e, emb = Some e /\ num_embeddings e = MTTransformer.MAX_TASK_NUM /\ embedding_dim e = d.

(** A task index that selects a row of the embedding table. *)
Definition task_idx_ok (flag : bool) (task_idx : option Z) : Prop :=
  flag = true ->
  exists i, task_idx = Some i /\
            (- Z.of_nat MTTransformer.MAX_TASK_NUM <= i < Z.of_nat MTTransformer.MAX_TASK_NUM)%Z.

Record mt_wf (de dd M : nat) (ri : bool) (m : MTTransformer.t) : Prop := {
  wf_encoder : encoder_wf de (MTTransformer.encoder m);
  wf_enc2dec : proj_wf de dd (MTTransformer.enc2dec_proj m);
  wf_pos_proj : proj_wf de dd (MTTransformer.pos_embed_proj m);
  wf_decoders : forall task dataset d,
    MTTransformer.lookup_decoder m task dataset = Ok d ->
    exists dec, d = Some dec /\ decoder_wf dd M ri dec;
  wf_emb_enc : emb_wf (use_task_embedding_in_encoder (MTTransformer.args m)) de
                 (MTTransformer.task_embeddings_enc m);
  wf_emb_dec : emb_wf (use_task_embedding_in_decoder (MTTransformer.args m)) dd
                 (MTTransformer.task_embeddings_dec m);
  wf_mem_idx : MTTransformer.mem_out_begin_idx m =
               if use_task_embedding_in_encoder (MTTransformer.args m) then 1 else 0;
  wf_hs_idx : MTTransformer.hs_out_begin_idx m =
              if use_task_embedding_in_decoder (MTTransformer.args m) then 1 else 0
}.

(** An argument that is passed or left [None]. *)
Definition opt_if {A} (present : bool) (x : A) : option A :=
  if present then Some x else None.

(** Well-shaped inputs of [MTTransformer.forward]: an image stream of [bs]
    feature maps of [h x w] positions and [de] channels, not empty when a
    task slot is put before it; a text stream of [bs] sequences of [Lt]
    tokens of width [dd]; a set of [nq] queries of width [dd]. *)
Definition image_inputs_ok `{K : TorchKernels} (m : MTTransformer.t) (de : nat)
    (img_src : Tensor scalar) (img_mask : Tensor bool) (img_pos : Tensor scalar)
    (task_idx : option Z) (bs h w : nat) : Prop :=
  shape img_src = [bs; de; h; w] /\ shape img_mask = [bs; h; w] /\
  shape img_pos = [bs; de; h; w] /\
  task_idx_ok (use_task_embedding_in_encoder (MTTransformer.args m)) task_idx /\
  (use_task_embedding_in_encoder (MTTransformer.args m) = true -> 0 < h * w).

Definition text_inputs_ok `{K : TorchKernels} (dd : nat)
    (text_src : Tensor scalar) (text_mask : Tensor Z) (text_pos : Tensor scalar)
    (bs Lt : nat) : Prop :=
  shape text_src = [bs; Lt; dd] /\ shape text_mask = [bs; Lt] /\
  shape text_pos = [Lt; dd].

Definition query_ok `{K : TorchKernels} (m : MTTransformer.t) (dd : nat)
    (query_embed : Tensor scalar) (task_idx : option Z) (nq : nat) : Prop :=
  shape query_embed = [nq; dd] /\
  task_idx_ok (use_task_embedding_in_decoder (MTTransformer.args m)) task_idx.

(** The entry of a two-level dictionary, if any. *)
Definition entry_at (decs : gmap string (gmap string (option TransformerDecoder.t)))
    (task dataset : string) : option (option TransformerDecoder.t) :=
  td ← decs !! task; td !! dataset.

(** A pair is registered when the configuration enumerates it. *)
Definition enumerated (a : Args) (task dataset : string) : Prop :=
  exists datasets n, (task, datasets) ∈ num_queries a /\ (dataset, n) ∈ datasets.

(** Does [needle] occur in [s]? *)
Fixpoint contains (needle s : string) : bool :=
  String.prefix needle s ||
  match s with
  | EmptyString => false
  | String _ s' => contains needle s'
  end.

(* ===================================================================== *)
(** ** A small instance of the kernels, for running the model *)
(* ===================================================================== *)

Module Toy.

Definition set_last (s : list nat) (n : nat) : list nat := take (length s - 1) s ++ [n].

Definition toy_linear (l : Linear) (x : Tensor Z) : result (Tensor Z) :=
  if bool_decide (last (shape x) = Some (in_features l)) then
    Ok {| shape := set_last (shape x) (out_features l);
          data := fun idx => data x (set_last idx 0) |}
  else Err (TorchError "linear").

Definition toy_glu (x : Tensor Z) : result (Tensor Z) :=
  match last (shape x) with
  | Some n =>
      if Nat.even n then Ok {| shape := set_last (shape x) (n / 2); data := data x |}
      else Err (TorchError "glu")
  | None => Err (TorchError "glu")
  end.

#[global] Instance kernels : TorchKernels := {|
  scalar := Z;
  zero := 0%Z;
  fadd := Z.add;
  fmul := Z.mul;
  float_of_Q := fun q => (Qnum q / Z.pos (Qden q))%Z;
  param_entry := fun _ idx => Z.of_nat (length idx);
  multi_head_attention_forward := fun _ q _ _ _ _ => Ok q;
  linear := toy_linear;
  layer_norm := fun _ x => Ok x;
  dropout_ := fun _ x => Ok x;
  relu := fun x => Ok x;
  gelu := fun x => Ok x;
  glu := toy_glu
|}.

(** Tensors whose entry at a multi-index is the sum of the index. *)
Definition iota (s : list nat) : Tensor Z :=
  {| shape := s; data := fun idx => Z.of_nat (foldr Nat.add 0 idx) |}.

Definition falses (s : list nat) : Tensor bool :=
  {| shape := s; data := fun _ => false |}.

Definition ones (s : list nat) : Tensor Z :=
  {| shape := s; data := fun _ => 1%Z |}.

(** A mask that marks the positions whose last index is [k]. *)
Definition mark_last (s : list nat) (k : nat) : Tensor bool :=
  {| shape := s; data := fun idx => bool_decide (last idx = Some k) |}.

(** A token mask that is 1 except where the last index is [k]. *)
Definition ones_but (s : list nat) (k : nat) : Tensor Z :=
  {| shape := s; data := fun idx => if bool_decide (last idx = Some k) then 0%Z else 1%Z |}.


Definition empty_model : MTTransformer.t :=
  {| MTTransformer.super :=
       {| Transformer.args :=
            {| num_queries := []; residual_in_encoder := false;
               use_task_embedding_in_encoder := false;
               use_task_embedding_in_decoder := false |};
          Transformer.pass_pos_and_query := true;
          Transformer.encoder :=
            {| TransformerEncoder.layers := []; TransformerEncoder.num_layers := 0;
               TransformerEncoder.norm := None |};
          Transformer.enc2dec_proj := Identity;
          Transformer.pos_embed_proj := Identity;
          Transformer.decoder := None;
          Transformer.d_model_enc := 0; Transformer.d_model_dec := 0;
          Transformer.nhead := 0 |};
     MTTransformer.share_decoders := false;
     MTTransformer.decoders := ∅;
     MTTransformer.task_embeddings_enc := None;
     MTTransformer.task_embeddings_dec := None;
     MTTransformer.mem_out_begin_idx := 0;
     MTTransformer.hs_out_begin_idx := 0 |}.

(** The model a constructor returned, and the generator state it left. *)
Definition built (r : result (MTTransformer.t * nat)) : MTTransformer.t :=
  match r with
  | Ok (m, _) => m
  | Err _ => empty_model
  end.

Definition rng_after (r : result (MTTransformer.t * nat)) : nat :=
  match r with
  | Ok (_, rng) => rng
  | Err _ => 0
  end.

(** One task with one dataset, no task embeddings. *)
Definition args_single : Args :=
  {| num_queries := [("detection", [("coco", 3)])];
     residual_in_encoder := false;
     use_task_embedding_in_encoder := false;
     use_task_embedding_in_decoder := false |}.

(** Two tasks, three datasets, task embeddings on both sides. *)
Definition args_multi : Args :=
  {| num_queries := [("detection", [("coco", 3)]); ("vl", [("vqa2", 3); ("snli_ve", 3)])];
     residual_in_encoder := true;
     use_task_embedding_in_encoder := true;
     use_task_embedding_in_decoder := true |}.


Definition build_multi (pass_pos_and_query share_decoders : bool)
    : result (MTTransformer.t * nat) :=
  build_transformer args_multi 8 8 (1 # 10) 2 16 2 2 false pass_pos_and_query
    share_decoders 0.

(** The scenario's model built directly, with the constructor's default of
    no intermediate outputs. *)
Definition build_no_intermediate : result (MTTransformer.t * nat) :=
  MTTransformer.__init__ args_single 8 8 2 2 2 16 (1 # 10) "relu" false false true true 0.

Definition model_no_intermediate : MTTransformer.t := built build_no_intermediate.

Definition model_multi : MTTransformer.t := built (build_multi true true).
Definition model_nopass : MTTransformer.t := built (build_multi false true).


Definition empty_base : Transformer.t := MTTransformer.super empty_model.


(** A batch of two 2 x 3 feature maps, two sequences of four tokens, three
    queries. *)
Definition img_src : Tensor Z := iota [2; 8; 2; 3].
Definition img_mask : Tensor bool := mark_last [2; 2; 3] 2.
Definition img_pos : Tensor Z := iota [2; 8; 2; 3].
Definition text_src : Tensor Z := iota [2; 4; 8].
Definition text_mask : Tensor Z := ones_but [2; 4] 3.
Definition text_pos : Tensor Z := iota [4; 8].
Definition query_embed : Tensor Z := iota [3; 8].

(** A decoder layer and a decoder of two layers, as [build_decoder_layer]
    makes them. *)
Definition decoder_of (return_intermediate : bool) : TransformerDecoder.t :=
  match MTTransformer.build_decoder_layer 8 2 2 16 (1 # 10) "relu" false
          return_intermediate 0 with
  | Ok (d, _) => d
  | Err _ => TransformerDecoder.__init__
               {| TransformerDecoderLayer.self_attn :=
                    {| embed_dim := 0; num_heads := 0; attn_dropout := 0;
                       mha_params := Drawn 0 |};
                  TransformerDecoderLayer.multihead_attn :=
                    {| embed_dim := 0; num_heads := 0; attn_dropout := 0;
                       mha_params := Drawn 0 |};
                  TransformerDecoderLayer.linear1 :=
                    {| in_features := 0; out_features := 0; lin_params := Drawn 0 |};
                  TransformerDecoderLayer.dropout := {| p := 0 |};
                  TransformerDecoderLayer.linear2 :=
                    {| in_features := 0; out_features := 0; lin_params := Drawn 0 |};
                  TransformerDecoderLayer.norm1 := nn_LayerNorm 0;
                  TransformerDecoderLayer.norm2 := nn_LayerNorm 0;
                  TransformerDecoderLayer.norm3 := nn_LayerNorm 0;
                  TransformerDecoderLayer.dropout1 := {| p := 0 |};
                  TransformerDecoderLayer.dropout2 := {| p := 0 |};
                  TransformerDecoderLayer.dropout3 := {| p := 0 |};
                  TransformerDecoderLayer.activation := F_relu;
                  TransformerDecoderLayer.normalize_before := false |}
               0 None return_intermediate
  end.

End Toy.

(* ===================================================================== *)
(** ** Further definitions for the properties of the whole module *)
(* ===================================================================== *)

(** Modelled from the spec: "the last layer's output" of a list of decoder
    layers, where every layer is applied to the output of the layer before
    it, the first one to [tgt], all with the same memory, masks and
    positions.  It is written without the decoder's loop, with which the
    properties of the decoder compare it. *)
Fixpoint layers_in_sequence `{K : TorchKernels} (ls : list TransformerDecoderLayer.t)
    (tgt memory : Tensor scalar) (tgt_mask memory_mask : option (Tensor scalar))
    (tgt_key_padding_mask memory_key_padding_mask : option (Tensor bool))
    (pos query_pos : option (Tensor scalar)) : result (Tensor scalar) :=
  match ls with
  | [] => Ok tgt
  | layer :: ls' =>
      out ← TransformerDecoderLayer.forward layer tgt memory tgt_mask memory_mask
              tgt_key_padding_mask memory_key_padding_mask pos query_pos;
      layers_in_sequence ls' out memory tgt_mask memory_mask
        tgt_key_padding_mask memory_key_padding_mask pos query_pos
  end.

(** The decoder cut after its first [k] layers, returning its final output
    alone. *)
Definition first_layers (k : nat) (dec : TransformerDecoder.t) : TransformerDecoder.t :=
  {| TransformerDecoder.layers := take k (TransformerDecoder.layers dec);
     TransformerDecoder.num_layers := k;
     TransformerDecoder.norm := TransformerDecoder.norm dec;
     TransformerDecoder.return_intermediate := false |}.

(** What the library's feed-forward kernels have done when they return: a
    linear map has read an input whose last axis has [in_features] entries
    and written [out_features] entries on it, [glu] has halved the last
    axis, and dropout has kept the shape. *)
Class FeedForwardSpec (K : TorchKernels) : Prop := {
  linear_returned : forall (l : Linear) (x y : Tensor scalar),
    linear l x = Ok y ->
    exists s, shape x = s ++ [in_features l] /\ shape y = s ++ [out_features l];
  glu_returned : forall x y : Tensor scalar,
    glu x = Ok y -> exists s n, shape x = s ++ [n] /\ shape y = s ++ [n / 2];
  dropout_returned : forall (d : Dropout) (x y : Tensor scalar),
    dropout_ d x = Ok y -> shape y = shape x
}.

(** A layer whose activation is [glu] between linear maps of width [ff]. *)
Definition enc_layer_glu (ff : nat) (l : TransformerEncoderLayer.t) : Prop :=
  TransformerEncoderLayer.activation l = F_glu /\
  out_features (TransformerEncoderLayer.linear1 l) = ff /\
  in_features (TransformerEncoderLayer.linear2 l) = ff.

Definition dec_layer_glu (ff : nat) (l : TransformerDecoderLayer.t) : Prop :=
  TransformerDecoderLayer.activation l = F_glu /\
  out_features (TransformerDecoderLayer.linear1 l) = ff /\
  in_features (TransformerDecoderLayer.linear2 l) = ff.

(** Further models and inputs the properties are evaluated on. *)
Module Sample.

(** The scenario's model without decoder layers. *)
Definition build_no_layers : result (MTTransformer.t * nat) :=
  build_transformer Toy.args_single 8 8 (1 # 10) 2 16 2 0 false true true 0.

Definition model_no_layers : MTTransformer.t := Toy.built build_no_layers.

(** The single-task transformer with the constructor's defaults for
    [return_intermediate_dec] and [pass_pos_and_query], and one whose decoder
    is narrower than its encoder. *)
Definition build_base_default : result (Transformer.t * nat) :=
  Transformer.__init__ Toy.args_single 8 8 2 2 2 16 (1 # 10) "relu" false false true false 0.

Definition base_default : Transformer.t :=
  match build_base_default with
  | Ok (tr, _) => tr
  | Err _ => Toy.empty_base
  end.

Definition build_base_narrow : result (Transformer.t * nat) :=
  Transformer.__init__ Toy.args_single 8 4 2 2 2 16 (1 # 10) "relu" false true true false 0.

Definition base_narrow : Transformer.t :=
  match build_base_narrow with
  | Ok (tr, _) => tr
  | Err _ => Toy.empty_base
  end.

(** The model of two tasks with a decoder of its own for every pair. *)
Definition build_unshared : result (MTTransformer.t * nat) := Toy.build_multi true false.

Definition model_unshared : MTTransformer.t := Toy.built build_unshared.

Definition build_glu : result (MTTransformer.t * nat) :=
  MTTransformer.__init__ Toy.args_single 8 8 2 2 2 16 (1 # 10) "glu" false true true true 0.

Definition model_glu : MTTransformer.t := Toy.built build_glu.

(** A model with the text side of [m] and nothing on its image side. *)
Definition without_image_side (m : MTTransformer.t) : MTTransformer.t :=
  {| MTTransformer.super :=
       {| Transformer.args := MTTransformer.args m;
          Transformer.pass_pos_and_query := MTTransformer.pass_pos_and_query m;
          Transformer.encoder :=
            {| TransformerEncoder.layers := []; TransformerEncoder.num_layers := 0;
               TransformerEncoder.norm := None |};
          Transformer.enc2dec_proj := Identity;
          Transformer.pos_embed_proj := Identity;
          Transformer.decoder := MTTransformer.decoder m;
          Transformer.d_model_enc := 0;
          Transformer.d_model_dec := Transformer.d_model_dec (MTTransformer.super m);
          Transformer.nhead := Transformer.nhead (MTTransformer.super m) |};
     MTTransformer.share_decoders := MTTransformer.share_decoders m;
     MTTransformer.decoders := MTTransformer.decoders m;
     MTTransformer.task_embeddings_enc := None;
     MTTransformer.task_embeddings_dec := MTTransformer.task_embeddings_dec m;
     MTTransformer.mem_out_begin_idx := 0;
     MTTransformer.hs_out_begin_idx := MTTransformer.hs_out_begin_idx m |}.

End Sample.

(* ===================================================================== *)
(** ** Shapes through the kernels and the layers *)
(* ===================================================================== *)

Lemma bind_Ok {A B} (a : A) (f : A -> result B) : (Ok a ≫= f) = f a.
Proof. reflexivity. Qed.

Lemma bind_Err {A B} (e : exn) (f : A -> result B) : (Err e ≫= f) = Err e.
Proof. reflexivity. Qed.

(** Use a lemma of the form [exists out, call = Ok out /\ shape out = s] on
    the call at the head of the goal. *)
Tactic Notation "step" open_constr(H) "as" ident(out) :=
  let Ho := fresh "Hcall" in
  let Hs := fresh "H" out in
  edestruct H as (out & Ho & Hs); [..| rewrite Ho; clear Ho; rewrite ?bind_Ok].

Lemma broadcast_rev_same l : broadcast_rev l l = Some l.
Proof.
  induction l as [|a l IH]; simpl; [done|].
  rewrite IH. simpl. by rewrite Nat.eqb_refl.
Qed.

Lemma broadcast_same s : broadcast s s = Some s.
Proof.
  unfold broadcast. rewrite broadcast_rev_same. simpl. by rewrite reverse_involutive.
Qed.

Section KernelLemmas.
Context `{K : TorchKernels} {KS : KernelSpec K}.
Local Abbreviation T := (Tensor scalar).

Lemma add_ok (a b : T) s :
  shape a = s -> shape b = s -> exists out, add a b = Ok out /\ shape out = s.
Proof.
  intros <- H. unfold add, map2. rewrite H, broadcast_same. eauto.
Qed.

Lemma with_pos_embed_ok (x : T) pos s :
  shape x = s -> opt_shape pos s ->
  exists out, with_pos_embed x pos = Ok out /\ shape out = s.
Proof.
  intros Hx Hp. destruct pos as [p0|]; simpl; [|eauto].
  apply add_ok; auto.
Qed.

Lemma attn_ok m (q k v : T) kpm L S B d :
  attn_wf d m -> shape q = [L; B; d] -> shape k = [S; B; d] -> shape v = [S; B; d] ->
  opt_shape kpm [B; S] ->
  exists out, multi_head_attention_forward m q k v None kpm = Ok out /\
              shape out = [L; B; d].
Proof.
  intros (<- & Hh & Hm) Hq Hk Hv Hkpm. by apply (mha_shape m q k v kpm L S B).
Qed.

Lemma norm_ok n (x : T) L B d :
  normalized_shape n = d -> shape x = [L; B; d] ->
  exists out, layer_norm n x = Ok out /\ shape out = [L; B; d].
Proof.
  intros <- Hx. destruct (layer_norm_shape n x [L; B] Hx) as (out & -> & Ho).
  exists out. split; [done|]. by rewrite Ho.
Qed.

Lemma dropout_ok dr (x : T) s :
  shape x = s -> exists out, dropout_ dr x = Ok out /\ shape out = s.
Proof. intros <-. apply dropout_shape. Qed.

Lemma activation_ok f (x : T) s :
  f <> F_glu -> shape x = s -> exists out, call_activation f x = Ok out /\ shape out = s.
Proof.
  intros Hf <-. destruct f; simpl; [apply relu_shape | apply gelu_shape | done].
Qed.

Lemma linear_ok l (x : T) L B d d' :
  in_features l = d -> out_features l = d' -> shape x = [L; B; d] ->
  exists out, linear l x = Ok out /\ shape out = [L; B; d'].
Proof.
  intros <- <- Hx. apply (linear_shape l x [L; B] Hx).
Qed.

Lemma projection_ok pr (x : T) L B de dd :
  proj_wf de dd pr -> shape x = [L; B; de] ->
  exists out, call_Projection pr x = Ok out /\ shape out = [L; B; dd].
Proof.
  destruct pr as [|l]; simpl.
  - intros <- Hx. eauto.
  - intros [H1 H2] Hx. by apply (linear_ok l x L B de dd).
Qed.

Section EncoderLayer.
Import TransformerEncoderLayer.

Lemma encoder_layer_ok l (src : T) kpm pos L B d :
  enc_layer_wf d l -> shape src = [L; B; d] ->
  opt_shape kpm [B; L] -> opt_shape pos [L; B; d] ->
  exists out, forward l src None kpm pos = Ok out /\ shape out = [L; B; d].
Proof.
  intros (Ha & (H1 & H12 & H2 & Hf) & Hn1 & Hn2) Hs Hk Hp.
  unfold forward, forward_pre, forward_post.
  destruct (normalize_before l).
  - step (norm_ok (norm1 l) src L B d) as s2; [done..|].
    step (with_pos_embed_ok s2 pos) as q; [done..|].
    step (attn_ok (self_attn l) q q s2 kpm L L B d) as a; [done..|].
    step (dropout_ok (dropout1 l) a) as d1; [done..|].
    step (add_ok src d1) as s3; [done..|].
    step (norm_ok (norm2 l) s3 L B d) as s4; [done..|].
    step (linear_ok (linear1 l) s4 L B d (in_features (linear2 l))) as x1; [done..|].
    step (activation_ok (activation l) x1) as x2; [done..|].
    step (dropout_ok (dropout l) x2) as x3; [done..|].
    step (linear_ok (linear2 l) x3 L B (in_features (linear2 l)) d) as x4; [done..|].
    step (dropout_ok (dropout2 l) x4) as d2; [done..|].
    apply add_ok; done.
  - step (with_pos_embed_ok src pos) as q; [done..|].
    step (attn_ok (self_attn l) q q src kpm L L B d) as a; [done..|].
    step (dropout_ok (dropout1 l) a) as d1; [done..|].
    step (add_ok src d1) as s3; [done..|].
    step (norm_ok (norm1 l) s3 L B d) as s4; [done..|].
    step (linear_ok (linear1 l) s4 L B d (in_features (linear2 l))) as x1; [done..|].
    step (activation_ok (activation l) x1) as x2; [done..|].
    step (dropout_ok (dropout l) x2) as x3; [done..|].
    step (linear_ok (linear2 l) x3 L B (in_features (linear2 l)) d) as x4; [done..|].
    step (dropout_ok (dropout2 l) x4) as d2; [done..|].
    step (add_ok s4 d2) as s5; [done..|].
    apply norm_ok; done.
Qed.

End EncoderLayer.

Section DecoderLayer.
Import TransformerDecoderLayer.

Lemma decoder_layer_ok l (tgt memory : T) tkpm mkpm pos query_pos L S B d :
  dec_layer_wf d l -> shape tgt = [L; B; d] -> shape memory = [S; B; d] ->
  opt_shape tkpm [B; L] -> opt_shape mkpm [B; S] ->
  opt_shape pos [S; B; d] -> opt_shape query_pos [L; B; d] ->
  exists out, forward l tgt memory None None tkpm mkpm pos query_pos = Ok out /\
              shape out = [L; B; d].
Proof.
  intros (Ha & Hc & (H1 & H12 & H2 & Hf) & Hn1 & Hn2 & Hn3) Ht Hm Htk Hmk Hp Hq.
  unfold forward, forward_pre, forward_post.
  destruct (normalize_before l).
  - step (norm_ok (norm1 l) tgt L B d) as t2; [done..|].
    step (with_pos_embed_ok t2 query_pos) as q; [done..|].
    step (attn_ok (self_attn l) q q t2 tkpm L L B d) as a; [done..|].
    step (dropout_ok (dropout1 l) a) as d1; [done..|].
    step (add_ok tgt d1) as t3; [done..|].
    step (norm_ok (norm2 l) t3 L B d) as t4; [done..|].
    step (with_pos_embed_ok t4 query_pos) as qq; [done..|].
    step (with_pos_embed_ok memory pos) as kk; [done..|].
    step (attn_ok (multihead_attn l) qq kk memory mkpm L S B d) as c; [done..|].
    step (dropout_ok (dropout2 l) c) as d2; [done..|].
    step (add_ok t3 d2) as t5; [done..|].
    step (norm_ok (norm3 l) t5 L B d) as t6; [done..|].
    step (linear_ok (linear1 l) t6 L B d (in_features (linear2 l))) as x1; [done..|].
    step (activation_ok (activation l) x1) as x2; [done..|].
    step (dropout_ok (dropout l) x2) as x3; [done..|].
    step (linear_ok (linear2 l) x3 L B (in_features (linear2 l)) d) as x4; [done..|].
    step (dropout_ok (dropout3 l) x4) as d3; [done..|].
    apply add_ok; done.
  - step (with_pos_embed_ok tgt query_pos) as q; [done..|].
    step (attn_ok (self_attn l) q q tgt tkpm L L B d) as a; [done..|].
    step (dropout_ok (dropout1 l) a) as d1; [done..|].
    step (add_ok tgt d1) as t3; [done..|].
    step (norm_ok (norm1 l) t3 L B d) as t4; [done..|].
    step (with_pos_embed_ok t4 query_pos) as qq; [done..|].
    step (with_pos_embed_ok memory pos) as kk; [done..|].
    step (attn_ok (multihead_attn l) qq kk memory mkpm L S B d) as c; [done..|].
    step (dropout_ok (dropout2 l) c) as d2; [done..|].
    step (add_ok t4 d2) as t5; [done..|].
    step (norm_ok (norm2 l) t5 L B d) as t6; [done..|].
    step (linear_ok (linear1 l) t6 L B d (in_features (linear2 l))) as x1; [done..|].
    step (activation_ok (activation l) x1) as x2; [done..|].
    step (dropout_ok (dropout l) x2) as x3; [done..|].
    step (linear_ok (linear2 l) x3 L B (in_features (linear2 l)) d) as x4; [done..|].
    step (dropout_ok (dropout3 l) x4) as d3; [done..|].
    step (add_ok t6 d3) as t7; [done..|].
    apply norm_ok; done.
Qed.

End DecoderLayer.

Lemma encoder_run_ok ls (src : T) kpm pos L B d :
  Forall (enc_layer_wf d) ls -> shape src = [L; B; d] ->
  opt_shape kpm [B; L] -> opt_shape pos [L; B; d] ->
  exists out, TransformerEncoder.run ls src None kpm pos = Ok out /\ shape out = [L; B; d].
Proof.
  intros Hls. revert src. induction Hls as [|l ls Hl Hls IH]; intros src Hs Hk Hp; simpl.
  - eauto.
  - step (encoder_layer_ok l src kpm pos L B d) as o; [done..|].
    by apply IH.
Qed.

Lemma encoder_ok e (src : T) kpm pos L B d :
  encoder_wf d e -> shape src = [L; B; d] ->
  opt_shape kpm [B; L] -> opt_shape pos [L; B; d] ->
  exists out, TransformerEncoder.forward e src None kpm pos = Ok out /\
              shape out = [L; B; d].
Proof.
  intros [Hls Hn] Hs Hk Hp. unfold TransformerEncoder.forward.
  step (encoder_run_ok (TransformerEncoder.layers e) src kpm pos L B d) as o; [done..|].
  destruct (TransformerEncoder.norm e) as [n|]; [|eauto].
  apply norm_ok; auto.
Qed.

End KernelLemmas.

(* ===================================================================== *)
(** ** The decoder stack *)
(* ===================================================================== *)

Lemma pop_last {A} (l : list A) (x : A) :
  last l = Some x -> TransformerDecoder.pop l = Ok (take (length l - 1) l) /\
                     take (length l - 1) l ++ [x] = l.
Proof.
  intros H. apply last_Some in H as [l' ->]. split.
  - destruct l'; reflexivity.
  - rewrite length_app. simpl.
    replace (length l' + 1 - 1) with (length l') by lia.
    by rewrite take_app_length.
Qed.

Lemma stack_ok {A} (ts : list (Tensor A)) (s : list nat) :
  ts <> [] -> Forall (fun t => shape t = s) ts ->
  exists hs, stack ts = Ok hs /\ shape hs = length ts :: s /\
             forall x, last ts = Some x ->
                       forall idx, data hs (length ts - 1 :: idx) = data x idx.
Proof.
  intros Hne Hall. destruct ts as [|t ts]; [done|]. unfold stack.
  assert (Hs : all_shape (shape t) ts = true).
  { apply Forall_cons in Hall as [Ht Hts]. unfold all_shape. apply forallb_forall.
    intros t' Hin. apply bool_decide_eq_true. rewrite Ht.
    rewrite Forall_forall in Hts. apply Hts. by apply list_elem_of_In. }
  rewrite Hs. eexists. split; [reflexivity|]. split.
  - simpl. f_equal. by apply Forall_cons in Hall as [Ht _].
  - intros x Hx idx. cbn [data]. f_equal.
    apply last_Some in Hx as [l' Hl']. rewrite Hl'.
    rewrite length_app. simpl. replace (length l' + 1 - 1) with (length l') by lia.
    rewrite app_nth2 by lia. by rewrite Nat.sub_diag.
Qed.

Section DecoderStack.
Context `{K : TorchKernels} {KS : KernelSpec K}.
Local Abbreviation T := (Tensor scalar).
Import TransformerDecoder.

Lemma decoder_run_ok self n ls (output : T) inter memory mkpm pos qpos L S B d :
  norm self = Some n -> normalized_shape n = d ->
  Forall (dec_layer_wf d) ls ->
  shape output = [L; B; d] -> shape memory = [S; B; d] ->
  opt_shape mkpm [B; S] -> opt_shape pos [S; B; d] -> opt_shape qpos [L; B; d] ->
  Forall (fun t : T => shape t = [L; B; d]) inter ->
  exists out inter',
    run self ls output inter memory None None None mkpm pos qpos = Ok (out, inter') /\
    shape out = [L; B; d] /\
    Forall (fun t : T => shape t = [L; B; d]) inter' /\
    (return_intermediate self = false -> inter' = inter) /\
    (return_intermediate self = true ->
       length inter' = length inter + length ls /\
       (ls <> [] -> exists no, layer_norm n out = Ok no /\ last inter' = Some no)).
Proof.
  intros Hn Hd Hls Ho Hm Hmk Hp Hq. revert output inter Ho.
  induction Hls as [|l ls Hl Hls IH]; intros output inter Ho Hi; simpl.
  - exists output, inter. split; [done|]. split; [done|]. split; [done|].
    split; [done|]. intros _. split; [simpl; lia | done].
  - step (decoder_layer_ok l output memory None mkpm pos qpos L S B d) as o; [done..|].
    destruct (return_intermediate self) eqn:Hri.
    + rewrite Hn. simpl.
      destruct (norm_ok n o L B d Hd Ho0) as (no & Hno & Hnos).
      rewrite Hno, !bind_Ok.
      destruct (IH o (inter ++ [no])) as (out & inter' & Hrun & Hout & Hall & _ & Htrue);
        [done| |].
      { apply Forall_app. split; [done|]. by apply Forall_singleton. }
      exists out, inter'. rewrite Hrun. repeat split; auto; try done.
      * destruct (Htrue eq_refl) as [Hlen _]. rewrite Hlen, length_app. simpl. lia.
      * intros _. destruct ls as [|l' ls'].
        -- simpl in Hrun. injection Hrun as <- <-.
           exists no. split; [done|]. by rewrite last_snoc.
        -- destruct (Htrue eq_refl) as [_ Hlast]. by apply Hlast.
    + rewrite bind_Ok.
      destruct (IH o inter) as (out & inter' & Hrun & Hout & Hall & Hfalse & _); [done..|].
      exists out, inter'. rewrite Hrun. repeat split; auto; done.
Qed.

(** Whatever the kernels and the inputs are, a call that returns has returned
    this: with intermediate outputs, the stack of as many collected outputs as
    there are layers, at least one, the last being the final normalisation of
    the last layer's output; without, that final normalisation alone. *)
Lemma decoder_run_inv self n ls (output : T) inter memory tm mm tk mk pos qpos out inter' :
  norm self = Some n -> return_intermediate self = true ->
  run self ls output inter memory tm mm tk mk pos qpos = Ok (out, inter') ->
  length inter' = length inter + length ls /\
  match ls with
  | [] => out = output /\ inter' = inter
  | _ => exists no, layer_norm n out = Ok no /\ last inter' = Some no
  end.
Proof.
  intros Hn Hri. revert output inter.
  induction ls as [|l ls IH]; intros output inter Hrun; simpl in Hrun.
  - injection Hrun as <- <-. split; [simpl; lia | done].
  - destruct (TransformerDecoderLayer.forward l output memory tm mm tk mk pos qpos)
      as [o|e]; [|done].
    rewrite bind_Ok, Hri, Hn in Hrun. simpl in Hrun.
    destruct (layer_norm n o) as [no|e] eqn:Hno; [|done].
    rewrite !bind_Ok in Hrun.
    apply IH in Hrun as [Hlen Hlast]. split.
    + rewrite Hlen, length_app. simpl. lia.
    + destruct ls as [|l' ls'].
      * destruct Hlast as [-> ->]. exists no. split; [done|]. by rewrite last_snoc.
      * done.
Qed.

Lemma decoder_forward_inv self n (tgt memory : T) tm mm tk mk pos qpos hs :
  norm self = Some n -> return_intermediate self = true ->
  forward self tgt memory tm mm tk mk pos qpos = Ok hs ->
  exists inter out no,
    last_layer_output self tgt memory tm mm tk mk pos qpos = Ok out /\
    layer_norm n out = Ok no /\
    stack inter = Ok hs /\ length inter = length (layers self) /\
    1 <= length (layers self) /\ last inter = Some no.
Proof.
  intros Hn Hri Hf. unfold forward, last_layer_output in *.
  destruct (run self (layers self) tgt [] memory tm mm tk mk pos qpos)
    as [[out inter]|e] eqn:Hrun; [|done].
  rewrite bind_Ok in Hf. rewrite Hn in Hf.
  destruct (layer_norm n out) as [no|e] eqn:Hno; [|done].
  rewrite bind_Ok, Hri in Hf.
  apply (decoder_run_inv self n) in Hrun as [Hlen Hlast]; [|done..].
  simpl in Hlen.
  destruct (layers self) as [|l ls] eqn:El.
  - destruct Hlast as [_ ->]. done.
  - destruct Hlast as (no' & Hno' & Hlast).
    assert (no' = no) as -> by congruence.
    destruct (pop_last inter no Hlast) as [Hpop Hsnoc].
    rewrite Hpop, !bind_Ok, Hsnoc in Hf.
    exists inter, out, no. rewrite bind_Ok. repeat split; try done. simpl. lia.
Qed.

Lemma decoder_forward_final_inv self n (tgt memory : T) tm mm tk mk pos qpos x :
  norm self = Some n -> return_intermediate self = false ->
  forward self tgt memory tm mm tk mk pos qpos = Ok x ->
  exists out,
    last_layer_output self tgt memory tm mm tk mk pos qpos = Ok out /\
    layer_norm n out = Ok x.
Proof.
  intros Hn Hri Hf. unfold forward, last_layer_output in *.
  destruct (run self (layers self) tgt [] memory tm mm tk mk pos qpos)
    as [[out inter]|e] eqn:Hrun; [|done].
  rewrite bind_Ok in Hf. rewrite Hn in Hf.
  destruct (layer_norm n out) as [no|e] eqn:Hno; [|done].
  rewrite bind_Ok, Hri, bind_Ok in Hf. injection Hf as <-.
  exists out. by rewrite bind_Ok.
Qed.

(** Without a final normalisation, collecting intermediate outputs calls
    [None]. *)
Lemma decoder_without_norm_raises self l ls (tgt memory : T) tm mm tk mk pos qpos o :
  norm self = None -> return_intermediate self = true -> layers self = l :: ls ->
  TransformerDecoderLayer.forward l tgt memory tm mm tk mk pos qpos = Ok o ->
  forward self tgt memory tm mm tk mk pos qpos = Err TypeError.
Proof.
  intros Hn Hri Hl Ho. unfold forward. rewrite Hl. simpl. by rewrite Ho, bind_Ok, Hri, Hn.
Qed.

End DecoderStack.

Lemma set_last_snoc (s : list nat) (a b : nat) : Toy.set_last (s ++ [a]) b = s ++ [b].
Proof.
  unfold Toy.set_last. rewrite length_app. simpl.
  replace (length s + 1 - 1) with (length s) by lia.
  by rewrite take_app_length.
Qed.

(** The toy kernels meet the shape contracts. *)
#[global] Instance toy_spec : KernelSpec Toy.kernels.
Proof.
  split; simpl.
  - intros m q k v kpm L S B _ _ Hq _ _ _. eauto.
  - intros l x s Hx. unfold Toy.toy_linear. rewrite Hx, last_snoc.
    rewrite bool_decide_eq_true_2 by done.
    eexists. split; [reflexivity|]. simpl. apply set_last_snoc.
  - intros n x s _. eauto.
  - intros d x. eauto.
  - intros x. eauto.
  - intros x. eauto.
Qed.

Section DecoderForward.
Context `{K : TorchKernels} {KS : KernelSpec K}.
Local Abbreviation T := (Tensor scalar).
Import TransformerDecoder.

(** The decoder on well-shaped inputs: what it returns in both modes. *)
Lemma decoder_forward_ok self (tgt memory : T) mkpm pos qpos L S B d M ri :
  decoder_wf d M ri self -> (ri = true -> 1 <= M) ->
  shape tgt = [L; B; d] -> shape memory = [S; B; d] ->
  opt_shape mkpm [B; S] -> opt_shape pos [S; B; d] -> opt_shape qpos [L; B; d] ->
  exists out no,
    last_layer_output self tgt memory None None None mkpm pos qpos = Ok out /\
    call_norm (norm self) out = Ok no /\ shape no = [L; B; d] /\
    if ri then
      exists inter hs,
        forward self tgt memory None None None mkpm pos qpos = Ok hs /\
        stack inter = Ok hs /\ length inter = M /\ last inter = Some no /\
        shape hs = [M; L; B; d] /\
        forall idx, data hs (M - 1 :: idx) = data no idx
    else forward self tgt memory None None None mkpm pos qpos = Ok no.
Proof.
  intros (Hls & Hlen & _ & (n & Hn & Hd) & Hri) HM Ht Hm Hmk Hp Hq.
  destruct (decoder_run_ok self n (layers self) tgt [] memory mkpm pos qpos L S B d)
    as (out & inter & Hrun & Hout & Hall & Hfalse & Htrue); [done..|].
  destruct (norm_ok n out L B d Hd Hout) as (no & Hno & Hnos).
  exists out, no. unfold last_layer_output, forward. rewrite Hrun, !bind_Ok, Hn.
  split; [done|]. split; [done|]. split; [done|].
  rewrite Hno, bind_Ok, Hri. destruct ri.
  - destruct (Htrue Hri) as [Hl Hlast]. simpl in Hl. rewrite Hlen in Hl.
    destruct Hlast as (no' & Hno' & Hlast).
    { intros E. rewrite E in Hlen. simpl in Hlen. specialize (HM eq_refl). lia. }
    assert (no' = no) as -> by congruence.
    destruct (pop_last inter no Hlast) as [Hpop Hsnoc].
    rewrite Hpop, !bind_Ok, Hsnoc.
    destruct (stack_ok inter [L; B; d]) as (hs & Hst & Hsh & Hdat); [|done|].
    { intros E. rewrite E in Hlast. done. }
    exists inter, hs. rewrite Hl in Hsh, Hdat. repeat split; auto.
  - rewrite bind_Ok. done.
Qed.

End DecoderForward.

(* ===================================================================== *)
(** ** Construction yields well-formed modules *)
(* ===================================================================== *)

Lemma ctor_bind_Ok {A B} (c : ctor A) (f : A -> ctor B) rng b rng' :
  (c ≫= f) rng = Ok (b, rng') ->
  exists a r1, c rng = Ok (a, r1) /\ f a r1 = Ok (b, rng').
Proof.
  unfold mbind, ctor_bind. destruct (c rng) as [[a r1]|e]; [eauto | done].
Qed.

Lemma ctor_bind_run {A B} (c : ctor A) (f : A -> ctor B) rng a r1 :
  c rng = Ok (a, r1) -> (c ≫= f) rng = f a r1.
Proof. intros H. unfold mbind, ctor_bind. by rewrite H. Qed.

Lemma get_activation_fn_Ok activation f :
  _get_activation_fn activation = Ok f ->
  (activation = "relu" /\ f = F_relu) \/ (activation = "gelu" /\ f = F_gelu) \/
  (activation = "glu" /\ f = F_glu).
Proof.
  unfold _get_activation_fn.
  destruct (String.eqb_spec activation "relu") as [->|_]; [intros [= <-]; auto|].
  destruct (String.eqb_spec activation "gelu") as [->|_]; [intros [= <-]; auto|].
  destruct (String.eqb_spec activation "glu") as [->|_]; [intros [= <-]; auto|].
  done.
Qed.

Lemma lift_Ok {A} (r : result A) rng a rng' :
  lift r rng = Ok (a, rng') -> r = Ok a /\ rng' = rng.
Proof. destruct r; simpl; [by intros [= -> ->] | done]. Qed.

(** The attention module is built exactly when there is a head and the
    heads divide the width. *)
Lemma nn_MultiheadAttention_Ok d nhead dp rng m rng' :
  nn_MultiheadAttention d nhead dp rng = Ok (m, rng') ->
  0 < nhead /\ d mod nhead = 0 /\
  m = {| embed_dim := d; num_heads := nhead; attn_dropout := dp; mha_params := Drawn rng |} /\
  rng' = S rng.
Proof.
  unfold nn_MultiheadAttention.
  destruct (Nat.eqb_spec nhead 0) as [->|Hn]; [done|].
  destruct (Nat.eqb_spec (d / nhead * nhead) d) as [Hd|Hd]; simpl; [|done].
  intros [= <- <-]. split; [lia|]. split; [|done].
  pose proof (Nat.div_mod_eq d nhead). lia.
Qed.

Lemma nn_MultiheadAttention_run d nhead dp rng :
  0 < nhead -> d mod nhead = 0 ->
  nn_MultiheadAttention d nhead dp rng =
  Ok ({| embed_dim := d; num_heads := nhead; attn_dropout := dp; mha_params := Drawn rng |},
      S rng).
Proof.
  intros Hn Hd. unfold nn_MultiheadAttention.
  destruct (Nat.eqb_spec nhead 0) as [->|_]; [lia|].
  destruct (Nat.eqb_spec (d / nhead * nhead) d) as [_|Hne]; [reflexivity|].
  exfalso. apply Hne. pose proof (Nat.div_mod_eq d nhead). lia.
Qed.

Lemma nn_Dropout_Ok dp dr : nn_Dropout dp = Ok dr -> dr = {| p := dp |} /\ (0 <= dp <= 1)%Q.
Proof.
  unfold nn_Dropout.
  destruct (Qle_bool 0 dp) eqn:E0; [|done]. destruct (Qle_bool dp 1) eqn:E1; [|done].
  simpl. intros [= <-]. split; [done|]. split; by apply Qle_bool_iff.
Qed.

Lemma nn_Dropout_run dp : (0 <= dp <= 1)%Q -> nn_Dropout dp = Ok {| p := dp |}.
Proof.
  intros [H0 H1]. unfold nn_Dropout.
  by rewrite (proj2 (Qle_bool_iff 0 dp) H0), (proj2 (Qle_bool_iff dp 1) H1).
Qed.

(** The steps of the layer constructors, read back from their result. *)
Lemma encoder_layer_init_inv d nhead ff dp activation nb rng l rng' :
  TransformerEncoderLayer.__init__ d nhead ff dp activation nb rng = Ok (l, rng') ->
  exists f,
    _get_activation_fn activation = Ok f /\ 0 < nhead /\ d mod nhead = 0 /\
    (0 <= dp <= 1)%Q /\ rng' = 3 + rng /\
    l = {| TransformerEncoderLayer.self_attn :=
             {| embed_dim := d; num_heads := nhead; attn_dropout := dp;
                mha_params := Drawn rng |};
           TransformerEncoderLayer.linear1 :=
             {| in_features := d; out_features := ff; lin_params := Drawn (1 + rng) |};
           TransformerEncoderLayer.dropout := {| p := dp |};
           TransformerEncoderLayer.linear2 :=
             {| in_features := ff; out_features := d; lin_params := Drawn (2 + rng) |};
           TransformerEncoderLayer.norm1 := nn_LayerNorm d;
           TransformerEncoderLayer.norm2 := nn_LayerNorm d;
           TransformerEncoderLayer.dropout1 := {| p := dp |};
           TransformerEncoderLayer.dropout2 := {| p := dp |};
           TransformerEncoderLayer.activation := f;
           TransformerEncoderLayer.normalize_before := nb |}.
Proof.
  unfold TransformerEncoderLayer.__init__. intros H.
  apply ctor_bind_Ok in H as (a & r1 & Ha & H).
  apply nn_MultiheadAttention_Ok in Ha as (Hh & Hm & -> & ->).
  apply ctor_bind_Ok in H as (l1 & r2 & Hl1 & H). injection Hl1 as <- <-.
  apply ctor_bind_Ok in H as (d0 & r3 & Hd0 & H).
  apply lift_Ok in Hd0 as [Hd0 ->]. apply nn_Dropout_Ok in Hd0 as [-> Hdp].
  apply ctor_bind_Ok in H as (l2 & r4 & Hl2 & H). injection Hl2 as <- <-.
  apply ctor_bind_Ok in H as (d1 & r5 & Hd1 & H).
  apply lift_Ok in Hd1 as [Hd1 ->]. apply nn_Dropout_Ok in Hd1 as [-> _].
  apply ctor_bind_Ok in H as (d2 & r6 & Hd2 & H).
  apply lift_Ok in Hd2 as [Hd2 ->]. apply nn_Dropout_Ok in Hd2 as [-> _].
  apply ctor_bind_Ok in H as (f & r7 & Hf & H).
  apply lift_Ok in Hf as [Hf ->]. injection H as <- <-.
  exists f. repeat (split; [done|]). done.
Qed.

Lemma decoder_layer_init_inv d nhead ff dp activation nb rng l rng' :
  TransformerDecoderLayer.__init__ d nhead ff dp activation nb rng = Ok (l, rng') ->
  exists f,
    _get_activation_fn activation = Ok f /\ 0 < nhead /\ d mod nhead = 0 /\
    (0 <= dp <= 1)%Q /\ rng' = 4 + rng /\
    l = {| TransformerDecoderLayer.self_attn :=
             {| embed_dim := d; num_heads := nhead; attn_dropout := dp;
                mha_params := Drawn rng |};
           TransformerDecoderLayer.multihead_attn :=
             {| embed_dim := d; num_heads := nhead; attn_dropout := dp;
                mha_params := Drawn (1 + rng) |};
           TransformerDecoderLayer.linear1 :=
             {| in_features := d; out_features := ff; lin_params := Drawn (2 + rng) |};
           TransformerDecoderLayer.dropout := {| p := dp |};
           TransformerDecoderLayer.linear2 :=
             {| in_features := ff; out_features := d; lin_params := Drawn (3 + rng) |};
           TransformerDecoderLayer.norm1 := nn_LayerNorm d;
           TransformerDecoderLayer.norm2 := nn_LayerNorm d;
           TransformerDecoderLayer.norm3 := nn_LayerNorm d;
           TransformerDecoderLayer.dropout1 := {| p := dp |};
           TransformerDecoderLayer.dropout2 := {| p := dp |};
           TransformerDecoderLayer.dropout3 := {| p := dp |};
           TransformerDecoderLayer.activation := f;
           TransformerDecoderLayer.normalize_before := nb |}.
Proof.
  unfold TransformerDecoderLayer.__init__. intros H.
  apply ctor_bind_Ok in H as (a & r1 & Ha & H).
  apply nn_MultiheadAttention_Ok in Ha as (Hh & Hm & -> & ->).
  apply ctor_bind_Ok in H as (c & r1' & Hc & H).
  apply nn_MultiheadAttention_Ok in Hc as (_ & _ & -> & ->).
  apply ctor_bind_Ok in H as (l1 & r2 & Hl1 & H). injection Hl1 as <- <-.
  apply ctor_bind_Ok in H as (d0 & r3 & Hd0 & H).
  apply lift_Ok in Hd0 as [Hd0 ->]. apply nn_Dropout_Ok in Hd0 as [-> Hdp].
  apply ctor_bind_Ok in H as (l2 & r4 & Hl2 & H). injection Hl2 as <- <-.
  apply ctor_bind_Ok in H as (d1 & r5 & Hd1 & H).
  apply lift_Ok in Hd1 as [Hd1 ->]. apply nn_Dropout_Ok in Hd1 as [-> _].
  apply ctor_bind_Ok in H as (d2 & r6 & Hd2 & H).
  apply lift_Ok in Hd2 as [Hd2 ->]. apply nn_Dropout_Ok in Hd2 as [-> _].
  apply ctor_bind_Ok in H as (d3 & r7 & Hd3 & H).
  apply lift_Ok in Hd3 as [Hd3 ->]. apply nn_Dropout_Ok in Hd3 as [-> _].
  apply ctor_bind_Ok in H as (f & r8 & Hf & H).
  apply lift_Ok in Hf as [Hf ->]. injection H as <- <-.
  exists f. repeat (split; [done|]). done.
Qed.

(** The layer constructors return for a width the heads divide, a
    probability in [0, 1] and a known activation name. *)
Lemma encoder_layer_init_run d nhead ff dp activation nb rng f :
  0 < nhead -> d mod nhead = 0 -> (0 <= dp <= 1)%Q ->
  _get_activation_fn activation = Ok f ->
  exists l, TransformerEncoderLayer.__init__ d nhead ff dp activation nb rng
            = Ok (l, 3 + rng).
Proof.
  intros Hh Hm Hdp Hf. unfold TransformerEncoderLayer.__init__.
  rewrite (ctor_bind_run _ _ _ _ _ (nn_MultiheadAttention_run d nhead dp rng Hh Hm)).
  rewrite (nn_Dropout_run dp Hdp), Hf. eexists. reflexivity.
Qed.

Lemma decoder_layer_init_run d nhead ff dp activation nb rng f :
  0 < nhead -> d mod nhead = 0 -> (0 <= dp <= 1)%Q ->
  _get_activation_fn activation = Ok f ->
  exists l, TransformerDecoderLayer.__init__ d nhead ff dp activation nb rng
            = Ok (l, 4 + rng).
Proof.
  intros Hh Hm Hdp Hf. unfold TransformerDecoderLayer.__init__.
  rewrite (ctor_bind_run _ _ _ _ _ (nn_MultiheadAttention_run d nhead dp rng Hh Hm)).
  rewrite (ctor_bind_run _ _ _ _ _ (nn_MultiheadAttention_run d nhead dp (S rng) Hh Hm)).
  rewrite (nn_Dropout_run dp Hdp), Hf. eexists. reflexivity.
Qed.

Lemma encoder_layer_init_wf d nhead ff dp activation nb rng l rng' :
  TransformerEncoderLayer.__init__ d nhead ff dp activation nb rng = Ok (l, rng') ->
  activation <> "glu" -> 0 < nhead -> d mod nhead = 0 ->
  enc_layer_wf d l.
Proof.
  intros H Hact Hh Hm.
  apply encoder_layer_init_inv in H as (f & Hf & _ & _ & _ & _ & ->).
  apply get_activation_fn_Ok in Hf as [[-> ->]|[[-> ->]|[-> ->]]]; [| |done];
    repeat split; simpl; auto; done.
Qed.

Lemma encoder_layer_xavier_wf d l rng :
  enc_layer_wf d l ->
  exists l', TransformerEncoderLayer.xavier l rng = Ok (l', 3 + rng) /\ enc_layer_wf d l'.
Proof.
  intros (Ha & Hm & Hn1 & Hn2). eexists. split; [reflexivity|].
  repeat split; simpl; try apply Ha; try apply Hm; done.
Qed.

Lemma decoder_layer_init_wf d nhead ff dp activation nb rng l rng' :
  TransformerDecoderLayer.__init__ d nhead ff dp activation nb rng = Ok (l, rng') ->
  activation <> "glu" -> 0 < nhead -> d mod nhead = 0 ->
  dec_layer_wf d l.
Proof.
  intros H Hact Hh Hm.
  apply decoder_layer_init_inv in H as (f & Hf & _ & _ & _ & _ & ->).
  apply get_activation_fn_Ok in Hf as [[-> ->]|[[-> ->]|[-> ->]]]; [| |done];
    repeat split; simpl; auto; done.
Qed.

Lemma decoder_layer_xavier_wf d l rng :
  dec_layer_wf d l ->
  exists l', TransformerDecoderLayer.xavier l rng = Ok (l', 4 + rng) /\ dec_layer_wf d l'.
Proof.
  intros (Ha & Hc & Hm & Hn1 & Hn2 & Hn3). eexists. split; [reflexivity|].
  repeat split; simpl; try apply Ha; try apply Hc; try apply Hm; done.
Qed.

Lemma get_clones_Forall {A} (P : A -> Prop) (module : A) N :
  P module -> Forall P (_get_clones module N).
Proof.
  intros H. unfold _get_clones, deepcopy. apply Forall_forall. intros x Hx.
  apply list_elem_of_In, in_map_iff in Hx as (? & <- & _). done.
Qed.

Lemma get_clones_length {A} (module : A) N : length (_get_clones module N) = N.
Proof. unfold _get_clones. by rewrite length_map, length_seq. Qed.

Lemma mapM_xavier_encoder d ls rng :
  Forall (enc_layer_wf d) ls ->
  exists ls' rng', mapM TransformerEncoderLayer.xavier ls rng = Ok (ls', rng') /\
                   Forall (enc_layer_wf d) ls'.
Proof.
  intros H. revert rng. induction H as [|l ls Hl Hls IH]; intros rng.
  - exists [], rng. split; [reflexivity | constructor].
  - destruct (encoder_layer_xavier_wf d l rng Hl) as (l' & Hx & Hl').
    destruct (IH (3 + rng)) as (ls' & rng' & Hm & Hls').
    exists (l' :: ls'), rng'. split; [|by constructor].
    change (mapM TransformerEncoderLayer.xavier (l :: ls) rng) with
      ((y ← TransformerEncoderLayer.xavier l;
        k ← mapM TransformerEncoderLayer.xavier ls; mret (y :: k)) rng).
    rewrite (ctor_bind_run _ _ _ _ _ Hx), (ctor_bind_run _ _ _ _ _ Hm). reflexivity.
Qed.

Lemma mapM_xavier_decoder d ls rng :
  Forall (dec_layer_wf d) ls ->
  exists ls' rng', mapM TransformerDecoderLayer.xavier ls rng = Ok (ls', rng') /\
                   Forall (dec_layer_wf d) ls' /\ length ls' = length ls.
Proof.
  intros H. revert rng. induction H as [|l ls Hl Hls IH]; intros rng.
  - exists [], rng. split; [reflexivity | split; [constructor | done]].
  - destruct (decoder_layer_xavier_wf d l rng Hl) as (l' & Hx & Hl').
    destruct (IH (4 + rng)) as (ls' & rng' & Hm & Hls' & Hlen).
    exists (l' :: ls'), rng'. split; [|split; [by constructor | simpl; by rewrite Hlen]].
    change (mapM TransformerDecoderLayer.xavier (l :: ls) rng) with
      ((y ← TransformerDecoderLayer.xavier l;
        k ← mapM TransformerDecoderLayer.xavier ls; mret (y :: k)) rng).
    rewrite (ctor_bind_run _ _ _ _ _ Hx), (ctor_bind_run _ _ _ _ _ Hm). reflexivity.
Qed.

Lemma encoder_xavier_wf d e rng :
  encoder_wf d e ->
  exists e' rng', TransformerEncoder.xavier e rng = Ok (e', rng') /\ encoder_wf d e'.
Proof.
  intros [Hls Hn]. unfold TransformerEncoder.xavier.
  destruct (mapM_xavier_encoder d _ rng Hls) as (ls' & rng' & Hm & Hls').
  eexists _, rng'. rewrite (ctor_bind_run _ _ _ _ _ Hm). split; [reflexivity|].
  split; simpl; done.
Qed.

Lemma decoder_init_wf d M ri layer n :
  dec_layer_wf d layer -> normalized_shape n = d ->
  decoder_wf d M ri (TransformerDecoder.__init__ layer M (Some n) ri).
Proof.
  intros Hl Hn. unfold decoder_wf, TransformerDecoder.__init__. simpl.
  split; [by apply get_clones_Forall|]. split; [apply get_clones_length|].
  split; [done|]. split; [eauto | done].
Qed.

Lemma decoder_xavier_wf d M ri dec rng :
  decoder_wf d M ri dec ->
  exists dec' rng', TransformerDecoder.xavier dec rng = Ok (dec', rng') /\
                    decoder_wf d M ri dec'.
Proof.
  intros (Hls & Hlen & Hnum & Hn & Hri). unfold TransformerDecoder.xavier.
  destruct (mapM_xavier_decoder d _ rng Hls) as (ls' & rng' & Hm & Hls' & Hlen').
  eexists _, rng'. rewrite (ctor_bind_run _ _ _ _ _ Hm). split; [reflexivity|].
  repeat split; simpl; try done. congruence.
Qed.

Lemma projection_xavier_wf de dd pr rng :
  proj_wf de dd pr ->
  exists pr' rng', xavier_Projection pr rng = Ok (pr', rng') /\ proj_wf de dd pr'.
Proof.
  destruct pr as [|l]; simpl; intros H.
  - exists Identity, rng. done.
  - eexists _, _. split; [reflexivity|]. done.
Qed.

Lemma build_decoder_layer_wf dd nhead M ff dp activation nb ri rng dec rng' :
  MTTransformer.build_decoder_layer dd nhead M ff dp activation nb ri rng = Ok (dec, rng') ->
  activation <> "glu" -> 0 < nhead -> dd mod nhead = 0 ->
  decoder_wf dd M ri dec.
Proof.
  unfold MTTransformer.build_decoder_layer. intros H Hact Hh Hm.
  apply ctor_bind_Ok in H as (layer & r1 & Hl & H).
  injection H as <- <-.
  apply decoder_init_wf; [|done].
  by eapply decoder_layer_init_wf.
Qed.

Lemma reset_parameters_wf de dd M ri tr rng :
  transformer_wf de dd M ri tr ->
  exists tr' rng', Transformer._reset_parameters tr rng = Ok (tr', rng') /\
    transformer_wf de dd M ri tr' /\
    Transformer.args tr' = Transformer.args tr /\
    Transformer.pass_pos_and_query tr' = Transformer.pass_pos_and_query tr.
Proof.
  intros (He & Hp1 & Hp2 & dec & Hdec & Hd). unfold Transformer._reset_parameters.
  destruct (encoder_xavier_wf de _ rng He) as (e' & r1 & Hx1 & He').
  destruct (projection_xavier_wf de dd _ r1 Hp1) as (p1 & r2 & Hx2 & Hp1').
  destruct (projection_xavier_wf de dd _ r2 Hp2) as (p2 & r3 & Hx3 & Hp2').
  destruct (decoder_xavier_wf dd M ri dec r3 Hd) as (dec' & r4 & Hx4 & Hd').
  eexists _, r4.
  rewrite (ctor_bind_run _ _ _ _ _ Hx1), (ctor_bind_run _ _ _ _ _ Hx2),
    (ctor_bind_run _ _ _ _ _ Hx3), Hdec.
  rewrite (ctor_bind_run _ _ r3 (Some dec') r4).
  2:{ by rewrite (ctor_bind_run _ _ _ _ _ Hx4). }
  split; [reflexivity|]. split; [|done].
  split; [exact He'|]. split; [exact Hp1'|]. split; [exact Hp2'|].
  exists dec'. done.
Qed.

Lemma transformer_init_wf a de dd nhead Ne M ff dp activation nb ri ppq share rng tr rng' :
  Transformer.__init__ a de dd nhead Ne M ff dp activation nb ri ppq share rng
    = Ok (tr, rng') ->
  activation <> "glu" -> 0 < nhead -> de mod nhead = 0 -> dd mod nhead = 0 ->
  transformer_wf de dd M ri tr /\ Transformer.args tr = a /\
  Transformer.pass_pos_and_query tr = ppq.
Proof.
  unfold Transformer.__init__. intros H Hact Hh Hme Hmd.
  apply ctor_bind_Ok in H as (el & r1 & Hel & H).
  apply ctor_bind_Ok in H as ([p1 p2] & r2 & Hpr & H).
  apply ctor_bind_Ok in H as (dl & r3 & Hdl & H).
  apply encoder_layer_init_wf in Hel; [|done..].
  apply decoder_layer_init_wf in Hdl; [|done..].
  assert (Hp : proj_wf de dd p1 /\ proj_wf de dd p2).
  { destruct (bool_decide (dd ≠ de)) eqn:E.
    - cbn in Hpr. injection Hpr as <- <- _. done.
    - cbn in Hpr. injection Hpr as <- <- _. apply bool_decide_eq_false in E.
      assert (dd = de) by (destruct (decide (dd = de)); [done | contradiction]).
      simpl. done. }
  destruct Hp as [Hp1 Hp2].
  match type of H with Transformer._reset_parameters ?t _ = _ =>
    destruct (reset_parameters_wf de dd M ri t r3) as (tr' & r' & Hr & Hwf & Ha & Hq)
  end.
  { split; simpl.
    - split; simpl; [by apply get_clones_Forall|].
      destruct nb; [intros n [= <-]; done | done].
    - split; [done|]. split; [done|]. eexists. split; [reflexivity|].
      by apply decoder_init_wf. }
  rewrite Hr in H. injection H as <- <-. done.
Qed.

Section Registry.
Variables (dd nhead M ff : nat) (dp : Q) (activation : string) (nb ri share : bool).
Variable Q : option TransformerDecoder.t -> Prop.

Local Abbreviation fill_task_dict :=
  (MTTransformer.fill_task_dict dd nhead M ff dp activation nb ri share).
Local Abbreviation fill_decoders :=
  (MTTransformer.fill_decoders dd nhead M ff dp activation nb ri share).

Hypothesis built_Q : share = false -> forall r d r',
  MTTransformer.build_decoder_layer dd nhead M ff dp activation nb ri r = Ok (d, r') ->
  Q (Some d).

Lemma fill_task_dict_spec datasets sd
    (td : gmap string (option TransformerDecoder.t)) rng sd' td' rng' :
  fill_task_dict datasets sd td rng = Ok ((sd', td'), rng') ->
  (share = true -> Q sd) ->
  (forall ds d, td !! ds = Some d -> Q d) ->
  (share = true -> sd' = sd) /\
  (forall ds d, td' !! ds = Some d -> Q d) /\
  (forall ds, is_Some (td' !! ds) <->
              is_Some (td !! ds) \/ exists n, (ds, n) ∈ datasets).
Proof.
  revert sd td rng. induction datasets as [|[dataset n] rest IH]; intros sd td rng H Hsd Htd.
  - injection H as <- <- _. split; [done|]. split; [done|].
    intros ds. split; [auto|]. intros [?|[? Hin]]; [done|]. by apply elem_of_nil in Hin.
  - simpl in H. destruct share eqn:Hshare.
    + apply IH in H as (Hs & Hq & Hdom); [|done|].
      2:{ intros ds d. destruct (decide (dataset = ds)) as [->|Hne].
          - rewrite lookup_insert_eq. intros [= <-]. by apply Hsd.
          - rewrite lookup_insert_ne by done. apply Htd. }
      split; [done|]. split; [done|]. intros ds. rewrite Hdom.
      destruct (decide (dataset = ds)) as [->|Hne].
      * rewrite lookup_insert_eq. split; [|eauto].
        intros _. right. exists n. left.
      * rewrite lookup_insert_ne by done. split.
        -- intros [?|[k Hin]]; [auto|]. right. exists k. by right.
        -- intros [?|[k Hin]]; [auto|]. apply elem_of_cons in Hin as [[= ? ?]|Hin]; [done|].
           right. eauto.
    + apply ctor_bind_Ok in H as (d & r1 & Hd & H).
      apply IH in H as (Hs & Hq & Hdom); [|done|].
      2:{ intros ds d0. destruct (decide (dataset = ds)) as [->|Hne].
          - rewrite lookup_insert_eq. intros [= <-]. by eapply built_Q.
          - rewrite lookup_insert_ne by done. apply Htd. }
      split; [done|]. split; [done|]. intros ds. rewrite Hdom.
      destruct (decide (dataset = ds)) as [->|Hne].
      * rewrite lookup_insert_eq. split; [|eauto].
        intros _. right. exists n. left.
      * rewrite lookup_insert_ne by done. split.
        -- intros [?|[k Hin]]; [auto|]. right. exists k. by right.
        -- intros [?|[k Hin]]; [auto|]. apply elem_of_cons in Hin as [[= ? ?]|Hin]; [done|].
           right. eauto.
Qed.

Lemma fill_decoders_spec tasks sd
    (decs : gmap string (gmap string (option TransformerDecoder.t))) rng sd' decs' rng' :
  fill_decoders tasks sd decs rng = Ok ((sd', decs'), rng') ->
  (share = true -> Q sd) ->
  (forall task ds d, entry_at decs task ds = Some d -> Q d) ->
  (share = true -> sd' = sd) /\
  (forall task ds d, entry_at decs' task ds = Some d -> Q d) /\
  (NoDup (tasks.*1) ->
   forall task ds, is_Some (entry_at decs' task ds) <->
     (is_Some (entry_at decs task ds) /\ task ∉ tasks.*1) \/
     exists datasets n, (task, datasets) ∈ tasks /\ (ds, n) ∈ datasets).
Proof.
  revert sd decs rng. induction tasks as [|[task0 datasets0] rest IH];
    intros sd decs rng H Hsd Hdecs.
  - injection H as <- <- _. split; [done|]. split; [done|].
    intros _ task ds. split.
    + intros ?. left. split; [done|]. apply not_elem_of_nil.
    + intros [[? _]|(? & ? & Hin & _)]; [done|]. by apply elem_of_nil in Hin.
  - simpl in H. apply ctor_bind_Ok in H as ([sd1 td1] & r1 & Hfill & H).
    apply fill_task_dict_spec in Hfill as (Hs1 & Hq1 & Hdom1); [|done|].
    2:{ intros ds d. by rewrite lookup_empty. }
    apply IH in H as (Hs & Hq & Hdom).
    2:{ intros E. rewrite (Hs1 E). by apply Hsd. }
    2:{ intros task ds d. unfold entry_at.
        destruct (decide (task0 = task)) as [->|Hne].
        - rewrite (lookup_insert_eq (M:=gmap string)). simpl. apply Hq1.
        - rewrite (lookup_insert_ne (M:=gmap string)) by done. apply Hdecs. }
    split; [intros E; rewrite (Hs E); by apply Hs1|]. split; [done|].
    intros Hnd task ds. simpl in Hnd. apply NoDup_cons in Hnd as [Hnin Hnd].
    rewrite (Hdom Hnd). unfold entry_at at 1.
    destruct (decide (task0 = task)) as [->|Hne].
    + rewrite (lookup_insert_eq (M:=gmap string)). simpl. rewrite Hdom1, lookup_empty. split.
      * intros [[[Hn|(n & Hin)] _]|(dsets & n & Hin & Hds)].
        -- by destruct Hn.
        -- right. exists datasets0, n. split; [left | done].
        -- right. exists dsets, n. split; [by right | done].
      * intros [[_ Hn]|(dsets & n & Hin & Hds)].
        -- exfalso. apply Hn. simpl. left.
        -- apply elem_of_cons in Hin as [[= <-]|Hin].
           ++ left. split; [right; eauto | done].
           ++ exfalso. apply Hnin. apply list_elem_of_fmap. exists (task, dsets). done.
    + rewrite (lookup_insert_ne (M:=gmap string)) by done. fold (entry_at decs task ds). split.
      * intros [[Hd Hn]|(dsets & n & Hin & Hds)].
        -- left. split; [done|]. simpl. intros Hc. apply elem_of_cons in Hc as [?|?]; done.
        -- right. exists dsets, n. split; [by right | done].
      * intros [[Hd Hn]|(dsets & n & Hin & Hds)].
        -- left. split; [done|]. intros Hc. apply Hn. simpl. by right.
        -- apply elem_of_cons in Hin as [[= ? ?]|Hin]; [done|].
           right. eauto.
Qed.

End Registry.

Lemma lookup_decoder_entry m task dataset d :
  MTTransformer.lookup_decoder m task dataset = Ok d <->
  entry_at (MTTransformer.decoders m) task dataset = Some d.
Proof.
  unfold MTTransformer.lookup_decoder, entry_at.
  destruct (MTTransformer.decoders m !! task) as [td|]; simpl; [|done].
  destruct (td !! dataset); split; congruence.
Qed.

Lemma lookup_decoder_KeyError m task dataset :
  entry_at (MTTransformer.decoders m) task dataset = None ->
  exists key, MTTransformer.lookup_decoder m task dataset = Err (KeyError key).
Proof.
  unfold MTTransformer.lookup_decoder, entry_at.
  destruct (MTTransformer.decoders m !! task) as [td|]; simpl; [|eauto].
  destruct (td !! dataset); [done | eauto].
Qed.

Lemma transformer_init_decoder a de dd nhead Ne M ff dp activation nb ri ppq share rng tr rng' :
  Transformer.__init__ a de dd nhead Ne M ff dp activation nb ri ppq share rng
    = Ok (tr, rng') ->
  (exists dec, Transformer.decoder tr = Some dec) /\
  Transformer.args tr = a /\ Transformer.pass_pos_and_query tr = ppq.
Proof.
  unfold Transformer.__init__. intros H.
  apply ctor_bind_Ok in H as (el & r1 & _ & H).
  apply ctor_bind_Ok in H as ([p1 p2] & r2 & _ & H).
  apply ctor_bind_Ok in H as (dl & r3 & _ & H).
  unfold Transformer._reset_parameters in H.
  apply ctor_bind_Ok in H as (e' & r4 & _ & H).
  apply ctor_bind_Ok in H as (q1 & r5 & _ & H).
  apply ctor_bind_Ok in H as (q2 & r6 & _ & H).
  apply ctor_bind_Ok in H as (dec & r7 & Hdec & H).
  injection H as <- <-. simpl in *.
  apply ctor_bind_Ok in Hdec as (d' & r8 & _ & Hdec).
  injection Hdec as <- _. eauto.
Qed.

Lemma mt_init_fields a de dd nhead Ne M ff dp activation nb ri ppq share rng m rng' :
  MTTransformer.__init__ a de dd nhead Ne M ff dp activation nb ri ppq share rng
    = Ok (m, rng') ->
  MTTransformer.args m = a /\ MTTransformer.pass_pos_and_query m = ppq /\
  emb_wf (use_task_embedding_in_decoder a) dd (MTTransformer.task_embeddings_dec m) /\
  MTTransformer.hs_out_begin_idx m = (if use_task_embedding_in_decoder a then 1 else 0).
Proof.
  intros H. unfold MTTransformer.__init__ in H.
  apply ctor_bind_Ok in H as (tr & r1 & Htr & H).
  apply ctor_bind_Ok in H as ([sd decs] & r2 & Hfill & H).
  apply ctor_bind_Ok in H as (enc & r3 & Henc & H).
  apply ctor_bind_Ok in H as (dec & r4 & Hdec & H).
  injection H as <- _.
  apply transformer_init_decoder in Htr as (_ & Ha & Hp).
  unfold MTTransformer.args, MTTransformer.pass_pos_and_query. simpl.
  split; [done|]. split; [done|]. split; [|done].
  intros E. rewrite E in Hdec. cbn in Hdec. injection Hdec as <- _. eauto.
Qed.

Section MTInit.
Variables (a : Args) (de dd nhead Ne M ff : nat) (dp : Q) (activation : string)
  (nb ri ppq share : bool) (rng : nat) (m : MTTransformer.t) (rng' : nat).
Hypothesis Hinit :
  MTTransformer.__init__ a de dd nhead Ne M ff dp activation nb ri ppq share rng
    = Ok (m, rng').

(** The steps of [__init__], read back from its result. *)
Lemma mt_init_inv :
  exists tr r1 sd r2 r3,
    Transformer.__init__ a de dd nhead Ne M ff dp activation nb ri ppq false rng
      = Ok (tr, r1) /\
    MTTransformer.fill_decoders dd nhead M ff dp activation nb ri share (num_queries a)
      (Transformer.decoder tr) ∅ r1 = Ok ((sd, MTTransformer.decoders m), r2) /\
    MTTransformer.decoder m = sd /\
    MTTransformer.encoder m = Transformer.encoder tr /\
    MTTransformer.enc2dec_proj m = Transformer.enc2dec_proj tr /\
    MTTransformer.pos_embed_proj m = Transformer.pos_embed_proj tr /\
    MTTransformer.args m = Transformer.args tr /\
    MTTransformer.pass_pos_and_query m = Transformer.pass_pos_and_query tr /\
    MTTransformer.share_decoders m = share /\
    (if use_task_embedding_in_encoder a then
       MTTransformer.task_embeddings_enc m =
         Some {| num_embeddings := MTTransformer.MAX_TASK_NUM; embedding_dim := de;
                 emb_params := Drawn r2 |} /\ r3 = S r2
     else MTTransformer.task_embeddings_enc m = None /\ r3 = r2) /\
    (if use_task_embedding_in_decoder a then
       MTTransformer.task_embeddings_dec m =
         Some {| num_embeddings := MTTransformer.MAX_TASK_NUM; embedding_dim := dd;
                 emb_params := Drawn r3 |}
     else MTTransformer.task_embeddings_dec m = None) /\
    MTTransformer.mem_out_begin_idx m = (if use_task_embedding_in_encoder a then 1 else 0) /\
    MTTransformer.hs_out_begin_idx m = (if use_task_embedding_in_decoder a then 1 else 0).
Proof.
  pose proof Hinit as H. unfold MTTransformer.__init__ in H.
  apply ctor_bind_Ok in H as (tr & r1 & Htr & H).
  apply ctor_bind_Ok in H as ([sd decs] & r2 & Hfill & H).
  apply ctor_bind_Ok in H as (enc & r3 & Henc & H).
  apply ctor_bind_Ok in H as (dec & r4 & Hdec & H).
  injection H as <- _.
  exists tr, r1, sd, r2, r3. simpl.
  unfold MTTransformer.decoder, MTTransformer.encoder, MTTransformer.enc2dec_proj,
    MTTransformer.pos_embed_proj, MTTransformer.args, MTTransformer.pass_pos_and_query.
  simpl. repeat (split; [done|]).
  split; [|split; [|done]].
  - destruct (use_task_embedding_in_encoder a); cbn in Henc; injection Henc as <- <-; done.
  - destruct (use_task_embedding_in_decoder a); cbn in Hdec; injection Hdec as <- _; done.
Qed.

Lemma mt_init_wf :
  activation <> "glu" -> 0 < nhead -> de mod nhead = 0 -> dd mod nhead = 0 ->
  mt_wf de dd M ri m /\ MTTransformer.args m = a /\
  MTTransformer.pass_pos_and_query m = ppq /\ MTTransformer.share_decoders m = share.
Proof.
  intros Hact Hh Hme Hmd.
  destruct mt_init_inv as (tr & r1 & sd & r2 & r3 & Htr & Hfill & Hsd & He & Hp1 & Hp2 &
    Ha & Hq & Hs & Hee & Hed & Hmi & Hhi).
  apply transformer_init_wf in Htr as ((Hwe & Hw1 & Hw2 & dec & Hdec & Hwd) & Hargs & Hppq);
    [|done..].
  apply (fill_decoders_spec dd nhead M ff dp activation nb ri share
           (fun d => exists dec, d = Some dec /\ decoder_wf dd M ri dec)) in Hfill
    as (_ & Hall & _).
  2:{ intros _ r d r' Hb. exists d. split; [done|]. by eapply build_decoder_layer_wf. }
  2:{ intros _. rewrite Hdec. eauto. }
  2:{ intros task ds d. unfold entry_at. by rewrite lookup_empty. }
  rewrite Hargs in Ha. split; [|by rewrite Hq].
  split.
  - by rewrite He.
  - by rewrite Hp1.
  - by rewrite Hp2.
  - intros task ds d Hl. apply lookup_decoder_entry in Hl. by eapply Hall.
  - rewrite Ha. intros E. rewrite E in Hee. destruct Hee as [-> _]. eauto.
  - rewrite Ha. intros E. rewrite E in Hed. rewrite Hed. eauto.
  - by rewrite Ha.
  - by rewrite Ha.
Qed.

Lemma mt_init_registered :
  NoDup ((num_queries a).*1) ->
  forall task dataset,
    (exists d, MTTransformer.lookup_decoder m task dataset = Ok d) <->
    enumerated a task dataset.
Proof.
  intros Hnd task ds.
  destruct mt_init_inv as (tr & r1 & sd & r2 & r3 & Htr & Hfill & _).
  apply (fill_decoders_spec dd nhead M ff dp activation nb ri share (fun _ => True)) in Hfill
    as (_ & _ & Hdom); [|done..].
  specialize (Hdom Hnd task ds). unfold enumerated.
  split.
  - intros [d Hd]. apply lookup_decoder_entry in Hd.
    destruct Hdom as [Hdom _]. destruct Hdom as [[Hc _]|?]; [eauto | |done].
    unfold entry_at in Hc. rewrite lookup_empty in Hc. by destruct Hc.
  - intros He. destruct Hdom as [_ Hdom]. destruct Hdom as [d Hd]; [by right|].
    exists d. by apply lookup_decoder_entry.
Qed.

Lemma mt_init_shared :
  share = true ->
  exists canonical, MTTransformer.decoder m = Some canonical /\
    forall task dataset d,
      MTTransformer.lookup_decoder m task dataset = Ok d -> d = Some canonical.
Proof.
  intros Hshare.
  destruct mt_init_inv as (tr & r1 & sd & r2 & r3 & Htr & Hfill & Hsd & _).
  apply transformer_init_decoder in Htr as [[canonical Hc] _].
  apply (fill_decoders_spec dd nhead M ff dp activation nb ri share
           (fun d => d = Some canonical)) in Hfill as (Hs & Hall & _).
  2:{ intros E. congruence. }
  2:{ done. }
  2:{ intros task ds d. unfold entry_at. by rewrite lookup_empty. }
  exists canonical. split.
  - rewrite Hsd, (Hs Hshare). done.
  - intros task ds d Hl. apply lookup_decoder_entry in Hl. by eapply Hall.
Qed.

End MTInit.

(* ===================================================================== *)
(** ** The tensor operations at the shapes the forward pass meets *)
(* ===================================================================== *)

Section Ops.
Context {A : Type}.
Implicit Types t : Tensor A.

Lemma flatten2_ok t n c h w :
  shape t = [n; c; h; w] ->
  exists out, flatten 2 t = Ok out /\ shape out = [n; c; h * w].
Proof. destruct t as [s f]. simpl. intros ->. eexists. split; reflexivity. Qed.

Lemma flatten1_ok t n h w :
  shape t = [n; h; w] ->
  exists out, flatten 1 t = Ok out /\ shape out = [n; h * w] /\
              forall b j, data out [b; j] = data t [b; j / w; j mod w].
Proof. destruct t as [s f]. simpl. intros ->. eexists. repeat split; reflexivity. Qed.

Lemma permute201_ok t a b c :
  shape t = [a; b; c] ->
  exists out, permute [2; 0; 1] t = Ok out /\ shape out = [c; a; b].
Proof. destruct t as [s f]. simpl. intros ->. eexists. split; reflexivity. Qed.

Lemma permute102_ok t a b c :
  shape t = [a; b; c] ->
  exists out, permute [1; 0; 2] t = Ok out /\ shape out = [b; a; c] /\
              forall i j k, data out [i; j; k] = data t [j; i; k].
Proof. destruct t as [s f]. simpl. intros ->. eexists. repeat split; reflexivity. Qed.

Lemma permute120_ok t a b c :
  shape t = [a; b; c] ->
  exists out, permute [1; 2; 0] t = Ok out /\ shape out = [b; c; a] /\
              forall i j k, data out [i; j; k] = data t [k; i; j].
Proof. destruct t as [s f]. simpl. intros ->. eexists. repeat split; reflexivity. Qed.

Lemma transpose12_ok t a b c d :
  shape t = [a; b; c; d] ->
  exists out, transpose 1 2 t = Ok out /\ shape out = [a; c; b; d] /\
              forall i j k l, data out [i; j; k; l] = data t [i; k; j; l].
Proof. destruct t as [s f]. simpl. intros ->. eexists. repeat split; reflexivity. Qed.

Lemma unsqueeze1_ok t a b :
  shape t = [a; b] ->
  exists out, unsqueeze 1 t = Ok out /\ shape out = [a; 1; b].
Proof. destruct t as [s f]. simpl. intros ->. eexists. split; reflexivity. Qed.

Lemma repeat_1b1_ok t a c bs :
  shape t = [a; 1; c] ->
  exists out, repeat_ [1; bs; 1] t = Ok out /\ shape out = [a; bs; c].
Proof.
  destruct t as [s f]. simpl. intros ->. eexists. split; [reflexivity|].
  simpl. by rewrite !Nat.mul_1_r, Nat.add_0_r.
Qed.

Lemma size1_ok t a b s : shape t = a :: b :: s -> size t 1 = Ok b.
Proof. destruct t as [s' f]. simpl. by intros ->. Qed.

Lemma wrap_ok n i :
  (- Z.of_nat n <= i < Z.of_nat n)%Z -> exists i', wrap n i = Some i'.
Proof.
  intros H. unfold wrap.
  destruct ((0 <=? i)%Z && (i <? Z.of_nat n)%Z) eqn:E1; [eauto|].
  destruct ((- Z.of_nat n <=? i)%Z && (i <? 0)%Z) eqn:E2; [eauto|].
  exfalso. apply andb_false_iff in E1, E2. lia.
Qed.

Lemma select_ok t n s i :
  shape t = n :: s -> (- Z.of_nat n <= i < Z.of_nat n)%Z ->
  exists out, select t (Some i) = Ok out /\ shape out = s.
Proof.
  destruct t as [s' f]. simpl. intros -> Hi.
  destruct (wrap_ok n i Hi) as [i' ->]. eexists. split; reflexivity.
Qed.

Lemma cat0_ok t1 t2 a a' b c :
  shape t1 = [a; b; c] -> shape t2 = [a'; b; c] ->
  exists out, cat [t1; t2] 0 = Ok out /\ shape out = [a + a'; b; c] /\
    forall i j k, data out [i; j; k] =
                  if i <? a then data t1 [i; j; k] else data t2 [i - a; j; k].
Proof.
  destruct t1 as [s1 f1], t2 as [s2 f2]. simpl. intros -> ->.
  unfold cat. cbn. unfold cat2. cbn. rewrite !Nat.eqb_refl. cbn.
  eexists. repeat split; reflexivity.
Qed.

Lemma cat_last2_ok t1 t2 b a a' (d : Z) :
  d = 1%Z \/ d = (-1)%Z ->
  shape t1 = [b; a] -> shape t2 = [b; a'] ->
  exists out, cat [t1; t2] d = Ok out /\ shape out = [b; a + a'] /\
    forall i j, data out [i; j] =
                if j <? a then data t1 [i; j] else data t2 [i; j - a].
Proof.
  destruct t1 as [s1 f1], t2 as [s2 f2]. simpl. intros Hd -> ->.
  unfold cat. destruct Hd as [-> | ->]; cbn; unfold cat2; cbn; rewrite !Nat.eqb_refl; cbn;
    eexists; repeat split; reflexivity.
Qed.

Lemma cat_single0 t a s : shape t = a :: s -> cat [t] 0 = Ok t.
Proof.
  destruct t as [s' f]. simpl. intros ->. unfold cat, dim. cbn. done.
Qed.

Lemma cat_single_last2 t a b : shape t = [a; b] -> cat [t] (-1) = Ok t.
Proof. destruct t as [s' f]. simpl. by intros ->. Qed.

Lemma slice_from0_ok t k a b c :
  shape t = [a; b; c] ->
  exists out, slice_from 0 k 1 t = Ok out /\ shape out = [a - k; b; c] /\
              forall i j l, data out [i; j; l] = data t [i + k; j; l].
Proof. destruct t as [s f]. simpl. intros ->. eexists. repeat split; reflexivity. Qed.

Lemma slice_from1_ok t k a b :
  shape t = [a; b] ->
  exists out, slice_from 1 k 2 t = Ok out /\ shape out = [a; b - k] /\
              forall i j, data out [i; j] = data t [i; j + k].
Proof. destruct t as [s f]. simpl. intros ->. eexists. repeat split; reflexivity. Qed.

Lemma slice_from2_ok t k a b c d :
  shape t = [a; b; c; d] ->
  exists out, slice_from 2 k 4 t = Ok out /\ shape out = [a; b; c - k; d] /\
              forall i j l n, data out [i; j; l; n] = data t [i; j; l + k; n].
Proof. destruct t as [s f]. simpl. intros ->. eexists. repeat split; reflexivity. Qed.

Lemma slice_to1_ok t a b :
  shape t = [a; b] ->
  exists out, slice_to 1 1 2 t = Ok out /\ shape out = [a; Nat.min 1 b].
Proof. destruct t as [s f]. simpl. intros ->. eexists. split; reflexivity. Qed.

Lemma slice_to0_ok t a b c :
  shape t = [a; b; c] ->
  exists out, slice_to 0 1 1 t = Ok out /\ shape out = [Nat.min 1 a; b; c].
Proof. destruct t as [s f]. simpl. intros ->. eexists. split; reflexivity. Qed.

End Ops.

(* ===================================================================== *)
(** ** The forward pass of the multi-task transformer, branch by branch *)
(* ===================================================================== *)

Section QueryPrefix.
Context `{K : TorchKernels}.
Local Abbreviation T := (Tensor scalar).
Import MTTransformer.

Lemma unsqueeze0_ok (t : T) s :
  shape t = s -> exists out, unsqueeze 0 t = Ok out /\ shape out = 1 :: s.
Proof. destruct t as [s' f]. simpl. intros ->. eexists. split; reflexivity. Qed.

Lemma task_embed_row_ok flag emb d task_idx bs :
  emb_wf flag d emb -> task_idx_ok flag task_idx -> flag = true ->
  exists r, task_embed_row emb task_idx bs = Ok r /\ shape r = [1; bs; d].
Proof.
  intros He Hi Hf. destruct (He Hf) as (e & -> & Hn & Hd).
  destruct (Hi Hf) as (i & -> & Hrange).
  unfold task_embed_row. simpl attr_of. rewrite bind_Ok.
  step (select_ok (weight e) (num_embeddings e) [d] i) as r0.
  { unfold weight. simpl. by rewrite Hd. }
  { by rewrite Hn. }
  step (unsqueeze0_ok r0 [d]) as r1; [done|].
  step (unsqueeze0_ok r1 [1; d]) as r2; [done|].
  by apply repeat_1b1_ok.
Qed.

Variables (m : MTTransformer.t) (dd : nat).
Hypothesis Hemb :
  emb_wf (use_task_embedding_in_decoder (args m)) dd (task_embeddings_dec m).
Hypothesis Hhs :
  hs_out_begin_idx m = if use_task_embedding_in_decoder (args m) then 1 else 0.

(** The task slot put before the queries; the queries must have the width
    of the embedding table when a slot is put. *)
Lemma prefix_query_gen (q : T) task_idx nq bs dq :
  shape q = [nq; bs; dq] ->
  (use_task_embedding_in_decoder (args m) = true -> dq = dd) ->
  task_idx_ok (use_task_embedding_in_decoder (args m)) task_idx ->
  exists out, _prefix_task_embedding_to_query_embed m q task_idx = Ok out /\
              shape out = [hs_out_begin_idx m + nq; bs; dq].
Proof.
  intros Hq Hdq Hi. unfold _prefix_task_embedding_to_query_embed. rewrite Hhs.
  destruct (use_task_embedding_in_decoder (args m)) eqn:Hflag; simpl negb; cbv iota.
  - rewrite (Hdq eq_refl) in *.
    rewrite (size1_ok q _ _ _ Hq), bind_Ok.
    step (task_embed_row_ok true (task_embeddings_dec m) dd task_idx bs) as r; [done..|].
    destruct (cat0_ok r q 1 nq bs dd Hr Hq) as (out & -> & Hs & _). eauto.
  - eauto.
Qed.

(** The text branch on a batch of token sequences, a table of positions and
    a set of queries: it completes when positions and queries are passed
    separately, and raises otherwise. *)
Lemma text_branch_gen (text_src text_pos q : T) text_mask l task_idx bs Lt c Lp cp nq dq :
  shape text_src = [bs; Lt; c] -> shape text_pos = [Lp; cp] ->
  query_embed l = Some q -> shape q = [nq; dq] ->
  (use_task_embedding_in_decoder (args m) = true -> dq = dd) ->
  task_idx_ok (use_task_embedding_in_decoder (args m)) task_idx ->
  exists ts tp q',
    shape ts = [Lt; bs; c] /\ (forall i j k, data ts [i; j; k] = data text_src [j; i; k]) /\
    shape tp = [Lp; bs; cp] /\ shape q' = [hs_out_begin_idx m + nq; bs; dq] /\
    text_branch m text_src text_mask (Some text_pos) l task_idx =
      if pass_pos_and_query m then
        Ok {| memories := memories l ++ [ts];
              pos_embeds := pos_embeds l ++ [Some tp];
              masks := masks l ++ [text_mask_ne_1 text_mask];
              tgt := Some (zeros_like q');
              query_embed := Some q' |}
      else Err NotImplementedError.
Proof.
  intros Hts Htp Hq Hqs Hdq Hidx. unfold text_branch.
  destruct (permute102_ok text_src bs Lt c Hts) as (ts & -> & Hts' & Hd). rewrite bind_Ok.
  simpl attr_of. rewrite bind_Ok.
  step (unsqueeze1_ok text_pos Lp cp) as tp1; [done|].
  rewrite (size1_ok ts _ _ _ Hts'), bind_Ok.
  step (repeat_1b1_ok tp1 Lp cp bs) as tp; [done|].
  rewrite Hq. simpl attr_of. rewrite bind_Ok.
  step (unsqueeze1_ok q nq dq) as q1; [done|].
  step (repeat_1b1_ok q1 nq dq bs) as q2; [done|].
  step (prefix_query_gen q2 task_idx nq bs dq) as q3; [done..|].
  exists ts, tp, q3. repeat split; done.
Qed.

(** Without separately passed positions and queries the text branch never
    completes, whatever it is given. *)
Lemma text_branch_never_completes text_src text_mask text_pos l task_idx :
  pass_pos_and_query m = false ->
  exists e, text_branch m text_src text_mask text_pos l task_idx = Err e.
Proof.
  intros Hpass. unfold text_branch. rewrite Hpass.
  repeat match goal with
         | |- exists e, (?c ≫= _) = Err e =>
             destruct c; [rewrite bind_Ok | rewrite bind_Err; eauto]
         end.
  eauto.
Qed.

End QueryPrefix.

Section MTForward.
Context `{K : TorchKernels} {KS : KernelSpec K}.
Local Abbreviation T := (Tensor scalar).
Import MTTransformer.

Variables (m : MTTransformer.t) (de dd M : nat) (ri : bool).
Hypothesis Hwf : mt_wf de dd M ri m.

Lemma prefix_query_ok (q : T) task_idx nq bs :
  shape q = [nq; bs; dd] ->
  task_idx_ok (use_task_embedding_in_decoder (args m)) task_idx ->
  exists out, _prefix_task_embedding_to_query_embed m q task_idx = Ok out /\
              shape out = [hs_out_begin_idx m + nq; bs; dd].
Proof.
  intros Hq Hi.
  apply (prefix_query_gen m dd (wf_emb_dec _ _ _ _ _ Hwf) (wf_hs_idx _ _ _ _ _ Hwf));
    done.
Qed.

Lemma prefix_encoder_ok (src : T) (mk : Tensor bool) (ps : T) task_idx hw bs :
  shape src = [hw; bs; de] -> shape mk = [bs; hw] -> shape ps = [hw; bs; de] ->
  task_idx_ok (use_task_embedding_in_encoder (args m)) task_idx ->
  (use_task_embedding_in_encoder (args m) = true -> 0 < hw) ->
  exists src' mk' ps',
    _prefix_task_embedding_to_encoder_inputs m src mk (Some ps) task_idx
      = Ok (src', mk', Some ps') /\
    shape src' = [mem_out_begin_idx m + hw; bs; de] /\
    shape mk' = [bs; mem_out_begin_idx m + hw] /\
    shape ps' = [mem_out_begin_idx m + hw; bs; de] /\
    forall b j, data mk' [b; mem_out_begin_idx m + j] = data mk [b; j].
Proof.
  intros Hs Hm Hp Hi Hpos. unfold _prefix_task_embedding_to_encoder_inputs.
  rewrite (wf_mem_idx _ _ _ _ _ Hwf).
  destruct (use_task_embedding_in_encoder (args m)) eqn:Hflag; simpl negb; cbv iota.
  - specialize (Hpos eq_refl).
    rewrite (size1_ok src _ _ _ Hs), bind_Ok.
    step (task_embed_row_ok _ (task_embeddings_enc m) de task_idx bs
            (wf_emb_enc _ _ _ _ _ Hwf)) as r; [by rewrite Hflag..|].
    destruct (cat0_ok r src 1 hw bs de Hr Hs) as (src' & -> & Hs' & _).
    rewrite bind_Ok.
    step (slice_to1_ok mk bs hw) as pad; [done|].
    replace (Nat.min 1 hw) with 1 in Hpad by lia.
    destruct (cat_last2_ok (zeros_like_bool pad) mk bs 1 hw 1) as (mk' & -> & Hm' & Hd);
      [by left | done | done |].
    rewrite bind_Ok. simpl subscriptable. rewrite bind_Ok.
    step (slice_to0_ok ps hw bs de) as ppad; [done|].
    replace (Nat.min 1 hw) with 1 in Hppad by lia.
    destruct (cat0_ok (zeros_like ppad) ps 1 hw bs de) as (ps' & -> & Hp' & _);
      [done..|].
    rewrite bind_Ok. exists src', mk', ps'. repeat split; try done.
    intros b j. rewrite Hd. simpl. by rewrite Nat.sub_0_r.
  - exists src, mk, ps. repeat split; done.
Qed.

Section Image.
Variables (img_src : T) (img_mask : Tensor bool) (img_pos : T) (bs h w : nat)
  (task_idx : option Z) (l : locals).
Hypothesis Hsrc : shape img_src = [bs; de; h; w].
Hypothesis Hmask : shape img_mask = [bs; h; w].
Hypothesis Hpos : shape img_pos = [bs; de; h; w].
Hypothesis Hidx : task_idx_ok (use_task_embedding_in_encoder (args m)) task_idx.
Hypothesis Hne : use_task_embedding_in_encoder (args m) = true -> 0 < h * w.

(** With text present, the image branch leaves [tgt] and [query_embed]
    alone, whatever [pass_pos_and_query] is. *)
Lemma encoder_inputs_with_text :
  exists e ps,
    encoder_inputs m img_src (Some img_mask) (Some img_pos) false l task_idx = Ok e /\
    shape (enc_src e) = [mem_out_begin_idx m + h * w; bs; de] /\
    shape (enc_mask e) = [bs; mem_out_begin_idx m + h * w] /\
    enc_pos e = Some ps /\ shape ps = [mem_out_begin_idx m + h * w; bs; de] /\
    (forall b j, data (enc_mask e) [b; mem_out_begin_idx m + j] =
                 data img_mask [b; j / w; j mod w]) /\
    enc_tgt e = tgt l /\ enc_query_embed e = query_embed l.
Proof.
  unfold encoder_inputs. rewrite Hsrc. simpl unpack4. rewrite bind_Ok.
  step (flatten2_ok img_src bs de h w) as s1; [done|].
  step (permute201_ok s1 bs de (h * w)) as s2; [done|].
  simpl attr_of. rewrite !bind_Ok.
  step (flatten2_ok img_pos bs de h w) as p1; [done|].
  step (permute201_ok p1 bs de (h * w)) as p2; [done|].
  destruct (flatten1_ok img_mask bs h w Hmask) as (m1 & -> & Hm1 & Hd1).
  rewrite !bind_Ok.
  destruct (prefix_encoder_ok s2 m1 p2 task_idx (h * w) bs) as
    (s3 & m3 & p3 & -> & Hs3 & Hm3 & Hp3 & Hd3); [done..|].
  rewrite bind_Ok. eexists _, p3. split; [reflexivity|]. simpl.
  repeat split; try done. intros b j. by rewrite Hd3, Hd1.
Qed.

(** Image only, positions and queries passed separately. *)
Lemma encoder_inputs_image_only (q : T) nq :
  pass_pos_and_query m = true ->
  query_embed l = Some q -> shape q = [nq; dd] ->
  task_idx_ok (use_task_embedding_in_decoder (args m)) task_idx ->
  exists e ps q',
    encoder_inputs m img_src (Some img_mask) (Some img_pos) true l task_idx = Ok e /\
    shape (enc_src e) = [mem_out_begin_idx m + h * w; bs; de] /\
    shape (enc_mask e) = [bs; mem_out_begin_idx m + h * w] /\
    enc_pos e = Some ps /\ shape ps = [mem_out_begin_idx m + h * w; bs; de] /\
    (forall b j, data (enc_mask e) [b; mem_out_begin_idx m + j] =
                 data img_mask [b; j / w; j mod w]) /\
    enc_tgt e = Some (zeros_like q') /\ enc_query_embed e = Some q' /\
    shape q' = [hs_out_begin_idx m + nq; bs; dd].
Proof.
  intros Hpass Hq Hqs Hidxd.
  unfold encoder_inputs. rewrite Hsrc. simpl unpack4. rewrite bind_Ok.
  step (flatten2_ok img_src bs de h w) as s1; [done|].
  step (permute201_ok s1 bs de (h * w)) as s2; [done|].
  simpl attr_of. rewrite !bind_Ok.
  step (flatten2_ok img_pos bs de h w) as p1; [done|].
  step (permute201_ok p1 bs de (h * w)) as p2; [done|].
  destruct (flatten1_ok img_mask bs h w Hmask) as (m1 & -> & Hm1 & Hd1).
  rewrite !bind_Ok. rewrite Hq. simpl attr_of. rewrite bind_Ok.
  step (unsqueeze1_ok q nq dd) as q1; [done|].
  step (repeat_1b1_ok q1 nq dd bs) as q2; [done|].
  step (prefix_query_ok q2 task_idx nq bs) as q3; [done..|].
  rewrite Hpass, bind_Ok.
  destruct (prefix_encoder_ok s2 m1 p2 task_idx (h * w) bs) as
    (s3 & m3 & p3 & -> & Hs3 & Hm3 & Hp3 & Hd3); [done..|].
  rewrite bind_Ok. eexists _, p3, q3. split; [reflexivity|]. simpl.
  repeat split; try done. intros b j. by rewrite Hd3, Hd1.
Qed.

End Image.

(** The image branch after the encoder inputs are formed: encoder, strip of
    the task slot, residual, projections, and the three appends. *)
Lemma image_branch_ok img_src img_mask0 img_pos tn l task_idx e (img_mask : Tensor bool)
    ps bs h w :
  encoder_inputs m img_src img_mask0 img_pos tn l task_idx = Ok e ->
  shape (enc_src e) = [mem_out_begin_idx m + h * w; bs; de] ->
  shape (enc_mask e) = [bs; mem_out_begin_idx m + h * w] ->
  enc_pos e = Some ps -> shape ps = [mem_out_begin_idx m + h * w; bs; de] ->
  (forall b j, data (enc_mask e) [b; mem_out_begin_idx m + j] =
               data img_mask [b; j / w; j mod w]) ->
  exists l' mem pe mk,
    image_branch m img_src img_mask0 img_pos tn l task_idx = Ok l' /\
    memories l' = memories l ++ [mem] /\ shape mem = [h * w; bs; dd] /\
    pos_embeds l' = pos_embeds l ++ [Some pe] /\ shape pe = [h * w; bs; dd] /\
    masks l' = masks l ++ [Some mk] /\ shape mk = [bs; h * w] /\
    (forall b j, data mk [b; j] = data img_mask [b; j / w; j mod w]) /\
    tgt l' = enc_tgt e /\ query_embed l' = enc_query_embed e.
Proof.
  intros He Hs Hm Hp Hps Hd. unfold image_branch. rewrite He, bind_Ok. cbv zeta.
  rewrite Hp.
  step (encoder_ok (encoder m) (enc_src e) (Some (enc_mask e)) (Some ps)
          (mem_out_begin_idx m + h * w) bs de) as mem0.
  { apply (wf_encoder _ _ _ _ _ Hwf). }
  { done. }
  { intros t [= <-]. done. }
  { intros t [= <-]. done. }
  assert (Hstrip : exists src1 ps1 mk1 mem1,
    (if negb (mem_out_begin_idx m =? 0) then
       img_src ← slice_from 0 (mem_out_begin_idx m) 1 (enc_src e);
       img_pos ← subscriptable (Some ps);
       img_pos ← slice_from 0 (mem_out_begin_idx m) 1 img_pos;
       img_mask ← slice_from 1 (mem_out_begin_idx m) 2 (enc_mask e);
       memory ← slice_from 0 (mem_out_begin_idx m) 1 mem0;
       Ok (img_src, Some img_pos, img_mask, memory)
     else Ok (enc_src e, Some ps, enc_mask e, mem0)) = Ok (src1, Some ps1, mk1, mem1) /\
    shape src1 = [h * w; bs; de] /\ shape ps1 = [h * w; bs; de] /\
    shape mk1 = [bs; h * w] /\ shape mem1 = [h * w; bs; de] /\
    forall b j, data mk1 [b; j] = data img_mask [b; j / w; j mod w]).
  { revert Hs Hm Hps Hmem0 Hd. generalize (mem_out_begin_idx m). intros k Hs Hm Hps Hmem0 Hd.
    destruct (k =? 0) eqn:Ek; simpl negb; cbv iota.
    - apply Nat.eqb_eq in Ek. subst k. simpl in *.
      exists (enc_src e), ps, (enc_mask e), mem0. repeat split; done.
    - destruct (slice_from0_ok (enc_src e) k _ _ _ Hs) as (a1 & -> & Ha1 & _).
      rewrite bind_Ok. simpl subscriptable. rewrite bind_Ok.
      destruct (slice_from0_ok ps k _ _ _ Hps) as (a2 & -> & Ha2 & _). rewrite bind_Ok.
      destruct (slice_from1_ok (enc_mask e) k _ _ Hm) as (a3 & -> & Ha3 & Hd3).
      rewrite bind_Ok.
      destruct (slice_from0_ok mem0 k _ _ _ Hmem0) as (a4 & -> & Ha4 & _). rewrite bind_Ok.
      replace (k + h * w - k) with (h * w) in * by lia.
      exists a1, a2, a3, a4. repeat split; try done.
      intros b j. rewrite Hd3, Nat.add_comm. apply Hd. }
  destruct Hstrip as (src1 & ps1 & mk1 & mem1 & -> & Hs1 & Hp1 & Hm1 & Hme1 & Hd1).
  rewrite bind_Ok.
  assert (Hres : exists mem2,
    (if residual_in_encoder (args m) then add src1 mem1 else Ok mem1) = Ok mem2 /\
    shape mem2 = [h * w; bs; de]).
  { destruct (residual_in_encoder (args m)); [by apply add_ok | eauto]. }
  destruct Hres as (mem2 & -> & Hmem2). rewrite bind_Ok.
  step (projection_ok (enc2dec_proj m) mem2 (h * w) bs de dd) as mem3.
  { apply (wf_enc2dec _ _ _ _ _ Hwf). }
  { done. }
  unfold call_Projection_py.
  step (projection_ok (pos_embed_proj m) ps1 (h * w) bs de dd) as pe.
  { apply (wf_pos_proj _ _ _ _ _ Hwf). }
  { done. }
  eexists _, mem3, pe, mk1. split; [reflexivity|]. simpl. repeat split; done.
Qed.

(** The text branch on well-shaped inputs. *)
Lemma text_branch_prep (text_src text_pos q : T) text_mask l task_idx bs Lt nq :
  shape text_src = [bs; Lt; dd] -> shape text_pos = [Lt; dd] ->
  query_embed l = Some q -> shape q = [nq; dd] ->
  task_idx_ok (use_task_embedding_in_decoder (args m)) task_idx ->
  exists ts tp q',
    shape ts = [Lt; bs; dd] /\ (forall i j k, data ts [i; j; k] = data text_src [j; i; k]) /\
    shape tp = [Lt; bs; dd] /\ shape q' = [hs_out_begin_idx m + nq; bs; dd] /\
    text_branch m text_src text_mask (Some text_pos) l task_idx =
      if pass_pos_and_query m then
        Ok {| memories := memories l ++ [ts];
              pos_embeds := pos_embeds l ++ [Some tp];
              masks := masks l ++ [text_mask_ne_1 text_mask];
              tgt := Some (zeros_like q');
              query_embed := Some q' |}
      else Err NotImplementedError.
Proof.
  intros Hts Htp Hq Hqs Hidx.
  apply (text_branch_gen m dd (wf_emb_dec _ _ _ _ _ Hwf) (wf_hs_idx _ _ _ _ _ Hwf)
           text_src text_pos q text_mask l task_idx bs Lt dd Lt dd nq dd); done.
Qed.

(** [forward] up to the call of the decoder, from the results of its
    branches, of the lookup and of the concatenations. *)
Lemma decoder_inputs_from_branches img_src img_mask img_pos text_src text_mask text_pos qe
    task dataset task_idx l0 l1 d0 (MEM : T) MK (PE : T) :
  match img_src with
  | Some img_src =>
      image_branch m img_src img_mask img_pos
        (match text_src with None => true | Some _ => false end) (locals0 qe) task_idx
  | None => Ok (locals0 qe)
  end = Ok l0 ->
  match text_src with
  | Some text_src => text_branch m text_src text_mask text_pos l0 task_idx
  | None => Ok l0
  end = Ok l1 ->
  lookup_decoder m task dataset = Ok d0 ->
  cat (memories l1) 0 = Ok MEM -> cat_py (masks l1) (-1) = Ok MK ->
  cat_py (pos_embeds l1) 0 = Ok PE ->
  decoder_inputs m img_src img_mask img_pos text_src text_mask text_pos qe task dataset
    task_idx =
  Ok {| dec_decoder := d0; dec_tgt := tgt l1; dec_memories := MEM; dec_masks := MK;
        dec_pos_embeds := PE; dec_query_embed := query_embed l1 |}.
Proof.
  intros H0 H1 Hl Hc1 Hc2 Hc3. unfold decoder_inputs. cbv zeta.
  rewrite H0, bind_Ok, H1, bind_Ok, Hl, bind_Ok, Hc1, bind_Ok, Hc2, bind_Ok, Hc3, bind_Ok.
  reflexivity.
Qed.

(** The rest of [forward]: the decoder, the transposition, the strip of the
    task slot from the hidden states, and the permutation of the memory. *)
Lemma forward_from_decoder_inputs img_src img_mask img_pos text_src text_mask text_pos qe
    task dataset task_idx c (q' : T) S bs nq :
  decoder_inputs m img_src img_mask img_pos text_src text_mask text_pos qe task dataset
    task_idx = Ok c ->
  lookup_decoder m task dataset = Ok (dec_decoder c) ->
  dec_tgt c = Some (zeros_like q') -> dec_query_embed c = Some q' ->
  shape q' = [hs_out_begin_idx m + nq; bs; dd] ->
  shape (dec_memories c) = [S; bs; dd] -> shape (dec_masks c) = [bs; S] ->
  shape (dec_pos_embeds c) = [S; bs; dd] ->
  if ri then
    1 <= M ->
    exists hs mem,
      forward m img_src img_mask img_pos text_src text_mask text_pos qe task dataset
        task_idx = Ok (hs, mem) /\
      shape hs = [M; bs; nq; dd] /\ shape mem = [bs; dd; S] /\
      forall b ch i, data mem [b; ch; i] = data (dec_memories c) [i; b; ch]
  else
    forward m img_src img_mask img_pos text_src text_mask text_pos qe task dataset
      task_idx = Err IndexError.
Proof.
  intros Hc Hl Ht Hq Hqs Hmem Hmk Hpe.
  destruct (wf_decoders _ _ _ _ _ Hwf _ _ _ Hl) as (dec & Hdec & Hdwf).
  unfold forward. rewrite Hc, bind_Ok, Ht, bind_Ok, Hdec, Hq. unfold call_decoder.
  destruct ri.
  - intros HM.
    destruct (decoder_forward_ok dec (zeros_like q') (dec_memories c) (Some (dec_masks c))
                (Some (dec_pos_embeds c)) (Some q') (hs_out_begin_idx m + nq) S bs dd M true)
      as (out & no & _ & _ & _ & inter & hs & -> & _ & _ & _ & Hhs & _);
      [done | done | done | done | by intros t [= <-] ..|].
    rewrite bind_Ok.
    step (transpose12_ok hs M (hs_out_begin_idx m + nq) bs dd) as hs1; [done|].
    destruct Hhs1 as [Hhs1 _].
    step (slice_from2_ok hs1 (hs_out_begin_idx m) M bs (hs_out_begin_idx m + nq) dd) as hs2;
      [done|].
    destruct Hhs2 as [Hhs2 _].
    destruct (permute120_ok (dec_memories c) S bs dd Hmem) as (mem & -> & Hms & Hmd).
    rewrite bind_Ok. exists hs2, mem. split; [done|].
    replace (hs_out_begin_idx m + nq - hs_out_begin_idx m) with nq in Hhs2 by lia.
    done.
  - destruct (decoder_forward_ok dec (zeros_like q') (dec_memories c) (Some (dec_masks c))
                (Some (dec_pos_embeds c)) (Some q') (hs_out_begin_idx m + nq) S bs dd M false)
      as (out & no & _ & _ & Hno & ->);
      [done | done | done | done | by intros t [= <-] ..|].
    rewrite bind_Ok. destruct no as [sn fn]. simpl in Hno. subst sn. reflexivity.
Qed.

(** [forward] up to the call of the decoder on well-shaped inputs, for every
    combination of present streams: what the encoder and the decoder are
    called with. *)
Lemma decoder_inputs_ok (has_img has_text : bool) (img_src : T) (img_mask : Tensor bool)
    (img_pos text_src : T) (text_mask : Tensor Z) (text_pos q : T)
    (task dataset : string) (task_idx : option Z) (bs h w Lt nq : nat) d0 :
  pass_pos_and_query m = true ->
  lookup_decoder m task dataset = Ok d0 ->
  has_img || has_text = true ->
  (has_img = true -> image_inputs_ok m de img_src img_mask img_pos task_idx bs h w) ->
  (has_text = true -> text_inputs_ok dd text_src text_mask text_pos bs Lt) ->
  query_ok m dd q task_idx nq ->
  let ilen := if has_img then h * w else 0 in
  let tlen := if has_text then Lt else 0 in
  exists c q',
    decoder_inputs m
      (opt_if has_img img_src) (opt_if has_img img_mask) (opt_if has_img img_pos)
      (opt_if has_text text_src) (opt_if has_text text_mask) (opt_if has_text text_pos)
      (Some q) task dataset task_idx = Ok c /\
    dec_decoder c = d0 /\
    dec_tgt c = Some (zeros_like q') /\ dec_query_embed c = Some q' /\
    shape q' = [hs_out_begin_idx m + nq; bs; dd] /\
    shape (dec_memories c) = [ilen + tlen; bs; dd] /\
    shape (dec_masks c) = [bs; ilen + tlen] /\
    shape (dec_pos_embeds c) = [ilen + tlen; bs; dd] /\
    (has_img = true ->
       exists e lI mem_img,
         encoder_inputs m img_src (Some img_mask) (Some img_pos) (negb has_text)
           (locals0 (Some q)) task_idx = Ok e /\
         shape (enc_src e) = [mem_out_begin_idx m + h * w; bs; de] /\
         shape (enc_mask e) = [bs; mem_out_begin_idx m + h * w] /\
         image_branch m img_src (Some img_mask) (Some img_pos) (negb has_text)
           (locals0 (Some q)) task_idx = Ok lI /\
         memories lI = [mem_img] /\ shape mem_img = [h * w; bs; dd] /\
         (forall i b ch, i < h * w ->
            data (dec_memories c) [i; b; ch] = data mem_img [i; b; ch]) /\
         (forall b j, j < h * w ->
            data (dec_masks c) [b; j] = data img_mask [b; j / w; j mod w])) /\
    (has_text = true ->
       (forall i b ch, data (dec_memories c) [ilen + i; b; ch] = data text_src [b; i; ch]) /\
       (forall b j, data (dec_masks c) [b; ilen + j] =
                    negb (bool_decide (data text_mask [b; j] = 1%Z)))).
Proof.
  intros Hpass Hl Hany Himg Htext [Hq Hqi] ilen tlen.
  destruct has_img, has_text; try done; subst ilen tlen; unfold opt_if.
  - (* image and text *)
    destruct (Himg eq_refl) as (Hs & Hmk & Hp & Hi & Hne).
    destruct (Htext eq_refl) as (Hts & Htm & Htp).
    destruct (encoder_inputs_with_text img_src img_mask img_pos bs h w task_idx
                (locals0 (Some q)) Hs Hmk Hp Hi Hne)
      as (e & ps & He & Hes & Hem & Hep & Hps & Hed & Het & Heq).
    destruct (image_branch_ok _ _ _ _ _ _ e img_mask ps bs h w He Hes Hem Hep Hps Hed)
      as (lI & memI & peI & mkI & HlI & HmI & HmIs & HpI & HpIs & HkI & HkIs & HkId & HtI & HqI).
    simpl in HmI, HpI, HkI.
    destruct (text_branch_prep text_src text_pos q (Some text_mask) lI task_idx bs Lt nq)
      as (ts & tp & q' & Htss & Htsd & Htps & Hq's & Htb); [done | done | | done | done |].
    { by rewrite HqI, Heq. }
    rewrite Hpass in Htb. rewrite HmI, HpI, HkI in Htb. simpl in Htb.
    destruct (cat0_ok memI ts (h * w) Lt bs dd HmIs Htss) as (MEM & HMEM & HMEMs & HMEMd).
    destruct (cat_last2_ok mkI (ne text_mask 1%Z) bs (h * w) Lt (-1)) as
      (MK & HMK & HMKs & HMKd); [by right | done | done |].
    destruct (cat0_ok peI tp (h * w) Lt bs dd HpIs Htps) as (PE & HPE & HPEs & _).
    pose proof (decoder_inputs_from_branches (Some img_src) (Some img_mask) (Some img_pos)
                  (Some text_src) (Some text_mask) (Some text_pos) (Some q) task dataset
                  task_idx lI _ d0 MEM MK PE HlI Htb Hl) as Hc.
    simpl in Hc. specialize (Hc HMEM HMK HPE).
    eexists _, q'. split; [exact Hc|]. simpl.
    do 7 (split; [done|]). split.
    + intros _. exists e, lI, memI. repeat (split; [done|]). split.
      * intros i b ch Hlt. rewrite HMEMd. by rewrite (proj2 (Nat.ltb_lt _ _) Hlt).
      * intros b j Hlt. rewrite HMKd, (proj2 (Nat.ltb_lt _ _) Hlt). apply HkId.
    + intros _. split.
      * intros i b ch. rewrite HMEMd.
        rewrite (proj2 (Nat.ltb_ge _ _)) by lia.
        replace (h * w + i - h * w) with i by lia. apply Htsd.
      * intros b j. rewrite HMKd.
        rewrite (proj2 (Nat.ltb_ge _ _)) by lia.
        replace (h * w + j - h * w) with j by lia. done.
  - (* image only *)
    destruct (Himg eq_refl) as (Hs & Hmk & Hp & Hi & Hne).
    destruct (encoder_inputs_image_only img_src img_mask img_pos bs h w task_idx
                (locals0 (Some q)) Hs Hmk Hp Hi Hne q nq Hpass eq_refl Hq Hqi)
      as (e & ps & q' & He & Hes & Hem & Hep & Hps & Hed & Het & Heq & Hq's).
    destruct (image_branch_ok _ _ _ _ _ _ e img_mask ps bs h w He Hes Hem Hep Hps Hed)
      as (lI & memI & peI & mkI & HlI & HmI & HmIs & HpI & HpIs & HkI & HkIs & HkId & HtI & HqI).
    simpl in HmI, HpI, HkI.
    pose proof (decoder_inputs_from_branches (Some img_src) (Some img_mask) (Some img_pos)
                  None None None (Some q) task dataset task_idx lI lI d0 memI mkI peI
                  HlI eq_refl Hl) as Hc.
    rewrite HmI, HkI, HpI in Hc. unfold cat_py in Hc. simpl tensors_of in Hc.
    rewrite !bind_Ok in Hc.
    rewrite (cat_single0 memI _ _ HmIs), (cat_single0 peI _ _ HpIs),
      (cat_single_last2 mkI _ _ HkIs) in Hc.
    specialize (Hc eq_refl eq_refl eq_refl).
    rewrite HtI, Het, HqI, Heq in Hc.
    rewrite Nat.add_0_r.
    eexists _, q'. split; [exact Hc|]. simpl.
    do 7 (split; [done|]). split; [|done].
    intros _. exists e, lI, memI. repeat (split; [done|]).
    intros b j _. apply HkId.
  - (* text only *)
    destruct (Htext eq_refl) as (Hts & Htm & Htp).
    destruct (text_branch_prep text_src text_pos q (Some text_mask) (locals0 (Some q))
                task_idx bs Lt nq)
      as (ts & tp & q' & Htss & Htsd & Htps & Hq's & Htb); [done..|].
    rewrite Hpass in Htb. simpl in Htb.
    pose proof (decoder_inputs_from_branches None None None
                  (Some text_src) (Some text_mask) (Some text_pos) (Some q) task dataset
                  task_idx _ _ d0 ts (ne text_mask 1%Z) tp eq_refl Htb Hl) as Hc.
    unfold cat_py in Hc. simpl tensors_of in Hc. rewrite !bind_Ok in Hc. simpl memories in Hc.
    rewrite (cat_single0 ts _ _ Htss), (cat_single0 tp _ _ Htps),
      (cat_single_last2 (ne text_mask 1%Z) bs Lt) in Hc by done.
    specialize (Hc eq_refl eq_refl eq_refl). simpl in Hc.
    eexists _, q'. split; [exact Hc|]. simpl.
    do 8 (split; [done|]).
    intros _. split; [apply Htsd | done].
Qed.


(** The forward pass on well-shaped inputs, for every combination of present
    streams: what the encoder and the decoder are called with, and what is
    returned. *)
Lemma forward_ok (has_img has_text : bool) (img_src : T) (img_mask : Tensor bool)
    (img_pos text_src : T) (text_mask : Tensor Z) (text_pos q : T)
    (task dataset : string) (task_idx : option Z) (bs h w Lt nq : nat) d0 :
  pass_pos_and_query m = true -> ri = true -> 1 <= M ->
  lookup_decoder m task dataset = Ok d0 ->
  has_img || has_text = true ->
  (has_img = true -> image_inputs_ok m de img_src img_mask img_pos task_idx bs h w) ->
  (has_text = true -> text_inputs_ok dd text_src text_mask text_pos bs Lt) ->
  query_ok m dd q task_idx nq ->
  let ilen := if has_img then h * w else 0 in
  let tlen := if has_text then Lt else 0 in
  exists c hs mem t,
    decoder_inputs m
      (opt_if has_img img_src) (opt_if has_img img_mask) (opt_if has_img img_pos)
      (opt_if has_text text_src) (opt_if has_text text_mask) (opt_if has_text text_pos)
      (Some q) task dataset task_idx = Ok c /\
    forward m
      (opt_if has_img img_src) (opt_if has_img img_mask) (opt_if has_img img_pos)
      (opt_if has_text text_src) (opt_if has_text text_mask) (opt_if has_text text_pos)
      (Some q) task dataset task_idx = Ok (hs, mem) /\
    shape hs = [M; bs; nq; dd] /\
    shape mem = [bs; dd; ilen + tlen] /\
    (forall b ch i, data mem [b; ch; i] = data (dec_memories c) [i; b; ch]) /\
    shape (dec_memories c) = [ilen + tlen; bs; dd] /\
    shape (dec_masks c) = [bs; ilen + tlen] /\
    shape (dec_pos_embeds c) = [ilen + tlen; bs; dd] /\
    dec_tgt c = Some t /\ shape t = [hs_out_begin_idx m + nq; bs; dd] /\
    (has_img = true ->
       exists e lI mem_img,
         encoder_inputs m img_src (Some img_mask) (Some img_pos) (negb has_text)
           (locals0 (Some q)) task_idx = Ok e /\
         shape (enc_src e) = [mem_out_begin_idx m + h * w; bs; de] /\
         shape (enc_mask e) = [bs; mem_out_begin_idx m + h * w] /\
         image_branch m img_src (Some img_mask) (Some img_pos) (negb has_text)
           (locals0 (Some q)) task_idx = Ok lI /\
         memories lI = [mem_img] /\ shape mem_img = [h * w; bs; dd] /\
         (forall i b ch, i < h * w ->
            data (dec_memories c) [i; b; ch] = data mem_img [i; b; ch]) /\
         (forall b j, j < h * w ->
            data (dec_masks c) [b; j] = data img_mask [b; j / w; j mod w])) /\
    (has_text = true ->
       (forall i b ch, data (dec_memories c) [ilen + i; b; ch] = data text_src [b; i; ch]) /\
       (forall b j, data (dec_masks c) [b; ilen + j] =
                    negb (bool_decide (data text_mask [b; j] = 1%Z)))).
Proof.
  intros Hpass Hri HM Hl Hany Himg Htext Hq ilen tlen.
  destruct (decoder_inputs_ok has_img has_text img_src img_mask img_pos text_src text_mask
              text_pos q task dataset task_idx bs h w Lt nq d0)
    as (c & q' & Hc & Hd & Ht & Hqe & Hq's & Hms & Hks & Hps & Hi & Htx); [done..|].
  pose proof (forward_from_decoder_inputs _ _ _ _ _ _ _ _ _ _ c q' (ilen + tlen) bs nq Hc)
    as Hfwd.
  rewrite Hri in Hfwd.
  destruct Hfwd as (hs & mem & Hf & Hhs & Hmems & Hmd); [by rewrite Hd | done..|].
  exists c, hs, mem, (zeros_like q'). repeat (split; [done|]). done.
Qed.

(** Built without intermediate outputs, the model raises on the same inputs:
    the decoder returns a tensor of three axes and [forward] indexes four. *)
Lemma forward_no_intermediate (has_img has_text : bool) (img_src : T)
    (img_mask : Tensor bool) (img_pos text_src : T) (text_mask : Tensor Z)
    (text_pos q : T) (task dataset : string) (task_idx : option Z)
    (bs h w Lt nq : nat) d0 :
  pass_pos_and_query m = true -> ri = false ->
  lookup_decoder m task dataset = Ok d0 ->
  has_img || has_text = true ->
  (has_img = true -> image_inputs_ok m de img_src img_mask img_pos task_idx bs h w) ->
  (has_text = true -> text_inputs_ok dd text_src text_mask text_pos bs Lt) ->
  query_ok m dd q task_idx nq ->
  forward m
    (opt_if has_img img_src) (opt_if has_img img_mask) (opt_if has_img img_pos)
    (opt_if has_text text_src) (opt_if has_text text_mask) (opt_if has_text text_pos)
    (Some q) task dataset task_idx = Err IndexError.
Proof.
  intros Hpass Hri Hl Hany Himg Htext Hq.
  destruct (decoder_inputs_ok has_img has_text img_src img_mask img_pos text_src text_mask
              text_pos q task dataset task_idx bs h w Lt nq d0)
    as (c & q' & Hc & Hd & Ht & Hqe & Hq's & Hms & Hks & Hps & _); [done..|].
  pose proof (forward_from_decoder_inputs _ _ _ _ _ _ _ _ _ _ c q'
                ((if has_img then h * w else 0) + (if has_text then Lt else 0)) bs nq Hc)
    as Hfwd.
  rewrite Hri in Hfwd. apply Hfwd; [by rewrite Hd | done..].
Qed.

End MTForward.

(* ===================================================================== *)
(** ** The forward pass of the single-task transformer *)
(* ===================================================================== *)

Lemma view_split_last {A} (t : Tensor A) a b h w :
  shape t = [a; b; h * w] ->
  exists out, view [a; b; h; w] t = Ok out /\ shape out = [a; b; h; w].
Proof.
  destruct t as [s f]. simpl. intros ->. unfold view. simpl.
  rewrite Nat.eqb_refl. eexists. split; reflexivity.
Qed.

Section BaseForward.
Context `{K : TorchKernels} {KS : KernelSpec K}.
Local Abbreviation T := (Tensor scalar).

Lemma transformer_forward_ok tr (src : T) (mask : Tensor bool) (query_embed pos_embed : T)
    d M bs h w nq :
  transformer_wf d d M true tr -> Transformer.pass_pos_and_query tr = true -> 1 <= M ->
  shape src = [bs; d; h; w] -> shape mask = [bs; h; w] ->
  shape pos_embed = [bs; d; h; w] -> shape query_embed = [nq; d] ->
  exists hs mem,
    Transformer.forward tr src mask query_embed pos_embed = Ok (hs, mem, None) /\
    shape hs = [M; bs; nq; d] /\ shape mem = [bs; d; h; w].
Proof.
  intros (He & Hp1 & Hp2 & dec & Hdec & Hd) Hpass HM Hs Hm Hp Hq.
  unfold Transformer.forward. rewrite Hs. simpl unpack4. rewrite bind_Ok.
  step (flatten2_ok src bs d h w) as s1; [done|].
  step (permute201_ok s1 bs d (h * w)) as s2; [done|].
  step (flatten2_ok pos_embed bs d h w) as p1; [done|].
  step (permute201_ok p1 bs d (h * w)) as p2; [done|].
  step (unsqueeze1_ok query_embed nq d) as q1; [done|].
  step (repeat_1b1_ok q1 nq d bs) as q2; [done|].
  destruct (flatten1_ok mask bs h w Hm) as (m1 & -> & Hm1 & _). rewrite bind_Ok.
  rewrite Hpass, bind_Ok.
  step (encoder_ok (Transformer.encoder tr) s2 (Some m1) (Some p2) (h * w) bs d) as mem0;
    [done | done | by intros t [= <-] ..|].
  assert (Hres : exists mem1,
    (if residual_in_encoder (Transformer.args tr) then add s2 mem0 else Ok mem0) = Ok mem1 /\
    shape mem1 = [h * w; bs; d]).
  { destruct (residual_in_encoder (Transformer.args tr)); [by apply add_ok | eauto]. }
  destruct Hres as (mem1 & -> & Hmem1). rewrite bind_Ok.
  step (projection_ok (Transformer.enc2dec_proj tr) mem1 (h * w) bs d d) as mem2; [done..|].
  unfold call_Projection_py.
  step (projection_ok (Transformer.pos_embed_proj tr) p2 (h * w) bs d d) as p3; [done..|].
  rewrite Hdec. unfold call_decoder.
  destruct (decoder_forward_ok dec (zeros_like q2) mem2 (Some m1) (Some p3) (Some q2)
              nq (h * w) bs d M true)
    as (out & no & _ & _ & _ & inter & hs & -> & _ & _ & _ & Hhs & _);
    [done | done | done | done | by intros t [= <-] ..|].
  rewrite bind_Ok.
  step (transpose12_ok hs M nq bs d) as hs1; [done|]. destruct Hhs1 as [Hhs1 _].
  step (permute120_ok mem2 (h * w) bs d) as mem3; [done|]. destruct Hmem3 as [Hmem3 _].
  step (view_split_last mem3 bs d h w) as mem4; [done|].
  exists hs1, mem4. done.
Qed.

End BaseForward.

(* ===================================================================== *)
(** ** Properties of the forward pass *)
(* ===================================================================== *)

(** C3. With image and text both present, the memory handed to the decoder
    and returned to the caller is the image stream followed by the text
    stream along the sequence axis, of length height * width + text length;
    the fused padding mask marks every padded image position at its
    flattened offset and every padded text position (mask value other than
    1) at its offset behind the image positions. *)
Theorem fused_memory_is_image_then_text
    (K : TorchKernels) (KS : KernelSpec K)
    (a : Args) (de dd nhead Ne M ff : nat) (dp : Q) (activation : string)
    (nb share : bool) (rng : nat) (m : MTTransformer.t) (rng' : nat)
    (img_src : Tensor scalar) (img_mask : Tensor bool)
    (img_pos text_src : Tensor scalar) (text_mask : Tensor Z)
    (text_pos q : Tensor scalar) (task dataset : string) (task_idx : option Z)
    (bs h w Lt nq : nat) (d0 : option TransformerDecoder.t) :
  MTTransformer.__init__ a de dd nhead Ne M ff dp activation nb true true share rng
    = Ok (m, rng') ->
  activation <> "glu" -> 0 < nhead -> de mod nhead = 0 -> dd mod nhead = 0 -> 1 <= M ->
  MTTransformer.lookup_decoder m task dataset = Ok d0 ->
  image_inputs_ok m de img_src img_mask img_pos task_idx bs h w ->
  text_inputs_ok dd text_src text_mask text_pos bs Lt ->
  query_ok m dd q task_idx nq ->
  exists c hs mem lI mem_img,
    MTTransformer.image_branch m img_src (Some img_mask) (Some img_pos) false
      (MTTransformer.locals0 (Some q)) task_idx = Ok lI /\
    MTTransformer.memories lI = [mem_img] /\ shape mem_img = [h * w; bs; dd] /\
    MTTransformer.decoder_inputs m (Some img_src) (Some img_mask) (Some img_pos)
      (Some text_src) (Some text_mask) (Some text_pos) (Some q) task dataset task_idx
      = Ok c /\
    MTTransformer.forward m (Some img_src) (Some img_mask) (Some img_pos)
      (Some text_src) (Some text_mask) (Some text_pos) (Some q) task dataset task_idx
      = Ok (hs, mem) /\
    shape (MTTransformer.dec_memories c) = [h * w + Lt; bs; dd] /\
    shape mem = [bs; dd; h * w + Lt] /\
    (forall b ch i,
       data mem [b; ch; i] = data (MTTransformer.dec_memories c) [i; b; ch] /\
       data mem [b; ch; i] =
         if i <? h * w then data mem_img [i; b; ch]
         else data text_src [b; i - h * w; ch]) /\
    shape (MTTransformer.dec_masks c) = [bs; h * w + Lt] /\
    (forall b y x, y < h -> x < w -> data img_mask [b; y; x] = true ->
       data (MTTransformer.dec_masks c) [b; y * w + x] = true) /\
    (forall b j, data text_mask [b; j] <> 1%Z ->
       data (MTTransformer.dec_masks c) [b; h * w + j] = true).
Proof.
  intros Hinit Hact Hh Hme Hmd HM Hl Himg Htext Hq.
  destruct (mt_init_wf _ _ _ _ _ _ _ _ _ _ _ _ _ _ _ _ Hinit Hact Hh Hme Hmd)
    as (Hwf & Ha & Hpass & _).
  destruct (forward_ok m de dd M true Hwf true true img_src img_mask img_pos
              text_src text_mask text_pos q task dataset task_idx bs h w Lt nq d0)
    as (c & hs & mem & t & Hc & Hf & Hhs & Hms & Hmd' & Hcs & Hks & _ & _ & _ & Hi & Ht);
    [done..|].
  destruct (Hi eq_refl) as (e & lI & mem_img & _ & _ & _ & HlI & HmI & HmIs & HdI & HkI).
  destruct (Ht eq_refl) as (HdT & HkT).
  exists c, hs, mem, lI, mem_img. unfold opt_if in *. simpl negb in *.
  repeat (split; [done|]). split; [|split; [done|split]].
  - intros b ch i. split; [apply Hmd'|]. rewrite Hmd'.
    destruct (i <? h * w) eqn:E.
    + apply HdI. by apply Nat.ltb_lt.
    + apply Nat.ltb_ge in E. replace i with (h * w + (i - h * w)) at 1 by lia. apply HdT.
  - intros b y x Hy Hx Hpad. rewrite HkI by nia.
    rewrite Nat.div_add_l, Nat.div_small, Nat.add_0_r by lia.
    rewrite (Nat.add_comm (y * w) x), Nat.Div0.mod_add, Nat.mod_small by lia. done.
  - intros b j Hpad. rewrite HkT. by rewrite bool_decide_eq_false_2.
Qed.

(** C5. A model built with [share_decoders] on keeps one canonical decoder,
    the one of the single-task part, in every entry of its registry; so two
    forward calls on the same inputs that name two registered pairs yield
    the same result. *)
Theorem shared_decoders_give_identical_outputs
    (K : TorchKernels)
    (a : Args) (de dd nhead Ne M ff : nat) (dp : Q) (activation : string)
    (nb ri ppq : bool) (rng : nat) (m : MTTransformer.t) (rng' : nat)
    (img_src : option (Tensor scalar)) (img_mask : option (Tensor bool))
    (img_pos text_src : option (Tensor scalar)) (text_mask : option (Tensor Z))
    (text_pos query_embed : option (Tensor scalar)) (task_idx : option Z)
    (task1 dataset1 task2 dataset2 : string) (e1 e2 : option TransformerDecoder.t) :
  MTTransformer.__init__ a de dd nhead Ne M ff dp activation nb ri ppq true rng
    = Ok (m, rng') ->
  MTTransformer.lookup_decoder m task1 dataset1 = Ok e1 ->
  MTTransformer.lookup_decoder m task2 dataset2 = Ok e2 ->
  (exists canonical,
     MTTransformer.decoder m = Some canonical /\
     e1 = Some canonical /\ e2 = Some canonical) /\
  MTTransformer.forward m img_src img_mask img_pos text_src text_mask text_pos
    query_embed task1 dataset1 task_idx =
  MTTransformer.forward m img_src img_mask img_pos text_src text_mask text_pos
    query_embed task2 dataset2 task_idx.
Proof.
  intros Hinit H1 H2.
  destruct (mt_init_shared _ _ _ _ _ _ _ _ _ _ _ _ _ _ _ _ Hinit eq_refl)
    as (canonical & Hc & Hall).
  pose proof (Hall _ _ _ H1) as ->. pose proof (Hall _ _ _ H2) as ->.
  split; [eauto|].
  unfold MTTransformer.forward, MTTransformer.decoder_inputs. cbv zeta.
  by rewrite H1, H2.
Qed.

(** C6, as amended. The registry holds exactly the pairs the configuration
    enumerates, and the lookup is by exact match.  A call that names a pair
    outside the registry never returns a result, whatever its inputs: no
    decoder is substituted.  The exception is the lookup's [KeyError]
    whenever the two input branches, which run before the lookup, complete. *)
Theorem unregistered_pair_never_yields_a_result
    (K : TorchKernels)
    (a : Args) (de dd nhead Ne M ff : nat) (dp : Q) (activation : string)
    (nb ri ppq share : bool) (rng : nat) (m : MTTransformer.t) (rng' : nat)
    (img_src : option (Tensor scalar)) (img_mask : option (Tensor bool))
    (img_pos text_src : option (Tensor scalar)) (text_mask : option (Tensor Z))
    (text_pos query_embed : option (Tensor scalar)) (task_idx : option Z)
    (task dataset : string) :
  MTTransformer.__init__ a de dd nhead Ne M ff dp activation nb ri ppq share rng
    = Ok (m, rng') ->
  NoDup ((num_queries a).*1) ->
  (enumerated a task dataset ->
     exists d, MTTransformer.lookup_decoder m task dataset = Ok d /\
               entry_at (MTTransformer.decoders m) task dataset = Some d) /\
  (~ enumerated a task dataset ->
     (exists key, MTTransformer.lookup_decoder m task dataset = Err (KeyError key)) /\
     (exists e, MTTransformer.forward m img_src img_mask img_pos text_src text_mask
                  text_pos query_embed task dataset task_idx = Err e) /\
     (forall l0 l1,
        match img_src with
        | Some img_src =>
            MTTransformer.image_branch m img_src img_mask img_pos
              (match text_src with None => true | Some _ => false end)
              (MTTransformer.locals0 query_embed) task_idx
        | None => Ok (MTTransformer.locals0 query_embed)
        end = Ok l0 ->
        match text_src with
        | Some text_src => MTTransformer.text_branch m text_src text_mask text_pos l0 task_idx
        | None => Ok l0
        end = Ok l1 ->
        exists key, MTTransformer.forward m img_src img_mask img_pos text_src text_mask
                      text_pos query_embed task dataset task_idx = Err (KeyError key))).
Proof.
  intros Hinit Hnd.
  pose proof (mt_init_registered _ _ _ _ _ _ _ _ _ _ _ _ _ _ _ _ Hinit Hnd task dataset)
    as Hreg.
  split.
  - intros He. apply Hreg in He as [d Hd]. exists d. split; [done|].
    by apply lookup_decoder_entry.
  - intros Hn.
    assert (Hkey : exists key,
              MTTransformer.lookup_decoder m task dataset = Err (KeyError key)).
    { apply lookup_decoder_KeyError.
      destruct (entry_at (MTTransformer.decoders m) task dataset) as [d|] eqn:E; [|done].
      exfalso. apply Hn, Hreg. exists d. by apply lookup_decoder_entry. }
    destruct Hkey as [key Hkey]. split; [eauto|].
    unfold MTTransformer.forward, MTTransformer.decoder_inputs. cbv zeta. split.
    + destruct (match img_src with Some _ => _ | None => _ end) as [l0|e0];
        [rewrite bind_Ok | rewrite !bind_Err; eauto].
      destruct (match text_src with Some _ => _ | None => _ end) as [l1|e1];
        [rewrite bind_Ok | rewrite !bind_Err; eauto].
      rewrite Hkey, !bind_Err. eauto.
    + intros l0 l1 -> H1. rewrite bind_Ok, H1, bind_Ok, Hkey, !bind_Err. eauto.
Qed.

(** C7. A model built with [pass_pos_and_query] off, called with a text
    stream and no image stream (a batch of token sequences, a table of
    positions, a set of queries, and a valid task index when a task slot is
    put before the queries), raises [NotImplementedError]. *)
Theorem text_only_without_pass_pos_and_query_is_not_implemented
    (K : TorchKernels)
    (a : Args) (de dd nhead Ne M ff : nat) (dp : Q) (activation : string)
    (nb ri share : bool) (rng : nat) (m : MTTransformer.t) (rng' : nat)
    (img_mask : option (Tensor bool)) (img_pos : option (Tensor scalar))
    (text_src : Tensor scalar) (text_mask : option (Tensor Z))
    (text_pos q : Tensor scalar) (task dataset : string) (task_idx : option Z)
    (bs Lt c Lp cp nq dq : nat) :
  MTTransformer.__init__ a de dd nhead Ne M ff dp activation nb ri false share rng
    = Ok (m, rng') ->
  shape text_src = [bs; Lt; c] -> shape text_pos = [Lp; cp] -> shape q = [nq; dq] ->
  (use_task_embedding_in_decoder a = true -> dq = dd) ->
  task_idx_ok (use_task_embedding_in_decoder a) task_idx ->
  MTTransformer.forward m None img_mask img_pos (Some text_src) text_mask (Some text_pos)
    (Some q) task dataset task_idx = Err NotImplementedError.
Proof.
  intros Hinit Hts Htp Hq Hdq Hidx.
  destruct (mt_init_fields _ _ _ _ _ _ _ _ _ _ _ _ _ _ _ _ Hinit) as (Ha & Hpass & Hemb & Hhs).
  rewrite <- Ha in Hemb, Hhs, Hdq, Hidx.
  destruct (text_branch_gen m dd Hemb Hhs text_src text_pos q text_mask
              (MTTransformer.locals0 (Some q)) task_idx bs Lt c Lp cp nq dq)
    as (ts & tp & q' & _ & _ & _ & _ & Htb); [done..|].
  rewrite Hpass in Htb.
  unfold MTTransformer.forward, MTTransformer.decoder_inputs. cbv zeta.
  by rewrite bind_Ok, Htb, !bind_Err.
Qed.

(** C9. A call with neither an image nor a text stream never returns a
    result: it fails at the lookup of the decoder when the pair is not
    registered, and otherwise at the concatenation of the empty list of
    memories. *)
Theorem no_input_stream_fails
    (K : TorchKernels) (m : MTTransformer.t)
    (img_mask : option (Tensor bool)) (img_pos : option (Tensor scalar))
    (text_mask : option (Tensor Z)) (text_pos query_embed : option (Tensor scalar))
    (task dataset : string) (task_idx : option Z) :
  MTTransformer.forward m None img_mask img_pos None text_mask text_pos query_embed
    task dataset task_idx =
  match MTTransformer.lookup_decoder m task dataset with
  | Ok _ => Err (TorchError "cat")
  | Err e => Err e
  end.
Proof.
  unfold MTTransformer.forward, MTTransformer.decoder_inputs. cbv zeta.
  rewrite !bind_Ok. destruct (MTTransformer.lookup_decoder m task dataset); reflexivity.
Qed.

(** C10. A model built with [pass_pos_and_query] off never produces a
    decoder output for a call with a text stream: every such call fails, and
    on well-shaped inputs, with or without an image stream, the failure is
    [NotImplementedError]. *)
Theorem text_without_pass_pos_and_query_never_decodes
    (K : TorchKernels) (KS : KernelSpec K)
    (a : Args) (de dd nhead Ne M ff : nat) (dp : Q) (activation : string)
    (nb ri share : bool) (rng : nat) (m : MTTransformer.t) (rng' : nat)
    (has_img : bool) (img_src : Tensor scalar) (img_mask : Tensor bool)
    (img_pos text_src : Tensor scalar) (text_mask : option (Tensor Z))
    (text_pos q : Tensor scalar) (task dataset : string) (task_idx : option Z)
    (bs h w Lt c Lp cp nq dq : nat) :
  MTTransformer.__init__ a de dd nhead Ne M ff dp activation nb ri false share rng
    = Ok (m, rng') ->
  (has_img = true ->
     activation <> "glu" /\ 0 < nhead /\ de mod nhead = 0 /\ dd mod nhead = 0 /\
     image_inputs_ok m de img_src img_mask img_pos task_idx bs h w) ->
  shape text_src = [bs; Lt; c] -> shape text_pos = [Lp; cp] -> shape q = [nq; dq] ->
  (use_task_embedding_in_decoder a = true -> dq = dd) ->
  task_idx_ok (use_task_embedding_in_decoder a) task_idx ->
  MTTransformer.forward m
    (opt_if has_img img_src) (opt_if has_img img_mask) (opt_if has_img img_pos)
    (Some text_src) text_mask (Some text_pos) (Some q) task dataset task_idx
    = Err NotImplementedError /\
  forall img_src' img_mask' img_pos' text_src' text_mask' text_pos' query_embed'
         task' dataset' task_idx',
    exists e,
      MTTransformer.forward m img_src' img_mask' img_pos' (Some text_src') text_mask'
        text_pos' query_embed' task' dataset' task_idx' = Err e.
Proof.
  intros Hinit Himg Hts Htp Hq Hdq Hidx.
  destruct (mt_init_fields _ _ _ _ _ _ _ _ _ _ _ _ _ _ _ _ Hinit) as (Ha & Hpass & Hemb & Hhs).
  rewrite <- Ha in Hemb, Hhs, Hdq, Hidx.
  split.
  - unfold MTTransformer.forward, MTTransformer.decoder_inputs. cbv zeta.
    destruct has_img; unfold opt_if.
    + destruct (Himg eq_refl) as (Hact & Hh & Hme & Hmd & Hs & Hmk & Hp & Hi & Hne).
      destruct (mt_init_wf _ _ _ _ _ _ _ _ _ _ _ _ _ _ _ _ Hinit Hact Hh Hme Hmd)
        as (Hwf & _).
      destruct (encoder_inputs_with_text m de dd M ri Hwf img_src img_mask img_pos bs h w
                  task_idx (MTTransformer.locals0 (Some q)) Hs Hmk Hp Hi Hne)
        as (e & ps & He & Hes & Hem & Hep & Hps & Hed & Het & Heq).
      destruct (image_branch_ok m de dd M ri Hwf _ _ _ _ _ _ e img_mask ps bs h w
                  He Hes Hem Hep Hps Hed)
        as (lI & memI & peI & mkI & -> & _ & _ & _ & _ & _ & _ & _ & _ & HqI).
      rewrite bind_Ok.
      destruct (text_branch_gen m dd Hemb Hhs text_src text_pos q text_mask lI task_idx
                  bs Lt c Lp cp nq dq)
        as (ts & tp & q' & _ & _ & _ & _ & Htb); [done | done | | done..|].
      { by rewrite HqI, Heq. }
      rewrite Hpass in Htb. by rewrite Htb, !bind_Err.
    + destruct (text_branch_gen m dd Hemb Hhs text_src text_pos q text_mask
                  (MTTransformer.locals0 (Some q)) task_idx bs Lt c Lp cp nq dq)
        as (ts & tp & q' & _ & _ & _ & _ & Htb); [done..|].
      rewrite Hpass in Htb. by rewrite bind_Ok, Htb, !bind_Err.
  - intros img_src' img_mask' img_pos' text_src' text_mask' text_pos' qe' task' ds' idx'.
    unfold MTTransformer.forward, MTTransformer.decoder_inputs. cbv zeta.
    destruct (match img_src' with Some _ => _ | None => _ end) as [l0|e0];
      [rewrite bind_Ok | rewrite !bind_Err; eauto].
    destruct (text_branch_never_completes m text_src' text_mask' text_pos' l0 idx' Hpass)
      as [e ->].
    rewrite !bind_Err. eauto.
Qed.

(* ===================================================================== *)
(** ** The activation names *)
(* ===================================================================== *)

(** The three names are bound to their functions. *)
Lemma get_activation_fn_known :
  _get_activation_fn "relu" = Ok F_relu /\
  _get_activation_fn "gelu" = Ok F_gelu /\
  _get_activation_fn "glu" = Ok F_glu.
Proof. repeat split; reflexivity. Qed.

(** Every other name is refused, with a message that reads
    "activation should be relu/gelu, not <name>.". *)
Lemma get_activation_fn_unknown activation :
  activation <> "relu" -> activation <> "gelu" -> activation <> "glu" ->
  _get_activation_fn activation =
  Err (RuntimeError (String.append "activation should be relu/gelu, not "
                                   (String.append activation "."))).
Proof.
  intros H1 H2 H3. unfold _get_activation_fn.
  destruct (String.eqb_spec activation "relu"); [done|].
  destruct (String.eqb_spec activation "gelu"); [done|].
  destruct (String.eqb_spec activation "glu"); [done|].
  reflexivity.
Qed.

Lemma ctor_bind_fail {A B} (c : ctor A) (f : A -> ctor B) rng e :
  c rng = Err e -> (c ≫= f) rng = Err e.
Proof. intros H. unfold mbind, ctor_bind. by rewrite H. Qed.

(** A layer, and with it the model, cannot be built with an unknown name:
    once the attention module and the dropout of the first layer are
    accepted, the name is refused. *)
Lemma unknown_activation_fails_construction a de dd nhead Ne M ff dp activation
    nb ri ppq share rng :
  activation <> "relu" -> activation <> "gelu" -> activation <> "glu" ->
  0 < nhead -> de mod nhead = 0 -> (0 <= dp <= 1)%Q ->
  MTTransformer.__init__ a de dd nhead Ne M ff dp activation nb ri ppq share rng =
  Err (RuntimeError (String.append "activation should be relu/gelu, not "
                                   (String.append activation "."))).
Proof.
  intros H1 H2 H3 Hh Hm Hdp. unfold MTTransformer.__init__, Transformer.__init__.
  do 2 apply ctor_bind_fail. unfold TransformerEncoderLayer.__init__.
  rewrite (ctor_bind_run _ _ _ _ _ (nn_MultiheadAttention_run de nhead dp rng Hh Hm)).
  rewrite (nn_Dropout_run dp Hdp), (get_activation_fn_unknown activation H1 H2 H3).
  reflexivity.
Qed.

(** C8, at the name "tanh". The name is refused at construction with a
    [RuntimeError]; its message names relu and gelu and does not name glu,
    which [_get_activation_fn] accepts. *)
Theorem unknown_activation_message_omits_glu :
  _get_activation_fn "tanh" =
    Err (RuntimeError "activation should be relu/gelu, not tanh.") /\
  contains "relu" "activation should be relu/gelu, not tanh." = true /\
  contains "gelu" "activation should be relu/gelu, not tanh." = true /\
  contains "glu" "activation should be relu/gelu, not tanh." = false /\
  _get_activation_fn "glu" = Ok F_glu.
Proof. repeat split; reflexivity. Qed.

(* ===================================================================== *)
(** ** Calls at concrete models *)
(* ===================================================================== *)


(** Without intermediate outputs the decoder returns a tensor of three axes,
    and the multi-task forward call, which indexes four, raises. *)
Lemma forward_without_intermediate_raises :
  Toy.build_no_intermediate = Ok (Toy.model_no_intermediate, 21) /\
  MTTransformer.forward Toy.model_no_intermediate (Some Toy.img_src) (Some Toy.img_mask)
    (Some Toy.img_pos) None None None (Some Toy.query_embed) "detection" "coco" None
    = Err IndexError.
Proof. split; vm_compute; reflexivity. Qed.

(** C6 fails as stated: a model built with [pass_pos_and_query] off, called
    with a text stream and a pair that is not registered, raises
    [NotImplementedError], which is not the lookup's error. *)
Lemma unregistered_pair_can_raise_not_implemented :
  Toy.build_multi false true = Ok (Toy.model_nopass, 23) /\
  entry_at (MTTransformer.decoders Toy.model_nopass) "vl" "missing" = None /\
  MTTransformer.forward Toy.model_nopass None None None (Some Toy.text_src)
    (Some Toy.text_mask) (Some Toy.text_pos) (Some Toy.query_embed) "vl" "missing"
    (Some 5%Z) = Err NotImplementedError /\
  forall key, Err NotImplementedError <> @Err (Tensor Z * Tensor Z) (KeyError key).
Proof.
  split; [vm_compute; reflexivity|]. split; [vm_compute; reflexivity|].
  split; [vm_compute; reflexivity|]. intros key. discriminate.
Qed.

(* ===================================================================== *)
(** ** The theorems at concrete inputs *)
(* ===================================================================== *)

Ltac by_eval := vm_compute; reflexivity.

Lemma toy_decoder_wf ri : decoder_wf 8 2 ri (Toy.decoder_of ri).
Proof.
  destruct ri; (split; [repeat constructor; try by_eval; try lia; discriminate|]);
    (split; [by_eval|]); (split; [by_eval|]);
    (split; [exists (nn_LayerNorm 8); split; by_eval | by_eval]).
Defined.

Lemma toy_task_idx_ok flag : task_idx_ok flag (Some 5%Z).
Proof. intros _. exists 5%Z. split; [reflexivity|]. unfold MTTransformer.MAX_TASK_NUM. lia. Defined.

Lemma toy_image_inputs_ok m :
  image_inputs_ok m 8 Toy.img_src Toy.img_mask Toy.img_pos (Some 5%Z) 2 2 3.
Proof.
  split; [reflexivity|]. split; [reflexivity|]. split; [reflexivity|].
  split; [apply toy_task_idx_ok | intros _; lia].
Defined.

Lemma toy_text_inputs_ok :
  text_inputs_ok 8 Toy.text_src Toy.text_mask Toy.text_pos 2 4.
Proof. split; [reflexivity|]. split; reflexivity. Defined.

Lemma toy_query_ok m : query_ok m 8 Toy.query_embed (Some 5%Z) 3.
Proof. split; [reflexivity | apply toy_task_idx_ok]. Defined.

(** C3 at the same model and inputs: 6 image positions, then 4 text
    positions. *)
Lemma fused_memory_is_image_then_text_witness :
  exists c hs mem mem_img,
    MTTransformer.decoder_inputs Toy.model_multi (Some Toy.img_src) (Some Toy.img_mask)
      (Some Toy.img_pos) (Some Toy.text_src) (Some Toy.text_mask) (Some Toy.text_pos)
      (Some Toy.query_embed) "vl" "vqa2" (Some 5%Z) = Ok c /\
    MTTransformer.forward Toy.model_multi (Some Toy.img_src) (Some Toy.img_mask)
      (Some Toy.img_pos) (Some Toy.text_src) (Some Toy.text_mask) (Some Toy.text_pos)
      (Some Toy.query_embed) "vl" "vqa2" (Some 5%Z) = Ok (hs, mem) /\
    shape mem = [2; 8; 2 * 3 + 4] /\
    shape (MTTransformer.dec_masks c) = [2; 2 * 3 + 4] /\
    (forall b ch i,
       data mem [b; ch; i] =
         if i <? 2 * 3 then data mem_img [i; b; ch]
         else data Toy.text_src [b; i - 2 * 3; ch]) /\
    data (MTTransformer.dec_masks c) [0; 1 * 3 + 2] = true /\
    data (MTTransformer.dec_masks c) [1; 2 * 3 + 3] = true.
Proof.
  destruct (fused_memory_is_image_then_text Toy.kernels toy_spec Toy.args_multi
              8 8 2 2 2 16 (1 # 10) "relu" false true 0 Toy.model_multi 23
              Toy.img_src Toy.img_mask Toy.img_pos Toy.text_src Toy.text_mask
              Toy.text_pos Toy.query_embed "vl" "vqa2" (Some 5%Z) 2 2 3 4 3
              (MTTransformer.decoder Toy.model_multi))
    as (c & hs & mem & lI & mem_img & _ & _ & _ & Hc & Hf & _ & Hms & Hd & Hks & Hki & Hkt).
  - by_eval.
  - discriminate.
  - lia.
  - reflexivity.
  - reflexivity.
  - lia.
  - by_eval.
  - apply toy_image_inputs_ok.
  - apply toy_text_inputs_ok.
  - apply toy_query_ok.
  - exists c, hs, mem, mem_img. split; [exact Hc|]. split; [exact Hf|].
    split; [exact Hms|]. split; [exact Hks|]. split; [intros b ch i; apply Hd|].
    split.
    + apply (Hki 0 1 2); [lia | lia | reflexivity].
    + apply (Hkt 1 3). discriminate.
Defined.

(** C5 at the model with shared decoders and the pairs (detection, coco)
    and (vl, vqa2). *)
Lemma shared_decoders_give_identical_outputs_witness :
  MTTransformer.forward Toy.model_multi (Some Toy.img_src) (Some Toy.img_mask)
    (Some Toy.img_pos) None None None (Some Toy.query_embed) "detection" "coco"
    (Some 5%Z) =
  MTTransformer.forward Toy.model_multi (Some Toy.img_src) (Some Toy.img_mask)
    (Some Toy.img_pos) None None None (Some Toy.query_embed) "vl" "vqa2" (Some 5%Z).
Proof.
  apply (shared_decoders_give_identical_outputs Toy.kernels Toy.args_multi
           8 8 2 2 2 16 (1 # 10) "relu" false true true 0 Toy.model_multi 23
           (Some Toy.img_src) (Some Toy.img_mask) (Some Toy.img_pos) None None None
           (Some Toy.query_embed) (Some 5%Z) "detection" "coco" "vl" "vqa2"
           (MTTransformer.decoder Toy.model_multi)
           (MTTransformer.decoder Toy.model_multi)).
  - by_eval.
  - by_eval.
  - by_eval.
Defined.

(** C6, as amended, at the pair (vl, missing), which the configuration does
    not enumerate, and the pair (vl, vqa2), which it does. *)
Lemma unregistered_pair_never_yields_a_result_witness :
  (exists d, MTTransformer.lookup_decoder Toy.model_multi "vl" "vqa2" = Ok d) /\
  (exists key,
     MTTransformer.forward Toy.model_multi (Some Toy.img_src) (Some Toy.img_mask)
       (Some Toy.img_pos) None None None (Some Toy.query_embed) "vl" "missing"
       (Some 5%Z) = Err (KeyError key)).
Proof.
  split.
  - destruct (unregistered_pair_never_yields_a_result Toy.kernels Toy.args_multi
                8 8 2 2 2 16 (1 # 10) "relu" false true true true 0 Toy.model_multi 23
                (Some Toy.img_src) (Some Toy.img_mask) (Some Toy.img_pos) None None None
                (Some Toy.query_embed) (Some 5%Z) "vl" "vqa2") as [Hreg _].
    + by_eval.
    + apply (bool_decide_unpack _). by_eval.
    + assert (He : enumerated Toy.args_multi "vl" "vqa2").
      { exists [("vqa2", 3); ("snli_ve", 3)], 3. simpl.
        split; [right; left | left]. }
      destruct (Hreg He) as (d & Hd & _). eauto.
  - destruct (unregistered_pair_never_yields_a_result Toy.kernels Toy.args_multi
                8 8 2 2 2 16 (1 # 10) "relu" false true true true 0 Toy.model_multi 23
                (Some Toy.img_src) (Some Toy.img_mask) (Some Toy.img_pos) None None None
                (Some Toy.query_embed) (Some 5%Z) "vl" "missing") as [_ Hun].
    + by_eval.
    + apply (bool_decide_unpack _). by_eval.
    + assert (Hne : ~ enumerated Toy.args_multi "vl" "missing").
      { intros (datasets & n & Hin & Hds). simpl in Hin.
        rewrite !elem_of_cons, elem_of_nil in Hin.
        destruct Hin as [Hin|[Hin|[]]]; [by inversion Hin | inversion Hin; subst].
        rewrite !elem_of_cons, elem_of_nil in Hds.
        destruct Hds as [Hds|[Hds|[]]]; inversion Hds. }
      destruct (Hun Hne) as (_ & _ & Hkey).
      assert (Hb : is_Ok (MTTransformer.image_branch (K:=Toy.kernels) Toy.model_multi
                            Toy.img_src (Some Toy.img_mask) (Some Toy.img_pos) true
                            (MTTransformer.locals0 (K:=Toy.kernels) (Some Toy.query_embed))
                            (Some 5%Z)) = true) by by_eval.
      destruct (MTTransformer.image_branch (K:=Toy.kernels) Toy.model_multi
                  Toy.img_src (Some Toy.img_mask) (Some Toy.img_pos) true
                  (MTTransformer.locals0 (K:=Toy.kernels) (Some Toy.query_embed))
                  (Some 5%Z)) as [l0|e0] eqn:E; [|discriminate].
      apply (Hkey l0 l0 eq_refl eq_refl).
Defined.

(** C7 at the model built with [pass_pos_and_query] off and a text of four
    tokens. *)
Lemma text_only_without_pass_pos_and_query_is_not_implemented_witness :
  MTTransformer.forward Toy.model_nopass None None None (Some Toy.text_src)
    (Some Toy.text_mask) (Some Toy.text_pos) (Some Toy.query_embed) "vl" "vqa2"
    (Some 5%Z) = Err NotImplementedError.
Proof.
  apply (text_only_without_pass_pos_and_query_is_not_implemented Toy.kernels
           Toy.args_multi 8 8 2 2 2 16 (1 # 10) "relu" false true true 0
           Toy.model_nopass 23 None None Toy.text_src (Some Toy.text_mask)
           Toy.text_pos Toy.query_embed "vl" "vqa2" (Some 5%Z) 2 4 8 4 8 3 8).
  - by_eval.
  - reflexivity.
  - reflexivity.
  - reflexivity.
  - reflexivity.
  - apply toy_task_idx_ok.
Defined.

(** C10 at the same model with an image of 2 x 3 positions and a text of
    four tokens. *)
Lemma text_without_pass_pos_and_query_never_decodes_witness :
  MTTransformer.forward Toy.model_nopass (Some Toy.img_src) (Some Toy.img_mask)
    (Some Toy.img_pos) (Some Toy.text_src) (Some Toy.text_mask) (Some Toy.text_pos)
    (Some Toy.query_embed) "vl" "vqa2" (Some 5%Z) = Err NotImplementedError.
Proof.
  apply (text_without_pass_pos_and_query_never_decodes Toy.kernels toy_spec
           Toy.args_multi 8 8 2 2 2 16 (1 # 10) "relu" false true true 0
           Toy.model_nopass 23 true Toy.img_src Toy.img_mask Toy.img_pos Toy.text_src
           (Some Toy.text_mask) Toy.text_pos Toy.query_embed "vl" "vqa2" (Some 5%Z)
           2 2 3 4 8 4 8 3 8).
  - by_eval.
  - intros _. split; [discriminate|]. split; [lia|]. split; [reflexivity|].
    split; [reflexivity | apply toy_image_inputs_ok].
  - reflexivity.
  - reflexivity.
  - reflexivity.
  - reflexivity.
  - apply toy_task_idx_ok.
Defined.

(* ===================================================================== *)
(** * Further properties of the module *)
(* ===================================================================== *)

(* ===================================================================== *)
(** ** Calls that cannot complete *)
(* ===================================================================== *)

(** Read a step of a computation that returned: the call at the head of [H]
    returned too. *)
Tactic Notation "bind_inv" hyp(H) "as" ident(E) :=
  lazymatch type of H with
  | (?c ≫= _) = Ok _ =>
      destruct c eqn:E; [rewrite bind_Ok in H | rewrite bind_Err in H; discriminate H]
  end.

Tactic Notation "bind_inv" hyp(H) :=
  let E := fresh "E" in bind_inv H as E.

Ltac split_pairs H :=
  repeat match type of H with
         | context [match ?p with pair _ _ => _ end] => is_var p; destruct p
         end.

Section NeverCompletes.
Context `{K : TorchKernels}.
Local Abbreviation T := (Tensor scalar).
Import MTTransformer.

(** The task slot cannot be put before a positional encoding that is
    [None]. *)
Lemma prefix_encoder_keeps_None m (src : T) mk task_idx src' mk' ps' :
  _prefix_task_embedding_to_encoder_inputs m src mk None task_idx = Ok (src', mk', ps') ->
  ps' = None.
Proof.
  unfold _prefix_task_embedding_to_encoder_inputs.
  destruct (negb (use_task_embedding_in_encoder (args m))).
  - by intros [= _ _ <-].
  - intros H. do 5 bind_inv H. simpl in H. done.
Qed.

Lemma encoder_inputs_without_pass m (src : T) mask pos l task_idx e :
  pass_pos_and_query m = false ->
  encoder_inputs m src mask pos true l task_idx = Ok e -> enc_pos e = None.
Proof.
  intros Hp H. unfold encoder_inputs in H. rewrite Hp in H.
  bind_inv H. split_pairs H.
  do 7 bind_inv H.
  bind_inv H as Hq. split_pairs H.
  do 5 bind_inv Hq. injection Hq as <- <- <- <-.
  bind_inv H as Hpre. split_pairs H. injection H as <-. simpl.
  by eapply prefix_encoder_keeps_None.
Qed.

(** Image only, positions and queries not passed separately: the positional
    encoding appended for the image stream is [None]. *)
Lemma image_branch_without_pass m (src : T) mask pos l task_idx l' :
  pass_pos_and_query m = false ->
  image_branch m src mask pos true l task_idx = Ok l' ->
  pos_embeds l' = pos_embeds l ++ [None].
Proof.
  intros Hp H. unfold image_branch in H.
  bind_inv H. cbv zeta in H.
  rewrite (encoder_inputs_without_pass _ _ _ _ _ _ _ Hp E) in H.
  bind_inv H.
  destruct (negb (mem_out_begin_idx m =? 0)).
  - bind_inv H as Hs. bind_inv Hs. simpl in Hs. done.
  - rewrite bind_Ok in H. do 2 bind_inv H.
    unfold call_Projection_py in H.
    destruct (pos_embed_proj m); [|done].
    rewrite bind_Ok in H. by injection H as <-.
Qed.

End NeverCompletes.

(** X1. A model whose [pass_pos_and_query] is off completes no forward call
    at all: with a text stream it raises in the text branch, with an image
    stream alone the positional encoding it collects is [None] and cannot be
    concatenated, and with no stream there is nothing to concatenate. *)
Theorem forward_never_completes_without_pass_pos_and_query
    (K : TorchKernels) (m : MTTransformer.t)
    (img_src : option (Tensor scalar)) (img_mask : option (Tensor bool))
    (img_pos text_src : option (Tensor scalar)) (text_mask : option (Tensor Z))
    (text_pos query_embed : option (Tensor scalar)) (task dataset : string)
    (task_idx : option Z) :
  MTTransformer.pass_pos_and_query m = false ->
  exists e, MTTransformer.forward m img_src img_mask img_pos text_src text_mask text_pos
              query_embed task dataset task_idx = Err e.
Proof.
  intros Hp.
  destruct (MTTransformer.forward m img_src img_mask img_pos text_src text_mask text_pos
              query_embed task dataset task_idx) as [[hs mem]|e] eqn:H; [exfalso | eauto].
  unfold MTTransformer.forward in H. bind_inv H as Hc. clear H.
  unfold MTTransformer.decoder_inputs in Hc. cbv zeta in Hc.
  bind_inv Hc as Himg. bind_inv Hc as Htext.
  destruct text_src as [text_src|].
  - match type of Htext with
    | MTTransformer.text_branch _ _ _ _ ?l _ = _ =>
        destruct (text_branch_never_completes m text_src text_mask text_pos l task_idx Hp)
          as [e He]
    end.
    congruence.
  - injection Htext as <-.
    bind_inv Hc as Hl. bind_inv Hc as Hmem. bind_inv Hc as Hmk. bind_inv Hc as Hpe.
    destruct img_src as [img_src|].
    + apply (image_branch_without_pass _ _ _ _ _ _ _ Hp) in Himg.
      rewrite Himg in Hpe. simpl in Hpe. done.
    + injection Himg as <-. simpl in Hmem. done.
Qed.

Lemma forward_never_completes_without_pass_pos_and_query_witness :
  exists e, MTTransformer.forward Toy.model_nopass (Some Toy.img_src) (Some Toy.img_mask)
              (Some Toy.img_pos) None None None (Some Toy.query_embed) "vl" "vqa2"
              (Some 5%Z) = Err e.
Proof.
  apply (forward_never_completes_without_pass_pos_and_query Toy.kernels Toy.model_nopass).
  vm_compute; reflexivity.
Defined.

(* ===================================================================== *)
(** ** The task index *)
(* ===================================================================== *)

Lemma wrap_in_range n i :
  (- Z.of_nat n <= i < Z.of_nat n)%Z ->
  wrap n i = Some (Z.to_nat (i mod Z.of_nat n)).
Proof.
  intros H. unfold wrap.
  destruct ((0 <=? i)%Z && (i <? Z.of_nat n)%Z) eqn:E1.
  - apply andb_true_iff in E1 as [H1 H2]. rewrite Z.mod_small by lia. done.
  - destruct ((- Z.of_nat n <=? i)%Z && (i <? 0)%Z) eqn:E2.
    + apply andb_true_iff in E2 as [H1 H2]. f_equal. f_equal.
      apply (Z.mod_unique _ _ (-1)); lia.
    + exfalso. apply andb_false_iff in E1, E2. lia.
Qed.

Lemma wrap_out_of_range n i :
  (i < - Z.of_nat n \/ Z.of_nat n <= i)%Z -> wrap n i = None.
Proof.
  intros H. unfold wrap.
  destruct ((0 <=? i)%Z && (i <? Z.of_nat n)%Z) eqn:E1.
  - apply andb_true_iff in E1. lia.
  - destruct ((- Z.of_nat n <=? i)%Z && (i <? 0)%Z) eqn:E2; [|done].
    apply andb_true_iff in E2. lia.
Qed.

Section TaskIndex.
Context `{K : TorchKernels}.
Local Abbreviation T := (Tensor scalar).
Import MTTransformer.

(** The row of the table a task index selects, tiled over the batch. *)
Lemma task_embed_row_layout emb i bs d :
  embedding_dim emb = d ->
  (- Z.of_nat (num_embeddings emb) <= i < Z.of_nat (num_embeddings emb))%Z ->
  exists r, task_embed_row (Some emb) (Some i) bs = Ok r /\ shape r = [1; bs; d] /\
    forall b ch, ch < d ->
      data r [0; b; ch] =
      data (weight emb) [Z.to_nat (i mod Z.of_nat (num_embeddings emb)); ch].
Proof.
  intros Hd Hi. unfold task_embed_row, select, weight. simpl.
  rewrite (wrap_in_range _ _ Hi). simpl.
  eexists. split; [reflexivity|]. simpl. split.
  - by rewrite Hd, Nat.mul_1_r, Nat.add_0_r.
  - intros b ch Hch. rewrite Hd. by rewrite (Nat.mod_small ch d Hch).
Qed.

(** No index, or an index outside the table, selects no row. *)
Lemma task_embed_row_invalid emb task_idx bs :
  match task_idx with
  | None => True
  | Some i => (i < - Z.of_nat (num_embeddings emb) \/ Z.of_nat (num_embeddings emb) <= i)%Z
  end ->
  task_embed_row (Some emb) task_idx bs =
  Err (match task_idx with
       | None => TorchError "repeat"
       | Some i => if fits_int64 i then IndexError else ValueError
       end).
Proof.
  destruct task_idx as [i|]; intros Hi; unfold task_embed_row, select, weight; simpl.
  - by rewrite (wrap_out_of_range _ _ Hi).
  - reflexivity.
Qed.

End TaskIndex.

(* ===================================================================== *)
(** ** The steps of a forward call that returned *)
(* ===================================================================== *)

Lemma unpack4_inv s bs c h w : unpack4 s = Ok (bs, c, h, w) -> s = [bs; c; h; w].
Proof.
  destruct s as [|x1 [|x2 [|x3 [|x4 [|x5 s]]]]]; simpl; try done. by intros [= -> -> -> ->].
Qed.

Lemma attr_of_inv {A} (x : option A) a : attr_of x = Ok a -> x = Some a.
Proof. destruct x; simpl; [by intros [= ->] | done]. Qed.

Section Inversions.
Context `{K : TorchKernels}.
Local Abbreviation T := (Tensor scalar).
Import MTTransformer.

Lemma encoder_inputs_inv m (src : T) mask pos tn l task_idx e :
  encoder_inputs m src mask pos tn l task_idx = Ok e ->
  exists bs c h w s1 s2 p0 p1 p2 mk0 mk1 s3 p3,
    shape src = [bs; c; h; w] /\ flatten 2 src = Ok s1 /\ permute [2; 0; 1] s1 = Ok s2 /\
    pos = Some p0 /\ flatten 2 p0 = Ok p1 /\ permute [2; 0; 1] p1 = Ok p2 /\
    mask = Some mk0 /\ flatten 1 mk0 = Ok mk1 /\
    (if tn then
       exists q0 q1 q2 q3,
         query_embed l = Some q0 /\ unsqueeze 1 q0 = Ok q1 /\
         repeat_ [1; bs; 1] q1 = Ok q2 /\
         _prefix_task_embedding_to_query_embed m q2 task_idx = Ok q3 /\
         if pass_pos_and_query m then
           s3 = s2 /\ enc_tgt e = Some (zeros_like q3) /\ enc_query_embed e = Some q3 /\
           p3 = Some p2
         else
           add s2 (scale (1 # 10) p2) = Ok s3 /\ enc_tgt e = Some q3 /\
           enc_query_embed e = None /\ p3 = None
     else s3 = s2 /\ enc_tgt e = tgt l /\ enc_query_embed e = query_embed l /\
          p3 = Some p2) /\
    _prefix_task_embedding_to_encoder_inputs m s3 mk1 p3 task_idx
      = Ok (enc_src e, enc_mask e, enc_pos e).
Proof.
  intros H. unfold encoder_inputs in H.
  bind_inv H as Hu. split_pairs H. apply unpack4_inv in Hu.
  bind_inv H as Hs1. bind_inv H as Hs2. bind_inv H as Hp0. apply attr_of_inv in Hp0.
  bind_inv H as Hp1. bind_inv H as Hp2. bind_inv H as Hm0. apply attr_of_inv in Hm0.
  bind_inv H as Hm1. bind_inv H as Hq. split_pairs H.
  bind_inv H as Hpre. split_pairs H. injection H as <-.
  cbn [enc_src enc_mask enc_pos enc_tgt enc_query_embed].
  do 13 eexists.
  do 8 (split; [first [eassumption | reflexivity]|]). split; [|first [eassumption | reflexivity]].
  destruct tn.
  - bind_inv Hq as Hq0. apply attr_of_inv in Hq0.
    bind_inv Hq as Hq1. bind_inv Hq as Hq2. bind_inv Hq as Hq3.
    do 4 eexists. do 4 (split; [first [eassumption | reflexivity]|]).
    destruct (pass_pos_and_query m).
    + by injection Hq as <- <- <- <-.
    + bind_inv Hq as Hadd. by injection Hq as <- <- <- <-.
  - by injection Hq as <- <- <- <-.
Qed.

Lemma image_branch_inv m (src : T) mask pos tn l task_idx l' :
  image_branch m src mask pos tn l task_idx = Ok l' ->
  exists e, encoder_inputs m src mask pos tn l task_idx = Ok e /\
            tgt l' = enc_tgt e /\ query_embed l' = enc_query_embed e.
Proof.
  intros H. unfold image_branch in H. bind_inv H as He. cbv zeta in H.
  bind_inv H as Hmem. bind_inv H as Hstrip. split_pairs H.
  do 3 bind_inv H. injection H as <-. eauto.
Qed.

Lemma text_branch_inv m (text_src : T) text_mask text_pos l task_idx l' :
  text_branch m text_src text_mask text_pos l task_idx = Ok l' ->
  exists ts tp0 tp1 tp2 n q0 q1 q2 q3,
    permute [1; 0; 2] text_src = Ok ts /\ text_pos = Some tp0 /\
    unsqueeze 1 tp0 = Ok tp1 /\ size ts 1 = Ok n /\ repeat_ [1; n; 1] tp1 = Ok tp2 /\
    query_embed l = Some q0 /\ unsqueeze 1 q0 = Ok q1 /\ repeat_ [1; n; 1] q1 = Ok q2 /\
    _prefix_task_embedding_to_query_embed m q2 task_idx = Ok q3 /\
    pass_pos_and_query m = true /\
    l' = {| memories := memories l ++ [ts];
            pos_embeds := pos_embeds l ++ [Some tp2];
            masks := masks l ++ [text_mask_ne_1 text_mask];
            tgt := Some (zeros_like q3);
            query_embed := Some q3 |}.
Proof.
  intros H. unfold text_branch in H.
  bind_inv H as Hts. bind_inv H as Htp0. apply attr_of_inv in Htp0.
  bind_inv H as Htp1. bind_inv H as Hn. bind_inv H as Htp2.
  bind_inv H as Hq0. apply attr_of_inv in Hq0. bind_inv H as Hq1.
  rewrite bind_Ok in H. bind_inv H as Hq2. bind_inv H as Hq3.
  destruct (pass_pos_and_query m); [|done]. injection H as <-.
  do 9 eexists. repeat (split; [first [eassumption | reflexivity]|]). done.
Qed.

(** [forward] up to the decoder, read back from its result. *)
Lemma decoder_inputs_inv m img_src img_mask img_pos (text_src : option T) text_mask text_pos
    qe task dataset task_idx c :
  decoder_inputs m img_src img_mask img_pos text_src text_mask text_pos qe task dataset
    task_idx = Ok c ->
  exists l0 l1,
    match img_src with
    | Some img_src =>
        image_branch m img_src img_mask img_pos
          (match text_src with None => true | Some _ => false end) (locals0 qe) task_idx
    | None => Ok (locals0 qe)
    end = Ok l0 /\
    match text_src with
    | Some text_src => text_branch m text_src text_mask text_pos l0 task_idx
    | None => Ok l0
    end = Ok l1 /\
    lookup_decoder m task dataset = Ok (dec_decoder c) /\
    cat (memories l1) 0 = Ok (dec_memories c) /\
    cat_py (masks l1) (-1) = Ok (dec_masks c) /\
    cat_py (pos_embeds l1) 0 = Ok (dec_pos_embeds c) /\
    dec_tgt c = tgt l1 /\ dec_query_embed c = query_embed l1.
Proof.
  intros H. unfold decoder_inputs in H. cbv zeta in H.
  bind_inv H as H0. bind_inv H as H1. bind_inv H as Hl. bind_inv H as Hm.
  bind_inv H as Hk. bind_inv H as Hp. injection H as <-. simpl. eauto 10.
Qed.

Lemma forward_inv m img_src img_mask img_pos (text_src : option T) text_mask text_pos
    qe task dataset task_idx hs mem :
  forward m img_src img_mask img_pos text_src text_mask text_pos qe task dataset task_idx
    = Ok (hs, mem) ->
  exists c tgt_ hs0 hs1,
    decoder_inputs m img_src img_mask img_pos text_src text_mask text_pos qe task dataset
      task_idx = Ok c /\
    dec_tgt c = Some tgt_ /\
    call_decoder (dec_decoder c) tgt_ (dec_memories c) (Some (dec_masks c))
      (Some (dec_pos_embeds c)) (dec_query_embed c) = Ok hs0 /\
    transpose 1 2 hs0 = Ok hs1 /\
    slice_from 2 (hs_out_begin_idx m) 4 hs1 = Ok hs /\
    permute [1; 2; 0] (dec_memories c) = Ok mem.
Proof.
  intros H. unfold forward in H. bind_inv H as Hc. bind_inv H as Ht.
  bind_inv H as Hd. bind_inv H as Htr. bind_inv H as Hsl. bind_inv H as Hpm.
  injection H as <- <-.
  destruct (dec_tgt _) as [x|] eqn:Ex; [|done]. injection Ht as <-.
  eauto 10.
Qed.

End Inversions.

(* ===================================================================== *)
(** ** A task index that selects no row *)
(* ===================================================================== *)

Section TaskIndexForward.
Context `{K : TorchKernels}.
Local Abbreviation T := (Tensor scalar).
Import MTTransformer.

Variables (m : MTTransformer.t) (task_idx : option Z).

(** A task index that selects no row of a table of [MAX_TASK_NUM] rows:
    none at all, or one outside [-MAX_TASK_NUM, MAX_TASK_NUM). *)
Hypothesis Hidx :
  match task_idx with
  | None => True
  | Some i => (i < - Z.of_nat MAX_TASK_NUM \/ Z.of_nat MAX_TASK_NUM <= i)%Z
  end.

Lemma prefix_query_invalid d (q q' : T) :
  use_task_embedding_in_decoder (args m) = true ->
  emb_wf true d (task_embeddings_dec m) ->
  _prefix_task_embedding_to_query_embed m q task_idx = Ok q' -> False.
Proof.
  intros Hflag Hemb H. destruct (Hemb eq_refl) as (e & He & Hn & _).
  unfold _prefix_task_embedding_to_query_embed in H. rewrite Hflag, He in H.
  simpl negb in H. cbv iota in H. bind_inv H as Hs.
  rewrite task_embed_row_invalid in H; [done|].
  rewrite Hn. exact Hidx.
Qed.

Lemma prefix_encoder_invalid d (src : T) mk ps r :
  use_task_embedding_in_encoder (args m) = true ->
  emb_wf true d (task_embeddings_enc m) ->
  _prefix_task_embedding_to_encoder_inputs m src mk ps task_idx = Ok r -> False.
Proof.
  intros Hflag Hemb H. destruct (Hemb eq_refl) as (e & He & Hn & _).
  unfold _prefix_task_embedding_to_encoder_inputs in H. rewrite Hflag, He in H.
  simpl negb in H. cbv iota in H. bind_inv H as Hs.
  rewrite task_embed_row_invalid in H; [done|].
  rewrite Hn. exact Hidx.
Qed.

End TaskIndexForward.

(** X2. A model built with a task embedding answers no call whose task index
    selects no row of the table of 256 rows (no index at all, which is the
    default of [forward], or an index outside [-256, 256)): with the
    decoder-side embedding every call fails, with the encoder-side embedding
    every call that has an image stream. *)
Theorem task_index_outside_the_table_never_returns
    (K : TorchKernels)
    (a : Args) (de dd nhead Ne M ff : nat) (dp : Q) (activation : string)
    (nb ri ppq share : bool) (rng : nat) (m : MTTransformer.t) (rng' : nat)
    (img_src : option (Tensor scalar)) (img_mask : option (Tensor bool))
    (img_pos text_src : option (Tensor scalar)) (text_mask : option (Tensor Z))
    (text_pos query_embed : option (Tensor scalar)) (task dataset : string)
    (task_idx : option Z) :
  MTTransformer.__init__ a de dd nhead Ne M ff dp activation nb ri ppq share rng
    = Ok (m, rng') ->
  match task_idx with
  | None => True
  | Some i => (i < - Z.of_nat MTTransformer.MAX_TASK_NUM \/
               Z.of_nat MTTransformer.MAX_TASK_NUM <= i)%Z
  end ->
  use_task_embedding_in_decoder a = true \/
  (use_task_embedding_in_encoder a = true /\ img_src <> None) ->
  exists e, MTTransformer.forward m img_src img_mask img_pos text_src text_mask text_pos
              query_embed task dataset task_idx = Err e.
Proof.
  intros Hinit Hidx Hflag.
  destruct (mt_init_inv _ _ _ _ _ _ _ _ _ _ _ _ _ _ _ _ Hinit)
    as (tr & r1 & sd & r2 & r3 & Htr & _ & _ & _ & _ & _ & Ha & _ & _ & Hee & Hed & _).
  apply transformer_init_decoder in Htr as (_ & Ha' & _). rewrite Ha' in Ha.
  destruct (MTTransformer.forward m img_src img_mask img_pos text_src text_mask text_pos
              query_embed task dataset task_idx) as [[hs mem]|e] eqn:H; [exfalso | eauto].
  apply forward_inv in H as (c & t & hs0 & hs1 & Hc & _).
  apply decoder_inputs_inv in Hc as (l0 & l1 & H0 & H1 & _ & Hm & _).
  destruct Hflag as [Hd | [He Hsome]].
  - rewrite Hd in Hed.
    assert (Hemb : emb_wf true dd (MTTransformer.task_embeddings_dec m)).
    { intros _. rewrite Hed. eauto. }
    destruct text_src as [text_src|].
    + apply text_branch_inv in H1 as (? & ? & ? & ? & ? & ? & ? & ? & ? & _ & _ & _ & _ &
                                      _ & _ & _ & _ & Hpre & _).
      eapply (prefix_query_invalid m task_idx Hidx dd); [by rewrite Ha | done | exact Hpre].
    + injection H1 as <-. destruct img_src as [img_src|].
      * apply image_branch_inv in H0 as (e & He & _).
        apply encoder_inputs_inv in He
          as (? & ? & ? & ? & ? & ? & ? & ? & ? & ? & ? & ? & ? & _ & _ & _ & _ & _ & _ & _ &
              _ & (? & ? & ? & ? & _ & _ & _ & Hpre & _) & _).
        eapply (prefix_query_invalid m task_idx Hidx dd); [by rewrite Ha | done | exact Hpre].
      * injection H0 as <-. simpl in Hm. done.
  - rewrite He in Hee. destruct Hee as [Hee _].
    assert (Hemb : emb_wf true de (MTTransformer.task_embeddings_enc m)).
    { intros _. rewrite Hee. eauto. }
    destruct img_src as [img_src|]; [|done].
    apply image_branch_inv in H0 as (e & Hei & _).
    apply encoder_inputs_inv in Hei
      as (? & ? & ? & ? & ? & ? & ? & ? & ? & ? & ? & ? & ? & _ & _ & _ & _ & _ & _ & _ &
          _ & _ & Hpre).
    eapply (prefix_encoder_invalid m task_idx Hidx de); [by rewrite Ha | done | exact Hpre].
Qed.

Lemma task_index_outside_the_table_never_returns_witness :
  (exists e, MTTransformer.forward Toy.model_multi (Some Toy.img_src) (Some Toy.img_mask)
               (Some Toy.img_pos) None None None (Some Toy.query_embed) "vl" "vqa2"
               None = Err e) /\
  (exists e, MTTransformer.forward Toy.model_multi None None None (Some Toy.text_src)
               (Some Toy.text_mask) (Some Toy.text_pos) (Some Toy.query_embed) "vl" "vqa2"
               (Some 256%Z) = Err e).
Proof.
  split.
  - apply (task_index_outside_the_table_never_returns Toy.kernels Toy.args_multi
             8 8 2 2 2 16 (1 # 10) "relu" false true true true 0 Toy.model_multi 23).
    + vm_compute; reflexivity.
    + exact I.
    + right. split; [reflexivity | discriminate].
  - apply (task_index_outside_the_table_never_returns Toy.kernels Toy.args_multi
             8 8 2 2 2 16 (1 # 10) "relu" false true true true 0 Toy.model_multi 23).
    + vm_compute; reflexivity.
    + right. unfold MTTransformer.MAX_TASK_NUM. lia.
    + left. reflexivity.
Defined.

(* ===================================================================== *)
(** ** Where the entries go *)
(* ===================================================================== *)

Section Layout.
Context {A : Type}.
Implicit Types t : Tensor A.

(** [t.flatten(2).permute(2, 0, 1)] reads a feature map in row-major
    order. *)
Lemma flatten2_data t n c h w out :
  shape t = [n; c; h; w] -> flatten 2 t = Ok out ->
  forall b ch k, data out [b; ch; k] = data t [b; ch; k / w; k mod w].
Proof. destruct t as [s f]. simpl. intros -> [= <-]. reflexivity. Qed.

Lemma permute201_data t a b c out :
  shape t = [a; b; c] -> permute [2; 0; 1] t = Ok out ->
  forall i j k, data out [k; i; j] = data t [i; j; k].
Proof. destruct t as [s f]. simpl. intros -> [= <-]. reflexivity. Qed.

Lemma flatten1_data t n h w out :
  shape t = [n; h; w] -> flatten 1 t = Ok out ->
  forall b k, data out [b; k] = data t [b; k / w; k mod w].
Proof. destruct t as [s f]. simpl. intros -> [= <-]. reflexivity. Qed.

(** [t.unsqueeze(1).repeat(1, bs, 1)] gives every batch element the rows of
    [t]. *)
Lemma rows_repeated t nq d bs t1 t2 :
  shape t = [nq; d] -> unsqueeze 1 t = Ok t1 -> repeat_ [1; bs; 1] t1 = Ok t2 ->
  shape t2 = [nq; bs; d] /\
  forall k b ch, k < nq -> ch < d -> data t2 [k; b; ch] = data t [k; ch].
Proof.
  destruct t as [s f]. simpl. intros -> [= <-] [= <-]. simpl. split.
  - by rewrite !Nat.mul_1_r, Nat.add_0_r.
  - intros k b ch Hk Hch. by rewrite (Nat.mod_small k nq Hk), (Nat.mod_small ch d Hch).
Qed.

Lemma row_major_div y x w : x < w -> (y * w + x) / w = y.
Proof. intros H. rewrite Nat.div_add_l by lia. rewrite Nat.div_small by lia. lia. Qed.

Lemma row_major_mod y x w : x < w -> (y * w + x) mod w = x.
Proof.
  intros H. rewrite Nat.add_comm, Nat.Div0.mod_add. by apply Nat.mod_small.
Qed.

End Layout.

Section QueryLayout.
Context `{K : TorchKernels}.
Local Abbreviation T := (Tensor scalar).
Import MTTransformer.

Lemma bidx_coord n i : i < n -> (if n =? 1 then 0 else i) = i.
Proof. intros H. destruct (Nat.eqb_spec n 1); lia. Qed.

(** The sum of two tensors of one shape, entry by entry. *)
Lemma add_data (a b out : T) x y z :
  shape a = [x; y; z] -> shape b = [x; y; z] -> add a b = Ok out ->
  shape out = [x; y; z] /\
  forall i j k, i < x -> j < y -> k < z ->
    data out [i; j; k] = fadd (data a [i; j; k]) (data b [i; j; k]).
Proof.
  destruct a as [sa fa], b as [sb fb]. cbn [shape]. intros -> ->.
  unfold add, map2. cbn [shape data]. rewrite broadcast_same. intros [= <-].
  split; [done|]. intros i j k Hi Hj Hk. cbn [data]. unfold bidx. cbn.
  by rewrite !bidx_coord.
Qed.

(** The task slot is put before the queries: position 0 holds the row of the
    table the task index selects (a negative index counts from the end), and
    query [k] moves to position [1 + k]. *)
Lemma prefix_query_layout m emb (q : T) i nq bs d :
  use_task_embedding_in_decoder (args m) = true ->
  task_embeddings_dec m = Some emb -> embedding_dim emb = d ->
  (- Z.of_nat (num_embeddings emb) <= i < Z.of_nat (num_embeddings emb))%Z ->
  shape q = [nq; bs; d] ->
  exists out, _prefix_task_embedding_to_query_embed m q (Some i) = Ok out /\
    shape out = [1 + nq; bs; d] /\
    (forall b ch, ch < d ->
       data out [0; b; ch] =
       data (weight emb) [Z.to_nat (i mod Z.of_nat (num_embeddings emb)); ch]) /\
    (forall k b ch, data out [1 + k; b; ch] = data q [k; b; ch]).
Proof.
  intros Hflag He Hd Hi Hq. unfold _prefix_task_embedding_to_query_embed.
  rewrite Hflag, He. simpl negb. cbv iota.
  rewrite (size1_ok q _ _ _ Hq), bind_Ok.
  destruct (task_embed_row_layout emb i bs d Hd Hi) as (r & -> & Hr & Hrd). rewrite bind_Ok.
  destruct (cat0_ok r q 1 nq bs d Hr Hq) as (out & -> & Hs & Hod).
  exists out. split; [done|]. split; [done|]. split.
  - intros b ch Hch. rewrite Hod. simpl. by apply Hrd.
  - intros k b ch. rewrite Hod. simpl. by rewrite Nat.sub_0_r.
Qed.

(** The same for the encoder side: the slot goes before the image positions,
    it is never marked as padding, and its positional encoding is zero. *)
Lemma prefix_encoder_layout m emb (src : T) (mk : Tensor bool) (ps : T) i hw bs d :
  use_task_embedding_in_encoder (args m) = true ->
  task_embeddings_enc m = Some emb -> embedding_dim emb = d ->
  (- Z.of_nat (num_embeddings emb) <= i < Z.of_nat (num_embeddings emb))%Z ->
  shape src = [hw; bs; d] -> shape mk = [bs; hw] -> shape ps = [hw; bs; d] -> 0 < hw ->
  exists src' mk' ps',
    _prefix_task_embedding_to_encoder_inputs m src mk (Some ps) (Some i)
      = Ok (src', mk', Some ps') /\
    shape src' = [1 + hw; bs; d] /\ shape mk' = [bs; 1 + hw] /\ shape ps' = [1 + hw; bs; d] /\
    (forall b ch, ch < d ->
       data src' [0; b; ch] =
       data (weight emb) [Z.to_nat (i mod Z.of_nat (num_embeddings emb)); ch]) /\
    (forall b, data mk' [b; 0] = false) /\
    (forall b ch, data ps' [0; b; ch] = zero) /\
    (forall k b ch, data src' [1 + k; b; ch] = data src [k; b; ch]) /\
    (forall k b, data mk' [b; 1 + k] = data mk [b; k]) /\
    (forall k b ch, data ps' [1 + k; b; ch] = data ps [k; b; ch]).
Proof.
  intros Hflag He Hd Hi Hs Hm Hp Hpos. unfold _prefix_task_embedding_to_encoder_inputs.
  rewrite Hflag, He. simpl negb. cbv iota.
  rewrite (size1_ok src _ _ _ Hs), bind_Ok.
  destruct (task_embed_row_layout emb i bs d Hd Hi) as (r & -> & Hr & Hrd). rewrite bind_Ok.
  destruct (cat0_ok r src 1 hw bs d Hr Hs) as (src' & -> & Hs' & Hsd). rewrite bind_Ok.
  destruct (slice_to1_ok mk bs hw Hm) as (pad & -> & Hpad). rewrite bind_Ok.
  replace (Nat.min 1 hw) with 1 in Hpad by lia.
  destruct (cat_last2_ok (zeros_like_bool pad) mk bs 1 hw 1) as (mk' & -> & Hm' & Hmd);
    [by left | done | done |].
  rewrite bind_Ok. simpl subscriptable. rewrite bind_Ok.
  destruct (slice_to0_ok ps hw bs d Hp) as (ppad & -> & Hppad). rewrite bind_Ok.
  replace (Nat.min 1 hw) with 1 in Hppad by lia.
  destruct (cat0_ok (zeros_like ppad) ps 1 hw bs d) as (ps' & -> & Hp' & Hpd); [done..|].
  rewrite bind_Ok. exists src', mk', ps'.
  split; [done|]. split; [done|]. split; [done|]. split; [done|].
  split; [intros b ch Hch; rewrite Hsd; simpl; by apply Hrd|].
  split; [intros b; by rewrite Hmd|].
  split; [intros b ch; by rewrite Hpd|].
  split; [intros k b ch; rewrite Hsd; simpl; by rewrite Nat.sub_0_r|].
  split; [intros k b; rewrite Hmd; simpl; by rewrite Nat.sub_0_r|].
  intros k b ch. rewrite Hpd. simpl. by rewrite Nat.sub_0_r.
Qed.

End QueryLayout.

Section BuiltLayout.
Context `{K : TorchKernels}.
Local Abbreviation T := (Tensor scalar).
Import MTTransformer.

Variables (a : Args) (de dd nhead Ne M ff : nat) (dp : Q) (activation : string)
  (nb ri ppq share : bool) (rng : nat) (m : MTTransformer.t) (rng' : nat).
Hypothesis Hinit :
  MTTransformer.__init__ a de dd nhead Ne M ff dp activation nb ri ppq share rng
    = Ok (m, rng').

Lemma built_args : args m = a.
Proof. by destruct (mt_init_fields _ _ _ _ _ _ _ _ _ _ _ _ _ _ _ _ Hinit) as (? & _). Qed.

Lemma built_emb_enc :
  use_task_embedding_in_encoder a = true ->
  exists emb, task_embeddings_enc m = Some emb /\
              num_embeddings emb = MAX_TASK_NUM /\ embedding_dim emb = de.
Proof.
  intros E.
  destruct (mt_init_inv _ _ _ _ _ _ _ _ _ _ _ _ _ _ _ _ Hinit)
    as (tr & r1 & sd & r2 & r3 & _ & _ & _ & _ & _ & _ & _ & _ & _ & Hee & _).
  rewrite E in Hee. destruct Hee as [-> _]. eauto.
Qed.

Lemma built_emb_dec :
  use_task_embedding_in_decoder a = true ->
  exists emb, task_embeddings_dec m = Some emb /\
              num_embeddings emb = MAX_TASK_NUM /\ embedding_dim emb = dd.
Proof.
  intros E.
  destruct (mt_init_fields _ _ _ _ _ _ _ _ _ _ _ _ _ _ _ _ Hinit) as (_ & _ & Hemb & _).
  by apply Hemb.
Qed.

(** The encoder-side prefix of a built model on well-shaped inputs, in both
    settings of the switch. *)
Lemma built_prefix_encoder (src : T) (mk : Tensor bool) (ps : T) task_idx hw bs :
  shape src = [hw; bs; de] -> shape mk = [bs; hw] -> shape ps = [hw; bs; de] ->
  task_idx_ok (use_task_embedding_in_encoder a) task_idx ->
  (use_task_embedding_in_encoder a = true -> 0 < hw) ->
  let ke := if use_task_embedding_in_encoder a then 1 else 0 in
  exists src' mk' ps',
    _prefix_task_embedding_to_encoder_inputs m src mk (Some ps) task_idx
      = Ok (src', mk', Some ps') /\
    shape src' = [ke + hw; bs; de] /\ shape mk' = [bs; ke + hw] /\
    shape ps' = [ke + hw; bs; de] /\
    (forall k b ch, data src' [ke + k; b; ch] = data src [k; b; ch]) /\
    (forall k b, data mk' [b; ke + k] = data mk [b; k]) /\
    (forall k b ch, data ps' [ke + k; b; ch] = data ps [k; b; ch]) /\
    (use_task_embedding_in_encoder a = true ->
       forall i emb, task_idx = Some i -> task_embeddings_enc m = Some emb ->
         (forall b ch, ch < de ->
            data src' [0; b; ch] =
            data (weight emb) [Z.to_nat (i mod Z.of_nat MAX_TASK_NUM); ch]) /\
         (forall b, data mk' [b; 0] = false) /\
         (forall b ch, data ps' [0; b; ch] = zero)).
Proof.
  intros Hs Hm Hp Hi Hpos ke. subst ke.
  destruct (use_task_embedding_in_encoder a) eqn:Hflag.
  - destruct (built_emb_enc Hflag) as (emb & He & Hn & Hd).
    destruct (Hi eq_refl) as (i & -> & Hrange). rewrite <- Hn in Hrange.
    destruct (prefix_encoder_layout m emb src mk ps i hw bs de)
      as (src' & mk' & ps' & Hpre & Hs' & Hm' & Hp' & Hd0 & Hm0 & Hp0 & Hds & Hdm & Hdp);
      [by rewrite built_args | done..| by apply Hpos |].
    exists src', mk', ps'. do 7 (split; [done|]).
    intros _ i' emb' [= <-] Hemb'. rewrite He in Hemb'. injection Hemb' as <-.
    rewrite <- Hn. done.
  - exists src, mk, ps. unfold _prefix_task_embedding_to_encoder_inputs.
    rewrite built_args, Hflag. simpl. do 7 (split; [done|]). done.
Qed.

Lemma built_prefix_query (q : T) task_idx nq bs :
  shape q = [nq; bs; dd] ->
  task_idx_ok (use_task_embedding_in_decoder a) task_idx ->
  let kd := if use_task_embedding_in_decoder a then 1 else 0 in
  exists q', _prefix_task_embedding_to_query_embed m q task_idx = Ok q' /\
    shape q' = [kd + nq; bs; dd] /\
    (forall k b ch, data q' [kd + k; b; ch] = data q [k; b; ch]) /\
    (use_task_embedding_in_decoder a = true ->
       forall i emb, task_idx = Some i -> task_embeddings_dec m = Some emb ->
         forall b ch, ch < dd ->
           data q' [0; b; ch] =
           data (weight emb) [Z.to_nat (i mod Z.of_nat MAX_TASK_NUM); ch]).
Proof.
  intros Hq Hi kd. subst kd.
  destruct (use_task_embedding_in_decoder a) eqn:Hflag.
  - destruct (built_emb_dec Hflag) as (emb & He & Hn & Hd).
    destruct (Hi eq_refl) as (i & -> & Hrange). rewrite <- Hn in Hrange.
    destruct (prefix_query_layout m emb q i nq bs dd)
      as (q' & Hpre & Hs' & Hd0 & Hds); [by rewrite built_args | done..|].
    exists q'. do 3 (split; [done|]).
    intros _ i' emb' [= <-] Hemb'. rewrite He in Hemb'. injection Hemb' as <-.
    rewrite <- Hn. done.
  - exists q. unfold _prefix_task_embedding_to_query_embed.
    rewrite built_args, Hflag. simpl. do 3 (split; [done|]). done.
Qed.

Lemma built_pass : pass_pos_and_query m = ppq.
Proof. by destruct (mt_init_fields _ _ _ _ _ _ _ _ _ _ _ _ _ _ _ _ Hinit) as (_ & ? & _). Qed.

(** What the encoder is called with when positions and queries are passed
    separately, or a text stream is present: the image in row-major order
    behind the task slot. *)
Lemma built_encoder_inputs (has_text : bool) (img_src : T) (img_mask : Tensor bool)
    (img_pos q : T) task_idx bs h w nq :
  ppq = true \/ has_text = true ->
  image_inputs_ok m de img_src img_mask img_pos task_idx bs h w ->
  (has_text = false -> query_ok m dd q task_idx nq) ->
  let ke := if use_task_embedding_in_encoder a then 1 else 0 in
  exists e ps,
    encoder_inputs m img_src (Some img_mask) (Some img_pos) (negb has_text)
      (locals0 (Some q)) task_idx = Ok e /\
    enc_pos e = Some ps /\
    shape (enc_src e) = [ke + h * w; bs; de] /\
    shape (enc_mask e) = [bs; ke + h * w] /\
    shape ps = [ke + h * w; bs; de] /\
    (forall b ch y x, y < h -> x < w ->
       data (enc_src e) [ke + (y * w + x); b; ch] = data img_src [b; ch; y; x] /\
       data ps [ke + (y * w + x); b; ch] = data img_pos [b; ch; y; x] /\
       data (enc_mask e) [b; ke + (y * w + x)] = data img_mask [b; y; x]) /\
    (use_task_embedding_in_encoder a = true ->
       forall i emb, task_idx = Some i -> task_embeddings_enc m = Some emb ->
         (forall b ch, ch < de ->
            data (enc_src e) [0; b; ch] =
            data (weight emb) [Z.to_nat (i mod Z.of_nat MAX_TASK_NUM); ch]) /\
         (forall b, data (enc_mask e) [b; 0] = false) /\
         (forall b ch, data ps [0; b; ch] = zero)).
Proof.
  intros Hmode (Hs & Hmk & Hp & Hi & Hne) Hq ke.
  pose proof built_args as Ha. pose proof built_pass as Hpass.
  rewrite Ha in Hi, Hne.
  unfold encoder_inputs. rewrite Hs. simpl unpack4. rewrite bind_Ok.
  destruct (flatten2_ok img_src bs de h w Hs) as (s1 & Es1 & Hs1). rewrite Es1, bind_Ok.
  destruct (permute201_ok s1 bs de (h * w) Hs1) as (s2 & Es2 & Hs2). rewrite Es2, bind_Ok.
  simpl attr_of. rewrite !bind_Ok.
  destruct (flatten2_ok img_pos bs de h w Hp) as (p1 & Ep1 & Hp1). rewrite Ep1, bind_Ok.
  destruct (permute201_ok p1 bs de (h * w) Hp1) as (p2 & Ep2 & Hp2). rewrite Ep2, bind_Ok.
  rewrite ?bind_Ok.
  destruct (flatten1_ok img_mask bs h w Hmk) as (m1 & Em1 & Hm1 & Hmd). rewrite Em1, bind_Ok.
  match goal with |- exists e ps, (?c ≫= _) = _ /\ _ =>
    assert (Hc : exists tg qe, c = Ok (s2, tg, qe, Some p2))
  end.
  { destruct has_text; simpl negb; cbv iota; [eauto|].
    destruct Hmode as [Hppq|?]; [|done].
    destruct (Hq eq_refl) as [Hqs Hqi]. rewrite Ha in Hqi.
    unfold locals0. cbn [query_embed attr_of]. rewrite ?bind_Ok.
    step (unsqueeze1_ok q nq dd) as q1; [done|].
    step (repeat_1b1_ok q1 nq dd bs) as q2; [done|].
    destruct (built_prefix_query q2 task_idx nq bs Hq2 Hqi) as (q3 & -> & _).
    rewrite bind_Ok, Hpass, Hppq. eauto. }
  destruct Hc as (tg & qe & ->). rewrite bind_Ok.
  destruct (built_prefix_encoder s2 m1 p2 task_idx (h * w) bs Hs2 Hm1 Hp2 Hi Hne)
    as (src' & mk' & ps' & -> & Hs' & Hm' & Hp' & Hds & Hdm & Hdp & Hslot).
  rewrite bind_Ok. eexists _, ps'. split; [reflexivity|]. simpl.
  split; [done|]. split; [done|]. split; [done|]. split; [done|]. split; [|exact Hslot].
  intros b ch y x Hy Hx. fold ke. rewrite Hds, Hdp, Hdm, Hmd.
  rewrite (permute201_data s1 _ _ _ s2 Hs1 Es2), (permute201_data p1 _ _ _ p2 Hp1 Ep2).
  rewrite (flatten2_data img_src _ _ _ _ s1 Hs Es1), (flatten2_data img_pos _ _ _ _ p1 Hp Ep1).
  by rewrite row_major_div, row_major_mod.
Qed.

(** What the encoder is called with for an image alone when positions and
    queries are not passed separately: the positional encoding is added to
    the image, scaled by 0.1, and no positional encoding is passed on; the
    task slot cannot be put before a positional encoding that is [None]. *)
Lemma built_encoder_inputs_without_pass (img_src : T) (img_mask : Tensor bool)
    (img_pos q : T) task_idx bs h w nq :
  ppq = false ->
  image_inputs_ok m de img_src img_mask img_pos task_idx bs h w ->
  query_ok m dd q task_idx nq ->
  if use_task_embedding_in_encoder a then
    encoder_inputs m img_src (Some img_mask) (Some img_pos) true (locals0 (Some q)) task_idx
      = Err TypeError
  else
    exists e,
      encoder_inputs m img_src (Some img_mask) (Some img_pos) true (locals0 (Some q))
        task_idx = Ok e /\
      enc_pos e = None /\
      shape (enc_src e) = [h * w; bs; de] /\
      shape (enc_mask e) = [bs; h * w] /\
      forall b ch y x, b < bs -> ch < de -> y < h -> x < w ->
        data (enc_src e) [y * w + x; b; ch] =
          fadd (data img_src [b; ch; y; x])
               (fmul (float_of_Q (1 # 10)) (data img_pos [b; ch; y; x])) /\
        data (enc_mask e) [b; y * w + x] = data img_mask [b; y; x].
Proof.
  intros Hppq (Hs & Hmk & Hp & Hi & Hne) [Hqs Hqi].
  pose proof built_args as Ha. pose proof built_pass as Hpass.
  rewrite Ha in Hi, Hne, Hqi.
  unfold encoder_inputs. rewrite Hs. simpl unpack4. rewrite bind_Ok.
  destruct (flatten2_ok img_src bs de h w Hs) as (s1 & Es1 & Hs1). rewrite Es1, bind_Ok.
  destruct (permute201_ok s1 bs de (h * w) Hs1) as (s2 & Es2 & Hs2). rewrite Es2, bind_Ok.
  simpl attr_of. rewrite !bind_Ok.
  destruct (flatten2_ok img_pos bs de h w Hp) as (p1 & Ep1 & Hp1). rewrite Ep1, bind_Ok.
  destruct (permute201_ok p1 bs de (h * w) Hp1) as (p2 & Ep2 & Hp2). rewrite Ep2, bind_Ok.
  rewrite ?bind_Ok.
  destruct (flatten1_ok img_mask bs h w Hmk) as (m1 & Em1 & Hm1 & Hmd). rewrite Em1, bind_Ok.
  unfold locals0. cbn [query_embed attr_of]. rewrite ?bind_Ok.
  step (unsqueeze1_ok q nq dd) as q1; [done|].
  step (repeat_1b1_ok q1 nq dd bs) as q2; [done|].
  destruct (built_prefix_query q2 task_idx nq bs Hq2 Hqi) as (q3 & -> & _).
  rewrite bind_Ok, Hpass, Hppq.
  destruct (add s2 (scale (1 # 10) p2)) as [s3|e] eqn:Eadd.
  2:{ destruct (add_ok s2 (scale (1 # 10) p2) [h * w; bs; de] Hs2 Hp2) as (? & E & _).
      congruence. }
  destruct (add_data s2 (scale (1 # 10) p2) s3 (h * w) bs de Hs2 Hp2 Eadd) as [Hs3 Hd3].
  rewrite !bind_Ok. unfold _prefix_task_embedding_to_encoder_inputs. rewrite Ha.
  destruct (use_task_embedding_in_encoder a) eqn:Hflag; simpl negb; cbv iota.
  - destruct (built_emb_enc Hflag) as (emb & He & Hn & Hd).
    destruct (Hi eq_refl) as (i & -> & Hrange). rewrite <- Hn in Hrange.
    rewrite (size1_ok s3 _ _ _ Hs3), bind_Ok, He.
    destruct (task_embed_row_layout emb i bs de Hd Hrange) as (r & -> & Hr & _).
    rewrite bind_Ok.
    destruct (cat0_ok r s3 1 (h * w) bs de Hr Hs3) as (src' & -> & _). rewrite bind_Ok.
    destruct (slice_to1_ok m1 bs (h * w) Hm1) as (pad & -> & Hpad). rewrite bind_Ok.
    specialize (Hne eq_refl).
    replace (Nat.min 1 (h * w)) with 1 in Hpad by lia.
    destruct (cat_last2_ok (zeros_like_bool pad) m1 bs 1 (h * w) 1) as (mk' & -> & _);
      [by left | done | done |].
    rewrite bind_Ok. reflexivity.
  - rewrite bind_Ok. eexists. split; [reflexivity|]. simpl.
    split; [done|]. split; [done|]. split; [done|].
    intros b ch y x Hb Hch Hy Hx. split.
    + rewrite Hd3; [|nia | done | done]. unfold scale, tmap. cbn [data].
      rewrite (permute201_data s1 _ _ _ s2 Hs1 Es2), (permute201_data p1 _ _ _ p2 Hp1 Ep2).
      rewrite (flatten2_data img_src _ _ _ _ s1 Hs Es1),
        (flatten2_data img_pos _ _ _ _ p1 Hp Ep1).
      by rewrite row_major_div, row_major_mod.
    + by rewrite Hmd, row_major_div, row_major_mod.
Qed.

End BuiltLayout.

(** X3. [_prefix_task_embedding_to_query_embed] of a built model: with the
    decoder-side switch off the queries are returned as they are; with it on,
    one position is put before them, which holds the row of the embedding
    table the task index selects (an index -256 <= i < 0 counts from the end
    of the table), the same for every batch element, and query [k] is found
    at position [1 + k]. *)
Theorem task_slot_is_put_before_the_queries
    (K : TorchKernels)
    (a : Args) (de dd nhead Ne M ff : nat) (dp : Q) (activation : string)
    (nb ri ppq share : bool) (rng : nat) (m : MTTransformer.t) (rng' : nat)
    (q : Tensor scalar) (task_idx : option Z) (nq bs : nat) :
  MTTransformer.__init__ a de dd nhead Ne M ff dp activation nb ri ppq share rng
    = Ok (m, rng') ->
  shape q = [nq; bs; dd] ->
  task_idx_ok (use_task_embedding_in_decoder a) task_idx ->
  let kd := if use_task_embedding_in_decoder a then 1 else 0 in
  exists q',
    MTTransformer._prefix_task_embedding_to_query_embed m q task_idx = Ok q' /\
    shape q' = [kd + nq; bs; dd] /\
    (forall k b ch, data q' [kd + k; b; ch] = data q [k; b; ch]) /\
    (use_task_embedding_in_decoder a = true ->
       forall i emb, task_idx = Some i -> MTTransformer.task_embeddings_dec m = Some emb ->
         forall b ch, ch < dd ->
           data q' [0; b; ch] =
           data (weight emb) [Z.to_nat (i mod Z.of_nat MTTransformer.MAX_TASK_NUM); ch]).
Proof.
  intros Hinit Hq Hi. by apply (built_prefix_query _ _ _ _ _ _ _ _ _ _ _ _ _ _ _ _ Hinit).
Qed.

Lemma task_slot_is_put_before_the_queries_witness :
  exists q' emb,
    MTTransformer._prefix_task_embedding_to_query_embed Toy.model_multi
      (Toy.iota [3; 2; 8]) (Some (-1)%Z) = Ok q' /\
    shape q' = [1 + 3; 2; 8] /\
    MTTransformer.task_embeddings_dec Toy.model_multi = Some emb /\
    data q' [0; 1; 7] = data (weight emb) [255; 7] /\
    data q' [1 + 2; 1; 7] = data (Toy.iota [3; 2; 8]) [2; 1; 7].
Proof.
  destruct (task_slot_is_put_before_the_queries Toy.kernels Toy.args_multi
              8 8 2 2 2 16 (1 # 10) "relu" false true true true 0 Toy.model_multi 23
              (Toy.iota [3; 2; 8]) (Some (-1)%Z) 3 2) as (q' & Hq' & Hs & Hd & Hslot).
  - vm_compute; reflexivity.
  - reflexivity.
  - intros _. exists (-1)%Z. split; [reflexivity|]. unfold MTTransformer.MAX_TASK_NUM. lia.
  - exists q'. eexists. split; [exact Hq'|]. split; [exact Hs|].
    split; [vm_compute; reflexivity|]. split.
    + apply (Hslot eq_refl (-1)%Z); [reflexivity | vm_compute; reflexivity | lia].
    + apply Hd.
Defined.

(** X4. What the encoder of a built model is called with.  When positions
    and queries are passed separately ([pass_pos_and_query] on), or a text
    stream is present: the feature map, its positional encoding and its
    padding mask flattened in row-major order (position [y * w + x] holds
    pixel [(y, x)]), behind the task slot when the encoder-side switch is on;
    the slot holds the selected row of the embedding table, is never marked
    as padding, and has a zero positional encoding.  With
    [pass_pos_and_query] off and an image alone: the source is
    [img_src + 0.1 * img_pos] in row-major order and the positional encoding
    is [None], and when the encoder-side switch is on the task slot cannot be
    put before that [None], which raises [TypeError]. *)
Theorem encoder_sees_the_image_in_row_major_order
    (K : TorchKernels)
    (a : Args) (de dd nhead Ne M ff : nat) (dp : Q) (activation : string)
    (nb ri ppq share : bool) (rng : nat) (m : MTTransformer.t) (rng' : nat)
    (has_text : bool) (img_src : Tensor scalar) (img_mask : Tensor bool)
    (img_pos q : Tensor scalar) (task_idx : option Z) (bs h w nq : nat) :
  MTTransformer.__init__ a de dd nhead Ne M ff dp activation nb ri ppq share rng
    = Ok (m, rng') ->
  image_inputs_ok m de img_src img_mask img_pos task_idx bs h w ->
  (has_text = false -> query_ok m dd q task_idx nq) ->
  let ke := if use_task_embedding_in_encoder a then 1 else 0 in
  if ppq || has_text then
    exists e ps,
      MTTransformer.encoder_inputs m img_src (Some img_mask) (Some img_pos) (negb has_text)
        (MTTransformer.locals0 (Some q)) task_idx = Ok e /\
      MTTransformer.enc_pos e = Some ps /\
      shape (MTTransformer.enc_src e) = [ke + h * w; bs; de] /\
      shape (MTTransformer.enc_mask e) = [bs; ke + h * w] /\
      (forall b ch y x, y < h -> x < w ->
         data (MTTransformer.enc_src e) [ke + (y * w + x); b; ch] =
           data img_src [b; ch; y; x] /\
         data ps [ke + (y * w + x); b; ch] = data img_pos [b; ch; y; x] /\
         data (MTTransformer.enc_mask e) [b; ke + (y * w + x)] = data img_mask [b; y; x]) /\
      (use_task_embedding_in_encoder a = true ->
         forall i emb, task_idx = Some i -> MTTransformer.task_embeddings_enc m = Some emb ->
           (forall b ch, ch < de ->
              data (MTTransformer.enc_src e) [0; b; ch] =
              data (weight emb) [Z.to_nat (i mod Z.of_nat MTTransformer.MAX_TASK_NUM); ch]) /\
           (forall b, data (MTTransformer.enc_mask e) [b; 0] = false) /\
           (forall b ch, data ps [0; b; ch] = zero))
  else if use_task_embedding_in_encoder a then
    MTTransformer.encoder_inputs m img_src (Some img_mask) (Some img_pos) (negb has_text)
      (MTTransformer.locals0 (Some q)) task_idx = Err TypeError
  else
    exists e,
      MTTransformer.encoder_inputs m img_src (Some img_mask) (Some img_pos) (negb has_text)
        (MTTransformer.locals0 (Some q)) task_idx = Ok e /\
      MTTransformer.enc_pos e = None /\
      shape (MTTransformer.enc_src e) = [h * w; bs; de] /\
      shape (MTTransformer.enc_mask e) = [bs; h * w] /\
      forall b ch y x, b < bs -> ch < de -> y < h -> x < w ->
        data (MTTransformer.enc_src e) [y * w + x; b; ch] =
          fadd (data img_src [b; ch; y; x])
               (fmul (float_of_Q (1 # 10)) (data img_pos [b; ch; y; x])) /\
        data (MTTransformer.enc_mask e) [b; y * w + x] = data img_mask [b; y; x].
Proof.
  intros Hinit Himg Hq ke.
  destruct (ppq || has_text) eqn:Hmode.
  - destruct (built_encoder_inputs a de dd nhead Ne M ff dp activation nb ri ppq share rng
                m rng' Hinit has_text img_src img_mask img_pos q task_idx bs h w nq)
      as (e & ps & He & Hps & Hs & Hm & _ & Hd & Hslot); [|done..|].
    { by apply orb_true_iff in Hmode. }
    exists e, ps. done.
  - apply orb_false_iff in Hmode as [-> ->]. simpl negb.
    by apply (built_encoder_inputs_without_pass a de dd nhead Ne M ff dp activation nb ri
                false share rng m rng' Hinit img_src img_mask img_pos q task_idx bs h w nq);
      [|done | apply Hq].
Qed.

Lemma encoder_sees_the_image_in_row_major_order_witness :
  exists e ps,
    MTTransformer.encoder_inputs Toy.model_multi Toy.img_src (Some Toy.img_mask)
      (Some Toy.img_pos) true (MTTransformer.locals0 (Some Toy.query_embed)) (Some 5%Z)
      = Ok e /\
    MTTransformer.enc_pos e = Some ps /\
    shape (MTTransformer.enc_src e) = [1 + 2 * 3; 2; 8] /\
    data (MTTransformer.enc_src e) [1 + (1 * 3 + 2); 0; 4] = data Toy.img_src [0; 4; 1; 2] /\
    data (MTTransformer.enc_mask e) [0; 1 + (1 * 3 + 2)] = data Toy.img_mask [0; 1; 2] /\
    data (MTTransformer.enc_mask e) [0; 0] = false.
Proof.
  destruct (encoder_sees_the_image_in_row_major_order Toy.kernels Toy.args_multi
              8 8 2 2 2 16 (1 # 10) "relu" false true true true 0 Toy.model_multi 23
              false Toy.img_src Toy.img_mask Toy.img_pos Toy.query_embed (Some 5%Z) 2 2 3 3)
    as (e & ps & He & Hps & Hs & Hm & Hd & Hslot).
  - vm_compute; reflexivity.
  - apply toy_image_inputs_ok.
  - intros _. apply toy_query_ok.
  - exists e, ps. split; [exact He|]. split; [exact Hps|]. split; [exact Hs|].
    destruct (Hd 0 4 1 2) as (H1 & _ & H3); [lia | lia |].
    split; [exact H1|]. split; [exact H3|].
    destruct (Hslot eq_refl 5%Z
                {| num_embeddings := 256; embedding_dim := 8; emb_params := Drawn 21 |}
                eq_refl) as (_ & H0 & _); [vm_compute; reflexivity|].
    apply H0.
Defined.

(* ===================================================================== *)
(** ** The decoder call of the multi-task transformer *)
(* ===================================================================== *)

Section DecoderEdge.
Context `{K : TorchKernels} {KS : KernelSpec K}.
Local Abbreviation T := (Tensor scalar).
Import TransformerDecoder.

(** A decoder without layers that collects intermediate outputs has
    collected none when it replaces the last one. *)
Lemma decoder_forward_no_layers self (tgt memory : T) tm mm tk mk pos qpos L B d :
  decoder_wf d 0 true self -> shape tgt = [L; B; d] ->
  forward self tgt memory tm mm tk mk pos qpos = Err IndexError.
Proof.
  intros (_ & Hlen & _ & (n & Hn & Hd) & Hri) Ht. unfold forward.
  destruct (layers self) as [|l ls]; [|done]. simpl run. rewrite bind_Ok, Hn.
  destruct (norm_ok n tgt L B d Hd Ht) as (no & -> & _).
  rewrite bind_Ok, Hri. reflexivity.
Qed.

End DecoderEdge.

Section MTForwardData.
Context `{K : TorchKernels} {KS : KernelSpec K}.
Local Abbreviation T := (Tensor scalar).
Import MTTransformer.

Variables (m : MTTransformer.t) (de dd M : nat) (ri : bool).
Hypothesis Hwf : mt_wf de dd M ri m.

(** The end of [forward] with the entries: the hidden states are the
    decoder's stack with the batch axis moved before the queries and the
    first [hs_out_begin_idx] positions left out. *)
Lemma forward_hidden_states img_src img_mask img_pos text_src text_mask text_pos qe
    task dataset task_idx c (q' : T) S bs nq :
  decoder_inputs m img_src img_mask img_pos text_src text_mask text_pos qe task dataset
    task_idx = Ok c ->
  lookup_decoder m task dataset = Ok (dec_decoder c) ->
  dec_tgt c = Some (zeros_like q') -> dec_query_embed c = Some q' ->
  shape q' = [hs_out_begin_idx m + nq; bs; dd] ->
  shape (dec_memories c) = [S; bs; dd] -> shape (dec_masks c) = [bs; S] ->
  shape (dec_pos_embeds c) = [S; bs; dd] ->
  ri = true -> 1 <= M ->
  exists hs0 hs mem,
    call_decoder (dec_decoder c) (zeros_like q') (dec_memories c) (Some (dec_masks c))
      (Some (dec_pos_embeds c)) (Some q') = Ok hs0 /\
    shape hs0 = [M; hs_out_begin_idx m + nq; bs; dd] /\
    forward m img_src img_mask img_pos text_src text_mask text_pos qe task dataset
      task_idx = Ok (hs, mem) /\
    shape hs = [M; bs; nq; dd] /\
    forall l b k ch, data hs [l; b; k; ch] = data hs0 [l; hs_out_begin_idx m + k; b; ch].
Proof.
  intros Hc Hl Ht Hq Hqs Hmem Hmk Hpe Hri HM. subst ri.
  destruct (wf_decoders _ _ _ _ _ Hwf _ _ _ Hl) as (dec & Hdec & Hdwf).
  unfold forward. rewrite Hc, bind_Ok, Ht, bind_Ok, Hdec, Hq. unfold call_decoder.
  destruct (decoder_forward_ok dec (zeros_like q') (dec_memories c) (Some (dec_masks c))
              (Some (dec_pos_embeds c)) (Some q') (hs_out_begin_idx m + nq) S bs dd M true)
    as (out & no & _ & _ & _ & inter & hs & -> & _ & _ & _ & Hhs & _);
    [done | done | done | done | by intros t [= <-] ..|].
  rewrite bind_Ok.
  destruct (transpose12_ok hs M (hs_out_begin_idx m + nq) bs dd Hhs) as (hs1 & -> & Hhs1 & Hd1).
  rewrite bind_Ok.
  destruct (slice_from2_ok hs1 (hs_out_begin_idx m) M bs (hs_out_begin_idx m + nq) dd Hhs1)
    as (hs2 & -> & Hhs2 & Hd2).
  rewrite bind_Ok.
  destruct (permute120_ok (dec_memories c) S bs dd Hmem) as (mem & -> & Hms & Hmd).
  rewrite bind_Ok. exists hs, hs2, mem.
  split; [done|]. split; [done|]. split; [done|]. split.
  - replace (hs_out_begin_idx m + nq - hs_out_begin_idx m) with nq in Hhs2 by lia. done.
  - intros l b k ch. rewrite Hd2, Hd1. by rewrite (Nat.add_comm k).
Qed.

(** A model without decoder layers raises when it replaces the last
    collected output. *)
Lemma forward_no_layers img_src img_mask img_pos text_src text_mask text_pos qe
    task dataset task_idx c (q' : T) bs nq :
  decoder_inputs m img_src img_mask img_pos text_src text_mask text_pos qe task dataset
    task_idx = Ok c ->
  lookup_decoder m task dataset = Ok (dec_decoder c) ->
  dec_tgt c = Some (zeros_like q') ->
  shape q' = [hs_out_begin_idx m + nq; bs; dd] ->
  ri = true -> M = 0 ->
  forward m img_src img_mask img_pos text_src text_mask text_pos qe task dataset
    task_idx = Err IndexError.
Proof.
  intros Hc Hl Ht Hqs Hri HM. subst ri M.
  destruct (wf_decoders _ _ _ _ _ Hwf _ _ _ Hl) as (dec & Hdec & Hdwf).
  unfold forward. rewrite Hc, bind_Ok, Ht, bind_Ok, Hdec. unfold call_decoder.
  by rewrite (decoder_forward_no_layers dec (zeros_like q') _ _ _ _ _ _ _
                (hs_out_begin_idx m + nq) bs dd Hdwf Hqs).
Qed.

(** Image only, positions and queries not passed separately: the positional
    encoding of the image stream is [None] from the start, and whatever
    touches it next raises [TypeError]: the encoder-side prefix, a linear
    projection, or the concatenation. *)
Lemma forward_image_only_without_pass (img_src : T) (img_mask : Tensor bool) (img_pos q : T)
    task dataset task_idx bs h w nq d0 :
  pass_pos_and_query m = false ->
  lookup_decoder m task dataset = Ok d0 ->
  image_inputs_ok m de img_src img_mask img_pos task_idx bs h w ->
  query_ok m dd q task_idx nq ->
  forward m (Some img_src) (Some img_mask) (Some img_pos) None None None (Some q)
    task dataset task_idx = Err TypeError.
Proof.
  intros Hpass Hl (Hs & Hmk & Hp & Hi & Hne) [Hq Hqi].
  unfold forward, decoder_inputs. cbv zeta.
  unfold image_branch, encoder_inputs. rewrite Hs. simpl unpack4. rewrite bind_Ok.
  step (flatten2_ok img_src bs de h w) as s1; [done|].
  step (permute201_ok s1 bs de (h * w)) as s2; [done|].
  simpl attr_of. rewrite !bind_Ok.
  step (flatten2_ok img_pos bs de h w) as p1; [done|].
  step (permute201_ok p1 bs de (h * w)) as p2; [done|].
  rewrite ?bind_Ok.
  destruct (flatten1_ok img_mask bs h w Hmk) as (m1 & -> & Hm1 & _). rewrite bind_Ok.
  unfold locals0 at 1. cbn [query_embed attr_of]. rewrite ?bind_Ok.
  step (unsqueeze1_ok q nq dd) as q1; [done|].
  step (repeat_1b1_ok q1 nq dd bs) as q2; [done|].
  step (prefix_query_ok m de dd M ri Hwf q2 task_idx nq bs) as q3; [done..|].
  rewrite Hpass.
  step (add_ok s2 (scale (1 # 10) p2) [h * w; bs; de]) as s3; [done..|].
  unfold _prefix_task_embedding_to_encoder_inputs.
  rewrite (wf_mem_idx _ _ _ _ _ Hwf).
  destruct (use_task_embedding_in_encoder (args m)) eqn:Hflag; simpl negb; cbv iota.
  - rewrite (size1_ok s3 _ _ _ Hs3), bind_Ok.
    step (task_embed_row_ok _ (task_embeddings_enc m) de task_idx bs
            (wf_emb_enc _ _ _ _ _ Hwf)) as r; [by rewrite Hflag..|].
    destruct (cat0_ok r s3 1 (h * w) bs de Hr Hs3) as (src' & -> & Hs' & _).
    rewrite bind_Ok.
    step (slice_to1_ok m1 bs (h * w)) as pad; [done|].
    specialize (Hne eq_refl).
    replace (Nat.min 1 (h * w)) with 1 in Hpad by lia.
    destruct (cat_last2_ok (zeros_like_bool pad) m1 bs 1 (h * w) 1) as (mk' & -> & _);
      [by left | done | done |].
    rewrite bind_Ok. reflexivity.
  - rewrite !bind_Ok. cbv zeta. cbn [enc_src enc_mask enc_pos enc_tgt enc_query_embed].
    step (encoder_ok (encoder m) s3 (Some m1) None (h * w) bs de) as mem0.
    { apply (wf_encoder _ _ _ _ _ Hwf). }
    { done. }
    { intros t [= <-]. done. }
    { intros t [=]. }
    assert (Hres : exists mem2,
      (if residual_in_encoder (args m) then add s3 mem0 else Ok mem0) = Ok mem2 /\
      shape mem2 = [h * w; bs; de]).
    { destruct (residual_in_encoder (args m)); [by apply add_ok | eauto]. }
    destruct Hres as (mem2 & -> & Hmem2). rewrite bind_Ok.
    step (projection_ok (enc2dec_proj m) mem2 (h * w) bs de dd) as mem3.
    { apply (wf_enc2dec _ _ _ _ _ Hwf). }
    { done. }
    unfold call_Projection_py.
    destruct (pos_embed_proj m); [|reflexivity].
    rewrite !bind_Ok. cbn [memories pos_embeds masks locals0 app].
    rewrite Hl, bind_Ok.
    rewrite (cat_single0 mem3 _ _ Hmem3), bind_Ok.
    unfold cat_py. cbn [tensors_of]. rewrite !bind_Ok.
    rewrite (cat_single_last2 m1 _ _ Hm1), bind_Ok. reflexivity.
Qed.

(** With a text stream and positions and queries not passed separately, the
    text branch raises once the image branch, if there is one, has
    completed. *)
Lemma forward_with_text_without_pass (has_img : bool) (img_src : T) (img_mask : Tensor bool)
    (img_pos text_src : T) (text_mask : Tensor Z) (text_pos q : T)
    task dataset task_idx bs h w Lt nq :
  pass_pos_and_query m = false ->
  (has_img = true -> image_inputs_ok m de img_src img_mask img_pos task_idx bs h w) ->
  text_inputs_ok dd text_src text_mask text_pos bs Lt ->
  query_ok m dd q task_idx nq ->
  forward m (opt_if has_img img_src) (opt_if has_img img_mask) (opt_if has_img img_pos)
    (Some text_src) (Some text_mask) (Some text_pos) (Some q) task dataset task_idx
    = Err NotImplementedError.
Proof.
  intros Hpass Himg (Hts & Htm & Htp) [Hq Hqi].
  unfold forward, decoder_inputs. cbv zeta.
  destruct has_img; unfold opt_if.
  - destruct (Himg eq_refl) as (Hs & Hmk & Hp & Hi & Hne).
    destruct (encoder_inputs_with_text m de dd M ri Hwf img_src img_mask img_pos bs h w
                task_idx (locals0 (Some q)) Hs Hmk Hp Hi Hne)
      as (e & ps & He & Hes & Hem & Hep & Hps & Hed & Het & Heq).
    destruct (image_branch_ok m de dd M ri Hwf _ _ _ _ _ _ e img_mask ps bs h w
                He Hes Hem Hep Hps Hed)
      as (lI & memI & peI & mkI & -> & _ & _ & _ & _ & _ & _ & _ & _ & HqI).
    rewrite bind_Ok.
    destruct (text_branch_prep m de dd M ri Hwf text_src text_pos q (Some text_mask) lI
                task_idx bs Lt nq)
      as (ts & tp & q' & _ & _ & _ & _ & Htb); [done | done | | done..|].
    { by rewrite HqI, Heq. }
    rewrite Hpass in Htb. by rewrite Htb, !bind_Err.
  - destruct (text_branch_prep m de dd M ri Hwf text_src text_pos q (Some text_mask)
                (locals0 (Some q)) task_idx bs Lt nq)
      as (ts & tp & q' & _ & _ & _ & _ & Htb); [done..|].
    rewrite Hpass in Htb. by rewrite bind_Ok, Htb, !bind_Err.
Qed.

(** A call on well-shaped inputs of a model that does not pass positions and
    queries separately never reaches the decoder. *)
Lemma forward_without_pass (has_img has_text : bool) (img_src : T) (img_mask : Tensor bool)
    (img_pos text_src : T) (text_mask : Tensor Z) (text_pos q : T)
    task dataset task_idx bs h w Lt nq d0 :
  pass_pos_and_query m = false ->
  lookup_decoder m task dataset = Ok d0 ->
  has_img || has_text = true ->
  (has_img = true -> image_inputs_ok m de img_src img_mask img_pos task_idx bs h w) ->
  (has_text = true -> text_inputs_ok dd text_src text_mask text_pos bs Lt) ->
  query_ok m dd q task_idx nq ->
  forward m
    (opt_if has_img img_src) (opt_if has_img img_mask) (opt_if has_img img_pos)
    (opt_if has_text text_src) (opt_if has_text text_mask) (opt_if has_text text_pos)
    (Some q) task dataset task_idx
    = Err (if has_text then NotImplementedError else TypeError).
Proof.
  intros Hpass Hl Hany Himg Htext Hq. destruct has_text.
  - by apply (forward_with_text_without_pass has_img img_src img_mask img_pos text_src
                text_mask text_pos q task dataset task_idx bs h w Lt nq);
      [| |apply Htext|].
  - destruct has_img; [|done]. unfold opt_if.
    by apply (forward_image_only_without_pass img_src img_mask img_pos q task dataset
                task_idx bs h w nq d0); [| |apply Himg|].
Qed.

(** The image branch with the entries: the encoder runs on the sequence with
    the task slot, the first [mem_out_begin_idx] positions of its output and
    of its input are left out, and what remains goes through the residual
    sum and the projection into the list of memories. *)
Lemma image_branch_data img_src img_mask0 img_pos tn l task_idx e (ps : T) bs n l' :
  encoder_inputs m img_src img_mask0 img_pos tn l task_idx = Ok e ->
  shape (enc_src e) = [mem_out_begin_idx m + n; bs; de] ->
  shape (enc_mask e) = [bs; mem_out_begin_idx m + n] ->
  enc_pos e = Some ps -> shape ps = [mem_out_begin_idx m + n; bs; de] ->
  image_branch m img_src img_mask0 img_pos tn l task_idx = Ok l' ->
  exists enc_out src1 mem1 mem2 mem,
    TransformerEncoder.forward (encoder m) (enc_src e) None (Some (enc_mask e)) (Some ps)
      = Ok enc_out /\
    shape enc_out = [mem_out_begin_idx m + n; bs; de] /\
    shape src1 = [n; bs; de] /\ shape mem1 = [n; bs; de] /\
    (forall i b ch, data src1 [i; b; ch] = data (enc_src e) [mem_out_begin_idx m + i; b; ch]) /\
    (forall i b ch, data mem1 [i; b; ch] = data enc_out [mem_out_begin_idx m + i; b; ch]) /\
    (if residual_in_encoder (args m) then add src1 mem1 else Ok mem1) = Ok mem2 /\
    call_Projection (enc2dec_proj m) mem2 = Ok mem /\
    memories l' = memories l ++ [mem].
Proof.
  intros He Hs Hm Hp Hps H. unfold image_branch in H. rewrite He, bind_Ok in H.
  cbv zeta in H. rewrite Hp in H.
  destruct (encoder_ok (encoder m) (enc_src e) (Some (enc_mask e)) (Some ps)
              (mem_out_begin_idx m + n) bs de) as (mem0 & Emem0 & Hmem0).
  { apply (wf_encoder _ _ _ _ _ Hwf). }
  { done. }
  { intros t [= <-]. done. }
  { intros t [= <-]. done. }
  rewrite Emem0, bind_Ok in H. exists mem0.
  revert Hs Hm Hps Hmem0 H. generalize (mem_out_begin_idx m). intros k Hs Hm Hps Hmem0 H.
  destruct (k =? 0) eqn:Ek; simpl negb in H; cbv iota in H.
  - apply Nat.eqb_eq in Ek. subst k. rewrite bind_Ok in H.
    bind_inv H as Hres. bind_inv H as Hproj. bind_inv H as Hpp. injection H as <-.
    eexists (enc_src e), mem0, _, _. cbn [memories].
    split; [done|]. split; [done|]. split; [done|]. split; [done|].
    split; [done|]. split; [done|]. split; [exact Hres|]. split; [exact Hproj|]. done.
  - destruct (slice_from0_ok (enc_src e) k _ _ _ Hs) as (a1 & E1 & Ha1 & Hd1).
    destruct (slice_from0_ok ps k _ _ _ Hps) as (a2 & E2 & _).
    destruct (slice_from1_ok (enc_mask e) k _ _ Hm) as (a3 & E3 & _).
    destruct (slice_from0_ok mem0 k _ _ _ Hmem0) as (a4 & E4 & Ha4 & Hd4).
    rewrite E1, bind_Ok in H. simpl subscriptable in H.
    rewrite bind_Ok, E2, bind_Ok, E3, bind_Ok, E4, !bind_Ok in H.
    bind_inv H as Hres. bind_inv H as Hproj. bind_inv H as Hpp. injection H as <-.
    replace (k + n - k) with n in * by lia.
    eexists a1, a4, _, _. cbn [memories].
    split; [done|]. split; [done|]. split; [done|]. split; [done|].
    split; [intros i b ch; by rewrite Hd1, Nat.add_comm|].
    split; [intros i b ch; by rewrite Hd4, Nat.add_comm|].
    split; [exact Hres|]. split; [exact Hproj|]. done.
Qed.

(** The query positions the decoder is called with are made from
    [query_embed] in three steps: a batch axis is inserted, the rows are
    repeated over the batch, and the task slot is put in front. *)
Lemma decoder_query_steps (has_img has_text : bool) (img_src : T) (img_mask : Tensor bool)
    (img_pos text_src : T) (text_mask : Tensor Z) (text_pos q : T)
    task dataset task_idx bs h w Lt c (q' : T) :
  pass_pos_and_query m = true ->
  has_img || has_text = true ->
  (has_img = true -> image_inputs_ok m de img_src img_mask img_pos task_idx bs h w) ->
  (has_text = true -> text_inputs_ok dd text_src text_mask text_pos bs Lt) ->
  decoder_inputs m
    (opt_if has_img img_src) (opt_if has_img img_mask) (opt_if has_img img_pos)
    (opt_if has_text text_src) (opt_if has_text text_mask) (opt_if has_text text_pos)
    (Some q) task dataset task_idx = Ok c ->
  dec_query_embed c = Some q' ->
  exists q1 q2,
    unsqueeze 1 q = Ok q1 /\ repeat_ [1; bs; 1] q1 = Ok q2 /\
    _prefix_task_embedding_to_query_embed m q2 task_idx = Ok q'.
Proof.
  intros Hpass Hany Himg Htext Hc Hqe.
  apply decoder_inputs_inv in Hc as (l0 & l1 & H0 & H1 & _ & _ & _ & _ & _ & Hqe').
  rewrite Hqe in Hqe'.
  destruct has_text; unfold opt_if in H0, H1.
  - apply text_branch_inv in H1
      as (ts & tp0 & tp1 & tp2 & n & q0 & q1 & q2 & q3 & Hts & _ & _ & Hn & _ & Hq0 &
          Hq1 & Hq2 & Hq3 & _ & ->).
    simpl in Hqe'. injection Hqe' as ->.
    assert (q0 = q) as ->.
    { destruct has_img.
      - apply image_branch_inv in H0 as (e & He & _ & Hqq).
        apply encoder_inputs_inv in He
          as (? & ? & ? & ? & ? & ? & ? & ? & ? & ? & ? & ? & ? & _ & _ & _ & _ & _ & _ &
              _ & _ & (_ & _ & Heq & _) & _).
        rewrite Hqq, Heq in Hq0. simpl in Hq0. by injection Hq0.
      - injection H0 as <-. simpl in Hq0. by injection Hq0. }
    assert (n = bs) as ->.
    { destruct (Htext eq_refl) as (Hs & _).
      destruct (permute102_ok text_src bs Lt dd Hs) as (ts' & E & Hs' & _).
      rewrite Hts in E. injection E as <-.
      rewrite (size1_ok ts _ _ _ Hs') in Hn. by injection Hn. }
    eauto.
  - destruct has_img; [|done]. injection H1 as <-.
    apply image_branch_inv in H0 as (e & He & _ & Hqq).
    apply encoder_inputs_inv in He
      as (bs0 & c0 & h0 & w0 & ? & ? & ? & ? & ? & ? & ? & ? & ? & Hshape & _ & _ & _ & _ &
          _ & _ & _ & (q0 & q1 & q2 & q3 & Hq0 & Hq1 & Hq2 & Hq3 & Hrest) & _).
    rewrite Hpass in Hrest. destruct Hrest as (_ & _ & Heq & _).
    rewrite Hqq, Heq in Hqe'. injection Hqe' as ->.
    simpl in Hq0. injection Hq0 as <-.
    destruct (Himg eq_refl) as (Hs & _). rewrite Hs in Hshape.
    injection Hshape as <- _ _ _. eauto.
Qed.

End MTForwardData.

(* ===================================================================== *)
(** ** The task slot, from its injection to its removal *)
(* ===================================================================== *)

(** C2. With task-embedding injection on either side, the injected position
    is the one that is stripped before the results reach the caller, in
    every call of a built model that passes positions and queries separately
    (with [pass_pos_and_query] off no call completes).

    Decoder side: the decoder is called on a target and on query positions of
    [kd + nq] positions, where position 0 holds the selected row of the
    embedding table and position [kd + k] holds query [k]; the hidden states
    returned have [nq] positions in every layer, and their entry at query
    [k] is the decoder's entry at position [kd + k], so that the entry left
    out is the one at the slot.

    Encoder side: the encoder is called on [ke + h * w] positions, where
    position 0 holds the selected row and position [ke + (y * w + x)] holds
    pixel [(y, x)]; the image segment of the returned memory has [h * w]
    positions, and it is made, by the residual sum and the projection, from
    the positions [ke + i] of the encoder's output and input, so that the
    position left out is the slot. *)
Theorem task_embedding_slot_is_stripped
    (K : TorchKernels) (KS : KernelSpec K)
    (a : Args) (de dd nhead Ne M ff : nat) (dp : Q) (activation : string)
    (nb share : bool) (rng : nat) (m : MTTransformer.t) (rng' : nat)
    (has_img has_text : bool) (img_src : Tensor scalar) (img_mask : Tensor bool)
    (img_pos text_src : Tensor scalar) (text_mask : Tensor Z)
    (text_pos q : Tensor scalar) (task dataset : string) (task_idx : option Z)
    (bs h w Lt nq : nat) (d0 : option TransformerDecoder.t) :
  MTTransformer.__init__ a de dd nhead Ne M ff dp activation nb true true share rng
    = Ok (m, rng') ->
  activation <> "glu" -> 0 < nhead -> de mod nhead = 0 -> dd mod nhead = 0 -> 1 <= M ->
  MTTransformer.lookup_decoder m task dataset = Ok d0 ->
  has_img || has_text = true ->
  (has_img = true -> image_inputs_ok m de img_src img_mask img_pos task_idx bs h w) ->
  (has_text = true -> text_inputs_ok dd text_src text_mask text_pos bs Lt) ->
  query_ok m dd q task_idx nq ->
  let ke := if use_task_embedding_in_encoder a then 1 else 0 in
  let kd := if use_task_embedding_in_decoder a then 1 else 0 in
  let ilen := if has_img then h * w else 0 in
  let tlen := if has_text then Lt else 0 in
  exists c tgt q' hs0 hs mem,
    MTTransformer.decoder_inputs m
      (opt_if has_img img_src) (opt_if has_img img_mask) (opt_if has_img img_pos)
      (opt_if has_text text_src) (opt_if has_text text_mask) (opt_if has_text text_pos)
      (Some q) task dataset task_idx = Ok c /\
    MTTransformer.dec_tgt c = Some tgt /\ shape tgt = [kd + nq; bs; dd] /\
    MTTransformer.dec_query_embed c = Some q' /\ shape q' = [kd + nq; bs; dd] /\
    (forall k b ch, k < nq -> ch < dd -> data q' [kd + k; b; ch] = data q [k; ch]) /\
    (use_task_embedding_in_decoder a = true ->
       forall i emb, task_idx = Some i -> MTTransformer.task_embeddings_dec m = Some emb ->
         forall b ch, ch < dd ->
           data q' [0; b; ch] =
           data (weight emb) [Z.to_nat (i mod Z.of_nat MTTransformer.MAX_TASK_NUM); ch]) /\
    call_decoder (MTTransformer.dec_decoder c) tgt (MTTransformer.dec_memories c)
      (Some (MTTransformer.dec_masks c)) (Some (MTTransformer.dec_pos_embeds c))
      (Some q') = Ok hs0 /\
    shape hs0 = [M; kd + nq; bs; dd] /\
    MTTransformer.forward m
      (opt_if has_img img_src) (opt_if has_img img_mask) (opt_if has_img img_pos)
      (opt_if has_text text_src) (opt_if has_text text_mask) (opt_if has_text text_pos)
      (Some q) task dataset task_idx = Ok (hs, mem) /\
    shape hs = [M; bs; nq; dd] /\
    (forall l b k ch, data hs [l; b; k; ch] = data hs0 [l; kd + k; b; ch]) /\
    shape mem = [bs; dd; ilen + tlen] /\
    (has_img = true ->
       exists e ps enc_out src1 mem1 mem2 mem_img,
         MTTransformer.encoder_inputs m img_src (Some img_mask) (Some img_pos)
           (negb has_text) (MTTransformer.locals0 (Some q)) task_idx = Ok e /\
         MTTransformer.enc_pos e = Some ps /\
         shape (MTTransformer.enc_src e) = [ke + h * w; bs; de] /\
         shape (MTTransformer.enc_mask e) = [bs; ke + h * w] /\
         (forall b ch y x, y < h -> x < w ->
            data (MTTransformer.enc_src e) [ke + (y * w + x); b; ch] =
              data img_src [b; ch; y; x]) /\
         (use_task_embedding_in_encoder a = true ->
            forall i emb, task_idx = Some i ->
              MTTransformer.task_embeddings_enc m = Some emb ->
              forall b ch, ch < de ->
                data (MTTransformer.enc_src e) [0; b; ch] =
                data (weight emb)
                  [Z.to_nat (i mod Z.of_nat MTTransformer.MAX_TASK_NUM); ch]) /\
         TransformerEncoder.forward (MTTransformer.encoder m) (MTTransformer.enc_src e)
           None (Some (MTTransformer.enc_mask e)) (Some ps) = Ok enc_out /\
         shape enc_out = [ke + h * w; bs; de] /\
         shape src1 = [h * w; bs; de] /\ shape mem1 = [h * w; bs; de] /\
         (forall i b ch,
            data src1 [i; b; ch] = data (MTTransformer.enc_src e) [ke + i; b; ch]) /\
         (forall i b ch, data mem1 [i; b; ch] = data enc_out [ke + i; b; ch]) /\
         (if residual_in_encoder a then add src1 mem1 else Ok mem1) = Ok mem2 /\
         call_Projection (MTTransformer.enc2dec_proj m) mem2 = Ok mem_img /\
         shape mem_img = [h * w; bs; dd] /\
         (forall b ch i, i < h * w -> data mem [b; ch; i] = data mem_img [i; b; ch])).
Proof.
  intros Hinit Hact Hh Hme Hmd HM Hl Hany Himg Htext Hq ke kd ilen tlen.
  destruct (mt_init_wf _ _ _ _ _ _ _ _ _ _ _ _ _ _ _ _ Hinit Hact Hh Hme Hmd)
    as (Hwf & Ha & Hpass & _).
  pose proof (wf_mem_idx _ _ _ _ _ Hwf) as Hke. rewrite Ha in Hke. fold ke in Hke.
  pose proof (wf_hs_idx _ _ _ _ _ Hwf) as Hkd. rewrite Ha in Hkd. fold kd in Hkd.
  destruct (decoder_inputs_ok m de dd M true Hwf has_img has_text img_src img_mask img_pos
              text_src text_mask text_pos q task dataset task_idx bs h w Lt nq d0)
    as (c & q' & Hc & Hd & Ht & Hqe & Hq's & Hms & Hks & Hps & Hi & _); [done..|].
  fold ilen tlen in Hms, Hks, Hps.
  destruct (forward_hidden_states m de dd M true Hwf _ _ _ _ _ _ _ _ _ _ c q'
              (ilen + tlen) bs nq Hc)
    as (hs0 & hs & mem & Hcall & Hhs0 & Hf & Hhs & Hdat); [by rewrite Hd | done..|].
  destruct (forward_from_decoder_inputs m de dd M true Hwf _ _ _ _ _ _ _ _ _ _ c q'
              (ilen + tlen) bs nq Hc)
    as (hs' & mem' & Hf' & _ & Hmems & Hmdat); [by rewrite Hd | done..|].
  rewrite Hf in Hf'. injection Hf' as <- <-.
  destruct (decoder_query_steps m de dd has_img has_text img_src img_mask
              img_pos text_src text_mask text_pos q task dataset task_idx bs h w Lt c q'
              Hpass Hany Himg Htext Hc Hqe) as (q1 & q2 & E1 & E2 & E3).
  pose proof Hq as [Hqs Hqi]. rewrite Ha in Hqi.
  destruct (rows_repeated q nq dd bs q1 q2 Hqs E1 E2) as [Hs2 Hd2].
  destruct (built_prefix_query _ _ _ _ _ _ _ _ _ _ _ _ _ _ _ _ Hinit q2 task_idx nq bs
              Hs2 Hqi) as (q3 & E3' & _ & Hd3 & Hslot).
  rewrite E3 in E3'. injection E3' as <-. fold kd in Hd3.
  rewrite Hkd in Hq's, Hhs0, Hdat.
  exists c, (zeros_like q'), q', hs0, hs, mem.
  split; [done|]. split; [done|]. split; [done|]. split; [done|]. split; [done|].
  split; [intros k b ch Hk Hch; rewrite Hd3; by apply Hd2|].
  split; [exact Hslot|].
  split; [done|]. split; [done|]. split; [done|]. split; [done|]. split; [done|].
  split; [done|].
  intros E.
  destruct (Hi E) as (e & lI & mem_img & He & Hes & Hem & HlI & HmI & HmIs & HdI & _).
  destruct (built_encoder_inputs _ _ _ _ _ _ _ _ _ _ _ _ _ _ _ _ Hinit has_text img_src
              img_mask img_pos q task_idx bs h w nq)
    as (e' & ps & He' & Hep & _ & _ & Hpss & Hed & Heslot);
    [by left | by apply Himg | by intros _ |].
  rewrite He in He'. injection He' as <-. fold ke in Hpss, Hed.
  rewrite <- Hke in Hpss.
  destruct (image_branch_data m de dd M true Hwf img_src (Some img_mask) (Some img_pos)
              (negb has_text) (MTTransformer.locals0 (Some q)) task_idx e ps bs (h * w) lI
              He Hes Hem Hep Hpss HlI)
    as (enc_out & src1 & mem1 & mem2 & mem3 & Henc & Heo & Hs1 & Hm1 & Hd1 & Hd4 & Hres &
        Hproj & Hmem3).
  cbn [MTTransformer.memories MTTransformer.locals0 app] in Hmem3.
  rewrite HmI in Hmem3. injection Hmem3 as <-.
  rewrite Ha in Hres. rewrite Hke in Hes, Hem, Heo, Hd1, Hd4.
  exists e, ps, enc_out, src1, mem1, mem2, mem_img.
  split; [done|]. split; [done|]. split; [done|]. split; [done|].
  split; [intros b ch y x Hy Hx; by apply Hed|].
  split; [intros Hflag i emb Hi' Hemb; by apply (Heslot Hflag i emb Hi' Hemb)|].
  split; [done|]. split; [done|]. split; [done|]. split; [done|]. split; [done|].
  split; [done|]. split; [done|]. split; [done|]. split; [done|].
  intros b ch i Hlt. rewrite Hmdat. by apply HdI.
Qed.

(** C2 at the model with both task slots, an image of 2 x 3 positions and a
    text of four tokens: the encoder sees 7 positions and the decoder 4, the
    caller 6 + 4 memory positions and 3 queries, and the position left out
    on both sides is the first. *)
Lemma task_embedding_slot_is_stripped_witness :
  exists c tgt q' (hs0 : Tensor Z) hs mem e (enc_out mem1 : Tensor Z),
    MTTransformer.decoder_inputs Toy.model_multi (Some Toy.img_src) (Some Toy.img_mask)
      (Some Toy.img_pos) (Some Toy.text_src) (Some Toy.text_mask) (Some Toy.text_pos)
      (Some Toy.query_embed) "vl" "vqa2" (Some 5%Z) = Ok c /\
    MTTransformer.dec_tgt c = Some tgt /\ shape tgt = [4; 2; 8] /\
    MTTransformer.dec_query_embed c = Some q' /\
    data q' [1 + 2; 1; 7] = data Toy.query_embed [2; 7] /\
    shape hs0 = [2; 4; 2; 8] /\
    MTTransformer.forward Toy.model_multi (Some Toy.img_src) (Some Toy.img_mask)
      (Some Toy.img_pos) (Some Toy.text_src) (Some Toy.text_mask) (Some Toy.text_pos)
      (Some Toy.query_embed) "vl" "vqa2" (Some 5%Z) = Ok (hs, mem) /\
    shape hs = [2; 2; 3; 8] /\ shape mem = [2; 8; 10] /\
    data hs [1; 0; 2; 7] = data hs0 [1; 1 + 2; 0; 7] /\
    MTTransformer.encoder_inputs Toy.model_multi Toy.img_src (Some Toy.img_mask)
      (Some Toy.img_pos) false (MTTransformer.locals0 (Some Toy.query_embed))
      (Some 5%Z) = Ok e /\
    shape (MTTransformer.enc_src e) = [7; 2; 8] /\
    shape (MTTransformer.enc_mask e) = [2; 7] /\
    data (MTTransformer.enc_src e) [1 + (1 * 3 + 2); 1; 7] = data Toy.img_src [1; 7; 1; 2] /\
    shape enc_out = [7; 2; 8] /\ shape mem1 = [6; 2; 8] /\
    data mem1 [5; 1; 7] = data enc_out [1 + 5; 1; 7].
Proof.
  destruct (task_embedding_slot_is_stripped Toy.kernels toy_spec Toy.args_multi
              8 8 2 2 2 16 (1 # 10) "relu" false true 0 Toy.model_multi 23
              true true Toy.img_src Toy.img_mask Toy.img_pos Toy.text_src Toy.text_mask
              Toy.text_pos Toy.query_embed "vl" "vqa2" (Some 5%Z) 2 2 3 4 3
              (MTTransformer.decoder Toy.model_multi))
    as (c & tgt & q' & hs0 & hs & mem & Hc & Ht & Hts & Hq' & _ & Hqd & _ & _ & Hhs0 & Hf &
        Hhs & Hhd & Hms & He).
  - by_eval.
  - discriminate.
  - lia.
  - reflexivity.
  - reflexivity.
  - lia.
  - by_eval.
  - reflexivity.
  - intros _. apply toy_image_inputs_ok.
  - intros _. apply toy_text_inputs_ok.
  - apply toy_query_ok.
  - destruct (He eq_refl)
      as (e & ps & enc_out & src1 & mem1 & mem2 & mem_img & He1 & _ & He2 & He3 & Hed & _ &
          _ & Heo & _ & Hm1 & _ & Hd4 & _).
    exists c, tgt, q', hs0, hs, mem, e, enc_out, mem1.
    split; [exact Hc|]. split; [exact Ht|]. split; [exact Hts|]. split; [exact Hq'|].
    split; [apply Hqd; lia|]. split; [exact Hhs0|]. split; [exact Hf|].
    split; [exact Hhs|]. split; [exact Hms|]. split; [apply Hhd|].
    split; [exact He1|]. split; [exact He2|]. split; [exact He3|].
    split; [apply Hed; lia|]. split; [exact Heo|]. split; [exact Hm1|]. apply Hd4.
Defined.

(** X5. The hidden states a built model returns are the decoder's stack with
    the batch axis moved before the query axis and the task slot, which is
    the first decoder position, left out: the entry of layer [l], batch
    element [b] and query [k] is the decoder's entry at position [kd + k]. *)
Theorem hidden_states_are_the_decoder_stack_without_the_task_slot
    (K : TorchKernels) (KS : KernelSpec K)
    (a : Args) (de dd nhead Ne M ff : nat) (dp : Q) (activation : string)
    (nb share : bool) (rng : nat) (m : MTTransformer.t) (rng' : nat)
    (has_img has_text : bool) (img_src : Tensor scalar) (img_mask : Tensor bool)
    (img_pos text_src : Tensor scalar) (text_mask : Tensor Z)
    (text_pos q : Tensor scalar) (task dataset : string) (task_idx : option Z)
    (bs h w Lt nq : nat) (d0 : option TransformerDecoder.t) :
  MTTransformer.__init__ a de dd nhead Ne M ff dp activation nb true true share rng
    = Ok (m, rng') ->
  activation <> "glu" -> 0 < nhead -> de mod nhead = 0 -> dd mod nhead = 0 -> 1 <= M ->
  MTTransformer.lookup_decoder m task dataset = Ok d0 ->
  has_img || has_text = true ->
  (has_img = true -> image_inputs_ok m de img_src img_mask img_pos task_idx bs h w) ->
  (has_text = true -> text_inputs_ok dd text_src text_mask text_pos bs Lt) ->
  query_ok m dd q task_idx nq ->
  let kd := if use_task_embedding_in_decoder a then 1 else 0 in
  exists c tgt hs0 hs mem,
    MTTransformer.decoder_inputs m
      (opt_if has_img img_src) (opt_if has_img img_mask) (opt_if has_img img_pos)
      (opt_if has_text text_src) (opt_if has_text text_mask) (opt_if has_text text_pos)
      (Some q) task dataset task_idx = Ok c /\
    MTTransformer.dec_tgt c = Some tgt /\
    call_decoder (MTTransformer.dec_decoder c) tgt (MTTransformer.dec_memories c)
      (Some (MTTransformer.dec_masks c)) (Some (MTTransformer.dec_pos_embeds c))
      (MTTransformer.dec_query_embed c) = Ok hs0 /\
    shape hs0 = [M; kd + nq; bs; dd] /\
    MTTransformer.forward m
      (opt_if has_img img_src) (opt_if has_img img_mask) (opt_if has_img img_pos)
      (opt_if has_text text_src) (opt_if has_text text_mask) (opt_if has_text text_pos)
      (Some q) task dataset task_idx = Ok (hs, mem) /\
    shape hs = [M; bs; nq; dd] /\
    forall l b k ch, data hs [l; b; k; ch] = data hs0 [l; kd + k; b; ch].
Proof.
  intros Hinit Hact Hh Hme Hmd HM Hl Hany Himg Htext Hq kd.
  destruct (mt_init_wf _ _ _ _ _ _ _ _ _ _ _ _ _ _ _ _ Hinit Hact Hh Hme Hmd)
    as (Hwf & Ha & Hpass & _).
  destruct (decoder_inputs_ok m de dd M true Hwf has_img has_text img_src img_mask img_pos
              text_src text_mask text_pos q task dataset task_idx bs h w Lt nq d0)
    as (c & q' & Hc & Hd & Ht & Hqe & Hq's & Hms & Hks & Hps & _); [done..|].
  destruct (forward_hidden_states m de dd M true Hwf _ _ _ _ _ _ _ _ _ _ c q'
              ((if has_img then h * w else 0) + (if has_text then Lt else 0)) bs nq Hc)
    as (hs0 & hs & mem & Hcall & Hhs0 & Hf & Hhs & Hdat); [by rewrite Hd | done..|].
  exists c, (zeros_like q'), hs0, hs, mem. subst kd.
  rewrite <- Ha, <- (wf_hs_idx _ _ _ _ _ Hwf), Hqe. done.
Qed.

Lemma hidden_states_are_the_decoder_stack_without_the_task_slot_witness :
  exists c tgt hs0 hs mem,
    MTTransformer.decoder_inputs Toy.model_multi (Some Toy.img_src) (Some Toy.img_mask)
      (Some Toy.img_pos) (Some Toy.text_src) (Some Toy.text_mask) (Some Toy.text_pos)
      (Some Toy.query_embed) "vl" "vqa2" (Some 5%Z) = Ok c /\
    MTTransformer.dec_tgt c = Some tgt /\
    call_decoder (MTTransformer.dec_decoder c) tgt (MTTransformer.dec_memories c)
      (Some (MTTransformer.dec_masks c)) (Some (MTTransformer.dec_pos_embeds c))
      (MTTransformer.dec_query_embed c) = Ok hs0 /\
    shape hs0 = [2; 1 + 3; 2; 8] /\
    MTTransformer.forward Toy.model_multi (Some Toy.img_src) (Some Toy.img_mask)
      (Some Toy.img_pos) (Some Toy.text_src) (Some Toy.text_mask) (Some Toy.text_pos)
      (Some Toy.query_embed) "vl" "vqa2" (Some 5%Z) = Ok (hs, mem) /\
    shape hs = [2; 2; 3; 8] /\
    data hs [1; 0; 2; 7] = data hs0 [1; 1 + 2; 0; 7].
Proof.
  destruct (hidden_states_are_the_decoder_stack_without_the_task_slot Toy.kernels toy_spec
              Toy.args_multi 8 8 2 2 2 16 (1 # 10) "relu" false true 0 Toy.model_multi 23
              true true Toy.img_src Toy.img_mask Toy.img_pos Toy.text_src Toy.text_mask
              Toy.text_pos Toy.query_embed "vl" "vqa2" (Some 5%Z) 2 2 3 4 3
              (MTTransformer.decoder Toy.model_multi))
    as (c & tgt & hs0 & hs & mem & Hc & Ht & Hcall & Hs0 & Hf & Hs & Hd).
  - vm_compute; reflexivity.
  - discriminate.
  - lia.
  - reflexivity.
  - reflexivity.
  - lia.
  - vm_compute; reflexivity.
  - reflexivity.
  - intros _. apply toy_image_inputs_ok.
  - intros _. apply toy_text_inputs_ok.
  - apply toy_query_ok.
  - exists c, tgt, hs0, hs, mem. repeat (split; [assumption|]). apply Hd.
Defined.

(** X6. A model constructed with [return_intermediate_dec] off, the default
    of [MTTransformer.__init__], completes no call on well-shaped inputs, for
    every combination of streams.  With [pass_pos_and_query] on, which is
    its default too, the call raises [IndexError]: the decoder returns a
    tensor of three axes and [forward] indexes four.  With
    [pass_pos_and_query] off the call raises before the decoder is reached:
    [NotImplementedError] with a text stream, [TypeError] with an image
    alone.  ([build_transformer] always turns intermediate outputs on.) *)
Theorem forward_needs_intermediate_outputs
    (K : TorchKernels) (KS : KernelSpec K)
    (a : Args) (de dd nhead Ne M ff : nat) (dp : Q) (activation : string)
    (nb ppq share : bool) (rng : nat) (m : MTTransformer.t) (rng' : nat)
    (has_img has_text : bool) (img_src : Tensor scalar) (img_mask : Tensor bool)
    (img_pos text_src : Tensor scalar) (text_mask : Tensor Z)
    (text_pos q : Tensor scalar) (task dataset : string) (task_idx : option Z)
    (bs h w Lt nq : nat) (d0 : option TransformerDecoder.t) :
  MTTransformer.__init__ a de dd nhead Ne M ff dp activation nb false ppq share rng
    = Ok (m, rng') ->
  activation <> "glu" -> 0 < nhead -> de mod nhead = 0 -> dd mod nhead = 0 ->
  MTTransformer.lookup_decoder m task dataset = Ok d0 ->
  has_img || has_text = true ->
  (has_img = true -> image_inputs_ok m de img_src img_mask img_pos task_idx bs h w) ->
  (has_text = true -> text_inputs_ok dd text_src text_mask text_pos bs Lt) ->
  query_ok m dd q task_idx nq ->
  MTTransformer.forward m
    (opt_if has_img img_src) (opt_if has_img img_mask) (opt_if has_img img_pos)
    (opt_if has_text text_src) (opt_if has_text text_mask) (opt_if has_text text_pos)
    (Some q) task dataset task_idx =
  Err (if ppq then IndexError
       else if has_text then NotImplementedError else TypeError).
Proof.
  intros Hinit Hact Hh Hme Hmd Hl Hany Himg Htext Hq.
  destruct (mt_init_wf _ _ _ _ _ _ _ _ _ _ _ _ _ _ _ _ Hinit Hact Hh Hme Hmd)
    as (Hwf & Ha & Hpass & _).
  destruct ppq.
  - by apply (forward_no_intermediate m de dd M false Hwf has_img has_text img_src img_mask
                img_pos text_src text_mask text_pos q task dataset task_idx bs h w Lt nq d0).
  - by apply (forward_without_pass m de dd M false Hwf has_img has_text img_src img_mask
                img_pos text_src text_mask text_pos q task dataset task_idx bs h w Lt nq d0).
Qed.

Lemma forward_needs_intermediate_outputs_witness :
  MTTransformer.forward Toy.model_no_intermediate (Some Toy.img_src) (Some Toy.img_mask)
    (Some Toy.img_pos) None None None (Some Toy.query_embed) "detection" "coco"
    (Some 5%Z) = Err IndexError.
Proof.
  apply (forward_needs_intermediate_outputs Toy.kernels toy_spec Toy.args_single
           8 8 2 2 2 16 (1 # 10) "relu" false true true 0 Toy.model_no_intermediate 21
           true false Toy.img_src Toy.img_mask Toy.img_pos Toy.text_src Toy.text_mask
           Toy.text_pos Toy.query_embed "detection" "coco" (Some 5%Z) 2 2 3 4 3
           (MTTransformer.decoder Toy.model_no_intermediate)).
  - vm_compute; reflexivity.
  - discriminate.
  - lia.
  - reflexivity.
  - reflexivity.
  - vm_compute; reflexivity.
  - reflexivity.
  - intros _. apply toy_image_inputs_ok.
  - intros [=].
  - apply toy_query_ok.
Defined.

(** X7. A model built by [build_transformer] with no decoder layers
    ([dec_layers = 0]) completes no call on well-shaped inputs.  With
    [pass_pos_and_query] on the call raises [IndexError]: the decoder
    normalises the target, and [intermediate.pop()] finds the list of
    collected outputs empty.  With [pass_pos_and_query] off the call raises
    before the decoder is reached: [NotImplementedError] with a text stream,
    [TypeError] with an image alone. *)
Theorem model_without_decoder_layers_raises
    (K : TorchKernels) (KS : KernelSpec K)
    (a : Args) (de dd : nat) (dp : Q) (nheads ff Ne : nat) (nb ppq share : bool)
    (rng : nat) (m : MTTransformer.t) (rng' : nat)
    (has_img has_text : bool) (img_src : Tensor scalar) (img_mask : Tensor bool)
    (img_pos text_src : Tensor scalar) (text_mask : Tensor Z)
    (text_pos q : Tensor scalar) (task dataset : string) (task_idx : option Z)
    (bs h w Lt nq : nat) (d0 : option TransformerDecoder.t) :
  build_transformer a de dd dp nheads ff Ne 0 nb ppq share rng = Ok (m, rng') ->
  0 < nheads -> de mod nheads = 0 -> dd mod nheads = 0 ->
  MTTransformer.lookup_decoder m task dataset = Ok d0 ->
  has_img || has_text = true ->
  (has_img = true -> image_inputs_ok m de img_src img_mask img_pos task_idx bs h w) ->
  (has_text = true -> text_inputs_ok dd text_src text_mask text_pos bs Lt) ->
  query_ok m dd q task_idx nq ->
  MTTransformer.forward m
    (opt_if has_img img_src) (opt_if has_img img_mask) (opt_if has_img img_pos)
    (opt_if has_text text_src) (opt_if has_text text_mask) (opt_if has_text text_pos)
    (Some q) task dataset task_idx =
  Err (if ppq then IndexError
       else if has_text then NotImplementedError else TypeError).
Proof.
  intros Hinit Hh Hme Hmd Hl Hany Himg Htext Hq. unfold build_transformer in Hinit.
  destruct (mt_init_wf _ _ _ _ _ _ _ _ _ _ _ _ _ _ _ _ Hinit)
    as (Hwf & Ha & Hpass & _); [done..|].
  destruct ppq.
  - destruct (decoder_inputs_ok m de dd 0 true Hwf has_img has_text img_src img_mask img_pos
                text_src text_mask text_pos q task dataset task_idx bs h w Lt nq d0)
      as (c & q' & Hc & Hd & Ht & Hqe & Hq's & _); [done..|].
    apply (forward_no_layers m de dd 0 true Hwf _ _ _ _ _ _ _ _ _ _ c q' bs nq);
      [done | by rewrite Hd | done..].
  - by apply (forward_without_pass m de dd 0 true Hwf has_img has_text img_src img_mask
                img_pos text_src text_mask text_pos q task dataset task_idx bs h w Lt nq d0).
Qed.

Lemma model_without_decoder_layers_raises_witness :
  MTTransformer.forward Sample.model_no_layers (Some Toy.img_src) (Some Toy.img_mask)
    (Some Toy.img_pos) None None None (Some Toy.query_embed) "detection" "coco"
    (Some 5%Z) = Err IndexError.
Proof.
  apply (model_without_decoder_layers_raises Toy.kernels toy_spec Toy.args_single
           8 8 (1 # 10) 2 16 2 false true true 0 Sample.model_no_layers
           (Toy.rng_after Sample.build_no_layers)
           true false Toy.img_src Toy.img_mask Toy.img_pos Toy.text_src Toy.text_mask
           Toy.text_pos Toy.query_embed "detection" "coco" (Some 5%Z) 2 2 3 4 3
           (MTTransformer.decoder Sample.model_no_layers)).
  - vm_compute; reflexivity.
  - lia.
  - reflexivity.
  - reflexivity.
  - vm_compute; reflexivity.
  - reflexivity.
  - intros _. apply toy_image_inputs_ok.
  - intros [=].
  - apply toy_query_ok.
Defined.

(** X8. A model built with [pass_pos_and_query] off raises [TypeError] on a
    well-shaped image-only call that names a registered pair: the positional
    encoding of the image stream is replaced by [None], and then subscripted
    by the encoder-side prefix, or passed to a linear projection, or handed
    to [torch.cat]. *)
Theorem image_only_without_pass_pos_and_query_raises_type_error
    (K : TorchKernels) (KS : KernelSpec K)
    (a : Args) (de dd nhead Ne M ff : nat) (dp : Q) (activation : string)
    (nb ri share : bool) (rng : nat) (m : MTTransformer.t) (rng' : nat)
    (img_src : Tensor scalar) (img_mask : Tensor bool) (img_pos q : Tensor scalar)
    (task dataset : string) (task_idx : option Z) (bs h w nq : nat)
    (d0 : option TransformerDecoder.t) :
  MTTransformer.__init__ a de dd nhead Ne M ff dp activation nb ri false share rng
    = Ok (m, rng') ->
  activation <> "glu" -> 0 < nhead -> de mod nhead = 0 -> dd mod nhead = 0 ->
  MTTransformer.lookup_decoder m task dataset = Ok d0 ->
  image_inputs_ok m de img_src img_mask img_pos task_idx bs h w ->
  query_ok m dd q task_idx nq ->
  MTTransformer.forward m (Some img_src) (Some img_mask) (Some img_pos) None None None
    (Some q) task dataset task_idx = Err TypeError.
Proof.
  intros Hinit Hact Hh Hme Hmd Hl Himg Hq.
  destruct (mt_init_wf _ _ _ _ _ _ _ _ _ _ _ _ _ _ _ _ Hinit Hact Hh Hme Hmd)
    as (Hwf & Ha & Hpass & _).
  by apply (forward_image_only_without_pass m de dd M ri Hwf img_src img_mask img_pos q
              task dataset task_idx bs h w nq d0).
Qed.

Lemma image_only_without_pass_pos_and_query_raises_type_error_witness :
  MTTransformer.forward Toy.model_nopass (Some Toy.img_src) (Some Toy.img_mask)
    (Some Toy.img_pos) None None None (Some Toy.query_embed) "vl" "vqa2" (Some 5%Z)
    = Err TypeError.
Proof.
  apply (image_only_without_pass_pos_and_query_raises_type_error Toy.kernels toy_spec
           Toy.args_multi 8 8 2 2 2 16 (1 # 10) "relu" false true true 0
           Toy.model_nopass 23 Toy.img_src Toy.img_mask Toy.img_pos Toy.query_embed
           "vl" "vqa2" (Some 5%Z) 2 2 3 3 (MTTransformer.decoder Toy.model_nopass)).
  - vm_compute; reflexivity.
  - discriminate.
  - lia.
  - reflexivity.
  - reflexivity.
  - vm_compute; reflexivity.
  - apply toy_image_inputs_ok.
  - apply toy_query_ok.
Defined.

(** X9. What the decoder of a built model is called with as target and as
    query positions, for every combination of streams: the target is zero
    everywhere, and the query positions are the rows of [query_embed], the
    same for every element of the batch, behind the task slot when the
    decoder-side switch is on. *)
Theorem decoder_target_is_zero_and_queries_are_shared_by_the_batch
    (K : TorchKernels) (KS : KernelSpec K)
    (a : Args) (de dd nhead Ne M ff : nat) (dp : Q) (activation : string)
    (nb ri share : bool) (rng : nat) (m : MTTransformer.t) (rng' : nat)
    (has_img has_text : bool) (img_src : Tensor scalar) (img_mask : Tensor bool)
    (img_pos text_src : Tensor scalar) (text_mask : Tensor Z)
    (text_pos q : Tensor scalar) (task dataset : string) (task_idx : option Z)
    (bs h w Lt nq : nat) (d0 : option TransformerDecoder.t) :
  MTTransformer.__init__ a de dd nhead Ne M ff dp activation nb ri true share rng
    = Ok (m, rng') ->
  activation <> "glu" -> 0 < nhead -> de mod nhead = 0 -> dd mod nhead = 0 ->
  MTTransformer.lookup_decoder m task dataset = Ok d0 ->
  has_img || has_text = true ->
  (has_img = true -> image_inputs_ok m de img_src img_mask img_pos task_idx bs h w) ->
  (has_text = true -> text_inputs_ok dd text_src text_mask text_pos bs Lt) ->
  query_ok m dd q task_idx nq ->
  let kd := if use_task_embedding_in_decoder a then 1 else 0 in
  exists c t q',
    MTTransformer.decoder_inputs m
      (opt_if has_img img_src) (opt_if has_img img_mask) (opt_if has_img img_pos)
      (opt_if has_text text_src) (opt_if has_text text_mask) (opt_if has_text text_pos)
      (Some q) task dataset task_idx = Ok c /\
    MTTransformer.dec_tgt c = Some t /\ MTTransformer.dec_query_embed c = Some q' /\
    shape t = [kd + nq; bs; dd] /\ shape q' = [kd + nq; bs; dd] /\
    (forall idx, data t idx = zero) /\
    (forall k b ch, k < nq -> ch < dd -> data q' [kd + k; b; ch] = data q [k; ch]).
Proof.
  intros Hinit Hact Hh Hme Hmd Hl Hany Himg Htext Hq kd.
  destruct (mt_init_wf _ _ _ _ _ _ _ _ _ _ _ _ _ _ _ _ Hinit Hact Hh Hme Hmd)
    as (Hwf & Ha & Hpass & _).
  destruct (decoder_inputs_ok m de dd M ri Hwf has_img has_text img_src img_mask img_pos
              text_src text_mask text_pos q task dataset task_idx bs h w Lt nq d0)
    as (c & q' & Hc & Hd & Ht & Hqe & Hq's & _); [done..|].
  rewrite (wf_hs_idx _ _ _ _ _ Hwf), Ha in Hq's. fold kd in Hq's.
  exists c, (zeros_like q'), q'.
  split; [done|]. split; [done|]. split; [done|]. split; [done|]. split; [done|].
  split; [done|].
  assert (Hsteps : exists q1 q2,
            unsqueeze 1 q = Ok q1 /\ repeat_ [1; bs; 1] q1 = Ok q2 /\
            MTTransformer._prefix_task_embedding_to_query_embed m q2 task_idx = Ok q').
  { apply decoder_inputs_inv in Hc as (l0 & l1 & H0 & H1 & _ & _ & _ & _ & _ & Hqe').
    rewrite Hqe in Hqe'.
    destruct has_text; unfold opt_if in H0, H1.
    - apply text_branch_inv in H1
        as (ts & tp0 & tp1 & tp2 & n & q0 & q1 & q2 & q3 & Hts & _ & _ & Hn & _ & Hq0 &
            Hq1 & Hq2 & Hq3 & _ & ->).
      simpl in Hqe'. injection Hqe' as ->.
      assert (q0 = q) as ->.
      { destruct has_img.
        - apply image_branch_inv in H0 as (e & He & _ & Hqq).
          apply encoder_inputs_inv in He
            as (? & ? & ? & ? & ? & ? & ? & ? & ? & ? & ? & ? & ? & _ & _ & _ & _ & _ & _ &
                _ & _ & (_ & _ & Heq & _) & _).
          rewrite Hqq, Heq in Hq0. simpl in Hq0. by injection Hq0.
        - injection H0 as <-. simpl in Hq0. by injection Hq0. }
      assert (n = bs) as ->.
      { destruct (Htext eq_refl) as (Hs & _).
        destruct (permute102_ok text_src bs Lt dd Hs) as (ts' & E & Hs' & _).
        rewrite Hts in E. injection E as <-.
        rewrite (size1_ok ts _ _ _ Hs') in Hn. by injection Hn. }
      eauto.
    - destruct has_img; [|done]. injection H1 as <-.
      apply image_branch_inv in H0 as (e & He & _ & Hqq).
      apply encoder_inputs_inv in He
        as (bs0 & c0 & h0 & w0 & ? & ? & ? & ? & ? & ? & ? & ? & ? & Hshape & _ & _ & _ & _ &
            _ & _ & _ & (q0 & q1 & q2 & q3 & Hq0 & Hq1 & Hq2 & Hq3 & Hrest) & _).
      rewrite Hpass in Hrest. destruct Hrest as (_ & _ & Heq & _).
      rewrite Hqq, Heq in Hqe'. injection Hqe' as ->.
      simpl in Hq0. injection Hq0 as <-.
      destruct (Himg eq_refl) as (Hs & _). rewrite Hs in Hshape.
      injection Hshape as <- _ _ _. eauto. }
  destruct Hsteps as (q1 & q2 & E1 & E2 & E3).
  destruct Hq as [Hqs Hqi]. rewrite Ha in Hqi.
  destruct (rows_repeated q nq dd bs q1 q2 Hqs E1 E2) as [Hs2 Hd2].
  destruct (built_prefix_query _ _ _ _ _ _ _ _ _ _ _ _ _ _ _ _ Hinit q2 task_idx nq bs
              Hs2 Hqi) as (q3 & E3' & _ & Hd3 & _).
  rewrite E3 in E3'. injection E3' as <-.
  intros k b ch Hk Hch. fold kd in Hd3. rewrite Hd3. by apply Hd2.
Qed.

Lemma decoder_target_is_zero_and_queries_are_shared_by_the_batch_witness :
  exists c t q',
    MTTransformer.decoder_inputs Toy.model_multi (Some Toy.img_src) (Some Toy.img_mask)
      (Some Toy.img_pos) None None None (Some Toy.query_embed) "vl" "vqa2" (Some 5%Z)
      = Ok c /\
    MTTransformer.dec_tgt c = Some t /\ MTTransformer.dec_query_embed c = Some q' /\
    shape q' = [1 + 3; 2; 8] /\
    data t [0; 1; 2] = 0%Z /\
    data q' [1 + 2; 0; 7] = data Toy.query_embed [2; 7] /\
    data q' [1 + 2; 1; 7] = data Toy.query_embed [2; 7].
Proof.
  destruct (decoder_target_is_zero_and_queries_are_shared_by_the_batch Toy.kernels
              toy_spec Toy.args_multi 8 8 2 2 2 16 (1 # 10) "relu" false true true 0
              Toy.model_multi 23 true false Toy.img_src Toy.img_mask Toy.img_pos
              Toy.text_src Toy.text_mask Toy.text_pos Toy.query_embed "vl" "vqa2"
              (Some 5%Z) 2 2 3 4 3 (MTTransformer.decoder Toy.model_multi))
    as (c & t & q' & Hc & Ht & Hq' & _ & Hs & Hz & Hd).
  - vm_compute; reflexivity.
  - discriminate.
  - lia.
  - reflexivity.
  - reflexivity.
  - vm_compute; reflexivity.
  - reflexivity.
  - intros _. apply toy_image_inputs_ok.
  - intros [=].
  - apply toy_query_ok.
  - exists c, t, q'. split; [exact Hc|]. split; [exact Ht|]. split; [exact Hq'|].
    split; [exact Hs|]. split; [apply Hz|]. split; apply Hd; lia.
Defined.

(** X10. A text-only call of a built model returns as memory the text input
    itself with its last two axes exchanged, (batch x width x tokens); the
    decoder's padding mask marks the tokens whose mask value is not 1, and
    its positional encoding is the table of positions repeated over the
    batch. *)
Theorem text_only_memory_is_the_text_input
    (K : TorchKernels) (KS : KernelSpec K)
    (a : Args) (de dd nhead Ne M ff : nat) (dp : Q) (activation : string)
    (nb share : bool) (rng : nat) (m : MTTransformer.t) (rng' : nat)
    (text_src : Tensor scalar) (text_mask : Tensor Z) (text_pos q : Tensor scalar)
    (task dataset : string) (task_idx : option Z) (bs Lt nq : nat)
    (d0 : option TransformerDecoder.t) :
  MTTransformer.__init__ a de dd nhead Ne M ff dp activation nb true true share rng
    = Ok (m, rng') ->
  activation <> "glu" -> 0 < nhead -> de mod nhead = 0 -> dd mod nhead = 0 -> 1 <= M ->
  MTTransformer.lookup_decoder m task dataset = Ok d0 ->
  text_inputs_ok dd text_src text_mask text_pos bs Lt ->
  query_ok m dd q task_idx nq ->
  exists c hs mem,
    MTTransformer.decoder_inputs m None None None (Some text_src) (Some text_mask)
      (Some text_pos) (Some q) task dataset task_idx = Ok c /\
    MTTransformer.forward m None None None (Some text_src) (Some text_mask)
      (Some text_pos) (Some q) task dataset task_idx = Ok (hs, mem) /\
    shape hs = [M; bs; nq; dd] /\ shape mem = [bs; dd; Lt] /\
    (forall b ch i, data mem [b; ch; i] = data text_src [b; i; ch]) /\
    shape (MTTransformer.dec_masks c) = [bs; Lt] /\
    (forall b j, data (MTTransformer.dec_masks c) [b; j] =
                 negb (bool_decide (data text_mask [b; j] = 1%Z))) /\
    shape (MTTransformer.dec_pos_embeds c) = [Lt; bs; dd] /\
    (forall i b ch, i < Lt -> ch < dd ->
       data (MTTransformer.dec_pos_embeds c) [i; b; ch] = data text_pos [i; ch]).
Proof.
  intros Hinit Hact Hh Hme Hmd HM Hl Htext Hq.
  destruct (mt_init_wf _ _ _ _ _ _ _ _ _ _ _ _ _ _ _ _ Hinit Hact Hh Hme Hmd)
    as (Hwf & Ha & Hpass & _).
  destruct (forward_ok m de dd M true Hwf false true text_src
              {| shape := []; data := fun _ => false |} text_src text_src text_mask
              text_pos q task dataset task_idx bs 0 0 Lt nq d0)
    as (c & hs & mem & t & Hc & Hf & Hhs & Hms & Hmd' & _ & Hks & Hps & _ & _ & _ & Htx);
    [done..|].
  destruct (Htx eq_refl) as [HdT HkT]. unfold opt_if in Hc, Hf. simpl in Hms, Hks, Hps.
  exists c, hs, mem.
  split; [done|]. split; [done|]. split; [done|]. split; [done|].
  split; [intros b ch i; rewrite Hmd'; apply (HdT i b ch)|].
  split; [done|]. split; [intros b j; apply (HkT b j)|]. split; [done|].
  apply decoder_inputs_inv in Hc as (l0 & l1 & H0 & H1 & _ & _ & _ & Hpe & _).
  injection H0 as <-.
  apply text_branch_inv in H1
    as (ts & tp0 & tp1 & tp2 & n & q0 & q1 & q2 & q3 & Hts & Htp0 & Htp1 & Hn & Htp2 & _ &
        _ & _ & _ & _ & ->).
  injection Htp0 as <-. destruct Htext as (Hs & _ & Hp).
  assert (n = bs) as ->.
  { destruct (permute102_ok text_src bs Lt dd Hs) as (ts' & E & Hs' & _).
    rewrite Hts in E. injection E as <-.
    rewrite (size1_ok ts _ _ _ Hs') in Hn. by injection Hn. }
  destruct (rows_repeated text_pos Lt dd bs tp1 tp2 Hp Htp1 Htp2) as [Hs2 Hd2].
  cbn [MTTransformer.pos_embeds MTTransformer.locals0 app] in Hpe.
  unfold cat_py in Hpe. cbn [tensors_of] in Hpe. rewrite !bind_Ok in Hpe.
  rewrite (cat_single0 tp2 _ _ Hs2) in Hpe. injection Hpe as <-.
  intros i b ch Hi Hch. by apply Hd2.
Qed.

Lemma text_only_memory_is_the_text_input_witness :
  exists c hs mem,
    MTTransformer.decoder_inputs Toy.model_multi None None None (Some Toy.text_src)
      (Some Toy.text_mask) (Some Toy.text_pos) (Some Toy.query_embed) "vl" "vqa2"
      (Some 5%Z) = Ok c /\
    MTTransformer.forward Toy.model_multi None None None (Some Toy.text_src)
      (Some Toy.text_mask) (Some Toy.text_pos) (Some Toy.query_embed) "vl" "vqa2"
      (Some 5%Z) = Ok (hs, mem) /\
    shape mem = [2; 8; 4] /\
    data mem [1; 7; 3] = data Toy.text_src [1; 3; 7] /\
    data (MTTransformer.dec_masks c) [1; 3] = true /\
    data (MTTransformer.dec_pos_embeds c) [3; 1; 7] = data Toy.text_pos [3; 7].
Proof.
  destruct (text_only_memory_is_the_text_input Toy.kernels toy_spec Toy.args_multi
              8 8 2 2 2 16 (1 # 10) "relu" false true 0 Toy.model_multi 23
              Toy.text_src Toy.text_mask Toy.text_pos Toy.query_embed "vl" "vqa2"
              (Some 5%Z) 2 4 3 (MTTransformer.decoder Toy.model_multi))
    as (c & hs & mem & Hc & Hf & _ & Hms & Hd & _ & Hk & _ & Hp).
  - vm_compute; reflexivity.
  - discriminate.
  - lia.
  - reflexivity.
  - reflexivity.
  - lia.
  - vm_compute; reflexivity.
  - apply toy_text_inputs_ok.
  - apply toy_query_ok.
  - exists c, hs, mem. split; [exact Hc|]. split; [exact Hf|]. split; [exact Hms|].
    split; [apply Hd|]. split; [rewrite Hk; reflexivity|]. apply Hp; lia.
Defined.

(** X11. A text-only call never reads the image side of the model: its result
    is the same whatever the encoder, the two projections and the
    encoder-side task embedding are. *)
Theorem text_only_call_ignores_the_encoder
    (K : TorchKernels) (m m' : MTTransformer.t)
    (img_mask : option (Tensor bool)) (img_pos : option (Tensor scalar))
    (text_src : Tensor scalar) (text_mask : option (Tensor Z))
    (text_pos query_embed : option (Tensor scalar)) (task dataset : string)
    (task_idx : option Z) :
  use_task_embedding_in_decoder (MTTransformer.args m) =
    use_task_embedding_in_decoder (MTTransformer.args m') ->
  MTTransformer.pass_pos_and_query m = MTTransformer.pass_pos_and_query m' ->
  MTTransformer.task_embeddings_dec m = MTTransformer.task_embeddings_dec m' ->
  MTTransformer.hs_out_begin_idx m = MTTransformer.hs_out_begin_idx m' ->
  MTTransformer.decoders m = MTTransformer.decoders m' ->
  MTTransformer.forward m None img_mask img_pos (Some text_src) text_mask text_pos
    query_embed task dataset task_idx =
  MTTransformer.forward m' None img_mask img_pos (Some text_src) text_mask text_pos
    query_embed task dataset task_idx.
Proof.
  intros Hflag Hpass Hemb Hidx Hdecs.
  unfold MTTransformer.forward, MTTransformer.decoder_inputs, MTTransformer.text_branch,
    MTTransformer._prefix_task_embedding_to_query_embed, MTTransformer.lookup_decoder.
  by rewrite Hflag, Hpass, Hemb, Hidx, Hdecs.
Qed.

Lemma text_only_call_ignores_the_encoder_witness :
  MTTransformer.forward Toy.model_multi None None None (Some Toy.text_src)
    (Some Toy.text_mask) (Some Toy.text_pos) (Some Toy.query_embed) "vl" "vqa2" (Some 5%Z) =
  MTTransformer.forward (Sample.without_image_side Toy.model_multi) None None None
    (Some Toy.text_src) (Some Toy.text_mask) (Some Toy.text_pos) (Some Toy.query_embed)
    "vl" "vqa2" (Some 5%Z).
Proof.
  apply (text_only_call_ignores_the_encoder Toy.kernels Toy.model_multi
           (Sample.without_image_side Toy.model_multi)); reflexivity.
Defined.

(* ===================================================================== *)
(** ** The single-task transformer in all its modes *)
(* ===================================================================== *)

Lemma transpose12_3 {A} (t : Tensor A) a b c :
  shape t = [a; b; c] ->
  exists out, transpose 1 2 t = Ok out /\ shape out = [a; c; b].
Proof. destruct t as [s f]. simpl. intros ->. eexists. split; reflexivity. Qed.

Lemma view_unequal {A} (t : Tensor A) bs de dd h w :
  shape t = [bs; dd; h * w] -> de <> dd -> 0 < bs -> 0 < h * w ->
  view [bs; de; h; w] t = Err (TorchError "view").
Proof.
  destruct t as [s f]. simpl. intros -> Hne Hb Hhw. unfold view. simpl.
  destruct (Nat.eqb_spec (bs * (de * (h * w))) (bs * (dd * (h * w)))) as [E|_]; [|done].
  exfalso. apply Hne.
  apply Nat.mul_cancel_l in E; [|lia]. apply Nat.mul_cancel_r in E; [done | lia].
Qed.

(** With equal widths both projections are [nn.Identity()]. *)
Lemma transformer_init_identity a d nhead Ne M ff dp activation nb ri ppq share rng tr rng' :
  Transformer.__init__ a d d nhead Ne M ff dp activation nb ri ppq share rng
    = Ok (tr, rng') ->
  Transformer.enc2dec_proj tr = Identity /\ Transformer.pos_embed_proj tr = Identity.
Proof.
  unfold Transformer.__init__. intros H.
  apply ctor_bind_Ok in H as (el & r1 & _ & H).
  apply ctor_bind_Ok in H as ([p1 p2] & r2 & Hp & H).
  rewrite bool_decide_eq_false_2 in Hp by (intros Hc; by apply Hc).
  injection Hp as <- <- _.
  apply ctor_bind_Ok in H as (dl & r3 & _ & H).
  unfold Transformer._reset_parameters in H.
  apply ctor_bind_Ok in H as (e' & r4 & _ & H).
  apply ctor_bind_Ok in H as (q1 & r5 & Hq1 & H).
  apply ctor_bind_Ok in H as (q2 & r6 & Hq2 & H).
  apply ctor_bind_Ok in H as (dec & r7 & _ & H).
  injection H as <- _. simpl in *.
  injection Hq1 as <- _. injection Hq2 as <- _. done.
Qed.

Section BaseForwardModes.
Context `{K : TorchKernels} {KS : KernelSpec K}.
Local Abbreviation T := (Tensor scalar).

(** [Transformer.forward] on well-shaped inputs, up to the final [view]:
    it raises when the positional encoding, [None] in the mode without
    separate positions, meets a linear projection; otherwise only the
    reshape of the memory to the encoder's width is left. *)
Lemma transformer_forward_to_view tr (src : T) (mask : Tensor bool) (query_embed pos_embed : T)
    de dd M ri bs h w nq :
  transformer_wf de dd M ri tr -> (ri = true -> 1 <= M) ->
  shape src = [bs; de; h; w] -> shape mask = [bs; h; w] ->
  shape pos_embed = [bs; de; h; w] -> shape query_embed = [nq; dd] ->
  if negb (Transformer.pass_pos_and_query tr) &&
     match Transformer.pos_embed_proj tr with Lin _ => true | Identity => false end
  then Transformer.forward tr src mask query_embed pos_embed = Err TypeError
  else
    exists hs mem3,
      shape hs = (if ri then [M; bs; nq; dd] else [nq; dd; bs]) /\
      shape mem3 = [bs; dd; h * w] /\
      Transformer.forward tr src mask query_embed pos_embed =
        (mem ← view [bs; de; h; w] mem3; Ok (hs, mem, None)).
Proof.
  intros (He & Hp1 & Hp2 & dec & Hdec & Hd) HM Hs Hm Hp Hq.
  unfold Transformer.forward. rewrite Hs. simpl unpack4. rewrite bind_Ok.
  step (flatten2_ok src bs de h w) as s1; [done|].
  step (permute201_ok s1 bs de (h * w)) as s2; [done|].
  step (flatten2_ok pos_embed bs de h w) as p1; [done|].
  step (permute201_ok p1 bs de (h * w)) as p2; [done|].
  step (unsqueeze1_ok query_embed nq dd) as q1; [done|].
  step (repeat_1b1_ok q1 nq dd bs) as q2; [done|].
  destruct (flatten1_ok mask bs h w Hm) as (m1 & -> & Hm1 & _). rewrite bind_Ok.
  assert (Hmodes : exists s3 tgt qpos pos3,
    (if Transformer.pass_pos_and_query tr then
       Ok (s2, zeros_like q2, Some q2, Some p2)
     else s ← add s2 (scale (1 # 10) p2); Ok (s, q2, None, None))
      = Ok (s3, tgt, qpos, pos3) /\
    shape s3 = [h * w; bs; de] /\ shape tgt = [nq; bs; dd] /\
    opt_shape qpos [nq; bs; dd] /\ opt_shape pos3 [h * w; bs; de] /\
    pos3 = (if Transformer.pass_pos_and_query tr then Some p2 else None)).
  { destruct (Transformer.pass_pos_and_query tr).
    - exists s2, (zeros_like q2), (Some q2), (Some p2).
      repeat split; try done; by intros t [= <-].
    - step (add_ok s2 (scale (1 # 10) p2) [h * w; bs; de]) as s3; [done..|].
      exists s3, q2, None, None. repeat split; try done; by intros t [=]. }
  destruct Hmodes as (s3 & tgt & qpos & pos3 & -> & Hs3 & Htgt & Hqpos & Hpos3 & Epos3).
  rewrite bind_Ok.
  step (encoder_ok (Transformer.encoder tr) s3 (Some m1) pos3 (h * w) bs de) as mem0;
    [done | done | by intros t [= <-] | done |].
  assert (Hres : exists mem1,
    (if residual_in_encoder (Transformer.args tr) then add s3 mem0 else Ok mem0) = Ok mem1 /\
    shape mem1 = [h * w; bs; de]).
  { destruct (residual_in_encoder (Transformer.args tr)); [by apply add_ok | eauto]. }
  destruct Hres as (mem1 & -> & Hmem1). rewrite bind_Ok.
  step (projection_ok (Transformer.enc2dec_proj tr) mem1 (h * w) bs de dd) as mem2; [done..|].
  assert (Hproj :
    if negb (Transformer.pass_pos_and_query tr) &&
       match Transformer.pos_embed_proj tr with Lin _ => true | Identity => false end
    then call_Projection_py (Transformer.pos_embed_proj tr) pos3 = Err TypeError
    else exists pos4, call_Projection_py (Transformer.pos_embed_proj tr) pos3 = Ok pos4 /\
                      opt_shape pos4 [h * w; bs; dd]).
  { rewrite Epos3. destruct (Transformer.pass_pos_and_query tr); simpl negb.
    - simpl andb. cbv iota. unfold call_Projection_py.
      destruct (projection_ok (Transformer.pos_embed_proj tr) p2 (h * w) bs de dd Hp2 Hp3)
        as (p3 & -> & Hp3').
      rewrite bind_Ok. eexists. split; [reflexivity|]. by intros t [= <-].
    - simpl andb. destruct (Transformer.pos_embed_proj tr); simpl.
      + eexists. split; [reflexivity|]. by intros t [=].
      + reflexivity. }
  destruct (negb (Transformer.pass_pos_and_query tr) &&
            match Transformer.pos_embed_proj tr with Lin _ => true | Identity => false end).
  { by rewrite Hproj. }
  destruct Hproj as (pos4 & -> & Hpos4). rewrite bind_Ok.
  rewrite Hdec. unfold call_decoder.
  destruct (decoder_forward_ok dec tgt mem2 (Some m1) pos4 qpos nq (h * w) bs dd M ri)
    as (out & no & _ & _ & Hno & Hfwd); [done | done | done | done | by intros t [= <-] | done..|].
  destruct (permute120_ok mem2 (h * w) bs dd Hmem2) as (mem3 & Hperm & Hmem3 & _).
  destruct ri.
  - destruct Hfwd as (inter & hs & -> & _ & _ & _ & Hhs & _). rewrite bind_Ok.
    step (transpose12_ok hs M nq bs dd) as hs1; [done|]. destruct Hhs1 as [Hhs1 _].
    rewrite Hperm, bind_Ok. exists hs1, mem3. done.
  - rewrite Hfwd, bind_Ok.
    step (transpose12_3 no nq bs dd) as hs1; [done|].
    rewrite Hperm, bind_Ok. exists hs1, mem3. done.
Qed.

End BaseForwardModes.

(* ===================================================================== *)
(** ** The single-task scenario, in both modes *)
(* ===================================================================== *)



(** X12. The single-task [Transformer.forward] with equal encoder and decoder
    widths returns, on well-shaped inputs and in both settings of
    [pass_pos_and_query], the memory reshaped to (batch x channels x height
    x width) and [None] as third result; the hidden states have shape
    (layers x batch x queries x channels) with intermediate outputs, and
    (queries x channels x batch) without, since [transpose(1, 2)] then
    exchanges the batch axis and the channel axis. *)
Theorem single_task_forward_shapes
    (K : TorchKernels) (KS : KernelSpec K)
    (a : Args) (d nhead Ne M ff : nat) (dp : Q) (activation : string)
    (nb ri ppq share : bool) (rng : nat) (tr : Transformer.t) (rng' : nat)
    (src : Tensor scalar) (mask : Tensor bool) (query_embed pos_embed : Tensor scalar)
    (bs h w nq : nat) :
  Transformer.__init__ a d d nhead Ne M ff dp activation nb ri ppq share rng
    = Ok (tr, rng') ->
  activation <> "glu" -> 0 < nhead -> d mod nhead = 0 -> (ri = true -> 1 <= M) ->
  shape src = [bs; d; h; w] -> shape mask = [bs; h; w] ->
  shape pos_embed = [bs; d; h; w] -> shape query_embed = [nq; d] ->
  exists hs mem,
    Transformer.forward tr src mask query_embed pos_embed = Ok (hs, mem, None) /\
    shape mem = [bs; d; h; w] /\
    shape hs = if ri then [M; bs; nq; d] else [nq; d; bs].
Proof.
  intros Hinit Hact Hh Hm HM Hs Hmk Hp Hq.
  destruct (transformer_init_identity _ _ _ _ _ _ _ _ _ _ _ _ _ _ _ Hinit) as [_ Hid].
  apply transformer_init_wf in Hinit as (Hwf & _ & _); [|done..].
  pose proof (transformer_forward_to_view tr src mask query_embed pos_embed d d M ri
                bs h w nq Hwf HM Hs Hmk Hp Hq) as H.
  rewrite Hid, andb_false_r in H. destruct H as (hs & mem3 & Hhs & Hmem3 & ->).
  destruct (view_split_last mem3 bs d h w Hmem3) as (mem & -> & Hmem).
  rewrite bind_Ok. eauto.
Qed.

Lemma single_task_forward_shapes_witness :
  exists hs mem,
    Transformer.forward Sample.base_default Toy.img_src Toy.img_mask Toy.query_embed
      Toy.img_pos = Ok (hs, mem, None) /\
    shape mem = [2; 8; 2; 3] /\ shape hs = [3; 8; 2].
Proof.
  apply (single_task_forward_shapes Toy.kernels toy_spec Toy.args_single
           8 2 2 2 16 (1 # 10) "relu" false false true false 0 Sample.base_default 21
           Toy.img_src Toy.img_mask Toy.query_embed Toy.img_pos 2 2 3 3).
  - vm_compute; reflexivity.
  - discriminate.
  - lia.
  - reflexivity.
  - intros [=].
  - reflexivity.
  - reflexivity.
  - reflexivity.
  - reflexivity.
Defined.

(** X13. A single-task [Transformer] whose decoder width differs from its
    encoder width completes no forward call on well-shaped inputs that are
    not empty: the memory it returns has the decoder's width and is reshaped
    with the channel count of the input, which [view] refuses; without
    separately passed positions the linear projection of the positional
    encoding is called on [None] before that. *)
Theorem single_task_forward_with_unequal_widths_raises
    (K : TorchKernels) (KS : KernelSpec K)
    (a : Args) (de dd nhead Ne M ff : nat) (dp : Q) (activation : string)
    (nb ri ppq share : bool) (rng : nat) (tr : Transformer.t) (rng' : nat)
    (src : Tensor scalar) (mask : Tensor bool) (query_embed pos_embed : Tensor scalar)
    (bs h w nq : nat) :
  Transformer.__init__ a de dd nhead Ne M ff dp activation nb ri ppq share rng
    = Ok (tr, rng') ->
  de <> dd ->
  activation <> "glu" -> 0 < nhead -> de mod nhead = 0 -> dd mod nhead = 0 ->
  (ri = true -> 1 <= M) -> 0 < bs -> 0 < h * w ->
  shape src = [bs; de; h; w] -> shape mask = [bs; h; w] ->
  shape pos_embed = [bs; de; h; w] -> shape query_embed = [nq; dd] ->
  Transformer.forward tr src mask query_embed pos_embed =
  Err (if ppq then TorchError "view" else TypeError).
Proof.
  intros Hinit Hne Hact Hh Hme Hmd HM Hbs Hhw Hs Hmk Hp Hq.
  apply transformer_init_wf in Hinit as (Hwf & _ & Hpass); [|done..].
  pose proof (transformer_forward_to_view tr src mask query_embed pos_embed de dd M ri
                bs h w nq Hwf HM Hs Hmk Hp Hq) as H.
  destruct Hwf as (_ & _ & Hp2 & _).
  destruct (Transformer.pos_embed_proj tr) as [|l]; [done|].
  rewrite Hpass in H. destruct ppq; simpl in H; [|done].
  destruct H as (hs & mem3 & _ & Hmem3 & ->).
  by rewrite (view_unequal mem3 bs de dd h w Hmem3 Hne Hbs Hhw).
Qed.

Lemma single_task_forward_with_unequal_widths_raises_witness :
  Transformer.forward Sample.base_narrow Toy.img_src Toy.img_mask (Toy.iota [3; 4])
    Toy.img_pos = Err (TorchError "view").
Proof.
  apply (single_task_forward_with_unequal_widths_raises Toy.kernels toy_spec
           Toy.args_single 8 4 2 2 2 16 (1 # 10) "relu" false true true false 0
           Sample.base_narrow 25 Toy.img_src Toy.img_mask (Toy.iota [3; 4]) Toy.img_pos
           2 2 3 3).
  - vm_compute; reflexivity.
  - discriminate.
  - discriminate.
  - lia.
  - reflexivity.
  - reflexivity.
  - intros _. lia.
  - lia.
  - lia.
  - reflexivity.
  - reflexivity.
  - reflexivity.
  - reflexivity.
Defined.

(* ===================================================================== *)
(** ** The collected outputs of the decoder, one by one *)
(* ===================================================================== *)

Lemma stack_inv {A} (ts : list (Tensor A)) hs i x :
  stack ts = Ok hs -> ts !! i = Some x ->
  shape hs = length ts :: shape x /\ forall idx, data hs (i :: idx) = data x idx.
Proof.
  unfold stack. destruct ts as [|t ts]; [done|].
  destruct (all_shape (shape t) ts) eqn:Hall; [|done]. intros [= <-] Hx.
  assert (Hn : nth i (t :: ts) t = x).
  { apply nth_lookup_Some with (d := t) in Hx. done. }
  split; [|intros idx; rewrite <- Hn; reflexivity].
  cbn [shape]. f_equal.
  destruct i as [|j]; simpl in Hx; [by injection Hx as <-|].
  unfold all_shape in Hall. rewrite forallb_forall in Hall.
  symmetry. apply (bool_decide_eq_true_1 _), Hall. apply list_elem_of_In.
  by eapply list_elem_of_lookup_2.
Qed.

Section DecoderPrefix.
Context `{K : TorchKernels}.
Local Abbreviation T := (Tensor scalar).
Import TransformerDecoder.

(** The loop appends one normalised output per layer, and the [i]-th is the
    normalisation of what the first [i + 1] layers compute. *)
Lemma decoder_run_prefix self self' n ls (output : T) inter memory tm mm tk mk pos qpos
    out inter' :
  norm self = Some n -> return_intermediate self = true ->
  return_intermediate self' = false ->
  run self ls output inter memory tm mm tk mk pos qpos = Ok (out, inter') ->
  exists news, inter' = inter ++ news /\ length news = length ls /\
    forall i, i < length ls ->
      exists o no,
        run self' (take (S i) ls) output [] memory tm mm tk mk pos qpos = Ok (o, []) /\
        layer_norm n o = Ok no /\ news !! i = Some no.
Proof.
  intros Hn Hri Hri'. revert output inter.
  induction ls as [|l ls IH]; intros output inter Hrun; simpl in Hrun.
  - injection Hrun as <- <-. exists []. rewrite app_nil_r. split; [done|]. split; [done|].
    intros i Hi. simpl in Hi. lia.
  - destruct (TransformerDecoderLayer.forward l output memory tm mm tk mk pos qpos)
      as [o1|e] eqn:Hl; [|done].
    rewrite bind_Ok, Hri, Hn in Hrun. simpl in Hrun.
    destruct (layer_norm n o1) as [no1|e] eqn:Hno; [|done].
    rewrite !bind_Ok in Hrun.
    apply IH in Hrun as (news & -> & Hlen & Hall).
    exists (no1 :: news). rewrite <- app_assoc. split; [done|].
    split; [simpl; by rewrite Hlen|].
    intros [|j] Hi.
    + exists o1, no1. split; [|done].
      simpl. rewrite ?take_0. simpl. by rewrite Hl, bind_Ok, Hri', bind_Ok.
    + destruct (Hall j) as (o & no & Hrun' & Hno' & Hj); [simpl in Hi; lia|].
      exists o, no. split; [|done].
      change (take (S (S j)) (l :: ls)) with (l :: take (S j) ls). simpl.
      rewrite Hl, bind_Ok, Hri', bind_Ok. exact Hrun'.
Qed.

Lemma decoder_run_last self n ls (output : T) inter memory tm mm tk mk pos qpos out inter' :
  norm self = Some n -> return_intermediate self = true -> ls <> [] ->
  run self ls output inter memory tm mm tk mk pos qpos = Ok (out, inter') ->
  exists no, layer_norm n out = Ok no /\ last inter' = Some no.
Proof.
  intros Hn Hri Hne Hrun.
  apply (decoder_run_inv self n) in Hrun as [_ Hlast]; [|done..].
  by destruct ls.
Qed.

(** The first local of the loop is the output of the layers applied in
    sequence, whether outputs are collected or not. *)
Lemma decoder_run_in_sequence self ls (output : T) inter memory tm mm tk mk pos qpos
    out inter' :
  run self ls output inter memory tm mm tk mk pos qpos = Ok (out, inter') ->
  layers_in_sequence ls output memory tm mm tk mk pos qpos = Ok out.
Proof.
  revert output inter. induction ls as [|l ls IH]; intros output inter H;
    cbn [run layers_in_sequence] in H |- *.
  - by injection H as <- _.
  - bind_inv H as Hl. rewrite bind_Ok. bind_inv H as Hi. by eapply IH.
Qed.

End DecoderPrefix.

(** C1. A decoder of M >= 1 layers with a final normalisation, built with
    return-intermediate enabled, returns on well-shaped inputs the stack of
    exactly M outputs; entry [i] is the final normalisation applied to the
    output of layer [i + 1], that is of the first [i + 1] layers applied in
    sequence to the target, so the last entry is the final normalisation of
    the last layer's output and no entry is a value before normalisation.
    Built with return-intermediate disabled, the decoder returns the final
    normalisation of the last layer's output alone. *)
Theorem decoder_forward_returns_normalized_stack
    (K : TorchKernels) (KS : KernelSpec K) (self : TransformerDecoder.t)
    (tgt memory : Tensor scalar) (mkpm : option (Tensor bool))
    (pos qpos : option (Tensor scalar)) (L Lm B d M : nat) (ri : bool) :
  decoder_wf d M ri self -> (ri = true -> 1 <= M) ->
  shape tgt = [L; B; d] -> shape memory = [Lm; B; d] ->
  opt_shape mkpm [B; Lm] -> opt_shape pos [Lm; B; d] -> opt_shape qpos [L; B; d] ->
  exists n out no,
    TransformerDecoder.norm self = Some n /\
    layers_in_sequence (TransformerDecoder.layers self) tgt memory None None None
      mkpm pos qpos = Ok out /\
    layer_norm n out = Ok no /\
    if ri then
      exists inter hs,
        TransformerDecoder.forward self tgt memory None None None mkpm pos qpos = Ok hs /\
        stack inter = Ok hs /\ length inter = M /\ last inter = Some no /\
        shape hs = M :: shape tgt /\
        (forall idx, data hs (M - 1 :: idx) = data no idx) /\
        (forall i, i < M ->
           exists out_i no_i,
             layers_in_sequence (take (S i) (TransformerDecoder.layers self)) tgt memory
               None None None mkpm pos qpos = Ok out_i /\
             layer_norm n out_i = Ok no_i /\
             inter !! i = Some no_i /\
             forall idx, data hs (i :: idx) = data no_i idx)
    else
      TransformerDecoder.forward self tgt memory None None None mkpm pos qpos = Ok no.
Proof.
  intros Hwf HM Ht Hm Hmk Hp Hq.
  destruct (decoder_forward_ok self tgt memory mkpm pos qpos L Lm B d M ri)
    as (out & no & Hout & Hno & _ & Hres); [done..|].
  destruct Hwf as (_ & Hlen & _ & (n & Hn & _) & Hri).
  rewrite Hn in Hno. simpl in Hno.
  unfold TransformerDecoder.last_layer_output in Hout.
  destruct (TransformerDecoder.run self (TransformerDecoder.layers self) tgt [] memory
              None None None mkpm pos qpos) as [[out' inter']|e] eqn:Hrun; [|done].
  rewrite bind_Ok in Hout. injection Hout as ->.
  exists n, out, no. split; [done|].
  split; [by eapply decoder_run_in_sequence|]. split; [done|].
  destruct ri; [|done].
  destruct Hres as (inter & hs & Hf & _ & _ & _ & Hs & Hd).
  pose proof Hf as Hf'. unfold TransformerDecoder.forward in Hf'.
  rewrite Hrun, bind_Ok, Hn, Hno, bind_Ok, Hri in Hf'.
  assert (Hne : TransformerDecoder.layers self <> []).
  { intros E. rewrite E in Hlen. simpl in Hlen. specialize (HM eq_refl). lia. }
  destruct (decoder_run_last self n _ _ _ _ _ _ _ _ _ _ _ _ Hn Hri Hne Hrun)
    as (no' & Hno' & Hlast).
  assert (no' = no) as -> by congruence.
  destruct (pop_last inter' no Hlast) as [Hpop Hsnoc].
  rewrite Hpop, !bind_Ok, Hsnoc in Hf'.
  destruct (decoder_run_prefix self (first_layers 0 self) n _ _ _ _ _ _ _ _ _ _ _ _
              Hn Hri eq_refl Hrun) as (news & Hnews & Hlen' & Hall).
  simpl in Hnews. subst inter'.
  exists news, hs. split; [done|]. split; [done|].
  split; [by rewrite Hlen'|]. split; [done|].
  split; [by rewrite Ht|]. split; [done|].
  intros i Hi.
  destruct (Hall i) as (o & x & Hrun' & Hx & Hix); [by rewrite Hlen|].
  exists o, x. split; [by eapply decoder_run_in_sequence|].
  split; [done|]. split; [done|].
  by apply (stack_inv news hs i x Hf') in Hix as [_ Hd'].
Qed.

(** C1 at a decoder of two layers of width 8, three queries, a batch of two
    and a memory of five positions. *)
Lemma decoder_forward_returns_normalized_stack_witness :
  (exists hs out0 no0 out1 no1,
     TransformerDecoder.forward (Toy.decoder_of true) (Toy.iota [3; 2; 8])
       (Toy.iota [5; 2; 8]) None None None (Some (Toy.falses [2; 5]))
       (Some (Toy.iota [5; 2; 8])) (Some (Toy.iota [3; 2; 8])) = Ok hs /\
     shape hs = [2; 3; 2; 8] /\
     layers_in_sequence (take 1 (TransformerDecoder.layers (Toy.decoder_of true)))
       (Toy.iota [3; 2; 8]) (Toy.iota [5; 2; 8]) None None None (Some (Toy.falses [2; 5]))
       (Some (Toy.iota [5; 2; 8])) (Some (Toy.iota [3; 2; 8])) = Ok out0 /\
     layer_norm (nn_LayerNorm 8) out0 = Ok no0 /\
     (forall idx, data hs (0 :: idx) = data no0 idx) /\
     layers_in_sequence (TransformerDecoder.layers (Toy.decoder_of true))
       (Toy.iota [3; 2; 8]) (Toy.iota [5; 2; 8]) None None None (Some (Toy.falses [2; 5]))
       (Some (Toy.iota [5; 2; 8])) (Some (Toy.iota [3; 2; 8])) = Ok out1 /\
     layer_norm (nn_LayerNorm 8) out1 = Ok no1 /\
     forall idx, data hs (1 :: idx) = data no1 idx) /\
  (exists out no,
     layers_in_sequence (TransformerDecoder.layers (Toy.decoder_of false))
       (Toy.iota [3; 2; 8]) (Toy.iota [5; 2; 8]) None None None (Some (Toy.falses [2; 5]))
       (Some (Toy.iota [5; 2; 8])) (Some (Toy.iota [3; 2; 8])) = Ok out /\
     layer_norm (nn_LayerNorm 8) out = Ok no /\
     TransformerDecoder.forward (Toy.decoder_of false) (Toy.iota [3; 2; 8])
       (Toy.iota [5; 2; 8]) None None None (Some (Toy.falses [2; 5]))
       (Some (Toy.iota [5; 2; 8])) (Some (Toy.iota [3; 2; 8])) = Ok no).
Proof.
  split.
  - destruct (decoder_forward_returns_normalized_stack Toy.kernels toy_spec
                (Toy.decoder_of true) (Toy.iota [3; 2; 8]) (Toy.iota [5; 2; 8])
                (Some (Toy.falses [2; 5])) (Some (Toy.iota [5; 2; 8]))
                (Some (Toy.iota [3; 2; 8])) 3 5 2 8 2 true)
      as (n & out & no & Hn & Ho & Hno & inter & hs & Hf & _ & _ & _ & Hs & Hd & Hall).
    + apply toy_decoder_wf.
    + intros _. lia.
    + reflexivity.
    + reflexivity.
    + intros t [= <-]. reflexivity.
    + intros t [= <-]. reflexivity.
    + intros t [= <-]. reflexivity.
    + assert (En : n = nn_LayerNorm 8).
      { assert (E : TransformerDecoder.norm (Toy.decoder_of true) = Some (nn_LayerNorm 8))
          by (vm_compute; reflexivity).
        rewrite E in Hn. by injection Hn. }
      subst n.
      destruct (Hall 0) as (out0 & no0 & Ho0 & Hno0 & _ & Hd0); [lia|].
      exists hs, out0, no0, out, no.
      split; [exact Hf|]. split; [exact Hs|]. split; [exact Ho0|]. split; [exact Hno0|].
      split; [exact Hd0|]. split; [exact Ho|]. split; [exact Hno | exact Hd].
  - destruct (decoder_forward_returns_normalized_stack Toy.kernels toy_spec
                (Toy.decoder_of false) (Toy.iota [3; 2; 8]) (Toy.iota [5; 2; 8])
                (Some (Toy.falses [2; 5])) (Some (Toy.iota [5; 2; 8]))
                (Some (Toy.iota [3; 2; 8])) 3 5 2 8 2 false)
      as (n & out & no & Hn & Ho & Hno & Hf).
    + apply toy_decoder_wf.
    + intros [=].
    + reflexivity.
    + reflexivity.
    + intros t [= <-]. reflexivity.
    + intros t [= <-]. reflexivity.
    + intros t [= <-]. reflexivity.
    + assert (En : n = nn_LayerNorm 8).
      { assert (E : TransformerDecoder.norm (Toy.decoder_of false) = Some (nn_LayerNorm 8))
          by (vm_compute; reflexivity).
        rewrite E in Hn. by injection Hn. }
      subst n.
      exists out, no. split; [exact Ho|]. split; [exact Hno | exact Hf].
Defined.

(** X14. Deep supervision: whatever the kernels and the inputs, when a decoder
    that collects intermediate outputs returns, entry [i] of the stack is
    exactly what the decoder cut after its first [i + 1] layers returns as
    its final output on the same inputs. *)
Theorem decoder_stack_entry_is_the_output_of_the_first_layers
    (K : TorchKernels) (self : TransformerDecoder.t) (tgt memory : Tensor scalar)
    (tgt_mask memory_mask : option (Tensor scalar))
    (tgt_key_padding_mask memory_key_padding_mask : option (Tensor bool))
    (pos query_pos : option (Tensor scalar)) (hs : Tensor scalar) (i : nat) :
  TransformerDecoder.return_intermediate self = true ->
  TransformerDecoder.forward self tgt memory tgt_mask memory_mask tgt_key_padding_mask
    memory_key_padding_mask pos query_pos = Ok hs ->
  i < length (TransformerDecoder.layers self) ->
  exists x,
    TransformerDecoder.forward (first_layers (S i) self) tgt memory tgt_mask memory_mask
      tgt_key_padding_mask memory_key_padding_mask pos query_pos = Ok x /\
    shape hs = length (TransformerDecoder.layers self) :: shape x /\
    forall idx, data hs (i :: idx) = data x idx.
Proof.
  intros Hri Hf Hi.
  destruct (TransformerDecoder.norm self) as [n|] eqn:Hn.
  2:{ exfalso. unfold TransformerDecoder.forward in Hf.
      destruct (TransformerDecoder.layers self) as [|l ls]; [simpl in Hi; lia|].
      simpl in Hf.
      destruct (TransformerDecoderLayer.forward l tgt memory tgt_mask memory_mask
                  tgt_key_padding_mask memory_key_padding_mask pos query_pos); [|done].
      rewrite bind_Ok, Hri, Hn in Hf. done. }
  assert (Hne : TransformerDecoder.layers self <> []).
  { intros E. rewrite E in Hi. simpl in Hi. lia. }
  unfold TransformerDecoder.forward in Hf.
  destruct (TransformerDecoder.run self (TransformerDecoder.layers self) tgt [] memory
              tgt_mask memory_mask tgt_key_padding_mask memory_key_padding_mask pos
              query_pos) as [[out inter']|e] eqn:Hrun; [|done].
  rewrite bind_Ok, Hn in Hf.
  destruct (layer_norm n out) as [no|e] eqn:Hno; [|done].
  rewrite bind_Ok, Hri in Hf.
  destruct (TransformerDecoder.pop inter') as [popped|e] eqn:Hpop; [|done].
  rewrite !bind_Ok in Hf.
  destruct (decoder_run_last self n _ _ _ _ _ _ _ _ _ _ _ _ Hn Hri Hne Hrun)
    as (no' & Hno' & Hlast).
  assert (no' = no) as -> by congruence.
  destruct (pop_last inter' no Hlast) as [Hpop' Hsnoc].
  rewrite Hpop' in Hpop. injection Hpop as <-. rewrite Hsnoc in Hf.
  destruct (decoder_run_prefix self (first_layers (S i) self) n _ _ _ _ _ _ _ _ _ _ _ _
              Hn Hri eq_refl Hrun) as (news & Hnews & Hlen & Hall).
  simpl in Hnews. subst inter'.
  destruct (Hall i Hi) as (o & x & Hrun' & Hx & Hix).
  exists x. split.
  - unfold TransformerDecoder.forward. simpl TransformerDecoder.layers.
    rewrite Hrun', bind_Ok. simpl TransformerDecoder.norm. rewrite Hn, Hx, bind_Ok.
    reflexivity.
  - apply (stack_inv news hs i x Hf) in Hix as [Hs Hd]. by rewrite <- Hlen.
Qed.

Lemma decoder_stack_entry_is_the_output_of_the_first_layers_witness :
  exists hs x,
    TransformerDecoder.forward (Toy.decoder_of true) (Toy.iota [3; 2; 8])
      (Toy.iota [5; 2; 8]) None None None (Some (Toy.falses [2; 5]))
      (Some (Toy.iota [5; 2; 8])) (Some (Toy.iota [3; 2; 8])) = Ok hs /\
    TransformerDecoder.forward (first_layers 1 (Toy.decoder_of true)) (Toy.iota [3; 2; 8])
      (Toy.iota [5; 2; 8]) None None None (Some (Toy.falses [2; 5]))
      (Some (Toy.iota [5; 2; 8])) (Some (Toy.iota [3; 2; 8])) = Ok x /\
    shape hs = 2 :: shape x /\
    forall idx, data hs (0 :: idx) = data x idx.
Proof.
  assert (Hok : is_Ok (TransformerDecoder.forward (K:=Toy.kernels) (Toy.decoder_of true)
                         (Toy.iota [3; 2; 8]) (Toy.iota [5; 2; 8]) None None None
                         (Some (Toy.falses [2; 5])) (Some (Toy.iota [5; 2; 8]))
                         (Some (Toy.iota [3; 2; 8]))) = true) by (vm_compute; reflexivity).
  destruct (TransformerDecoder.forward (K:=Toy.kernels) (Toy.decoder_of true)
              (Toy.iota [3; 2; 8]) (Toy.iota [5; 2; 8]) None None None
              (Some (Toy.falses [2; 5])) (Some (Toy.iota [5; 2; 8]))
              (Some (Toy.iota [3; 2; 8]))) as [hs|e] eqn:E; [|discriminate].
  destruct (decoder_stack_entry_is_the_output_of_the_first_layers Toy.kernels
              (Toy.decoder_of true) (Toy.iota [3; 2; 8]) (Toy.iota [5; 2; 8]) None None
              None (Some (Toy.falses [2; 5])) (Some (Toy.iota [5; 2; 8]))
              (Some (Toy.iota [3; 2; 8])) hs 0) as (x & Hx & Hs & Hd).
  - reflexivity.
  - exact E.
  - vm_compute. lia.
  - exists hs, x. split; [reflexivity|]. split; [exact Hx|]. split; [exact Hs | exact Hd].
Defined.

(* ===================================================================== *)
(** ** Decoders that are not shared *)
(* ===================================================================== *)

Lemma get_clones_replicate {A} (module : A) N : _get_clones module N = replicate N module.
Proof.
  unfold _get_clones, deepcopy. generalize 0.
  induction N as [|N IH]; intros k; simpl; [done|]. by rewrite IH.
Qed.

Section Unshared.
Variables (dd nhead M ff : nat) (dp : Q) (activation : string) (nb ri : bool).

Local Abbreviation fill_task_dict :=
  (MTTransformer.fill_task_dict dd nhead M ff dp activation nb ri false).
Local Abbreviation fill_decoders :=
  (MTTransformer.fill_decoders dd nhead M ff dp activation nb ri false).

(** Every dataset sets [self.decoder] to [None] before its decoder is
    built. *)
Lemma fill_task_dict_unshared datasets sd
    (td : gmap string (option TransformerDecoder.t)) rng sd' td' rng' :
  fill_task_dict datasets sd td rng = Ok ((sd', td'), rng') ->
  sd' = match datasets with [] => sd | _ => None end.
Proof.
  revert sd td rng. induction datasets as [|[dataset n] rest IH]; intros sd td rng H.
  - by injection H as <- _ _.
  - simpl in H. apply ctor_bind_Ok in H as (d & r1 & _ & H).
    apply IH in H. rewrite H. by destruct rest.
Qed.

Lemma fill_decoders_unshared tasks sd
    (decs : gmap string (gmap string (option TransformerDecoder.t))) rng sd' decs' rng' :
  fill_decoders tasks sd decs rng = Ok ((sd', decs'), rng') ->
  sd' = if forallb (fun p : string * list (string * nat) =>
                      match p.2 with [] => true | _ => false end) tasks
        then sd else None.
Proof.
  revert sd decs rng. induction tasks as [|[task datasets] rest IH]; intros sd decs rng H.
  - by injection H as <- _ _.
  - simpl in H. apply ctor_bind_Ok in H as ([sd1 td1] & r1 & Hfill & H).
    apply fill_task_dict_unshared in Hfill. apply IH in H. rewrite H, Hfill. simpl.
    destruct datasets; simpl; [done|].
    by destruct (forallb _ rest).
Qed.

End Unshared.

Lemma some_pair_enumerated a :
  forallb (fun p : string * list (string * nat) =>
             match p.2 with [] => true | _ => false end) (num_queries a) = false <->
  exists task dataset, enumerated a task dataset.
Proof.
  unfold enumerated. generalize (num_queries a). intros tasks.
  induction tasks as [|[task datasets] rest IH]; simpl.
  - split; [done|]. intros (? & ? & ? & ? & Hin & _). by apply elem_of_nil in Hin.
  - destruct datasets as [|[ds n] datasets]; simpl.
    + rewrite IH. split.
      * intros (t & d & dsets & n & Hin & Hd). exists t, d, dsets, n. split; [by right | done].
      * intros (t & d & dsets & n & Hin & Hd).
        apply elem_of_cons in Hin as [[= -> ->]|Hin]; [by apply elem_of_nil in Hd|].
        eauto 6.
    + split; [|done]. intros _. exists task, ds, ((ds, n) :: datasets), n.
      split; left.
Qed.

(** X15. A model built without shared decoders keeps no decoder of its own
    once a pair is enumerated: [self.decoder], built and initialised by the
    single-task constructor, is set to [None] by the first dataset of the
    registry loop.  With no pair enumerated it is kept. *)
Theorem unshared_model_keeps_no_decoder_of_its_own
    (a : Args) (de dd nhead Ne M ff : nat) (dp : Q) (activation : string)
    (nb ri ppq : bool) (rng : nat) (m : MTTransformer.t) (rng' : nat) :
  MTTransformer.__init__ a de dd nhead Ne M ff dp activation nb ri ppq false rng
    = Ok (m, rng') ->
  (MTTransformer.decoder m = None <-> exists task dataset, enumerated a task dataset).
Proof.
  intros Hinit.
  destruct (mt_init_inv _ _ _ _ _ _ _ _ _ _ _ _ _ _ _ _ Hinit)
    as (tr & r1 & sd & r2 & r3 & Htr & Hfill & Hsd & _).
  apply transformer_init_decoder in Htr as [[dec Hdec] _].
  apply fill_decoders_unshared in Hfill. rewrite Hsd, Hfill, Hdec.
  rewrite <- some_pair_enumerated.
  by destruct (forallb _ (num_queries a)).
Qed.

Lemma unshared_model_keeps_no_decoder_of_its_own_witness :
  MTTransformer.decoder Sample.model_unshared = None.
Proof.
  apply (unshared_model_keeps_no_decoder_of_its_own Toy.args_multi 8 8 2 2 2 16 (1 # 10)
           "relu" false true true 0 Sample.model_unshared
           (Toy.rng_after Sample.build_unshared)).
  - vm_compute; reflexivity.
  - exists "vl", "vqa2", [("vqa2", 3); ("snli_ve", 3)], 3. simpl.
    split; [right; left | left].
Defined.

(** X16. In a model built without shared decoders the decoder of every
    registered pair is [num_decoder_layers] copies of one decoder layer, as
    the layer constructor returned it: these decoders are built after
    [_reset_parameters] has run, which therefore never reaches them, and
    their layers start from the same parameter values. *)
Theorem unshared_decoders_are_copies_of_one_fresh_layer
    (a : Args) (de dd nhead Ne M ff : nat) (dp : Q) (activation : string)
    (nb ri ppq : bool) (rng : nat) (m : MTTransformer.t) (rng' : nat)
    (task dataset : string) (d : option TransformerDecoder.t) :
  MTTransformer.__init__ a de dd nhead Ne M ff dp activation nb ri ppq false rng
    = Ok (m, rng') ->
  MTTransformer.lookup_decoder m task dataset = Ok d ->
  exists dec layer r r',
    d = Some dec /\
    TransformerDecoderLayer.__init__ dd nhead ff dp activation nb r = Ok (layer, r') /\
    TransformerDecoder.layers dec = replicate M layer /\
    TransformerDecoder.norm dec = Some (nn_LayerNorm dd) /\
    TransformerDecoder.return_intermediate dec = ri.
Proof.
  intros Hinit Hl.
  destruct (mt_init_inv _ _ _ _ _ _ _ _ _ _ _ _ _ _ _ _ Hinit)
    as (tr & r1 & sd & r2 & r3 & _ & Hfill & _).
  apply (fill_decoders_spec dd nhead M ff dp activation nb ri false
           (fun d => exists dec layer r r',
              d = Some dec /\
              TransformerDecoderLayer.__init__ dd nhead ff dp activation nb r
                = Ok (layer, r') /\
              TransformerDecoder.layers dec = replicate M layer /\
              TransformerDecoder.norm dec = Some (nn_LayerNorm dd) /\
              TransformerDecoder.return_intermediate dec = ri)) in Hfill
    as (_ & Hall & _).
  - apply lookup_decoder_entry in Hl. by eapply Hall.
  - intros _ r d0 r' Hb. unfold MTTransformer.build_decoder_layer in Hb.
    apply ctor_bind_Ok in Hb as (layer & r0 & Hlayer & Hb). injection Hb as <- <-.
    exists (TransformerDecoder.__init__ layer M (Some (nn_LayerNorm dd)) ri), layer, r, r0.
    split; [done|]. split; [done|]. split; [apply get_clones_replicate | done].
  - done.
  - intros t ds d0. unfold entry_at. by rewrite lookup_empty.
Qed.

Lemma unshared_decoders_are_copies_of_one_fresh_layer_witness :
  exists dec layer,
    MTTransformer.lookup_decoder Sample.model_unshared "vl" "snli_ve" = Ok (Some dec) /\
    TransformerDecoder.layers dec = replicate 2 layer.
Proof.
  assert (Hok : is_Ok (MTTransformer.lookup_decoder Sample.model_unshared "vl" "snli_ve")
                = true) by (vm_compute; reflexivity).
  destruct (MTTransformer.lookup_decoder Sample.model_unshared "vl" "snli_ve")
    as [d|e] eqn:E; [|discriminate].
  destruct (unshared_decoders_are_copies_of_one_fresh_layer Toy.args_multi 8 8 2 2 2 16
              (1 # 10) "relu" false true true 0 Sample.model_unshared
              (Toy.rng_after Sample.build_unshared) "vl" "snli_ve" d)
    as (dec & layer & r & r' & -> & _ & Hls & _).
  - vm_compute; reflexivity.
  - exact E.
  - exists dec, layer. split; [reflexivity | exact Hls].
Defined.

(* ===================================================================== *)
(** ** The activation [glu] *)
(* ===================================================================== *)

#[global] Instance toy_feed_forward : FeedForwardSpec Toy.kernels.
Proof.
  split; simpl.
  - intros l x y. unfold Toy.toy_linear.
    destruct (bool_decide (last (shape x) = Some (in_features l))) eqn:E; [|done].
    apply bool_decide_eq_true in E. apply last_Some in E as [s Hs].
    intros [= <-]. exists s. split; [done|]. simpl. rewrite Hs. apply set_last_snoc.
  - intros x y. unfold Toy.toy_glu.
    destruct (last (shape x)) as [n|] eqn:E; [|done].
    destruct (Nat.even n); [|done]. apply last_Some in E as [s Hs].
    intros [= <-]. exists s, n. split; [done|]. simpl. rewrite Hs. apply set_last_snoc.
  - by intros d x y [= <-].
Qed.

Section Glu.
Context `{K : TorchKernels} {FS : FeedForwardSpec K}.
Local Abbreviation T := (Tensor scalar).

(** [linear2(dropout(glu(linear1(x))))] : the second linear map is given
    half the width it reads. *)
Lemma feed_forward_glu l1 l2 dr (x x1 x2 x3 y : T) ff :
  out_features l1 = ff -> in_features l2 = ff -> 0 < ff ->
  linear l1 x = Ok x1 -> call_activation F_glu x1 = Ok x2 -> dropout_ dr x2 = Ok x3 ->
  linear l2 x3 = Ok y -> False.
Proof.
  intros H1 H2 Hff E1 E2 E3 E4.
  apply linear_returned in E1 as (s1 & _ & Hx1).
  apply glu_returned in E2 as (s2 & n & Hx1' & Hx2).
  apply dropout_returned in E3. apply linear_returned in E4 as (s4 & Hx3 & _).
  rewrite Hx1 in Hx1'. apply app_inj_tail in Hx1' as [_ Hn].
  rewrite E3, Hx2 in Hx3. apply app_inj_tail in Hx3 as [_ Hh].
  rewrite H1 in Hn. rewrite H2, <- Hn in Hh.
  assert (ff / 2 < ff) by (apply Nat.div_lt; lia). lia.
Qed.

Lemma encoder_layer_glu_fails l ff (src : T) src_mask kpm pos out :
  enc_layer_glu ff l -> 0 < ff ->
  TransformerEncoderLayer.forward l src src_mask kpm pos = Ok out -> False.
Proof.
  intros (Hact & H1 & H2) Hff H. unfold TransformerEncoderLayer.forward in H.
  destruct (TransformerEncoderLayer.normalize_before l).
  - unfold TransformerEncoderLayer.forward_pre in H. rewrite Hact in H.
    do 6 bind_inv H.
    bind_inv H as F1. bind_inv H as F2. bind_inv H as F3. bind_inv H as F4.
    eapply feed_forward_glu; eauto.
  - unfold TransformerEncoderLayer.forward_post in H. rewrite Hact in H.
    do 5 bind_inv H.
    bind_inv H as F1. bind_inv H as F2. bind_inv H as F3. bind_inv H as F4.
    eapply feed_forward_glu; eauto.
Qed.

Lemma decoder_layer_glu_fails l ff (tgt memory : T) tm mm tk mk pos qpos out :
  dec_layer_glu ff l -> 0 < ff ->
  TransformerDecoderLayer.forward l tgt memory tm mm tk mk pos qpos = Ok out -> False.
Proof.
  intros (Hact & H1 & H2) Hff H. unfold TransformerDecoderLayer.forward in H.
  destruct (TransformerDecoderLayer.normalize_before l).
  - unfold TransformerDecoderLayer.forward_pre in H. rewrite Hact in H.
    do 12 bind_inv H.
    bind_inv H as F1. bind_inv H as F2. bind_inv H as F3. bind_inv H as F4.
    eapply feed_forward_glu; eauto.
  - unfold TransformerDecoderLayer.forward_post in H. rewrite Hact in H.
    do 11 bind_inv H.
    bind_inv H as F1. bind_inv H as F2. bind_inv H as F3. bind_inv H as F4.
    eapply feed_forward_glu; eauto.
Qed.

(** A decoder whose first layer cannot return cannot return. *)
Lemma decoder_glu_fails dec ff (tgt memory : T) tm mm tk mk pos qpos out :
  Forall (dec_layer_glu ff) (TransformerDecoder.layers dec) ->
  TransformerDecoder.layers dec <> [] -> 0 < ff ->
  TransformerDecoder.forward dec tgt memory tm mm tk mk pos qpos = Ok out -> False.
Proof.
  intros Hall Hne Hff H. unfold TransformerDecoder.forward in H.
  destruct (TransformerDecoder.layers dec) as [|l ls]; [done|].
  apply Forall_cons in Hall as [Hl _]. simpl in H.
  bind_inv H as Hrun. bind_inv Hrun as Hlayer.
  by eapply decoder_layer_glu_fails.
Qed.

End Glu.

(** The layers as the constructors make them for the name "glu", and as
    [xavier_uniform_] leaves them. *)
Lemma encoder_layer_init_glu d nhead ff dp nb rng l rng' :
  TransformerEncoderLayer.__init__ d nhead ff dp "glu" nb rng = Ok (l, rng') ->
  enc_layer_glu ff l.
Proof.
  intros H. apply encoder_layer_init_inv in H as (f & Hf & _ & _ & _ & _ & ->).
  injection Hf as <-. done.
Qed.

Lemma decoder_layer_init_glu d nhead ff dp nb rng l rng' :
  TransformerDecoderLayer.__init__ d nhead ff dp "glu" nb rng = Ok (l, rng') ->
  dec_layer_glu ff l.
Proof.
  intros H. apply decoder_layer_init_inv in H as (f & Hf & _ & _ & _ & _ & ->).
  injection Hf as <-. done.
Qed.

Lemma decoder_layer_xavier_glu ff l rng l' rng' :
  dec_layer_glu ff l -> TransformerDecoderLayer.xavier l rng = Ok (l', rng') ->
  dec_layer_glu ff l'.
Proof. intros Hl H. cbn in H. injection H as <- _. exact Hl. Qed.

Lemma mapM_xavier_glu ff ls rng ls' rng' :
  Forall (dec_layer_glu ff) ls ->
  mapM TransformerDecoderLayer.xavier ls rng = Ok (ls', rng') ->
  Forall (dec_layer_glu ff) ls' /\ length ls' = length ls.
Proof.
  intros H. revert rng ls' rng'. induction H as [|l ls Hl Hls IH]; intros rng ls' rng' Hm.
  - injection Hm as <- _. done.
  - change (mapM TransformerDecoderLayer.xavier (l :: ls) rng) with
      ((y ← TransformerDecoderLayer.xavier l;
        k ← mapM TransformerDecoderLayer.xavier ls; mret (y :: k)) rng) in Hm.
    apply ctor_bind_Ok in Hm as (y & r1 & Hy & Hm).
    apply ctor_bind_Ok in Hm as (k & r2 & Hk & Hm). injection Hm as <- _.
    apply IH in Hk as [Hk Hlen]. split; [|simpl; by rewrite Hlen].
    constructor; [by eapply decoder_layer_xavier_glu | done].
Qed.

(** The decoder of the single-task part of a model built for "glu". *)
Lemma transformer_init_glu a de dd nhead Ne M ff dp nb ri ppq share rng tr rng' :
  Transformer.__init__ a de dd nhead Ne M ff dp "glu" nb ri ppq share rng = Ok (tr, rng') ->
  exists dec, Transformer.decoder tr = Some dec /\
    Forall (dec_layer_glu ff) (TransformerDecoder.layers dec) /\
    length (TransformerDecoder.layers dec) = M.
Proof.
  unfold Transformer.__init__. intros H.
  apply ctor_bind_Ok in H as (el & r1 & _ & H).
  apply ctor_bind_Ok in H as ([p1 p2] & r2 & _ & H).
  apply ctor_bind_Ok in H as (dl & r3 & Hdl & H).
  apply decoder_layer_init_glu in Hdl.
  unfold Transformer._reset_parameters in H.
  apply ctor_bind_Ok in H as (e' & r4 & _ & H).
  apply ctor_bind_Ok in H as (q1 & r5 & _ & H).
  apply ctor_bind_Ok in H as (q2 & r6 & _ & H).
  apply ctor_bind_Ok in H as (dec & r7 & Hdec & H).
  injection H as <- _. simpl in *.
  apply ctor_bind_Ok in Hdec as (d' & r8 & Hx & Hdec). injection Hdec as <- _.
  unfold TransformerDecoder.xavier in Hx.
  apply ctor_bind_Ok in Hx as (ls & r9 & Hm & Hx). injection Hx as <- _.
  apply (mapM_xavier_glu ff) in Hm as [Hall Hlen].
  - exists {| TransformerDecoder.layers := ls; TransformerDecoder.num_layers := M;
              TransformerDecoder.norm := Some (nn_LayerNorm dd);
              TransformerDecoder.return_intermediate := ri |}.
    split; [done|]. split; [done|]. simpl in *. by rewrite Hlen, get_clones_length.
  - simpl. by apply get_clones_Forall.
Qed.

(** X17. A layer that the encoder-layer or the decoder-layer constructor
    returns for the name "glu" and a feed-forward width that is not zero
    cannot complete a forward call, whatever it is given: [glu] halves the
    width [dim_feedforward] that [linear2] reads.  The constructors do
    return such a layer: for a width that is not zero and that the heads
    divide, and a dropout probability in [0, 1], the name is accepted. *)
Theorem layers_built_with_glu_never_return
    (K : TorchKernels) (FS : FeedForwardSpec K)
    (d nhead ff : nat) (dp : Q) (nb : bool) (rng : nat) :
  0 < ff ->
  (forall l rng',
     TransformerEncoderLayer.__init__ d nhead ff dp "glu" nb rng = Ok (l, rng') ->
     forall (src : Tensor scalar) src_mask kpm pos,
       exists e, TransformerEncoderLayer.forward l src src_mask kpm pos = Err e) /\
  (forall l rng',
     TransformerDecoderLayer.__init__ d nhead ff dp "glu" nb rng = Ok (l, rng') ->
     forall (tgt memory : Tensor scalar) tm mm tk mk pos qpos,
       exists e, TransformerDecoderLayer.forward l tgt memory tm mm tk mk pos qpos = Err e) /\
  (0 < d -> 0 < nhead -> d mod nhead = 0 -> (0 <= dp <= 1)%Q ->
     (exists l rng',
        TransformerEncoderLayer.__init__ d nhead ff dp "glu" nb rng = Ok (l, rng')) /\
     (exists l rng',
        TransformerDecoderLayer.__init__ d nhead ff dp "glu" nb rng = Ok (l, rng'))).
Proof.
  intros Hff. split; [|split].
  - intros l rng' Hl src src_mask kpm pos.
    match goal with |- exists e, ?c = Err e => destruct c as [out|e] eqn:E; [exfalso | eauto] end.
    eapply (encoder_layer_glu_fails _ ff); [|exact Hff | exact E].
    by eapply encoder_layer_init_glu.
  - intros l rng' Hl tgt memory tm mm tk mk pos qpos.
    match goal with |- exists e, ?c = Err e => destruct c as [out|e] eqn:E; [exfalso | eauto] end.
    eapply (decoder_layer_glu_fails _ ff); [|exact Hff | exact E].
    by eapply decoder_layer_init_glu.
  - intros _ Hh Hm Hdp. split.
    + destruct (encoder_layer_init_run d nhead ff dp "glu" nb rng F_glu Hh Hm Hdp eq_refl)
        as [l Hl]. eauto.
    + destruct (decoder_layer_init_run d nhead ff dp "glu" nb rng F_glu Hh Hm Hdp eq_refl)
        as [l Hl]. eauto.
Qed.

Lemma layers_built_with_glu_never_return_witness :
  exists l rng',
    TransformerEncoderLayer.__init__ 8 2 16 (1 # 10) "glu" false 0 = Ok (l, rng') /\
    exists e, TransformerEncoderLayer.forward l (Toy.iota [6; 2; 8]) None
                (Some (Toy.falses [2; 6])) (Some (Toy.iota [6; 2; 8])) = Err e.
Proof.
  destruct (layers_built_with_glu_never_return Toy.kernels toy_feed_forward
              8 2 16 (1 # 10) false 0) as (Henc & _ & Hbuilt); [lia|].
  destruct Hbuilt as [(l & rng' & Hl) _]; [lia | lia | reflexivity | |].
  { split; discriminate. }
  exists l, rng'. split; [exact Hl | by apply (Henc l rng')].
Defined.

(** X18. A model built with the activation "glu", at least one decoder layer
    and a feed-forward width that is not zero completes no forward call. *)
Theorem model_built_with_glu_never_returns
    (K : TorchKernels) (FS : FeedForwardSpec K)
    (a : Args) (de dd nhead Ne M ff : nat) (dp : Q)
    (nb ri ppq share : bool) (rng : nat) (m : MTTransformer.t) (rng' : nat)
    (img_src : option (Tensor scalar)) (img_mask : option (Tensor bool))
    (img_pos text_src : option (Tensor scalar)) (text_mask : option (Tensor Z))
    (text_pos query_embed : option (Tensor scalar)) (task dataset : string)
    (task_idx : option Z) :
  MTTransformer.__init__ a de dd nhead Ne M ff dp "glu" nb ri ppq share rng
    = Ok (m, rng') ->
  0 < ff -> 1 <= M ->
  exists e, MTTransformer.forward m img_src img_mask img_pos text_src text_mask text_pos
              query_embed task dataset task_idx = Err e.
Proof.
  intros Hinit Hff HM.
  destruct (MTTransformer.forward m img_src img_mask img_pos text_src text_mask text_pos
              query_embed task dataset task_idx) as [[hs mem]|e] eqn:H; [exfalso | eauto].
  apply forward_inv in H as (c & t & hs0 & hs1 & Hc & _ & Hcall & _).
  apply decoder_inputs_inv in Hc as (l0 & l1 & _ & _ & Hl & _).
  destruct (mt_init_inv _ _ _ _ _ _ _ _ _ _ _ _ _ _ _ _ Hinit)
    as (tr & r1 & sd & r2 & r3 & Htr & Hfill & _).
  apply (transformer_init_glu _ _ _ _ _ _ ff) in Htr as (dec0 & Hdec0 & Hall0 & Hlen0).
  apply (fill_decoders_spec dd nhead M ff dp "glu" nb ri share
           (fun d => exists dec, d = Some dec /\
              Forall (dec_layer_glu ff) (TransformerDecoder.layers dec) /\
              length (TransformerDecoder.layers dec) = M)) in Hfill as (_ & Hall & _).
  - apply lookup_decoder_entry in Hl. apply Hall in Hl as (dec & Hd & Hg & Hlen).
    rewrite Hd in Hcall. unfold call_decoder in Hcall.
    eapply (decoder_glu_fails dec ff); [exact Hg | | exact Hff | exact Hcall].
    intros E. rewrite E in Hlen. simpl in Hlen. lia.
  - intros _ r d0 r' Hb. unfold MTTransformer.build_decoder_layer in Hb.
    apply ctor_bind_Ok in Hb as (layer & r0 & Hlayer & Hb). injection Hb as <- _.
    apply decoder_layer_init_glu in Hlayer.
    eexists. split; [reflexivity|]. simpl.
    split; [by apply get_clones_Forall | apply get_clones_length].
  - intros _. rewrite Hdec0. eauto.
  - intros tk ds d0. unfold entry_at. by rewrite lookup_empty.
Qed.

Lemma model_built_with_glu_never_returns_witness :
  exists e, MTTransformer.forward Sample.model_glu (Some Toy.img_src) (Some Toy.img_mask)
              (Some Toy.img_pos) None None None (Some Toy.query_embed) "detection" "coco"
              (Some 5%Z) = Err e.
Proof.
  apply (model_built_with_glu_never_returns Toy.kernels toy_feed_forward Toy.args_single
           8 8 2 2 2 16 (1 # 10) false true true true 0 Sample.model_glu
           (Toy.rng_after Sample.build_glu)).
  - vm_compute; reflexivity.
  - lia.
  - lia.
Defined.

(* ===================================================================== *)
(** ** Streams that do not fit together *)
(* ===================================================================== *)

Lemma cat0_mismatch {A} (t1 t2 : Tensor A) a b c a' b' c' :
  shape t1 = [a; b; c] -> shape t2 = [a'; b'; c'] -> b <> b' \/ c <> c' ->
  cat [t1; t2] 0 = Err (TorchError "cat").
Proof.
  destruct t1 as [s1 f1], t2 as [s2 f2]. simpl. intros -> -> H.
  unfold cat. cbn. unfold cat2. cbn.
  destruct (Nat.eqb_spec b b') as [->|Hb]; cbn; [|done].
  destruct (Nat.eqb_spec c c') as [->|Hc]; cbn; [|done].
  destruct H; done.
Qed.

(** X19. The text stream is concatenated to the image memory as it is: on a
    call with both streams, a text batch of another size than the image
    batch, or text features of another width than the decoder's, make
    [torch.cat] raise. *)
Theorem text_stream_must_fit_the_image_memory
    (K : TorchKernels) (KS : KernelSpec K)
    (a : Args) (de dd nhead Ne M ff : nat) (dp : Q) (activation : string)
    (nb ri share : bool) (rng : nat) (m : MTTransformer.t) (rng' : nat)
    (img_src : Tensor scalar) (img_mask : Tensor bool)
    (img_pos text_src : Tensor scalar) (text_mask : option (Tensor Z))
    (text_pos q : Tensor scalar) (task dataset : string) (task_idx : option Z)
    (bs h w bs' Lt c Lp cp nq : nat) (d0 : option TransformerDecoder.t) :
  MTTransformer.__init__ a de dd nhead Ne M ff dp activation nb ri true share rng
    = Ok (m, rng') ->
  activation <> "glu" -> 0 < nhead -> de mod nhead = 0 -> dd mod nhead = 0 ->
  MTTransformer.lookup_decoder m task dataset = Ok d0 ->
  image_inputs_ok m de img_src img_mask img_pos task_idx bs h w ->
  shape text_src = [bs'; Lt; c] -> shape text_pos = [Lp; cp] ->
  query_ok m dd q task_idx nq ->
  bs' <> bs \/ c <> dd ->
  MTTransformer.forward m (Some img_src) (Some img_mask) (Some img_pos)
    (Some text_src) text_mask (Some text_pos) (Some q) task dataset task_idx
    = Err (TorchError "cat").
Proof.
  intros Hinit Hact Hh Hme Hmd Hl (Hs & Hmk & Hp & Hi & Hne) Hts Htp [Hq Hqi] Hbad.
  destruct (mt_init_wf _ _ _ _ _ _ _ _ _ _ _ _ _ _ _ _ Hinit Hact Hh Hme Hmd)
    as (Hwf & Ha & Hpass & _).
  destruct (encoder_inputs_with_text m de dd M ri Hwf img_src img_mask img_pos bs h w
              task_idx (MTTransformer.locals0 (Some q)) Hs Hmk Hp Hi Hne)
    as (e & ps & He & Hes & Hem & Hep & Hps & Hed & Het & Heq).
  destruct (image_branch_ok m de dd M ri Hwf _ _ _ _ _ _ e img_mask ps bs h w
              He Hes Hem Hep Hps Hed)
    as (lI & memI & peI & mkI & HlI & HmI & HmIs & _ & _ & _ & _ & _ & _ & HqI).
  destruct (text_branch_gen m dd (wf_emb_dec _ _ _ _ _ Hwf) (wf_hs_idx _ _ _ _ _ Hwf)
              text_src text_pos q text_mask lI task_idx bs' Lt c Lp cp nq dd)
    as (ts & tp & q' & Htss & _ & _ & _ & Htb); [done | done | | done..|].
  { by rewrite HqI, Heq. }
  rewrite Hpass in Htb.
  unfold MTTransformer.forward, MTTransformer.decoder_inputs. cbv zeta.
  rewrite HlI, bind_Ok, Htb, bind_Ok, Hl, bind_Ok.
  cbn [MTTransformer.memories]. rewrite HmI. simpl app.
  rewrite (cat0_mismatch memI ts (h * w) bs dd Lt bs' c HmIs Htss); [done|].
  destruct Hbad as [Hb|Hc]; [left | right]; congruence.
Qed.

Lemma text_stream_must_fit_the_image_memory_witness :
  MTTransformer.forward Toy.model_multi (Some Toy.img_src) (Some Toy.img_mask)
    (Some Toy.img_pos) (Some (Toy.iota [3; 4; 8])) (Some Toy.text_mask)
    (Some Toy.text_pos) (Some Toy.query_embed) "vl" "vqa2" (Some 5%Z)
    = Err (TorchError "cat").
Proof.
  apply (text_stream_must_fit_the_image_memory Toy.kernels toy_spec Toy.args_multi
           8 8 2 2 2 16 (1 # 10) "relu" false true true 0 Toy.model_multi 23
           Toy.img_src Toy.img_mask Toy.img_pos (Toy.iota [3; 4; 8]) (Some Toy.text_mask)
           Toy.text_pos Toy.query_embed "vl" "vqa2" (Some 5%Z) 2 2 3 3 4 8 4 8 3
           (MTTransformer.decoder Toy.model_multi)).
  - vm_compute; reflexivity.
  - discriminate.
  - lia.
  - reflexivity.
  - reflexivity.
  - vm_compute; reflexivity.
  - apply toy_image_inputs_ok.
  - reflexivity.
  - reflexivity.
  - apply toy_query_ok.
  - left. lia.
Defined.

(* ===================================================================== *)
(** ** The encoder *)
(* ===================================================================== *)

(** X20. The encoder of a built model returns a tensor of the shape of its
    input, (positions x batch x width), for every number of layers, in the
    pre-norm and in the post-norm arrangement, with or without a positional
    encoding; with no layers and post-norm it returns its input. *)
Theorem encoder_keeps_the_shape_of_its_input
    (K : TorchKernels) (KS : KernelSpec K)
    (a : Args) (de dd nhead Ne M ff : nat) (dp : Q) (activation : string)
    (nb ri ppq share : bool) (rng : nat) (m : MTTransformer.t) (rng' : nat)
    (src : Tensor scalar) (kpm : option (Tensor bool)) (pos : option (Tensor scalar))
    (L B : nat) :
  MTTransformer.__init__ a de dd nhead Ne M ff dp activation nb ri ppq share rng
    = Ok (m, rng') ->
  activation <> "glu" -> 0 < nhead -> de mod nhead = 0 -> dd mod nhead = 0 ->
  shape src = [L; B; de] -> opt_shape kpm [B; L] -> opt_shape pos [L; B; de] ->
  exists out,
    TransformerEncoder.forward (MTTransformer.encoder m) src None kpm pos = Ok out /\
    shape out = [L; B; de] /\
    (Ne = 0 -> nb = false -> out = src).
Proof.
  intros Hinit Hact Hh Hme Hmd Hs Hk Hp.
  destruct (mt_init_wf _ _ _ _ _ _ _ _ _ _ _ _ _ _ _ _ Hinit Hact Hh Hme Hmd)
    as (Hwf & _).
  destruct (encoder_ok (MTTransformer.encoder m) src kpm pos L B de
              (wf_encoder _ _ _ _ _ Hwf) Hs Hk Hp) as (out & Hf & Ho).
  exists out. split; [done|]. split; [done|].
  intros -> ->.
  destruct (mt_init_inv _ _ _ _ _ _ _ _ _ _ _ _ _ _ _ _ Hinit)
    as (tr & r1 & sd & r2 & r3 & Htr & _ & _ & Henc & _).
  rewrite Henc in Hf.
  unfold Transformer.__init__ in Htr.
  apply ctor_bind_Ok in Htr as (el & q1 & _ & Htr).
  apply ctor_bind_Ok in Htr as ([p1 p2] & q2 & _ & Htr).
  apply ctor_bind_Ok in Htr as (dl & q3 & _ & Htr).
  unfold Transformer._reset_parameters in Htr.
  apply ctor_bind_Ok in Htr as (e' & q4 & He' & Htr).
  apply ctor_bind_Ok in Htr as (x1 & q5 & _ & Htr).
  apply ctor_bind_Ok in Htr as (x2 & q6 & _ & Htr).
  apply ctor_bind_Ok in Htr as (x3 & q7 & _ & Htr).
  injection Htr as <- _. simpl in Hf, He'.
  injection He' as <- _. simpl in Hf. by injection Hf.
Qed.

Lemma encoder_keeps_the_shape_of_its_input_witness :
  exists out,
    TransformerEncoder.forward (MTTransformer.encoder Toy.model_multi) (Toy.iota [7; 2; 8])
      None (Some (Toy.falses [2; 7])) None = Ok out /\
    shape out = [7; 2; 8].
Proof.
  destruct (encoder_keeps_the_shape_of_its_input Toy.kernels toy_spec Toy.args_multi
              8 8 2 2 2 16 (1 # 10) "relu" false true true true 0 Toy.model_multi 23
              (Toy.iota [7; 2; 8]) (Some (Toy.falses [2; 7])) None 7 2)
    as (out & Hf & Hs & _).
  - vm_compute; reflexivity.
  - discriminate.
  - lia.
  - reflexivity.
  - reflexivity.
  - reflexivity.
  - intros t [= <-]. reflexivity.
  - intros t [=].
  - exists out. split; [exact Hf | exact Hs].
Defined.
